(** * Japanese verb conjugator: classification and conjugation engine

    Shallow embedding of the conjugation engine of kana-dojo
    (features/Conjugator): the classification tables (data/verbData),
    the form catalogue (data/conjugationForms), the classifier
    (lib/engine/classifyVerb), the three form generators
    (conjugateGodan, conjugateIchidan, conjugateIrregular), the facade
    (lib/engine/conjugate) and the serialisation helpers of types.ts.

    JavaScript strings are sequences of UTF-16 code units; they are
    modelled as [list N].  Thrown [Error]s are modelled by the left
    injection of a sum carrying the message. *)

From Stdlib Require Import List NArith ZArith Bool Lia String Ascii.
Import ListNotations.
From Stdlib Require DecimalFacts DecimalPos.

(* ===================================================================== *)
(** ** JavaScript strings *)
(* ===================================================================== *)

(** A JavaScript string: a list of UTF-16 code units. *)
Definition jsstring := list N.

Module JS.

(** Source literals are written in UTF-8; [utf8] decodes the bytes of a
    literal to Unicode scalar values, [units] encodes one scalar value
    as one or two UTF-16 code units. *)
Fixpoint bytes (s : string) : list N :=
  match s with
  | EmptyString => []
  | String a r => N_of_ascii a :: bytes r
  end.

Definition cont (b : N) : N := N.land b 63.

Fixpoint utf8 (bs : list N) : list N :=
  match bs with
  | [] => []
  | b0 :: r0 =>
    if b0 <? 128 then b0 :: utf8 r0
    else match r0 with
    | [] => [b0]
    | b1 :: r1 =>
      if b0 <? 224 then (N.land b0 31 * 64 + cont b1) :: utf8 r1
      else match r1 with
      | [] => [b0; b1]
      | b2 :: r2 =>
        if b0 <? 240 then (N.land b0 15 * 4096 + cont b1 * 64 + cont b2) :: utf8 r2
        else match r2 with
        | [] => [b0; b1; b2]
        | b3 :: r3 =>
          (N.land b0 7 * 262144 + cont b1 * 4096 + cont b2 * 64 + cont b3) :: utf8 r3
        end
      end
    end
  end%N.

Definition units (cp : N) : list N :=
  if (cp <? 65536)%N then [cp]
  else [55296 + N.shiftr (cp - 65536) 10; 56320 + N.land (cp - 65536) 1023]%N.

(** The JavaScript string denoted by a source literal. *)
Definition lit (s : string) : jsstring := flat_map units (utf8 (bytes s)).

(** [a === b] on strings. *)
Fixpoint eqb (a b : jsstring) : bool :=
  match a, b with
  | [], [] => true
  | x :: a', y :: b' => N.eqb x y && eqb a' b'
  | _, _ => false
  end.

(** [s.length] *)
Definition length (s : jsstring) : Z := Z.of_nat (List.length s).

(** [s.slice(start, end)]; [end_ = None] is the one-argument call. *)
Definition slice (s : jsstring) (start : Z) (end_ : option Z) : jsstring :=
  let len := length s in
  let from := if (start <? 0)%Z then Z.max (len + start) 0 else Z.min start len in
  let to :=
    match end_ with
    | None => len
    | Some e => if (e <? 0)%Z then Z.max (len + e) 0 else Z.min e len
    end in
  firstn (Z.to_nat (Z.max (to - from) 0)) (skipn (Z.to_nat from) s).

(** [s.startsWith(p)] *)
Fixpoint startsWith (s p : jsstring) : bool :=
  match p, s with
  | [], _ => true
  | y :: p', x :: s' => N.eqb x y && startsWith s' p'
  | _ :: _, [] => false
  end.

(** [s.endsWith(suffix)] *)
Definition endsWith (s suffix : jsstring) : bool :=
  let start := (length s - length suffix)%Z in
  if (start <? 0)%Z then false
  else eqb (skipn (Z.to_nat start) s) suffix.

(** [s.includes(p)] *)
Fixpoint includes (s p : jsstring) : bool :=
  startsWith s p ||
  match s with
  | [] => false
  | _ :: s' => includes s' p
  end.

(** [s.replace(pat, by)] with a string pattern: the first occurrence. *)
Fixpoint replace (s pat by_ : jsstring) : jsstring :=
  if startsWith s pat then by_ ++ skipn (List.length pat) s
  else match s with
  | [] => []
  | c :: s' => c :: replace s' pat by_
  end.

(** WhiteSpace and LineTerminator code points of ECMAScript, the
    characters removed by [trim]. *)
Definition isWhiteSpace (c : N) : bool :=
  ((c =? 9) || (c =? 10) || (c =? 11) || (c =? 12) || (c =? 13) || (c =? 32)
   || (c =? 160) || (c =? 5760) || ((8192 <=? c) && (c <=? 8202))
   || (c =? 8232) || (c =? 8233) || (c =? 8239) || (c =? 8287)
   || (c =? 12288) || (c =? 65279))%N.

Fixpoint trimStart (s : jsstring) : jsstring :=
  match s with
  | [] => []
  | c :: r => if isWhiteSpace c then trimStart r else s
  end.

Definition trimEnd (s : jsstring) : jsstring := rev (trimStart (rev s)).

(** [s.trim()] *)
Definition trim (s : jsstring) : jsstring := trimEnd (trimStart s).

(** [s.charCodeAt(0)]; [None] stands for NaN (empty string). *)
Definition charCodeAt0 (s : jsstring) : option N := hd_error s.

Definition isHighSurrogate (c : N) : bool := ((55296 <=? c) && (c <=? 56319))%N.
Definition isLowSurrogate (c : N) : bool := ((56320 <=? c) && (c <=? 57343))%N.

(** The strings visited by [for (const char of s)]: one per code point,
    a surrogate pair being visited as one two-unit string. *)
Fixpoint chars (s : jsstring) : list jsstring :=
  match s with
  | [] => []
  | c :: r =>
    match r with
    | d :: r' =>
      if isHighSurrogate c && isLowSurrogate d then [c; d] :: chars r'
      else [c] :: chars r
    | [] => [[c]]
    end
  end.

(** [arr.includes(x)] on an array of strings. *)
Definition arrayIncludes (arr : list jsstring) (x : jsstring) : bool :=
  existsb (eqb x) arr.

(** Own-property lookup in an object literal with string keys. *)
Fixpoint lookup {V : Type} (obj : list (jsstring * V)) (k : jsstring) : option V :=
  match obj with
  | [] => None
  | (k', v) :: r => if eqb k' k then Some v else lookup r k
  end.

(** [Object.keys(obj)] *)
Definition keys {V : Type} (obj : list (jsstring * V)) : list jsstring :=
  map fst obj.

End JS.

(** [J "..."] is the JavaScript string written ["..."] in the source. *)
Definition J (s : string) : jsstring := JS.lit s.
Arguments J s%_string.

(* ===================================================================== *)
(** ** Thrown errors *)
(* ===================================================================== *)

(** A computation that may [throw new Error(message)]: [inl message] is
    the thrown error, [inr x] the returned value. *)
Definition throws (A : Type) : Type := (jsstring + A)%type.

Definition ret {A : Type} (x : A) : throws A := inr x.
Definition throw {A : Type} (message : jsstring) : throws A := inl message.

Definition bind {A B : Type} (c : throws A) (k : A -> throws B) : throws B :=
  match c with
  | inl message => inl message
  | inr x => k x
  end.

Notation "x <- c ;; k" := (bind c (fun x => k))
  (at level 61, c at next level, right associativity).

(* ===================================================================== *)
(** ** Core types (types.ts) *)
(* ===================================================================== *)

Inductive VerbType := godan | ichidan | irregular.

Inductive IrregularType := suru | kuru | aru | iku | honorific.

Inductive ConjugationCategory :=
  | basic | polite | negative | past | volitional | potential | passive
  | causative | causative_passive | imperative | conditional | tai_form
  | progressive | honorific_cat.

Inductive Formality := plain | polite_f.

Module VerbInfo.
Record t := mk {
  dictionaryForm : jsstring;
  reading : jsstring;
  romaji : jsstring;
  type : VerbType;
  stem : jsstring;
  ending : jsstring;
  irregularType : option IrregularType;
  compoundPrefix : option jsstring
}.
End VerbInfo.

Module ConjugationForm.
Record t := mk {
  id : jsstring;
  name : jsstring;
  nameJapanese : jsstring;
  kanji : jsstring;
  hiragana : jsstring;
  romaji : jsstring;
  formality : Formality;
  category : ConjugationCategory
}.
End ConjugationForm.

Module ConjugationResult.
Record t := mk {
  verb : VerbInfo.t;
  forms : list ConjugationForm.t;
  timestamp : Z
}.
End ConjugationResult.

Module FormDefinition.
Record t := mk {
  id : jsstring;
  category : ConjugationCategory;
  name : jsstring;
  nameJa : jsstring;
  formality : Formality
}.
End FormDefinition.

Module GodanConjugationMap.
Record t := mk {
  a : jsstring;
  i : jsstring;
  e : jsstring;
  o : jsstring;
  te : jsstring;
  ta : jsstring
}.
End GodanConjugationMap.

Inductive ConjugationErrorCode :=
  | EMPTY_INPUT | INVALID_CHARACTERS | UNKNOWN_VERB | AMBIGUOUS_VERB
  | CONJUGATION_FAILED.

Module ConjugationError.
Record t := mk {
  code : ConjugationErrorCode;
  message : jsstring
}.
End ConjugationError.

Definition ALL_CONJUGATION_CATEGORIES : list ConjugationCategory :=
  [basic; polite; negative; past; volitional; potential; passive; causative;
   causative_passive; imperative; conditional; tai_form; progressive;
   honorific_cat].

(* ===================================================================== *)
(** ** Classification data (data/verbData.ts) *)
(* ===================================================================== *)

Definition IRREGULAR_VERBS : list (jsstring * IrregularType) :=
  [ (J "する", suru);
    (J "来る", kuru);
    (J "くる", kuru);
    (J "ある", aru);
    (J "行く", iku);
    (J "いく", iku);
    (J "くださる", honorific);
    (J "なさる", honorific);
    (J "いらっしゃる", honorific);
    (J "おっしゃる", honorific);
    (J "ござる", honorific) ].

Definition SURU_COMPOUND_SUFFIXES : list jsstring := [J "する"].

Definition KURU_COMPOUND_SUFFIXES : list jsstring := [J "くる"; J "来る"].

Definition godanRow (a i e o te ta : string) : GodanConjugationMap.t :=
  GodanConjugationMap.mk (J a) (J i) (J e) (J o) (J te) (J ta).

Definition GODAN_ENDINGS : list (jsstring * GodanConjugationMap.t) :=
  [ (J "う", godanRow "わ" "い" "え" "お" "って" "った");
    (J "く", godanRow "か" "き" "け" "こ" "いて" "いた");
    (J "ぐ", godanRow "が" "ぎ" "げ" "ご" "いで" "いだ");
    (J "す", godanRow "さ" "し" "せ" "そ" "して" "した");
    (J "つ", godanRow "た" "ち" "て" "と" "って" "った");
    (J "ぬ", godanRow "な" "に" "ね" "の" "んで" "んだ");
    (J "ぶ", godanRow "ば" "び" "べ" "ぼ" "んで" "んだ");
    (J "む", godanRow "ま" "み" "め" "も" "んで" "んだ");
    (J "る", godanRow "ら" "り" "れ" "ろ" "って" "った") ].

Definition GODAN_ENDING_CHARS : list jsstring := JS.keys GODAN_ENDINGS.

Definition ICHIDAN_PRECEDING_CHARS : list jsstring :=
  map J
  [ "い"; "き"; "し"; "ち"; "に"; "ひ"; "み"; "り"; "ぎ"; "じ"; "ぢ"; "び"; "ぴ";
    "え"; "け"; "せ"; "て"; "ね"; "へ"; "め"; "れ"; "げ"; "ぜ"; "で"; "べ"; "ぺ" ]%string.

Definition FALSE_ICHIDAN_VERBS : list jsstring :=
  map J
  [ "要る"; "いる"; "入る"; "はいる"; "走る"; "はしる"; "知る"; "しる";
    "切る"; "きる"; "帰る"; "かえる"; "限る"; "かぎる"; "握る"; "にぎる";
    "参る"; "まいる"; "散る"; "ちる"; "混じる"; "まじる"; "嘲る"; "滑る";
    "すべる"; "蹴る"; "ける"; "照る"; "てる"; "練る"; "ねる"; "減る"; "へる";
    "焦る"; "あせる"; "喋る"; "しゃべる" ]%string.

Definition KNOWN_ICHIDAN_VERBS : list jsstring :=
  map J
  [ "見る"; "みる"; "着る"; "起きる"; "おきる"; "降りる"; "おりる"; "借りる";
    "かりる"; "居る"; "信じる"; "しんじる"; "感じる"; "かんじる"; "落ちる";
    "おちる"; "過ぎる"; "すぎる"; "生きる"; "いきる"; "浴びる"; "あびる";
    "食べる"; "たべる"; "寝る"; "出る"; "でる"; "開ける"; "あける"; "閉める";
    "しめる"; "教える"; "おしえる"; "覚える"; "おぼえる"; "答える"; "こたえる";
    "考える"; "かんがえる"; "変える"; "始める"; "はじめる"; "止める"; "とめる";
    "集める"; "あつめる"; "調べる"; "しらべる"; "比べる"; "くらべる" ]%string.

Definition romajiTable (l : list (string * string)) : list (jsstring * jsstring) :=
  map (fun p => (J (fst p), J (snd p))) l.

Definition HIRAGANA_TO_ROMAJI : list (jsstring * jsstring) :=
  romajiTable
  [ ("あ", "a"); ("い", "i"); ("う", "u"); ("え", "e"); ("お", "o");
    ("か", "ka"); ("き", "ki"); ("く", "ku"); ("け", "ke"); ("こ", "ko");
    ("さ", "sa"); ("し", "shi"); ("す", "su"); ("せ", "se"); ("そ", "so");
    ("た", "ta"); ("ち", "chi"); ("つ", "tsu"); ("て", "te"); ("と", "to");
    ("な", "na"); ("に", "ni"); ("ぬ", "nu"); ("ね", "ne"); ("の", "no");
    ("は", "ha"); ("ひ", "hi"); ("ふ", "fu"); ("へ", "he"); ("ほ", "ho");
    ("ま", "ma"); ("み", "mi"); ("む", "mu"); ("め", "me"); ("も", "mo");
    ("や", "ya"); ("ゆ", "yu"); ("よ", "yo");
    ("ら", "ra"); ("り", "ri"); ("る", "ru"); ("れ", "re"); ("ろ", "ro");
    ("わ", "wa"); ("を", "wo");
    ("ん", "n");
    ("が", "ga"); ("ぎ", "gi"); ("ぐ", "gu"); ("げ", "ge"); ("ご", "go");
    ("ざ", "za"); ("じ", "ji"); ("ず", "zu"); ("ぜ", "ze"); ("ぞ", "zo");
    ("だ", "da"); ("ぢ", "ji"); ("づ", "zu"); ("で", "de"); ("ど", "do");
    ("ば", "ba"); ("び", "bi"); ("ぶ", "bu"); ("べ", "be"); ("ぼ", "bo");
    ("ぱ", "pa"); ("ぴ", "pi"); ("ぷ", "pu"); ("ぺ", "pe"); ("ぽ", "po");
    ("ゃ", "ya"); ("ゅ", "yu"); ("ょ", "yo");
    ("っ", EmptyString);
    ("ぁ", "a"); ("ぃ", "i"); ("ぅ", "u"); ("ぇ", "e"); ("ぉ", "o") ]%string.

Definition HIRAGANA_COMBINATIONS : list (jsstring * jsstring) :=
  romajiTable
  [ ("きゃ", "kya"); ("きゅ", "kyu"); ("きょ", "kyo");
    ("しゃ", "sha"); ("しゅ", "shu"); ("しょ", "sho");
    ("ちゃ", "cha"); ("ちゅ", "chu"); ("ちょ", "cho");
    ("にゃ", "nya"); ("にゅ", "nyu"); ("にょ", "nyo");
    ("ひゃ", "hya"); ("ひゅ", "hyu"); ("ひょ", "hyo");
    ("みゃ", "mya"); ("みゅ", "myu"); ("みょ", "myo");
    ("りゃ", "rya"); ("りゅ", "ryu"); ("りょ", "ryo");
    ("ぎゃ", "gya"); ("ぎゅ", "gyu"); ("ぎょ", "gyo");
    ("じゃ", "ja"); ("じゅ", "ju"); ("じょ", "jo");
    ("びゃ", "bya"); ("びゅ", "byu"); ("びょ", "byo");
    ("ぴゃ", "pya"); ("ぴゅ", "pyu"); ("ぴょ", "pyo") ]%string.

(* ===================================================================== *)
(** ** Form catalogue (data/conjugationForms.ts) *)
(* ===================================================================== *)

Definition formDef (id : string) (category : ConjugationCategory)
    (name nameJa : string) (formality : Formality) : FormDefinition.t :=
  FormDefinition.mk (J id) category (J name) (J nameJa) formality.

Definition CONJUGATION_FORMS : list FormDefinition.t :=
  [ formDef "dictionary" basic "Dictionary Form" "辞書形" plain;
    formDef "te" basic "Te Form" "て形" plain;
    formDef "masu" polite "Masu Form" "ます形" polite_f;
    formDef "masen" polite "Masen (Polite Negative)" "ません" polite_f;
    formDef "mashita" polite "Mashita (Polite Past)" "ました" polite_f;
    formDef "masen-deshita" polite "Masen Deshita (Polite Past Negative)"
      "ませんでした" polite_f;
    formDef "nai" negative "Nai Form (Negative)" "ない形" plain;
    formDef "nakatta" negative "Nakatta Form (Past Negative)" "なかった形" plain;
    formDef "ta" past "Ta Form (Past)" "た形" plain;
    formDef "volitional-plain" volitional "Volitional (Plain)" "意向形" plain;
    formDef "volitional-polite" volitional "Volitional (Polite)" "ましょう" polite_f;
    formDef "potential-plain" potential "Potential (Plain)" "可能形" plain;
    formDef "potential-polite" potential "Potential (Polite)" "可能形丁寧" polite_f;
    formDef "potential-negative" potential "Potential (Negative)" "可能形否定" plain;
    formDef "passive-plain" passive "Passive (Plain)" "受身形" plain;
    formDef "passive-polite" passive "Passive (Polite)" "受身形丁寧" polite_f;
    formDef "causative-plain" causative "Causative (Plain)" "使役形" plain;
    formDef "causative-polite" causative "Causative (Polite)" "使役形丁寧" polite_f;
    formDef "causative-passive-plain" causative_passive
      "Causative-Passive (Plain)" "使役受身形" plain;
    formDef "causative-passive-polite" causative_passive
      "Causative-Passive (Polite)" "使役受身形丁寧" polite_f;
    formDef "imperative-plain" imperative "Imperative (Plain)" "命令形" plain;
    formDef "imperative-polite" imperative "Imperative (Polite)" "てください" polite_f;
    formDef "imperative-negative" imperative "Negative Imperative" "禁止形" plain;
    formDef "conditional-ba" conditional "Ba Form (Conditional)" "ば形" plain;
    formDef "conditional-tara" conditional "Tara Form (Conditional)" "たら形" plain;
    formDef "conditional-nara" conditional "Nara Form (Conditional)" "なら形" plain;
    formDef "tai" tai_form "Tai Form (Want to)" "たい形" plain;
    formDef "takunai" tai_form "Takunai (Don't want to)" "たくない" plain;
    formDef "takatta" tai_form "Takatta (Wanted to)" "たかった" plain;
    formDef "takunakatta" tai_form "Takunakatta (Didn't want to)" "たくなかった" plain;
    formDef "progressive-present" progressive "Te-iru (Continuous)" "ている" plain;
    formDef "progressive-past" progressive "Te-ita (Past Continuous)" "ていた" plain;
    formDef "honorific-respectful" honorific_cat "Respectful (O-verb-ni-naru)"
      "お〜になる" polite_f;
    formDef "honorific-humble" honorific_cat "Humble (O-verb-suru)" "お〜する" polite_f ].

(* ===================================================================== *)
(** ** Classifier (lib/engine/classifyVerb.ts) *)
(* ===================================================================== *)

(** [hiraganaToRomaji]: the [while (i < hiragana.length)] loop, as a
    recursion on the part of the string that remains from index [i] on;
    the result is built front to back.  [obj[k]] of a table whose values
    are strings is truthy when the key is present with a non-empty value. *)
Fixpoint hiraganaToRomaji (hiragana : jsstring) : jsstring :=
  match hiragana with
  | [] => []
  | c :: rest =>
    let single :=
      match JS.lookup HIRAGANA_TO_ROMAJI [c] with
      | Some romaji => romaji
      | None => [c]
      end in
    match rest with
    | [] => single ++ hiraganaToRomaji rest
    | nextChar :: rest' =>
      if JS.eqb [c] (J "っ") then
        let fromNext :=
          match JS.lookup HIRAGANA_TO_ROMAJI [nextChar] with
          | Some (r0 :: _) => [r0]
          | _ => []
          end in
        match rest' with
        | d :: _ =>
          match JS.lookup HIRAGANA_COMBINATIONS [nextChar; d] with
          | Some (r0 :: _) => [r0] ++ hiraganaToRomaji rest
          | _ => fromNext ++ hiraganaToRomaji rest
          end
        | [] => fromNext ++ hiraganaToRomaji rest
        end
      else
        match JS.lookup HIRAGANA_COMBINATIONS [c; nextChar] with
        | Some (r0 :: r) => (r0 :: r) ++ hiraganaToRomaji rest'
        | _ => single ++ hiraganaToRomaji rest
        end
    end
  end.

Definition inRange (lo hi : N) (char : jsstring) : bool :=
  match JS.charCodeAt0 char with
  | Some code => ((lo <=? code) && (code <=? hi))%N
  | None => false
  end.

Definition isHiragana (char : jsstring) : bool := inRange 12352 12447 char.

Definition isKatakana (char : jsstring) : bool := inRange 12448 12543 char.

Definition isKanji (char : jsstring) : bool :=
  inRange 19968 40879 char || inRange 13312 19903 char.

Definition isJapanese (str : jsstring) : bool :=
  forallb (fun char => isHiragana char || isKatakana char || isKanji char)
          (JS.chars str)
  && (0 <? JS.length str)%Z.

Definition getLastChar (str : jsstring) : jsstring := JS.slice str (-1) None.

Definition getStem (str : jsstring) : jsstring := JS.slice str 0 (Some (-1)%Z).

(** The [for (const suffix of ...)] loop of [detectSuruCompound] and
    [detectKuruCompound]; [None] is [null]. *)
Fixpoint detectCompound (suffixes : list jsstring) (verb : jsstring)
  : option jsstring :=
  match suffixes with
  | [] => None
  | suffix :: more =>
    if JS.endsWith verb suffix && (JS.length suffix <? JS.length verb)%Z
    then Some (JS.slice verb 0 (Some (- JS.length suffix)%Z))
    else detectCompound more verb
  end.

Definition detectSuruCompound (verb : jsstring) : option jsstring :=
  detectCompound SURU_COMPOUND_SUFFIXES verb.

Definition detectKuruCompound (verb : jsstring) : option jsstring :=
  detectCompound KURU_COMPOUND_SUFFIXES verb.

Definition getIrregularType (verb : jsstring) : option IrregularType :=
  JS.lookup IRREGULAR_VERBS verb.

Definition looksLikeIchidan (verb : jsstring) : bool :=
  if (JS.length verb <? 2)%Z then false
  else
    let lastChar := getLastChar verb in
    if negb (JS.eqb lastChar (J "る")) then false
    else
      let secondLastChar := JS.slice verb (-2) (Some (-1)%Z) in
      if isHiragana secondLastChar
      then JS.arrayIncludes ICHIDAN_PRECEDING_CHARS secondLastChar
      else if JS.arrayIncludes KNOWN_ICHIDAN_VERBS verb then true
      else if JS.arrayIncludes FALSE_ICHIDAN_VERBS verb then false
      else false.

Definition isActuallyIchidan (verb : jsstring) : bool :=
  if JS.arrayIncludes FALSE_ICHIDAN_VERBS verb then false
  else if JS.arrayIncludes KNOWN_ICHIDAN_VERBS verb then true
  else true.

Definition isGodanVerb (verb : jsstring) : bool :=
  let lastChar := getLastChar verb in
  JS.arrayIncludes GODAN_ENDING_CHARS lastChar.

Definition EMPTY_INPUT_message : jsstring :=
  J "EMPTY_INPUT: Please enter a Japanese verb".

Definition INVALID_CHARACTERS_message : jsstring :=
  J "INVALID_CHARACTERS: Please enter a valid Japanese verb using hiragana, katakana, or kanji".

Definition UNKNOWN_VERB_message : jsstring :=
  J "UNKNOWN_VERB: This verb is not recognized. Please check the spelling or try the dictionary form".

(** [!input]: the empty string is the only falsy string. *)
Definition falsy (input : jsstring) : bool :=
  match input with [] => true | _ => false end.

Definition classifyVerb (input : jsstring) : throws VerbInfo.t :=
  if falsy input || (JS.length (JS.trim input) =? 0)%Z then
    throw EMPTY_INPUT_message
  else
    let verb := JS.trim input in
    if negb (isJapanese verb) then throw INVALID_CHARACTERS_message
    else
      match detectSuruCompound verb with
      | Some suruPrefix =>
        let suruPart := JS.slice verb (JS.length suruPrefix) None in
        ret {| VerbInfo.dictionaryForm := verb;
               VerbInfo.reading := verb;
               VerbInfo.romaji := hiraganaToRomaji verb;
               VerbInfo.type := irregular;
               VerbInfo.stem := suruPrefix;
               VerbInfo.ending := suruPart;
               VerbInfo.irregularType := Some suru;
               VerbInfo.compoundPrefix := Some suruPrefix |}
      | None =>
        match detectKuruCompound verb with
        | Some kuruPrefix =>
          let kuruPart := JS.slice verb (JS.length kuruPrefix) None in
          ret {| VerbInfo.dictionaryForm := verb;
                 VerbInfo.reading := verb;
                 VerbInfo.romaji := hiraganaToRomaji verb;
                 VerbInfo.type := irregular;
                 VerbInfo.stem := kuruPrefix;
                 VerbInfo.ending := kuruPart;
                 VerbInfo.irregularType := Some kuru;
                 VerbInfo.compoundPrefix := Some kuruPrefix |}
        | None =>
          match getIrregularType verb with
          | Some irregularType =>
            ret {| VerbInfo.dictionaryForm := verb;
                   VerbInfo.reading := verb;
                   VerbInfo.romaji := hiraganaToRomaji verb;
                   VerbInfo.type := irregular;
                   VerbInfo.stem := getStem verb;
                   VerbInfo.ending := getLastChar verb;
                   VerbInfo.irregularType := Some irregularType;
                   VerbInfo.compoundPrefix := None |}
          | None =>
            if looksLikeIchidan verb && isActuallyIchidan verb then
              ret {| VerbInfo.dictionaryForm := verb;
                     VerbInfo.reading := verb;
                     VerbInfo.romaji := hiraganaToRomaji verb;
                     VerbInfo.type := ichidan;
                     VerbInfo.stem := getStem verb;
                     VerbInfo.ending := J "る";
                     VerbInfo.irregularType := None;
                     VerbInfo.compoundPrefix := None |}
            else if isGodanVerb verb then
              ret {| VerbInfo.dictionaryForm := verb;
                     VerbInfo.reading := verb;
                     VerbInfo.romaji := hiraganaToRomaji verb;
                     VerbInfo.type := godan;
                     VerbInfo.stem := getStem verb;
                     VerbInfo.ending := getLastChar verb;
                     VerbInfo.irregularType := None;
                     VerbInfo.compoundPrefix := None |}
            else throw UNKNOWN_VERB_message
          end
        end
      end.

Definition getGodanMap (ending : jsstring) : option GodanConjugationMap.t :=
  JS.lookup GODAN_ENDINGS ending.

(* ===================================================================== *)
(** ** Form generators *)
(* ===================================================================== *)

(** [createForm(id, hiragana, kanji = hiragana)], the same helper in the
    three generator modules.  [kanji = None] is the call that leaves the
    third argument out. *)
Definition createForm (id hiragana : jsstring) (kanji : option jsstring)
  : throws ConjugationForm.t :=
  match find (fun f => JS.eqb (FormDefinition.id f) id) CONJUGATION_FORMS with
  | None => throw (J "Unknown form ID: " ++ id)
  | Some formDef =>
    ret {| ConjugationForm.id := id;
           ConjugationForm.name := FormDefinition.name formDef;
           ConjugationForm.nameJapanese := FormDefinition.nameJa formDef;
           ConjugationForm.kanji :=
             match kanji with Some k => k | None => hiragana end;
           ConjugationForm.hiragana := hiragana;
           ConjugationForm.romaji := hiraganaToRomaji hiragana;
           ConjugationForm.formality := FormDefinition.formality formDef;
           ConjugationForm.category := FormDefinition.category formDef |}
  end.

(** [forms.push(createForm(...))] *)
Definition push (forms : list ConjugationForm.t) (c : throws ConjugationForm.t)
  : throws (list ConjugationForm.t) :=
  f <- c ;; ret (forms ++ [f]).

(** [verb.compoundPrefix || ''] *)
Definition prefixOrEmpty (verb : VerbInfo.t) : jsstring :=
  match VerbInfo.compoundPrefix verb with
  | Some (c :: p) => c :: p
  | _ => []
  end.

(** *** Irregular verbs (lib/engine/conjugateIrregular.ts) *)

(** する *)
Definition conjugateSuru (verb : VerbInfo.t) : throws (list ConjugationForm.t) :=
  let forms := [] in
  let prefix := prefixOrEmpty verb in
  forms <- push forms (createForm (J "dictionary") (prefix ++ J "する") None) ;;
  forms <- push forms (createForm (J "te") (prefix ++ J "して") None) ;;
  forms <- push forms (createForm (J "masu") (prefix ++ J "します") None) ;;
  forms <- push forms (createForm (J "masen") (prefix ++ J "しません") None) ;;
  forms <- push forms (createForm (J "mashita") (prefix ++ J "しました") None) ;;
  forms <- push forms (createForm (J "masen-deshita") (prefix ++ J "しませんでした") None) ;;
  forms <- push forms (createForm (J "nai") (prefix ++ J "しない") None) ;;
  forms <- push forms (createForm (J "nakatta") (prefix ++ J "しなかった") None) ;;
  forms <- push forms (createForm (J "ta") (prefix ++ J "した") None) ;;
  forms <- push forms (createForm (J "volitional-plain") (prefix ++ J "しよう") None) ;;
  forms <- push forms (createForm (J "volitional-polite") (prefix ++ J "しましょう") None) ;;
  forms <- push forms (createForm (J "potential-plain") (prefix ++ J "できる") None) ;;
  forms <- push forms (createForm (J "potential-polite") (prefix ++ J "できます") None) ;;
  forms <- push forms (createForm (J "potential-negative") (prefix ++ J "できない") None) ;;
  forms <- push forms (createForm (J "passive-plain") (prefix ++ J "される") None) ;;
  forms <- push forms (createForm (J "passive-polite") (prefix ++ J "されます") None) ;;
  forms <- push forms (createForm (J "causative-plain") (prefix ++ J "させる") None) ;;
  forms <- push forms (createForm (J "causative-polite") (prefix ++ J "させます") None) ;;
  forms <- push forms (createForm (J "causative-passive-plain") (prefix ++ J "させられる") None) ;;
  forms <- push forms (createForm (J "causative-passive-polite") (prefix ++ J "させられます") None) ;;
  forms <- push forms (createForm (J "imperative-plain") (prefix ++ J "しろ") None) ;;
  forms <- push forms (createForm (J "imperative-polite") (prefix ++ J "してください") None) ;;
  forms <- push forms (createForm (J "imperative-negative") (prefix ++ J "するな") None) ;;
  forms <- push forms (createForm (J "conditional-ba") (prefix ++ J "すれば") None) ;;
  forms <- push forms (createForm (J "conditional-tara") (prefix ++ J "したら") None) ;;
  forms <- push forms (createForm (J "conditional-nara") (prefix ++ J "するなら") None) ;;
  forms <- push forms (createForm (J "tai") (prefix ++ J "したい") None) ;;
  forms <- push forms (createForm (J "takunai") (prefix ++ J "したくない") None) ;;
  forms <- push forms (createForm (J "takatta") (prefix ++ J "したかった") None) ;;
  forms <- push forms (createForm (J "takunakatta") (prefix ++ J "したくなかった") None) ;;
  forms <- push forms (createForm (J "progressive-present") (prefix ++ J "している") None) ;;
  forms <- push forms (createForm (J "progressive-past") (prefix ++ J "していた") None) ;;
  forms <- push forms (createForm (J "honorific-respectful") (J "お" ++ prefix ++ J "しになる") None) ;;
  forms <- push forms (createForm (J "honorific-humble") (J "お" ++ prefix ++ J "しする") None) ;;
  ret forms.

(** 来る *)
Definition conjugateKuru (verb : VerbInfo.t) : throws (list ConjugationForm.t) :=
  let forms := [] in
  let prefix := prefixOrEmpty verb in
  forms <- push forms (createForm (J "dictionary") (prefix ++ J "くる") (Some (prefix ++ J "来る"))) ;;
  forms <- push forms (createForm (J "te") (prefix ++ J "きて") (Some (prefix ++ J "来て"))) ;;
  forms <- push forms (createForm (J "masu") (prefix ++ J "きます") (Some (prefix ++ J "来ます"))) ;;
  forms <- push forms (createForm (J "masen") (prefix ++ J "きません") (Some (prefix ++ J "来ません"))) ;;
  forms <- push forms (createForm (J "mashita") (prefix ++ J "きました") (Some (prefix ++ J "来ました"))) ;;
  forms <- push forms (createForm (J "masen-deshita") (prefix ++ J "きませんでした") (Some (prefix ++ J "来ませんでした"))) ;;
  forms <- push forms (createForm (J "nai") (prefix ++ J "こない") (Some (prefix ++ J "来ない"))) ;;
  forms <- push forms (createForm (J "nakatta") (prefix ++ J "こなかった") (Some (prefix ++ J "来なかった"))) ;;
  forms <- push forms (createForm (J "ta") (prefix ++ J "きた") (Some (prefix ++ J "来た"))) ;;
  forms <- push forms (createForm (J "volitional-plain") (prefix ++ J "こよう") (Some (prefix ++ J "来よう"))) ;;
  forms <- push forms (createForm (J "volitional-polite") (prefix ++ J "きましょう") (Some (prefix ++ J "来ましょう"))) ;;
  forms <- push forms (createForm (J "potential-plain") (prefix ++ J "こられる") (Some (prefix ++ J "来られる"))) ;;
  forms <- push forms (createForm (J "potential-polite") (prefix ++ J "こられます") (Some (prefix ++ J "来られます"))) ;;
  forms <- push forms (createForm (J "potential-negative") (prefix ++ J "こられない") (Some (prefix ++ J "来られない"))) ;;
  forms <- push forms (createForm (J "passive-plain") (prefix ++ J "こられる") (Some (prefix ++ J "来られる"))) ;;
  forms <- push forms (createForm (J "passive-polite") (prefix ++ J "こられます") (Some (prefix ++ J "来られます"))) ;;
  forms <- push forms (createForm (J "causative-plain") (prefix ++ J "こさせる") (Some (prefix ++ J "来させる"))) ;;
  forms <- push forms (createForm (J "causative-polite") (prefix ++ J "こさせます") (Some (prefix ++ J "来させます"))) ;;
  forms <- push forms (createForm (J "causative-passive-plain") (prefix ++ J "こさせられる") (Some (prefix ++ J "来させられる"))) ;;
  forms <- push forms (createForm (J "causative-passive-polite") (prefix ++ J "こさせられます") (Some (prefix ++ J "来させられます"))) ;;
  forms <- push forms (createForm (J "imperative-plain") (prefix ++ J "こい") (Some (prefix ++ J "来い"))) ;;
  forms <- push forms (createForm (J "imperative-polite") (prefix ++ J "きてください") (Some (prefix ++ J "来てください"))) ;;
  forms <- push forms (createForm (J "imperative-negative") (prefix ++ J "くるな") (Some (prefix ++ J "来るな"))) ;;
  forms <- push forms (createForm (J "conditional-ba") (prefix ++ J "くれば") (Some (prefix ++ J "来れば"))) ;;
  forms <- push forms (createForm (J "conditional-tara") (prefix ++ J "きたら") (Some (prefix ++ J "来たら"))) ;;
  forms <- push forms (createForm (J "conditional-nara") (prefix ++ J "くるなら") (Some (prefix ++ J "来るなら"))) ;;
  forms <- push forms (createForm (J "tai") (prefix ++ J "きたい") (Some (prefix ++ J "来たい"))) ;;
  forms <- push forms (createForm (J "takunai") (prefix ++ J "きたくない") (Some (prefix ++ J "来たくない"))) ;;
  forms <- push forms (createForm (J "takatta") (prefix ++ J "きたかった") (Some (prefix ++ J "来たかった"))) ;;
  forms <- push forms (createForm (J "takunakatta") (prefix ++ J "きたくなかった") (Some (prefix ++ J "来たくなかった"))) ;;
  forms <- push forms (createForm (J "progressive-present") (prefix ++ J "きている") (Some (prefix ++ J "来ている"))) ;;
  forms <- push forms (createForm (J "progressive-past") (prefix ++ J "きていた") (Some (prefix ++ J "来ていた"))) ;;
  forms <- push forms (createForm (J "honorific-respectful") (J "お" ++ prefix ++ J "きになる") (Some (J "お" ++ prefix ++ J "来になる"))) ;;
  forms <- push forms (createForm (J "honorific-humble") (J "お" ++ prefix ++ J "きする") (Some (J "お" ++ prefix ++ J "来する"))) ;;
  ret forms.

(** ある: the negative forms are ない and なかった. *)
Definition conjugateAru (verb : VerbInfo.t) : throws (list ConjugationForm.t) :=
  let forms := [] in
  forms <- push forms (createForm (J "dictionary") (J "ある") None) ;;
  forms <- push forms (createForm (J "te") (J "あって") None) ;;
  forms <- push forms (createForm (J "masu") (J "あります") None) ;;
  forms <- push forms (createForm (J "masen") (J "ありません") None) ;;
  forms <- push forms (createForm (J "mashita") (J "ありました") None) ;;
  forms <- push forms (createForm (J "masen-deshita") (J "ありませんでした") None) ;;
  forms <- push forms (createForm (J "nai") (J "ない") None) ;;
  forms <- push forms (createForm (J "nakatta") (J "なかった") None) ;;
  forms <- push forms (createForm (J "ta") (J "あった") None) ;;
  forms <- push forms (createForm (J "volitional-plain") (J "あろう") None) ;;
  forms <- push forms (createForm (J "volitional-polite") (J "ありましょう") None) ;;
  forms <- push forms (createForm (J "potential-plain") (J "ありえる") None) ;;
  forms <- push forms (createForm (J "potential-polite") (J "ありえます") None) ;;
  forms <- push forms (createForm (J "potential-negative") (J "ありえない") None) ;;
  forms <- push forms (createForm (J "passive-plain") (J "あられる") None) ;;
  forms <- push forms (createForm (J "passive-polite") (J "あられます") None) ;;
  forms <- push forms (createForm (J "causative-plain") (J "あらせる") None) ;;
  forms <- push forms (createForm (J "causative-polite") (J "あらせます") None) ;;
  forms <- push forms (createForm (J "causative-passive-plain") (J "あらせられる") None) ;;
  forms <- push forms (createForm (J "causative-passive-polite") (J "あらせられます") None) ;;
  forms <- push forms (createForm (J "imperative-plain") (J "あれ") None) ;;
  forms <- push forms (createForm (J "imperative-polite") (J "あってください") None) ;;
  forms <- push forms (createForm (J "imperative-negative") (J "あるな") None) ;;
  forms <- push forms (createForm (J "conditional-ba") (J "あれば") None) ;;
  forms <- push forms (createForm (J "conditional-tara") (J "あったら") None) ;;
  forms <- push forms (createForm (J "conditional-nara") (J "あるなら") None) ;;
  forms <- push forms (createForm (J "tai") (J "ありたい") None) ;;
  forms <- push forms (createForm (J "takunai") (J "ありたくない") None) ;;
  forms <- push forms (createForm (J "takatta") (J "ありたかった") None) ;;
  forms <- push forms (createForm (J "takunakatta") (J "ありたくなかった") None) ;;
  forms <- push forms (createForm (J "progressive-present") (J "あっている") None) ;;
  forms <- push forms (createForm (J "progressive-past") (J "あっていた") None) ;;
  forms <- push forms (createForm (J "honorific-respectful") (J "おありになる") None) ;;
  forms <- push forms (createForm (J "honorific-humble") (J "おありする") None) ;;
  ret forms.

(** 行く: the te-form is 行って and the ta-form 行った. *)
Definition conjugateIku (verb : VerbInfo.t) : throws (list ConjugationForm.t) :=
  let forms := [] in
  forms <- push forms (createForm (J "dictionary") (J "いく") (Some (J "行く"))) ;;
  forms <- push forms (createForm (J "te") (J "いって") (Some (J "行って"))) ;;
  forms <- push forms (createForm (J "masu") (J "いきます") (Some (J "行きます"))) ;;
  forms <- push forms (createForm (J "masen") (J "いきません") (Some (J "行きません"))) ;;
  forms <- push forms (createForm (J "mashita") (J "いきました") (Some (J "行きました"))) ;;
  forms <- push forms (createForm (J "masen-deshita") (J "いきませんでした") (Some (J "行きませんでした"))) ;;
  forms <- push forms (createForm (J "nai") (J "いかない") (Some (J "行かない"))) ;;
  forms <- push forms (createForm (J "nakatta") (J "いかなかった") (Some (J "行かなかった"))) ;;
  forms <- push forms (createForm (J "ta") (J "いった") (Some (J "行った"))) ;;
  forms <- push forms (createForm (J "volitional-plain") (J "いこう") (Some (J "行こう"))) ;;
  forms <- push forms (createForm (J "volitional-polite") (J "いきましょう") (Some (J "行きましょう"))) ;;
  forms <- push forms (createForm (J "potential-plain") (J "いける") (Some (J "行ける"))) ;;
  forms <- push forms (createForm (J "potential-polite") (J "いけます") (Some (J "行けます"))) ;;
  forms <- push forms (createForm (J "potential-negative") (J "いけない") (Some (J "行けない"))) ;;
  forms <- push forms (createForm (J "passive-plain") (J "いかれる") (Some (J "行かれる"))) ;;
  forms <- push forms (createForm (J "passive-polite") (J "いかれます") (Some (J "行かれます"))) ;;
  forms <- push forms (createForm (J "causative-plain") (J "いかせる") (Some (J "行かせる"))) ;;
  forms <- push forms (createForm (J "causative-polite") (J "いかせます") (Some (J "行かせます"))) ;;
  forms <- push forms (createForm (J "causative-passive-plain") (J "いかせられる") (Some (J "行かせられる"))) ;;
  forms <- push forms (createForm (J "causative-passive-polite") (J "いかせられます") (Some (J "行かせられます"))) ;;
  forms <- push forms (createForm (J "imperative-plain") (J "いけ") (Some (J "行け"))) ;;
  forms <- push forms (createForm (J "imperative-polite") (J "いってください") (Some (J "行ってください"))) ;;
  forms <- push forms (createForm (J "imperative-negative") (J "いくな") (Some (J "行くな"))) ;;
  forms <- push forms (createForm (J "conditional-ba") (J "いけば") (Some (J "行けば"))) ;;
  forms <- push forms (createForm (J "conditional-tara") (J "いったら") (Some (J "行ったら"))) ;;
  forms <- push forms (createForm (J "conditional-nara") (J "いくなら") (Some (J "行くなら"))) ;;
  forms <- push forms (createForm (J "tai") (J "いきたい") (Some (J "行きたい"))) ;;
  forms <- push forms (createForm (J "takunai") (J "いきたくない") (Some (J "行きたくない"))) ;;
  forms <- push forms (createForm (J "takatta") (J "いきたかった") (Some (J "行きたかった"))) ;;
  forms <- push forms (createForm (J "takunakatta") (J "いきたくなかった") (Some (J "行きたくなかった"))) ;;
  forms <- push forms (createForm (J "progressive-present") (J "いっている") (Some (J "行っている"))) ;;
  forms <- push forms (createForm (J "progressive-past") (J "いっていた") (Some (J "行っていた"))) ;;
  forms <- push forms (createForm (J "honorific-respectful") (J "おいきになる") (Some (J "お行きになる"))) ;;
  forms <- push forms (createForm (J "honorific-humble") (J "おいきする") (Some (J "お行きする"))) ;;
  ret forms.

(** くださる, なさる, いらっしゃる, おっしゃる, ござる *)
Definition conjugateHonorific (verb : VerbInfo.t) : throws (list ConjugationForm.t) :=
  let forms := [] in
  let stem := VerbInfo.stem verb in
  forms <- push forms (createForm (J "dictionary") (VerbInfo.dictionaryForm verb) None) ;;
  forms <- push forms (createForm (J "te") (stem ++ J "って") None) ;;
  forms <- push forms (createForm (J "masu") (stem ++ J "います") None) ;;
  forms <- push forms (createForm (J "masen") (stem ++ J "いません") None) ;;
  forms <- push forms (createForm (J "mashita") (stem ++ J "いました") None) ;;
  forms <- push forms (createForm (J "masen-deshita") (stem ++ J "いませんでした") None) ;;
  forms <- push forms (createForm (J "nai") (stem ++ J "らない") None) ;;
  forms <- push forms (createForm (J "nakatta") (stem ++ J "らなかった") None) ;;
  forms <- push forms (createForm (J "ta") (stem ++ J "った") None) ;;
  forms <- push forms (createForm (J "volitional-plain") (stem ++ J "ろう") None) ;;
  forms <- push forms (createForm (J "volitional-polite") (stem ++ J "いましょう") None) ;;
  forms <- push forms (createForm (J "potential-plain") (stem ++ J "れる") None) ;;
  forms <- push forms (createForm (J "potential-polite") (stem ++ J "れます") None) ;;
  forms <- push forms (createForm (J "potential-negative") (stem ++ J "れない") None) ;;
  forms <- push forms (createForm (J "passive-plain") (stem ++ J "られる") None) ;;
  forms <- push forms (createForm (J "passive-polite") (stem ++ J "られます") None) ;;
  forms <- push forms (createForm (J "causative-plain") (stem ++ J "らせる") None) ;;
  forms <- push forms (createForm (J "causative-polite") (stem ++ J "らせます") None) ;;
  forms <- push forms (createForm (J "causative-passive-plain") (stem ++ J "らせられる") None) ;;
  forms <- push forms (createForm (J "causative-passive-polite") (stem ++ J "らせられます") None) ;;
  forms <- push forms (createForm (J "imperative-plain") (stem ++ J "い") None) ;;
  forms <- push forms (createForm (J "imperative-polite") (stem ++ J "ってください") None) ;;
  forms <- push forms (createForm (J "imperative-negative") (VerbInfo.dictionaryForm verb ++ J "な") None) ;;
  forms <- push forms (createForm (J "conditional-ba") (stem ++ J "れば") None) ;;
  forms <- push forms (createForm (J "conditional-tara") (stem ++ J "ったら") None) ;;
  forms <- push forms (createForm (J "conditional-nara") (VerbInfo.dictionaryForm verb ++ J "なら") None) ;;
  forms <- push forms (createForm (J "tai") (stem ++ J "いたい") None) ;;
  forms <- push forms (createForm (J "takunai") (stem ++ J "いたくない") None) ;;
  forms <- push forms (createForm (J "takatta") (stem ++ J "いたかった") None) ;;
  forms <- push forms (createForm (J "takunakatta") (stem ++ J "いたくなかった") None) ;;
  forms <- push forms (createForm (J "progressive-present") (stem ++ J "っている") None) ;;
  forms <- push forms (createForm (J "progressive-past") (stem ++ J "っていた") None) ;;
  forms <- push forms (createForm (J "honorific-respectful") (J "お" ++ stem ++ J "いになる") None) ;;
  forms <- push forms (createForm (J "honorific-humble") (J "お" ++ stem ++ J "いする") None) ;;
  ret forms.

Definition conjugateIrregular (verb : VerbInfo.t) : throws (list ConjugationForm.t) :=
  match VerbInfo.type verb with
  | irregular =>
    match VerbInfo.irregularType verb with
    | Some suru => conjugateSuru verb
    | Some kuru => conjugateKuru verb
    | Some aru => conjugateAru verb
    | Some iku => conjugateIku verb
    | Some honorific => conjugateHonorific verb
    | None => throw (J "Unknown irregular type: undefined")
    end
  | _ => throw (J "conjugateIrregular called with non-irregular verb")
  end.

Definition getAruNegative : jsstring := J "ない".

Definition getIkuTeForm : jsstring := J "行って".

Definition getHonorificMasuStem (stem : jsstring) : jsstring := stem ++ J "い".

Definition isHonorificVerb (verb : jsstring) : bool :=
  let honorificVerbs :=
    [J "くださる"; J "なさる"; J "いらっしゃる"; J "おっしゃる"; J "ござる"] in
  JS.arrayIncludes honorificVerbs verb.

(** *** One-grade verbs (lib/engine/conjugateIchidan.ts) *)

Definition getIchidanStem (verb : VerbInfo.t) : jsstring := VerbInfo.stem verb.

Definition conjugateIchidan (verb : VerbInfo.t) : throws (list ConjugationForm.t) :=
  match VerbInfo.type verb with
  | ichidan =>
    let forms := [] in
    let stem := getIchidanStem verb in
    forms <- push forms (createForm (J "dictionary") (VerbInfo.dictionaryForm verb) None) ;;
    forms <- push forms (createForm (J "te") (stem ++ J "て") None) ;;
    forms <- push forms (createForm (J "masu") (stem ++ J "ます") None) ;;
    forms <- push forms (createForm (J "masen") (stem ++ J "ません") None) ;;
    forms <- push forms (createForm (J "mashita") (stem ++ J "ました") None) ;;
    forms <- push forms (createForm (J "masen-deshita") (stem ++ J "ませんでした") None) ;;
    forms <- push forms (createForm (J "nai") (stem ++ J "ない") None) ;;
    forms <- push forms (createForm (J "nakatta") (stem ++ J "なかった") None) ;;
    forms <- push forms (createForm (J "ta") (stem ++ J "た") None) ;;
    forms <- push forms (createForm (J "volitional-plain") (stem ++ J "よう") None) ;;
    forms <- push forms (createForm (J "volitional-polite") (stem ++ J "ましょう") None) ;;
    forms <- push forms (createForm (J "potential-plain") (stem ++ J "られる") None) ;;
    forms <- push forms (createForm (J "potential-polite") (stem ++ J "られます") None) ;;
    forms <- push forms (createForm (J "potential-negative") (stem ++ J "られない") None) ;;
    forms <- push forms (createForm (J "passive-plain") (stem ++ J "られる") None) ;;
    forms <- push forms (createForm (J "passive-polite") (stem ++ J "られます") None) ;;
    forms <- push forms (createForm (J "causative-plain") (stem ++ J "させる") None) ;;
    forms <- push forms (createForm (J "causative-polite") (stem ++ J "させます") None) ;;
    forms <- push forms (createForm (J "causative-passive-plain") (stem ++ J "させられる") None) ;;
    forms <- push forms (createForm (J "causative-passive-polite") (stem ++ J "させられます") None) ;;
    forms <- push forms (createForm (J "imperative-plain") (stem ++ J "ろ") None) ;;
    forms <- push forms (createForm (J "imperative-polite") (stem ++ J "てください") None) ;;
    forms <- push forms (createForm (J "imperative-negative") (VerbInfo.dictionaryForm verb ++ J "な") None) ;;
    forms <- push forms (createForm (J "conditional-ba") (stem ++ J "れば") None) ;;
    forms <- push forms (createForm (J "conditional-tara") (stem ++ J "たら") None) ;;
    forms <- push forms (createForm (J "conditional-nara") (VerbInfo.dictionaryForm verb ++ J "なら") None) ;;
    forms <- push forms (createForm (J "tai") (stem ++ J "たい") None) ;;
    forms <- push forms (createForm (J "takunai") (stem ++ J "たくない") None) ;;
    forms <- push forms (createForm (J "takatta") (stem ++ J "たかった") None) ;;
    forms <- push forms (createForm (J "takunakatta") (stem ++ J "たくなかった") None) ;;
    forms <- push forms (createForm (J "progressive-present") (stem ++ J "ている") None) ;;
    forms <- push forms (createForm (J "progressive-past") (stem ++ J "ていた") None) ;;
    forms <- push forms (createForm (J "honorific-respectful") (J "お" ++ stem ++ J "になる") None) ;;
    forms <- push forms (createForm (J "honorific-humble") (J "お" ++ stem ++ J "する") None) ;;
    ret forms
  | _ => throw (J "conjugateIchidan called with non-Ichidan verb")
  end.

Definition getIchidanColloquialPotential (verb : VerbInfo.t) : throws jsstring :=
  match VerbInfo.type verb with
  | ichidan => ret (VerbInfo.stem verb ++ J "れる")
  | _ => throw (J "getIchidanColloquialPotential called with non-Ichidan verb")
  end.

Definition getIchidanTraditionalPotential (verb : VerbInfo.t) : throws jsstring :=
  match VerbInfo.type verb with
  | ichidan => ret (VerbInfo.stem verb ++ J "られる")
  | _ => throw (J "getIchidanTraditionalPotential called with non-Ichidan verb")
  end.

Definition isColloquialPotential (potentialForm stem : jsstring) : bool :=
  let colloquialEnding := stem ++ J "れる" in
  let traditionalEnding := stem ++ J "られる" in
  if JS.eqb potentialForm colloquialEnding then true
  else if JS.eqb potentialForm traditionalEnding then false
  else JS.endsWith potentialForm (J "れる")
       && negb (JS.endsWith potentialForm (J "られる")).

(** *** Five-grade verbs (lib/engine/conjugateGodan.ts) *)

Inductive GodanGrade :=
  | grade_a | grade_i | grade_u | grade_e | grade_o | grade_te | grade_ta.

(** [endingMap[grade]] for the six grades stored in the table. *)
Definition gradeEnding (endingMap : GodanConjugationMap.t) (grade : GodanGrade)
  : jsstring :=
  match grade with
  | grade_a => GodanConjugationMap.a endingMap
  | grade_i => GodanConjugationMap.i endingMap
  | grade_e => GodanConjugationMap.e endingMap
  | grade_o => GodanConjugationMap.o endingMap
  | grade_te => GodanConjugationMap.te endingMap
  | grade_ta => GodanConjugationMap.ta endingMap
  | grade_u => []
  end.

Definition getGodanStem (verb : VerbInfo.t) (grade : GodanGrade) : throws jsstring :=
  match JS.lookup GODAN_ENDINGS (VerbInfo.ending verb) with
  | None => throw (J "Unknown Godan ending: " ++ VerbInfo.ending verb)
  | Some endingMap =>
    match grade with
    | grade_u => ret (VerbInfo.dictionaryForm verb)
    | grade_te | grade_ta => ret (VerbInfo.stem verb ++ gradeEnding endingMap grade)
    | _ => ret (VerbInfo.stem verb ++ gradeEnding endingMap grade)
    end
  end.

Definition isIkuVerb (verb : VerbInfo.t) : bool :=
  JS.eqb (VerbInfo.dictionaryForm verb) (J "行く")
  || JS.eqb (VerbInfo.dictionaryForm verb) (J "いく")
  || (match VerbInfo.irregularType verb with Some iku => true | _ => false end
      && match VerbInfo.type verb with irregular => true | _ => false end).

Definition getGodanTeForm (verb : VerbInfo.t) : throws jsstring :=
  if isIkuVerb verb then ret (VerbInfo.stem verb ++ J "って")
  else getGodanStem verb grade_te.

Definition getGodanTaForm (verb : VerbInfo.t) : throws jsstring :=
  if isIkuVerb verb then ret (VerbInfo.stem verb ++ J "った")
  else getGodanStem verb grade_ta.

Definition conjugateGodan (verb : VerbInfo.t) : throws (list ConjugationForm.t) :=
  match VerbInfo.type verb with
  | godan =>
    let forms := [] in
    forms <- push forms (createForm (J "dictionary") (VerbInfo.dictionaryForm verb) None) ;;
    te <- getGodanTeForm verb ;;
    forms <- push forms (createForm (J "te") te None) ;;
    masuStem <- getGodanStem verb grade_i ;;
    forms <- push forms (createForm (J "masu") (masuStem ++ J "ます") None) ;;
    forms <- push forms (createForm (J "masen") (masuStem ++ J "ません") None) ;;
    forms <- push forms (createForm (J "mashita") (masuStem ++ J "ました") None) ;;
    forms <- push forms (createForm (J "masen-deshita") (masuStem ++ J "ませんでした") None) ;;
    naiStem <- getGodanStem verb grade_a ;;
    forms <- push forms (createForm (J "nai") (naiStem ++ J "ない") None) ;;
    forms <- push forms (createForm (J "nakatta") (naiStem ++ J "なかった") None) ;;
    ta <- getGodanTaForm verb ;;
    forms <- push forms (createForm (J "ta") ta None) ;;
    volitionalStem <- getGodanStem verb grade_o ;;
    forms <- push forms (createForm (J "volitional-plain") (volitionalStem ++ J "う") None) ;;
    forms <- push forms (createForm (J "volitional-polite") (masuStem ++ J "ましょう") None) ;;
    potentialStem <- getGodanStem verb grade_e ;;
    forms <- push forms (createForm (J "potential-plain") (potentialStem ++ J "る") None) ;;
    forms <- push forms (createForm (J "potential-polite") (potentialStem ++ J "ます") None) ;;
    forms <- push forms (createForm (J "potential-negative") (potentialStem ++ J "ない") None) ;;
    forms <- push forms (createForm (J "passive-plain") (naiStem ++ J "れる") None) ;;
    forms <- push forms (createForm (J "passive-polite") (naiStem ++ J "れます") None) ;;
    forms <- push forms (createForm (J "causative-plain") (naiStem ++ J "せる") None) ;;
    forms <- push forms (createForm (J "causative-polite") (naiStem ++ J "せます") None) ;;
    forms <- push forms (createForm (J "causative-passive-plain") (naiStem ++ J "せられる") None) ;;
    forms <- push forms (createForm (J "causative-passive-polite") (naiStem ++ J "せられます") None) ;;
    forms <- push forms (createForm (J "imperative-plain") potentialStem None) ;;
    te <- getGodanTeForm verb ;;
    forms <- push forms (createForm (J "imperative-polite") (te ++ J "ください") None) ;;
    forms <- push forms (createForm (J "imperative-negative") (VerbInfo.dictionaryForm verb ++ J "な") None) ;;
    forms <- push forms (createForm (J "conditional-ba") (potentialStem ++ J "ば") None) ;;
    ta <- getGodanTaForm verb ;;
    forms <- push forms (createForm (J "conditional-tara") (ta ++ J "ら") None) ;;
    forms <- push forms (createForm (J "conditional-nara") (VerbInfo.dictionaryForm verb ++ J "なら") None) ;;
    forms <- push forms (createForm (J "tai") (masuStem ++ J "たい") None) ;;
    forms <- push forms (createForm (J "takunai") (masuStem ++ J "たくない") None) ;;
    forms <- push forms (createForm (J "takatta") (masuStem ++ J "たかった") None) ;;
    forms <- push forms (createForm (J "takunakatta") (masuStem ++ J "たくなかった") None) ;;
    te <- getGodanTeForm verb ;;
    forms <- push forms (createForm (J "progressive-present") (te ++ J "いる") None) ;;
    te <- getGodanTeForm verb ;;
    forms <- push forms (createForm (J "progressive-past") (te ++ J "いた") None) ;;
    forms <- push forms (createForm (J "honorific-respectful") (J "お" ++ masuStem ++ J "になる") None) ;;
    forms <- push forms (createForm (J "honorific-humble") (J "お" ++ masuStem ++ J "する") None) ;;
    ret forms
  | _ => throw (J "conjugateGodan called with non-Godan verb")
  end.

(* ===================================================================== *)
(** ** Facade (lib/engine/conjugate.ts) *)
(* ===================================================================== *)

Inductive ConjugateResult :=
  | Success (result : ConjugationResult.t)
  | Failure (error : ConjugationError.t).

Definition createError (code : ConjugationErrorCode) (message : jsstring)
  : ConjugationError.t :=
  ConjugationError.mk code message.

Definition isEmptyOrWhitespace (input : jsstring) : bool :=
  falsy input || (JS.length (JS.trim input) =? 0)%Z.

Definition containsOnlyJapanese (input : jsstring) : bool :=
  isJapanese (JS.trim input).

(** [None] is [null]: the input is accepted. *)
Definition validateInput (input : jsstring) : option ConjugationError.t :=
  if isEmptyOrWhitespace input then
    Some (createError EMPTY_INPUT (J "Please enter a Japanese verb"))
  else
    let trimmed := JS.trim input in
    if negb (containsOnlyJapanese trimmed) then
      Some (createError INVALID_CHARACTERS
        (J "Please enter a valid Japanese verb using hiragana, katakana, or kanji"))
    else None.

Definition getConjugationFunction (verbInfo : VerbInfo.t)
  : throws (VerbInfo.t -> throws (list ConjugationForm.t)) :=
  match VerbInfo.type verbInfo with
  | godan => ret conjugateGodan
  | ichidan => ret conjugateIchidan
  | irregular => ret conjugateIrregular
  end.

(** The [catch] block of [conjugate]: every thrown value is an [Error]
    here, and its message selects the error code. *)
Definition handleError (message : jsstring) : ConjugationError.t :=
  if JS.startsWith message (J "EMPTY_INPUT:") then
    createError EMPTY_INPUT (JS.replace message (J "EMPTY_INPUT: ") [])
  else if JS.startsWith message (J "INVALID_CHARACTERS:") then
    createError INVALID_CHARACTERS (JS.replace message (J "INVALID_CHARACTERS: ") [])
  else if JS.startsWith message (J "UNKNOWN_VERB:") then
    createError UNKNOWN_VERB (JS.replace message (J "UNKNOWN_VERB: ") [])
  else createError CONJUGATION_FAILED message.

(** The [try] block of [conjugate] up to the assembly of the result. *)
Definition classifyAndConjugate (input : jsstring)
  : throws (VerbInfo.t * list ConjugationForm.t) :=
  verbInfo <- classifyVerb input ;;
  conjugationFn <- getConjugationFunction verbInfo ;;
  forms <- conjugationFn verbInfo ;;
  ret (verbInfo, forms).

(** [conjugate(input)].  The only effect of the engine is the reading of
    the wall clock, [Date.now()], when the result is assembled; [now] is
    the value the clock shows at this call. *)
Definition conjugate (now : Z) (input : jsstring) : ConjugateResult :=
  match validateInput input with
  | Some validationError => Failure validationError
  | None =>
    match classifyAndConjugate input with
    | inr (verbInfo, forms) =>
      Success {| ConjugationResult.verb := verbInfo;
                 ConjugationResult.forms := forms;
                 ConjugationResult.timestamp := now |}
    | inl message => Failure (handleError message)
    end
  end.

Definition conjugateToForm (now : Z) (input formId : jsstring)
  : option ConjugationForm.t :=
  match conjugate now input with
  | Failure _ => None
  | Success result =>
    find (fun form => JS.eqb (ConjugationForm.id form) formId)
         (ConjugationResult.forms result)
  end.

Definition getVerbInfo (input : jsstring) : option VerbInfo.t :=
  match validateInput input with
  | Some _ => None
  | None =>
    match classifyVerb input with
    | inr verbInfo => Some verbInfo
    | inl _ => None
    end
  end.

(* ===================================================================== *)
(** ** The engine over the module state *)
(* ===================================================================== *)

(** The objects of the engine that outlive a call or are changed in
    place: the tables that the modules create when they are loaded, and
    the arrays of forms that the generators fill with [push].  An object
    lives in a cell of the heap and is reached through a reference, the
    index of its cell; a new object takes the next cell.  The entries
    of a table are kept in the cell of the table.  Strings and numbers
    are values, and so are the records that the code creates and never
    changes afterwards. *)
Module Heap.

Definition ref := nat.

Inductive object :=
  | Strings (items : list jsstring)
  | Romaji (entries : list (jsstring * jsstring))
  | Irregulars (entries : list (jsstring * IrregularType))
  | GodanEndings (entries : list (jsstring * GodanConjugationMap.t))
  | Definitions (items : list FormDefinition.t)
  | Forms (items : list ConjugationForm.t).

Definition t := list object.

Fixpoint write (r : ref) (o : object) (h : t) : t :=
  match h, r with
  | [], _ => []
  | _ :: more, O => o :: more
  | cell :: more, S r' => cell :: write r' o more
  end.

End Heap.

(** The heap when the modules [data/verbData.ts] and
    [data/conjugationForms.ts] have been loaded: one object for each
    table, in the order of the declarations. *)
Definition moduleState : Heap.t :=
  [ Heap.Irregulars IRREGULAR_VERBS;
    Heap.Strings SURU_COMPOUND_SUFFIXES;
    Heap.Strings KURU_COMPOUND_SUFFIXES;
    Heap.GodanEndings GODAN_ENDINGS;
    Heap.Strings GODAN_ENDING_CHARS;
    Heap.Strings ICHIDAN_PRECEDING_CHARS;
    Heap.Strings FALSE_ICHIDAN_VERBS;
    Heap.Strings KNOWN_ICHIDAN_VERBS;
    Heap.Romaji HIRAGANA_TO_ROMAJI;
    Heap.Romaji HIRAGANA_COMBINATIONS;
    Heap.Definitions CONJUGATION_FORMS ].

(** The [const] bindings of the modules: each names the reference of
    its table for good. *)
Module Binding.
Definition IRREGULAR_VERBS : Heap.ref := 0.
Definition SURU_COMPOUND_SUFFIXES : Heap.ref := 1.
Definition KURU_COMPOUND_SUFFIXES : Heap.ref := 2.
Definition GODAN_ENDINGS : Heap.ref := 3.
Definition GODAN_ENDING_CHARS : Heap.ref := 4.
Definition ICHIDAN_PRECEDING_CHARS : Heap.ref := 5.
Definition FALSE_ICHIDAN_VERBS : Heap.ref := 6.
Definition KNOWN_ICHIDAN_VERBS : Heap.ref := 7.
Definition HIRAGANA_TO_ROMAJI : Heap.ref := 8.
Definition HIRAGANA_COMBINATIONS : Heap.ref := 9.
Definition CONJUGATION_FORMS : Heap.ref := 10.
End Binding.

(** The functions in the call graph of [conjugate], with the heap
    passed from step to step: a table is read from the heap each time
    the source names it, [const forms = []] takes a new cell and
    [forms.push] changes that cell in place.  A thrown error leaves
    the heap as it is at the [throw]. *)
Module Stateful.

Definition M (A : Type) : Type := Heap.t -> throws A * Heap.t.

Definition ret {A : Type} (x : A) : M A := fun h => (inr x, h).

Definition throw {A : Type} (message : jsstring) : M A := fun h => (inl message, h).

Definition bind {A B : Type} (m : M A) (k : A -> M B) : M B :=
  fun h =>
    match m h with
    | (inl message, h') => (inl message, h')
    | (inr x, h') => k x h'
    end.

Notation "x <~ m ;; k" := (bind m (fun x => k))
  (at level 61, m at next level, right associativity).

Notation "m ;;; k" := (bind m (fun _ => k))
  (at level 61, right associativity).

(** Reading an object through a reference.  The types of the source
    rule the other shapes out; here they are a [TypeError]. *)
Definition read (r : Heap.ref) : M Heap.object :=
  fun h =>
    match nth_error h r with
    | Some o => (inr o, h)
    | None => (inl (J "ReferenceError"), h)
    end.

Definition strings (r : Heap.ref) : M (list jsstring) :=
  o <~ read r ;;
  match o with Heap.Strings items => ret items | _ => throw (J "TypeError") end.

Definition romaji (r : Heap.ref) : M (list (jsstring * jsstring)) :=
  o <~ read r ;;
  match o with Heap.Romaji entries => ret entries | _ => throw (J "TypeError") end.

Definition irregulars (r : Heap.ref) : M (list (jsstring * IrregularType)) :=
  o <~ read r ;;
  match o with Heap.Irregulars entries => ret entries | _ => throw (J "TypeError") end.

Definition godanEndings (r : Heap.ref)
  : M (list (jsstring * GodanConjugationMap.t)) :=
  o <~ read r ;;
  match o with Heap.GodanEndings entries => ret entries | _ => throw (J "TypeError") end.

Definition definitions (r : Heap.ref) : M (list FormDefinition.t) :=
  o <~ read r ;;
  match o with Heap.Definitions items => ret items | _ => throw (J "TypeError") end.

(** [const forms: ConjugationForm[] = []] *)
Definition newArray : M Heap.ref :=
  fun h => (inr (List.length h), h ++ [Heap.Forms []]).

(** [forms.push(createForm(...))]: the argument is evaluated, then the
    array that [forms] refers to is extended in place. *)
Definition push (forms : Heap.ref) (c : M ConjugationForm.t) : M unit :=
  form <~ c ;;
  o <~ read forms ;;
  match o with
  | Heap.Forms items =>
    fun h => (inr tt, Heap.write forms (Heap.Forms (items ++ [form])) h)
  | _ => throw (J "TypeError")
  end.

(** *** Classifier (lib/engine/classifyVerb.ts) *)

(** [HIRAGANA_TO_ROMAJI[char]] and [HIRAGANA_COMBINATIONS[combo]]: the
    table is read where the loop names it. *)
Definition toRomajiEntry (char : jsstring) : M (option jsstring) :=
  HIRAGANA_TO_ROMAJI <~ romaji Binding.HIRAGANA_TO_ROMAJI ;;
  ret (JS.lookup HIRAGANA_TO_ROMAJI char).

Definition combinationEntry (combo : jsstring) : M (option jsstring) :=
  HIRAGANA_COMBINATIONS <~ romaji Binding.HIRAGANA_COMBINATIONS ;;
  ret (JS.lookup HIRAGANA_COMBINATIONS combo).

Fixpoint hiraganaToRomaji (hiragana : jsstring) : M jsstring :=
  match hiragana with
  | [] => ret []
  | c :: rest =>
    let single :=
      entry <~ toRomajiEntry [c] ;;
      ret match entry with
          | Some romaji => romaji
          | None => [c]
          end in
    match rest with
    | [] =>
      single <~ single ;;
      more <~ hiraganaToRomaji rest ;; ret (single ++ more)
    | nextChar :: rest' =>
      if JS.eqb [c] (J "っ") then
        let fromNext :=
          entry <~ toRomajiEntry [nextChar] ;;
          ret match entry with
              | Some (r0 :: _) => [r0]
              | _ => []
              end in
        match rest' with
        | d :: _ =>
          combination <~ combinationEntry [nextChar; d] ;;
          match combination with
          | Some (r0 :: _) => more <~ hiraganaToRomaji rest ;; ret ([r0] ++ more)
          | _ =>
            fromNext <~ fromNext ;;
            more <~ hiraganaToRomaji rest ;; ret (fromNext ++ more)
          end
        | [] =>
          fromNext <~ fromNext ;;
          more <~ hiraganaToRomaji rest ;; ret (fromNext ++ more)
        end
      else
        combination <~ combinationEntry [c; nextChar] ;;
        match combination with
        | Some (r0 :: r) => more <~ hiraganaToRomaji rest' ;; ret ((r0 :: r) ++ more)
        | _ =>
          single <~ single ;;
          more <~ hiraganaToRomaji rest ;; ret (single ++ more)
        end
    end
  end.

Definition detectSuruCompound (verb : jsstring) : M (option jsstring) :=
  SURU_COMPOUND_SUFFIXES <~ strings Binding.SURU_COMPOUND_SUFFIXES ;;
  ret (detectCompound SURU_COMPOUND_SUFFIXES verb).

Definition detectKuruCompound (verb : jsstring) : M (option jsstring) :=
  KURU_COMPOUND_SUFFIXES <~ strings Binding.KURU_COMPOUND_SUFFIXES ;;
  ret (detectCompound KURU_COMPOUND_SUFFIXES verb).

Definition getIrregularType (verb : jsstring) : M (option IrregularType) :=
  IRREGULAR_VERBS <~ irregulars Binding.IRREGULAR_VERBS ;;
  ret (JS.lookup IRREGULAR_VERBS verb).

Definition looksLikeIchidan (verb : jsstring) : M bool :=
  if (JS.length verb <? 2)%Z then ret false
  else
    let lastChar := getLastChar verb in
    if negb (JS.eqb lastChar (J "る")) then ret false
    else
      let secondLastChar := JS.slice verb (-2) (Some (-1)%Z) in
      if isHiragana secondLastChar then
        ICHIDAN_PRECEDING_CHARS <~ strings Binding.ICHIDAN_PRECEDING_CHARS ;;
        ret (JS.arrayIncludes ICHIDAN_PRECEDING_CHARS secondLastChar)
      else
        KNOWN_ICHIDAN_VERBS <~ strings Binding.KNOWN_ICHIDAN_VERBS ;;
        if JS.arrayIncludes KNOWN_ICHIDAN_VERBS verb then ret true
        else
          FALSE_ICHIDAN_VERBS <~ strings Binding.FALSE_ICHIDAN_VERBS ;;
          if JS.arrayIncludes FALSE_ICHIDAN_VERBS verb then ret false
          else ret false.

Definition isActuallyIchidan (verb : jsstring) : M bool :=
  FALSE_ICHIDAN_VERBS <~ strings Binding.FALSE_ICHIDAN_VERBS ;;
  if JS.arrayIncludes FALSE_ICHIDAN_VERBS verb then ret false
  else
    KNOWN_ICHIDAN_VERBS <~ strings Binding.KNOWN_ICHIDAN_VERBS ;;
    if JS.arrayIncludes KNOWN_ICHIDAN_VERBS verb then ret true
    else ret true.

Definition isGodanVerb (verb : jsstring) : M bool :=
  let lastChar := getLastChar verb in
  GODAN_ENDING_CHARS <~ strings Binding.GODAN_ENDING_CHARS ;;
  ret (JS.arrayIncludes GODAN_ENDING_CHARS lastChar).

Definition classifyVerb (input : jsstring) : M VerbInfo.t :=
  if falsy input || (JS.length (JS.trim input) =? 0)%Z then
    throw EMPTY_INPUT_message
  else
    let verb := JS.trim input in
    if negb (isJapanese verb) then throw INVALID_CHARACTERS_message
    else
      suruPrefix <~ detectSuruCompound verb ;;
      match suruPrefix with
      | Some suruPrefix =>
        let suruPart := JS.slice verb (JS.length suruPrefix) None in
        romaji <~ hiraganaToRomaji verb ;;
        ret {| VerbInfo.dictionaryForm := verb;
               VerbInfo.reading := verb;
               VerbInfo.romaji := romaji;
               VerbInfo.type := irregular;
               VerbInfo.stem := suruPrefix;
               VerbInfo.ending := suruPart;
               VerbInfo.irregularType := Some suru;
               VerbInfo.compoundPrefix := Some suruPrefix |}
      | None =>
        kuruPrefix <~ detectKuruCompound verb ;;
        match kuruPrefix with
        | Some kuruPrefix =>
          let kuruPart := JS.slice verb (JS.length kuruPrefix) None in
          romaji <~ hiraganaToRomaji verb ;;
          ret {| VerbInfo.dictionaryForm := verb;
                 VerbInfo.reading := verb;
                 VerbInfo.romaji := romaji;
                 VerbInfo.type := irregular;
                 VerbInfo.stem := kuruPrefix;
                 VerbInfo.ending := kuruPart;
                 VerbInfo.irregularType := Some kuru;
                 VerbInfo.compoundPrefix := Some kuruPrefix |}
        | None =>
          irregularType <~ getIrregularType verb ;;
          match irregularType with
          | Some irregularType =>
            romaji <~ hiraganaToRomaji verb ;;
            ret {| VerbInfo.dictionaryForm := verb;
                   VerbInfo.reading := verb;
                   VerbInfo.romaji := romaji;
                   VerbInfo.type := irregular;
                   VerbInfo.stem := getStem verb;
                   VerbInfo.ending := getLastChar verb;
                   VerbInfo.irregularType := Some irregularType;
                   VerbInfo.compoundPrefix := None |}
          | None =>
            looks <~ looksLikeIchidan verb ;;
            isIchidan <~ (if looks then isActuallyIchidan verb else ret false) ;;
            if isIchidan then
              romaji <~ hiraganaToRomaji verb ;;
              ret {| VerbInfo.dictionaryForm := verb;
                     VerbInfo.reading := verb;
                     VerbInfo.romaji := romaji;
                     VerbInfo.type := ichidan;
                     VerbInfo.stem := getStem verb;
                     VerbInfo.ending := J "る";
                     VerbInfo.irregularType := None;
                     VerbInfo.compoundPrefix := None |}
            else
              isGodan <~ isGodanVerb verb ;;
              if isGodan then
                romaji <~ hiraganaToRomaji verb ;;
                ret {| VerbInfo.dictionaryForm := verb;
                       VerbInfo.reading := verb;
                       VerbInfo.romaji := romaji;
                       VerbInfo.type := godan;
                       VerbInfo.stem := getStem verb;
                       VerbInfo.ending := getLastChar verb;
                       VerbInfo.irregularType := None;
                       VerbInfo.compoundPrefix := None |}
              else throw UNKNOWN_VERB_message
          end
        end
      end.

(** *** Form generators *)

Definition createForm (id hiragana : jsstring) (kanji : option jsstring)
  : M ConjugationForm.t :=
  CONJUGATION_FORMS <~ definitions Binding.CONJUGATION_FORMS ;;
  match find (fun f => JS.eqb (FormDefinition.id f) id) CONJUGATION_FORMS with
  | None => throw (J "Unknown form ID: " ++ id)
  | Some formDef =>
    romaji <~ hiraganaToRomaji hiragana ;;
    ret {| ConjugationForm.id := id;
           ConjugationForm.name := FormDefinition.name formDef;
           ConjugationForm.nameJapanese := FormDefinition.nameJa formDef;
           ConjugationForm.kanji :=
             match kanji with Some k => k | None => hiragana end;
           ConjugationForm.hiragana := hiragana;
           ConjugationForm.romaji := romaji;
           ConjugationForm.formality := FormDefinition.formality formDef;
           ConjugationForm.category := FormDefinition.category formDef |}
  end.

(** *** Irregular verbs (lib/engine/conjugateIrregular.ts) *)

(** する *)
Definition conjugateSuru (verb : VerbInfo.t) : M Heap.ref :=
  forms <~ newArray ;;
  let prefix := prefixOrEmpty verb in
  push forms (createForm (J "dictionary") (prefix ++ J "する") None) ;;;
  push forms (createForm (J "te") (prefix ++ J "して") None) ;;;
  push forms (createForm (J "masu") (prefix ++ J "します") None) ;;;
  push forms (createForm (J "masen") (prefix ++ J "しません") None) ;;;
  push forms (createForm (J "mashita") (prefix ++ J "しました") None) ;;;
  push forms (createForm (J "masen-deshita") (prefix ++ J "しませんでした") None) ;;;
  push forms (createForm (J "nai") (prefix ++ J "しない") None) ;;;
  push forms (createForm (J "nakatta") (prefix ++ J "しなかった") None) ;;;
  push forms (createForm (J "ta") (prefix ++ J "した") None) ;;;
  push forms (createForm (J "volitional-plain") (prefix ++ J "しよう") None) ;;;
  push forms (createForm (J "volitional-polite") (prefix ++ J "しましょう") None) ;;;
  push forms (createForm (J "potential-plain") (prefix ++ J "できる") None) ;;;
  push forms (createForm (J "potential-polite") (prefix ++ J "できます") None) ;;;
  push forms (createForm (J "potential-negative") (prefix ++ J "できない") None) ;;;
  push forms (createForm (J "passive-plain") (prefix ++ J "される") None) ;;;
  push forms (createForm (J "passive-polite") (prefix ++ J "されます") None) ;;;
  push forms (createForm (J "causative-plain") (prefix ++ J "させる") None) ;;;
  push forms (createForm (J "causative-polite") (prefix ++ J "させます") None) ;;;
  push forms (createForm (J "causative-passive-plain") (prefix ++ J "させられる") None) ;;;
  push forms (createForm (J "causative-passive-polite") (prefix ++ J "させられます") None) ;;;
  push forms (createForm (J "imperative-plain") (prefix ++ J "しろ") None) ;;;
  push forms (createForm (J "imperative-polite") (prefix ++ J "してください") None) ;;;
  push forms (createForm (J "imperative-negative") (prefix ++ J "するな") None) ;;;
  push forms (createForm (J "conditional-ba") (prefix ++ J "すれば") None) ;;;
  push forms (createForm (J "conditional-tara") (prefix ++ J "したら") None) ;;;
  push forms (createForm (J "conditional-nara") (prefix ++ J "するなら") None) ;;;
  push forms (createForm (J "tai") (prefix ++ J "したい") None) ;;;
  push forms (createForm (J "takunai") (prefix ++ J "したくない") None) ;;;
  push forms (createForm (J "takatta") (prefix ++ J "したかった") None) ;;;
  push forms (createForm (J "takunakatta") (prefix ++ J "したくなかった") None) ;;;
  push forms (createForm (J "progressive-present") (prefix ++ J "している") None) ;;;
  push forms (createForm (J "progressive-past") (prefix ++ J "していた") None) ;;;
  push forms (createForm (J "honorific-respectful") (J "お" ++ prefix ++ J "しになる") None) ;;;
  push forms (createForm (J "honorific-humble") (J "お" ++ prefix ++ J "しする") None) ;;;
  ret forms.

(** 来る *)
Definition conjugateKuru (verb : VerbInfo.t) : M Heap.ref :=
  forms <~ newArray ;;
  let prefix := prefixOrEmpty verb in
  push forms (createForm (J "dictionary") (prefix ++ J "くる") (Some (prefix ++ J "来る"))) ;;;
  push forms (createForm (J "te") (prefix ++ J "きて") (Some (prefix ++ J "来て"))) ;;;
  push forms (createForm (J "masu") (prefix ++ J "きます") (Some (prefix ++ J "来ます"))) ;;;
  push forms (createForm (J "masen") (prefix ++ J "きません") (Some (prefix ++ J "来ません"))) ;;;
  push forms (createForm (J "mashita") (prefix ++ J "きました") (Some (prefix ++ J "来ました"))) ;;;
  push forms (createForm (J "masen-deshita") (prefix ++ J "きませんでした") (Some (prefix ++ J "来ませんでした"))) ;;;
  push forms (createForm (J "nai") (prefix ++ J "こない") (Some (prefix ++ J "来ない"))) ;;;
  push forms (createForm (J "nakatta") (prefix ++ J "こなかった") (Some (prefix ++ J "来なかった"))) ;;;
  push forms (createForm (J "ta") (prefix ++ J "きた") (Some (prefix ++ J "来た"))) ;;;
  push forms (createForm (J "volitional-plain") (prefix ++ J "こよう") (Some (prefix ++ J "来よう"))) ;;;
  push forms (createForm (J "volitional-polite") (prefix ++ J "きましょう") (Some (prefix ++ J "来ましょう"))) ;;;
  push forms (createForm (J "potential-plain") (prefix ++ J "こられる") (Some (prefix ++ J "来られる"))) ;;;
  push forms (createForm (J "potential-polite") (prefix ++ J "こられます") (Some (prefix ++ J "来られます"))) ;;;
  push forms (createForm (J "potential-negative") (prefix ++ J "こられない") (Some (prefix ++ J "来られない"))) ;;;
  push forms (createForm (J "passive-plain") (prefix ++ J "こられる") (Some (prefix ++ J "来られる"))) ;;;
  push forms (createForm (J "passive-polite") (prefix ++ J "こられます") (Some (prefix ++ J "来られます"))) ;;;
  push forms (createForm (J "causative-plain") (prefix ++ J "こさせる") (Some (prefix ++ J "来させる"))) ;;;
  push forms (createForm (J "causative-polite") (prefix ++ J "こさせます") (Some (prefix ++ J "来させます"))) ;;;
  push forms (createForm (J "causative-passive-plain") (prefix ++ J "こさせられる") (Some (prefix ++ J "来させられる"))) ;;;
  push forms (createForm (J "causative-passive-polite") (prefix ++ J "こさせられます") (Some (prefix ++ J "来させられます"))) ;;;
  push forms (createForm (J "imperative-plain") (prefix ++ J "こい") (Some (prefix ++ J "来い"))) ;;;
  push forms (createForm (J "imperative-polite") (prefix ++ J "きてください") (Some (prefix ++ J "来てください"))) ;;;
  push forms (createForm (J "imperative-negative") (prefix ++ J "くるな") (Some (prefix ++ J "来るな"))) ;;;
  push forms (createForm (J "conditional-ba") (prefix ++ J "くれば") (Some (prefix ++ J "来れば"))) ;;;
  push forms (createForm (J "conditional-tara") (prefix ++ J "きたら") (Some (prefix ++ J "来たら"))) ;;;
  push forms (createForm (J "conditional-nara") (prefix ++ J "くるなら") (Some (prefix ++ J "来るなら"))) ;;;
  push forms (createForm (J "tai") (prefix ++ J "きたい") (Some (prefix ++ J "来たい"))) ;;;
  push forms (createForm (J "takunai") (prefix ++ J "きたくない") (Some (prefix ++ J "来たくない"))) ;;;
  push forms (createForm (J "takatta") (prefix ++ J "きたかった") (Some (prefix ++ J "来たかった"))) ;;;
  push forms (createForm (J "takunakatta") (prefix ++ J "きたくなかった") (Some (prefix ++ J "来たくなかった"))) ;;;
  push forms (createForm (J "progressive-present") (prefix ++ J "きている") (Some (prefix ++ J "来ている"))) ;;;
  push forms (createForm (J "progressive-past") (prefix ++ J "きていた") (Some (prefix ++ J "来ていた"))) ;;;
  push forms (createForm (J "honorific-respectful") (J "お" ++ prefix ++ J "きになる") (Some (J "お" ++ prefix ++ J "来になる"))) ;;;
  push forms (createForm (J "honorific-humble") (J "お" ++ prefix ++ J "きする") (Some (J "お" ++ prefix ++ J "来する"))) ;;;
  ret forms.

(** ある: the negative forms are ない and なかった. *)
Definition conjugateAru (verb : VerbInfo.t) : M Heap.ref :=
  forms <~ newArray ;;
  push forms (createForm (J "dictionary") (J "ある") None) ;;;
  push forms (createForm (J "te") (J "あって") None) ;;;
  push forms (createForm (J "masu") (J "あります") None) ;;;
  push forms (createForm (J "masen") (J "ありません") None) ;;;
  push forms (createForm (J "mashita") (J "ありました") None) ;;;
  push forms (createForm (J "masen-deshita") (J "ありませんでした") None) ;;;
  push forms (createForm (J "nai") (J "ない") None) ;;;
  push forms (createForm (J "nakatta") (J "なかった") None) ;;;
  push forms (createForm (J "ta") (J "あった") None) ;;;
  push forms (createForm (J "volitional-plain") (J "あろう") None) ;;;
  push forms (createForm (J "volitional-polite") (J "ありましょう") None) ;;;
  push forms (createForm (J "potential-plain") (J "ありえる") None) ;;;
  push forms (createForm (J "potential-polite") (J "ありえます") None) ;;;
  push forms (createForm (J "potential-negative") (J "ありえない") None) ;;;
  push forms (createForm (J "passive-plain") (J "あられる") None) ;;;
  push forms (createForm (J "passive-polite") (J "あられます") None) ;;;
  push forms (createForm (J "causative-plain") (J "あらせる") None) ;;;
  push forms (createForm (J "causative-polite") (J "あらせます") None) ;;;
  push forms (createForm (J "causative-passive-plain") (J "あらせられる") None) ;;;
  push forms (createForm (J "causative-passive-polite") (J "あらせられます") None) ;;;
  push forms (createForm (J "imperative-plain") (J "あれ") None) ;;;
  push forms (createForm (J "imperative-polite") (J "あってください") None) ;;;
  push forms (createForm (J "imperative-negative") (J "あるな") None) ;;;
  push forms (createForm (J "conditional-ba") (J "あれば") None) ;;;
  push forms (createForm (J "conditional-tara") (J "あったら") None) ;;;
  push forms (createForm (J "conditional-nara") (J "あるなら") None) ;;;
  push forms (createForm (J "tai") (J "ありたい") None) ;;;
  push forms (createForm (J "takunai") (J "ありたくない") None) ;;;
  push forms (createForm (J "takatta") (J "ありたかった") None) ;;;
  push forms (createForm (J "takunakatta") (J "ありたくなかった") None) ;;;
  push forms (createForm (J "progressive-present") (J "あっている") None) ;;;
  push forms (createForm (J "progressive-past") (J "あっていた") None) ;;;
  push forms (createForm (J "honorific-respectful") (J "おありになる") None) ;;;
  push forms (createForm (J "honorific-humble") (J "おありする") None) ;;;
  ret forms.

(** 行く: the te-form is 行って and the ta-form 行った. *)
Definition conjugateIku (verb : VerbInfo.t) : M Heap.ref :=
  forms <~ newArray ;;
  push forms (createForm (J "dictionary") (J "いく") (Some (J "行く"))) ;;;
  push forms (createForm (J "te") (J "いって") (Some (J "行って"))) ;;;
  push forms (createForm (J "masu") (J "いきます") (Some (J "行きます"))) ;;;
  push forms (createForm (J "masen") (J "いきません") (Some (J "行きません"))) ;;;
  push forms (createForm (J "mashita") (J "いきました") (Some (J "行きました"))) ;;;
  push forms (createForm (J "masen-deshita") (J "いきませんでした") (Some (J "行きませんでした"))) ;;;
  push forms (createForm (J "nai") (J "いかない") (Some (J "行かない"))) ;;;
  push forms (createForm (J "nakatta") (J "いかなかった") (Some (J "行かなかった"))) ;;;
  push forms (createForm (J "ta") (J "いった") (Some (J "行った"))) ;;;
  push forms (createForm (J "volitional-plain") (J "いこう") (Some (J "行こう"))) ;;;
  push forms (createForm (J "volitional-polite") (J "いきましょう") (Some (J "行きましょう"))) ;;;
  push forms (createForm (J "potential-plain") (J "いける") (Some (J "行ける"))) ;;;
  push forms (createForm (J "potential-polite") (J "いけます") (Some (J "行けます"))) ;;;
  push forms (createForm (J "potential-negative") (J "いけない") (Some (J "行けない"))) ;;;
  push forms (createForm (J "passive-plain") (J "いかれる") (Some (J "行かれる"))) ;;;
  push forms (createForm (J "passive-polite") (J "いかれます") (Some (J "行かれます"))) ;;;
  push forms (createForm (J "causative-plain") (J "いかせる") (Some (J "行かせる"))) ;;;
  push forms (createForm (J "causative-polite") (J "いかせます") (Some (J "行かせます"))) ;;;
  push forms (createForm (J "causative-passive-plain") (J "いかせられる") (Some (J "行かせられる"))) ;;;
  push forms (createForm (J "causative-passive-polite") (J "いかせられます") (Some (J "行かせられます"))) ;;;
  push forms (createForm (J "imperative-plain") (J "いけ") (Some (J "行け"))) ;;;
  push forms (createForm (J "imperative-polite") (J "いってください") (Some (J "行ってください"))) ;;;
  push forms (createForm (J "imperative-negative") (J "いくな") (Some (J "行くな"))) ;;;
  push forms (createForm (J "conditional-ba") (J "いけば") (Some (J "行けば"))) ;;;
  push forms (createForm (J "conditional-tara") (J "いったら") (Some (J "行ったら"))) ;;;
  push forms (createForm (J "conditional-nara") (J "いくなら") (Some (J "行くなら"))) ;;;
  push forms (createForm (J "tai") (J "いきたい") (Some (J "行きたい"))) ;;;
  push forms (createForm (J "takunai") (J "いきたくない") (Some (J "行きたくない"))) ;;;
  push forms (createForm (J "takatta") (J "いきたかった") (Some (J "行きたかった"))) ;;;
  push forms (createForm (J "takunakatta") (J "いきたくなかった") (Some (J "行きたくなかった"))) ;;;
  push forms (createForm (J "progressive-present") (J "いっている") (Some (J "行っている"))) ;;;
  push forms (createForm (J "progressive-past") (J "いっていた") (Some (J "行っていた"))) ;;;
  push forms (createForm (J "honorific-respectful") (J "おいきになる") (Some (J "お行きになる"))) ;;;
  push forms (createForm (J "honorific-humble") (J "おいきする") (Some (J "お行きする"))) ;;;
  ret forms.

(** くださる, なさる, いらっしゃる, おっしゃる, ござる *)
Definition conjugateHonorific (verb : VerbInfo.t) : M Heap.ref :=
  forms <~ newArray ;;
  let stem := VerbInfo.stem verb in
  push forms (createForm (J "dictionary") (VerbInfo.dictionaryForm verb) None) ;;;
  push forms (createForm (J "te") (stem ++ J "って") None) ;;;
  push forms (createForm (J "masu") (stem ++ J "います") None) ;;;
  push forms (createForm (J "masen") (stem ++ J "いません") None) ;;;
  push forms (createForm (J "mashita") (stem ++ J "いました") None) ;;;
  push forms (createForm (J "masen-deshita") (stem ++ J "いませんでした") None) ;;;
  push forms (createForm (J "nai") (stem ++ J "らない") None) ;;;
  push forms (createForm (J "nakatta") (stem ++ J "らなかった") None) ;;;
  push forms (createForm (J "ta") (stem ++ J "った") None) ;;;
  push forms (createForm (J "volitional-plain") (stem ++ J "ろう") None) ;;;
  push forms (createForm (J "volitional-polite") (stem ++ J "いましょう") None) ;;;
  push forms (createForm (J "potential-plain") (stem ++ J "れる") None) ;;;
  push forms (createForm (J "potential-polite") (stem ++ J "れます") None) ;;;
  push forms (createForm (J "potential-negative") (stem ++ J "れない") None) ;;;
  push forms (createForm (J "passive-plain") (stem ++ J "られる") None) ;;;
  push forms (createForm (J "passive-polite") (stem ++ J "られます") None) ;;;
  push forms (createForm (J "causative-plain") (stem ++ J "らせる") None) ;;;
  push forms (createForm (J "causative-polite") (stem ++ J "らせます") None) ;;;
  push forms (createForm (J "causative-passive-plain") (stem ++ J "らせられる") None) ;;;
  push forms (createForm (J "causative-passive-polite") (stem ++ J "らせられます") None) ;;;
  push forms (createForm (J "imperative-plain") (stem ++ J "い") None) ;;;
  push forms (createForm (J "imperative-polite") (stem ++ J "ってください") None) ;;;
  push forms (createForm (J "imperative-negative") (VerbInfo.dictionaryForm verb ++ J "な") None) ;;;
  push forms (createForm (J "conditional-ba") (stem ++ J "れば") None) ;;;
  push forms (createForm (J "conditional-tara") (stem ++ J "ったら") None) ;;;
  push forms (createForm (J "conditional-nara") (VerbInfo.dictionaryForm verb ++ J "なら") None) ;;;
  push forms (createForm (J "tai") (stem ++ J "いたい") None) ;;;
  push forms (createForm (J "takunai") (stem ++ J "いたくない") None) ;;;
  push forms (createForm (J "takatta") (stem ++ J "いたかった") None) ;;;
  push forms (createForm (J "takunakatta") (stem ++ J "いたくなかった") None) ;;;
  push forms (createForm (J "progressive-present") (stem ++ J "っている") None) ;;;
  push forms (createForm (J "progressive-past") (stem ++ J "っていた") None) ;;;
  push forms (createForm (J "honorific-respectful") (J "お" ++ stem ++ J "いになる") None) ;;;
  push forms (createForm (J "honorific-humble") (J "お" ++ stem ++ J "いする") None) ;;;
  ret forms.

Definition conjugateIrregular (verb : VerbInfo.t) : M Heap.ref :=
  match VerbInfo.type verb with
  | irregular =>
    match VerbInfo.irregularType verb with
    | Some suru => conjugateSuru verb
    | Some kuru => conjugateKuru verb
    | Some aru => conjugateAru verb
    | Some iku => conjugateIku verb
    | Some honorific => conjugateHonorific verb
    | None => throw (J "Unknown irregular type: undefined")
    end
  | _ => throw (J "conjugateIrregular called with non-irregular verb")
  end.

(** *** One-grade verbs (lib/engine/conjugateIchidan.ts) *)

Definition conjugateIchidan (verb : VerbInfo.t) : M Heap.ref :=
  match VerbInfo.type verb with
  | ichidan =>
    forms <~ newArray ;;
    let stem := getIchidanStem verb in
    push forms (createForm (J "dictionary") (VerbInfo.dictionaryForm verb) None) ;;;
    push forms (createForm (J "te") (stem ++ J "て") None) ;;;
    push forms (createForm (J "masu") (stem ++ J "ます") None) ;;;
    push forms (createForm (J "masen") (stem ++ J "ません") None) ;;;
    push forms (createForm (J "mashita") (stem ++ J "ました") None) ;;;
    push forms (createForm (J "masen-deshita") (stem ++ J "ませんでした") None) ;;;
    push forms (createForm (J "nai") (stem ++ J "ない") None) ;;;
    push forms (createForm (J "nakatta") (stem ++ J "なかった") None) ;;;
    push forms (createForm (J "ta") (stem ++ J "た") None) ;;;
    push forms (createForm (J "volitional-plain") (stem ++ J "よう") None) ;;;
    push forms (createForm (J "volitional-polite") (stem ++ J "ましょう") None) ;;;
    push forms (createForm (J "potential-plain") (stem ++ J "られる") None) ;;;
    push forms (createForm (J "potential-polite") (stem ++ J "られます") None) ;;;
    push forms (createForm (J "potential-negative") (stem ++ J "られない") None) ;;;
    push forms (createForm (J "passive-plain") (stem ++ J "られる") None) ;;;
    push forms (createForm (J "passive-polite") (stem ++ J "られます") None) ;;;
    push forms (createForm (J "causative-plain") (stem ++ J "させる") None) ;;;
    push forms (createForm (J "causative-polite") (stem ++ J "させます") None) ;;;
    push forms (createForm (J "causative-passive-plain") (stem ++ J "させられる") None) ;;;
    push forms (createForm (J "causative-passive-polite") (stem ++ J "させられます") None) ;;;
    push forms (createForm (J "imperative-plain") (stem ++ J "ろ") None) ;;;
    push forms (createForm (J "imperative-polite") (stem ++ J "てください") None) ;;;
    push forms (createForm (J "imperative-negative") (VerbInfo.dictionaryForm verb ++ J "な") None) ;;;
    push forms (createForm (J "conditional-ba") (stem ++ J "れば") None) ;;;
    push forms (createForm (J "conditional-tara") (stem ++ J "たら") None) ;;;
    push forms (createForm (J "conditional-nara") (VerbInfo.dictionaryForm verb ++ J "なら") None) ;;;
    push forms (createForm (J "tai") (stem ++ J "たい") None) ;;;
    push forms (createForm (J "takunai") (stem ++ J "たくない") None) ;;;
    push forms (createForm (J "takatta") (stem ++ J "たかった") None) ;;;
    push forms (createForm (J "takunakatta") (stem ++ J "たくなかった") None) ;;;
    push forms (createForm (J "progressive-present") (stem ++ J "ている") None) ;;;
    push forms (createForm (J "progressive-past") (stem ++ J "ていた") None) ;;;
    push forms (createForm (J "honorific-respectful") (J "お" ++ stem ++ J "になる") None) ;;;
    push forms (createForm (J "honorific-humble") (J "お" ++ stem ++ J "する") None) ;;;
    ret forms
  | _ => throw (J "conjugateIchidan called with non-Ichidan verb")
  end.

(** *** Five-grade verbs (lib/engine/conjugateGodan.ts) *)

Definition getGodanStem (verb : VerbInfo.t) (grade : GodanGrade) : M jsstring :=
  GODAN_ENDINGS <~ godanEndings Binding.GODAN_ENDINGS ;;
  match JS.lookup GODAN_ENDINGS (VerbInfo.ending verb) with
  | None => throw (J "Unknown Godan ending: " ++ VerbInfo.ending verb)
  | Some endingMap =>
    match grade with
    | grade_u => ret (VerbInfo.dictionaryForm verb)
    | grade_te | grade_ta => ret (VerbInfo.stem verb ++ gradeEnding endingMap grade)
    | _ => ret (VerbInfo.stem verb ++ gradeEnding endingMap grade)
    end
  end.

Definition getGodanTeForm (verb : VerbInfo.t) : M jsstring :=
  if isIkuVerb verb then ret (VerbInfo.stem verb ++ J "って")
  else getGodanStem verb grade_te.

Definition getGodanTaForm (verb : VerbInfo.t) : M jsstring :=
  if isIkuVerb verb then ret (VerbInfo.stem verb ++ J "った")
  else getGodanStem verb grade_ta.

Definition conjugateGodan (verb : VerbInfo.t) : M Heap.ref :=
  match VerbInfo.type verb with
  | godan =>
    forms <~ newArray ;;
    push forms (createForm (J "dictionary") (VerbInfo.dictionaryForm verb) None) ;;;
    te <~ getGodanTeForm verb ;;
    push forms (createForm (J "te") te None) ;;;
    masuStem <~ getGodanStem verb grade_i ;;
    push forms (createForm (J "masu") (masuStem ++ J "ます") None) ;;;
    push forms (createForm (J "masen") (masuStem ++ J "ません") None) ;;;
    push forms (createForm (J "mashita") (masuStem ++ J "ました") None) ;;;
    push forms (createForm (J "masen-deshita") (masuStem ++ J "ませんでした") None) ;;;
    naiStem <~ getGodanStem verb grade_a ;;
    push forms (createForm (J "nai") (naiStem ++ J "ない") None) ;;;
    push forms (createForm (J "nakatta") (naiStem ++ J "なかった") None) ;;;
    ta <~ getGodanTaForm verb ;;
    push forms (createForm (J "ta") ta None) ;;;
    volitionalStem <~ getGodanStem verb grade_o ;;
    push forms (createForm (J "volitional-plain") (volitionalStem ++ J "う") None) ;;;
    push forms (createForm (J "volitional-polite") (masuStem ++ J "ましょう") None) ;;;
    potentialStem <~ getGodanStem verb grade_e ;;
    push forms (createForm (J "potential-plain") (potentialStem ++ J "る") None) ;;;
    push forms (createForm (J "potential-polite") (potentialStem ++ J "ます") None) ;;;
    push forms (createForm (J "potential-negative") (potentialStem ++ J "ない") None) ;;;
    push forms (createForm (J "passive-plain") (naiStem ++ J "れる") None) ;;;
    push forms (createForm (J "passive-polite") (naiStem ++ J "れます") None) ;;;
    push forms (createForm (J "causative-plain") (naiStem ++ J "せる") None) ;;;
    push forms (createForm (J "causative-polite") (naiStem ++ J "せます") None) ;;;
    push forms (createForm (J "causative-passive-plain") (naiStem ++ J "せられる") None) ;;;
    push forms (createForm (J "causative-passive-polite") (naiStem ++ J "せられます") None) ;;;
    push forms (createForm (J "imperative-plain") potentialStem None) ;;;
    te <~ getGodanTeForm verb ;;
    push forms (createForm (J "imperative-polite") (te ++ J "ください") None) ;;;
    push forms (createForm (J "imperative-negative") (VerbInfo.dictionaryForm verb ++ J "な") None) ;;;
    push forms (createForm (J "conditional-ba") (potentialStem ++ J "ば") None) ;;;
    ta <~ getGodanTaForm verb ;;
    push forms (createForm (J "conditional-tara") (ta ++ J "ら") None) ;;;
    push forms (createForm (J "conditional-nara") (VerbInfo.dictionaryForm verb ++ J "なら") None) ;;;
    push forms (createForm (J "tai") (masuStem ++ J "たい") None) ;;;
    push forms (createForm (J "takunai") (masuStem ++ J "たくない") None) ;;;
    push forms (createForm (J "takatta") (masuStem ++ J "たかった") None) ;;;
    push forms (createForm (J "takunakatta") (masuStem ++ J "たくなかった") None) ;;;
    te <~ getGodanTeForm verb ;;
    push forms (createForm (J "progressive-present") (te ++ J "いる") None) ;;;
    te <~ getGodanTeForm verb ;;
    push forms (createForm (J "progressive-past") (te ++ J "いた") None) ;;;
    push forms (createForm (J "honorific-respectful") (J "お" ++ masuStem ++ J "になる") None) ;;;
    push forms (createForm (J "honorific-humble") (J "お" ++ masuStem ++ J "する") None) ;;;
    ret forms
  | _ => throw (J "conjugateGodan called with non-Godan verb")
  end.

(** *** Facade (lib/engine/conjugate.ts) *)

(** A result as the caller holds it: [forms] is the reference of the
    array that the generator filled. *)
Module ConjugationResult.
Record t := mk {
  verb : VerbInfo.t;
  forms : Heap.ref;
  timestamp : Z
}.
End ConjugationResult.

Inductive ConjugateResult :=
  | Success (result : ConjugationResult.t)
  | Failure (error : ConjugationError.t).

Definition getConjugationFunction (verbInfo : VerbInfo.t)
  : M (VerbInfo.t -> M Heap.ref) :=
  match VerbInfo.type verbInfo with
  | godan => ret conjugateGodan
  | ichidan => ret conjugateIchidan
  | irregular => ret conjugateIrregular
  end.

(** The [try] block of [conjugate] up to the assembly of the result. *)
Definition classifyAndConjugate (input : jsstring) : M (VerbInfo.t * Heap.ref) :=
  verbInfo <~ classifyVerb input ;;
  conjugationFn <~ getConjugationFunction verbInfo ;;
  forms <~ conjugationFn verbInfo ;;
  ret (verbInfo, forms).

(** [conjugate(input)] in a heap: the outcome and the heap it leaves.
    [now] is the reading of [Date.now()] at this call.  The [catch]
    block turns a thrown error into a returned one; what the [try]
    block did to the heap before the [throw] stays done. *)
Definition conjugate (now : Z) (input : jsstring) (h : Heap.t)
  : ConjugateResult * Heap.t :=
  match validateInput input with
  | Some validationError => (Failure validationError, h)
  | None =>
    match classifyAndConjugate input h with
    | (inr (verbInfo, forms), h') =>
      (Success {| ConjugationResult.verb := verbInfo;
                  ConjugationResult.forms := forms;
                  ConjugationResult.timestamp := now |}, h')
    | (inl message, h') => (Failure (handleError message), h')
    end
  end.

End Stateful.

(* ===================================================================== *)
(** ** JSON (the built-in [JSON.stringify] and [JSON.parse]) *)
(* ===================================================================== *)

#[local] Set Warnings "-register-all".

(** The JavaScript values exchanged with JSON text.  Numbers are the
    integers that a double represents exactly (timestamps); fractions
    and exponents are outside the model. *)
Inductive jsvalue :=
  | JUndefined
  | JNull
  | JBool (b : bool)
  | JNumber (n : Z)
  | JString (s : jsstring)
  | JArray (items : list jsvalue)
  | JObject (members : list (jsstring * jsvalue)).

Module JSON.

(** *** [JSON.stringify] *)

Definition hexDigit (d : N) : N := (if d <? 10 then 48 + d else 87 + d)%N.

(** [\uXXXX], four lower-case hexadecimal digits. *)
Definition unicodeEscape (c : N) : jsstring :=
  [92; 117; hexDigit (c / 4096 mod 16); hexDigit (c / 256 mod 16);
   hexDigit (c / 16 mod 16); hexDigit (c mod 16)]%N.

(** One code point of QuoteJSONString; [char] is an element of
    [JS.chars]: a single code unit or a surrogate pair.  The escapes
    are a backslash (92) and a letter, a quote or a backslash; a
    control character without a short escape and a lone surrogate are
    written [\uXXXX]. *)
Definition quoteChar (char : jsstring) : jsstring :=
  match char with
  | [c] =>
    if (c =? 8)%N then [92; 98]%N
    else if (c =? 9)%N then [92; 116]%N
    else if (c =? 10)%N then [92; 110]%N
    else if (c =? 12)%N then [92; 102]%N
    else if (c =? 13)%N then [92; 114]%N
    else if (c =? 34)%N then [92; 34]%N
    else if (c =? 92)%N then [92; 92]%N
    else if (c <? 32)%N || JS.isHighSurrogate c || JS.isLowSurrogate c
    then unicodeEscape c
    else [c]
  | _ => char
  end.

(** QuoteJSONString *)
Definition quote (s : jsstring) : jsstring :=
  [34%N] ++ flat_map quoteChar (JS.chars s) ++ [34%N].

Fixpoint printUint (d : Decimal.uint) : jsstring :=
  match d with
  | Decimal.Nil => []
  | Decimal.D0 d => 48 :: printUint d
  | Decimal.D1 d => 49 :: printUint d
  | Decimal.D2 d => 50 :: printUint d
  | Decimal.D3 d => 51 :: printUint d
  | Decimal.D4 d => 52 :: printUint d
  | Decimal.D5 d => 53 :: printUint d
  | Decimal.D6 d => 54 :: printUint d
  | Decimal.D7 d => 55 :: printUint d
  | Decimal.D8 d => 56 :: printUint d
  | Decimal.D9 d => 57 :: printUint d
  end%N.

(** Number::toString on an integer below 10^21 in absolute value. *)
Definition numberToString (n : Z) : jsstring :=
  match n with
  | Z0 => [48%N]
  | Zpos p => printUint (Pos.to_uint p)
  | Zneg p => 45%N :: printUint (Pos.to_uint p)
  end.

Fixpoint join (parts : list jsstring) : jsstring :=
  match parts with
  | [] => []
  | [p] => p
  | p :: more => p ++ [44%N] ++ join more
  end.

(** SerializeJSONProperty; [None] is [undefined]. *)
Fixpoint serialize (v : jsvalue) : option jsstring :=
  match v with
  | JUndefined => None
  | JNull => Some (J "null")
  | JBool true => Some (J "true")
  | JBool false => Some (J "false")
  | JNumber n => Some (numberToString n)
  | JString s => Some (quote s)
  | JArray items =>
    Some ([91%N]
          ++ join (map (fun item => match serialize item with
                                    | Some text => text
                                    | None => J "null"
                                    end) items)
          ++ [93%N])
  | JObject members =>
    Some ([123%N]
          ++ join (flat_map (fun member =>
                     match member with
                     | (key, x) =>
                       match serialize x with
                       | Some text => [quote key ++ [58%N] ++ text]
                       | None => []
                       end
                     end) members)
          ++ [125%N])
  end.

Definition stringify (v : jsvalue) : option jsstring := serialize v.

(** *** [JSON.parse] *)

Definition isSpace (c : N) : bool :=
  ((c =? 32) || (c =? 9) || (c =? 10) || (c =? 13))%N.

Fixpoint skipWs (s : jsstring) : jsstring :=
  match s with
  | [] => []
  | c :: r => if isSpace c then skipWs r else s
  end.

Definition hexValue (c : N) : option N :=
  (if (48 <=? c) && (c <=? 57) then Some (c - 48)
   else if (97 <=? c) && (c <=? 102) then Some (c - 87)
   else if (65 <=? c) && (c <=? 70) then Some (c - 55)
   else None)%N.

Definition hex4 (h1 h2 h3 h4 : N) : option N :=
  match hexValue h1, hexValue h2, hexValue h3, hexValue h4 with
  | Some a, Some b, Some c, Some d => Some (a * 4096 + b * 256 + c * 16 + d)
  | _, _, _, _ => None
  end%N.

Definition unescape (e : N) : option N :=
  (if e =? 34 then Some 34
   else if e =? 92 then Some 92
   else if e =? 47 then Some 47
   else if e =? 98 then Some 8
   else if e =? 102 then Some 12
   else if e =? 110 then Some 10
   else if e =? 114 then Some 13
   else if e =? 116 then Some 9
   else None)%N.

Definition consChar (c : N) (r : option (jsstring * jsstring))
  : option (jsstring * jsstring) :=
  match r with
  | Some (s, rest) => Some (c :: s, rest)
  | None => None
  end.

(** The characters of a string literal after its opening quote, up to
    and including the closing quote. *)
Fixpoint parseString (s : jsstring) : option (jsstring * jsstring) :=
  match s with
  | [] => None
  | c :: r =>
    if c =? 34 then Some ([], r)
    else if c =? 92 then
      match r with
      | [] => None
      | e :: r' =>
        if e =? 117 then
          match r' with
          | h1 :: h2 :: h3 :: h4 :: r'' =>
            match hex4 h1 h2 h3 h4 with
            | Some u => consChar u (parseString r'')
            | None => None
            end
          | _ => None
          end
        else
          match unescape e with
          | Some u => consChar u (parseString r')
          | None => None
          end
      end
    else if c <? 32 then None
    else consChar c (parseString r)
  end%N.

Definition digit (c : N) : option (Decimal.uint -> Decimal.uint) :=
  (if c =? 48 then Some Decimal.D0
  else if c =? 49 then Some Decimal.D1
  else if c =? 50 then Some Decimal.D2
  else if c =? 51 then Some Decimal.D3
  else if c =? 52 then Some Decimal.D4
  else if c =? 53 then Some Decimal.D5
  else if c =? 54 then Some Decimal.D6
  else if c =? 55 then Some Decimal.D7
  else if c =? 56 then Some Decimal.D8
  else if c =? 57 then Some Decimal.D9
  else None)%N.

Fixpoint spanDigits (s : jsstring) : Decimal.uint * jsstring :=
  match s with
  | [] => (Decimal.Nil, [])
  | c :: r =>
    match digit c with
    | Some d => let (more, rest) := spanDigits r in (d more, rest)
    | None => (Decimal.Nil, s)
    end
  end.

(** An unsigned integer literal: [0], or a non-zero digit and digits. *)
Definition parseNat (s : jsstring) : option (Z * jsstring) :=
  match s with
  | [] => None
  | c :: r =>
    if c =? 48 then Some (0%Z, r)
    else match digit c with
    | Some _ => let (d, rest) := spanDigits s in Some (Z.of_N (Pos.of_uint d), rest)
    | None => None
    end
  end%N.

Definition parseNumber (s : jsstring) : option (Z * jsstring) :=
  match s with
  | [] => None
  | c :: r =>
    if c =? 45 then
      match parseNat r with
      | Some (n, rest) => Some ((- n)%Z, rest)
      | None => None
      end
    else parseNat s
  end%N.

(** A value, the elements of an array after its opening bracket, and
    the members of an object after its opening brace.  [fuel] bounds
    the number of values, elements and members read. *)
Fixpoint parseValue (fuel : nat) (s : jsstring) : option (jsvalue * jsstring) :=
  match fuel with
  | O => None
  | S fuel' =>
    match skipWs s with
    | [] => None
    | c :: r =>
      if c =? 34 then
        match parseString r with
        | Some (str, rest) => Some (JString str, rest)
        | None => None
        end
      else if c =? 91 then
        match skipWs r with
        | [] => None
        | c' :: r' =>
          if c' =? 93 then Some (JArray [], r')
          else match parseElements fuel' r with
          | Some (items, rest) => Some (JArray items, rest)
          | None => None
          end
        end
      else if c =? 123 then
        match skipWs r with
        | [] => None
        | c' :: r' =>
          if c' =? 125 then Some (JObject [], r')
          else match parseMembers fuel' r with
          | Some (members, rest) => Some (JObject members, rest)
          | None => None
          end
        end
      else if JS.startsWith (c :: r) (J "null") then Some (JNull, skipn 4%nat (c :: r))
      else if JS.startsWith (c :: r) (J "true") then Some (JBool true, skipn 4%nat (c :: r))
      else if JS.startsWith (c :: r) (J "false") then Some (JBool false, skipn 5%nat (c :: r))
      else
        match parseNumber (c :: r) with
        | Some (n, rest) => Some (JNumber n, rest)
        | None => None
        end
    end
  end%N
with parseElements (fuel : nat) (s : jsstring) : option (list jsvalue * jsstring) :=
  match fuel with
  | O => None
  | S fuel' =>
    match parseValue fuel' s with
    | None => None
    | Some (item, rest) =>
      match skipWs rest with
      | [] => None
      | c :: r =>
        if c =? 44 then
          match parseElements fuel' r with
          | Some (more, rest') => Some (item :: more, rest')
          | None => None
          end
        else if c =? 93 then Some ([item], r)
        else None
      end
    end
  end%N
with parseMembers (fuel : nat) (s : jsstring)
  : option (list (jsstring * jsvalue) * jsstring) :=
  match fuel with
  | O => None
  | S fuel' =>
    match skipWs s with
    | [] => None
    | q :: r0 =>
      if q =? 34 then
        match parseString r0 with
        | None => None
        | Some (key, rest0) =>
          match skipWs rest0 with
          | [] => None
          | colon :: r1 =>
            if colon =? 58 then
              match parseValue fuel' r1 with
              | None => None
              | Some (x, rest) =>
                match skipWs rest with
                | [] => None
                | c :: r =>
                  if c =? 44 then
                    match parseMembers fuel' r with
                    | Some (more, rest') => Some ((key, x) :: more, rest')
                    | None => None
                    end
                  else if c =? 125 then Some ([(key, x)], r)
                  else None
                end
              end
            else None
          end
        end
      else None
    end
  end%N.

(** [JSON.parse(text)]; [None] is a thrown SyntaxError.  Fuel for one
    value per character is more than a text can need.  Number literals
    are the integer ones, as the values are: a text with a fraction or
    an exponent is outside the model. *)
Definition parse (text : jsstring) : option jsvalue :=
  match parseValue (S (List.length text)) text with
  | Some (v, rest) => match skipWs rest with [] => Some v | _ => None end
  | None => None
  end.

(** [obj.key], reading a property of a parsed value: the last member
    with that key (a later duplicate overrides an earlier one); a
    missing property reads as [undefined]. *)
Definition getProp (v : jsvalue) (key : jsstring) : jsvalue :=
  match v with
  | JObject members =>
    match JS.lookup (List.rev members) key with
    | Some x => x
    | None => JUndefined
    end
  | _ => JUndefined
  end.

End JSON.

(* ===================================================================== *)
(** ** Serialisation of results (types.ts) *)
(* ===================================================================== *)

(** [Number.isSafeInteger(n)]: the integers that a timestamp can be, and
    on which the decimal text of a number is its digits. *)
Definition isSafeInteger (n : Z) : bool := (Z.abs n <=? 9007199254740991)%Z.

(** The string-literal union types: the string that a value is at run
    time. *)
Definition VerbType_text (t : VerbType) : jsstring :=
  match t with
  | godan => J "godan"
  | ichidan => J "ichidan"
  | irregular => J "irregular"
  end.

Definition IrregularType_text (t : IrregularType) : jsstring :=
  match t with
  | suru => J "suru"
  | kuru => J "kuru"
  | aru => J "aru"
  | iku => J "iku"
  | honorific => J "honorific"
  end.

Definition ConjugationCategory_text (c : ConjugationCategory) : jsstring :=
  match c with
  | basic => J "basic"
  | polite => J "polite"
  | negative => J "negative"
  | past => J "past"
  | volitional => J "volitional"
  | potential => J "potential"
  | passive => J "passive"
  | causative => J "causative"
  | causative_passive => J "causative-passive"
  | imperative => J "imperative"
  | conditional => J "conditional"
  | tai_form => J "tai-form"
  | progressive => J "progressive"
  | honorific_cat => J "honorific"
  end.

Definition Formality_text (f : Formality) : jsstring :=
  match f with
  | plain => J "plain"
  | polite_f => J "polite"
  end.

(** The run-time objects of the records, with their properties in the
    order of the object literals that create them.  An optional field
    that is not set reads as [undefined]. *)
Definition optional {A : Type} (value : A -> jsvalue) (field : option A) : jsvalue :=
  match field with
  | Some a => value a
  | None => JUndefined
  end.

Definition VerbInfo_value (verb : VerbInfo.t) : jsvalue :=
  JObject
    [ (J "dictionaryForm", JString (VerbInfo.dictionaryForm verb));
      (J "reading", JString (VerbInfo.reading verb));
      (J "romaji", JString (VerbInfo.romaji verb));
      (J "type", JString (VerbType_text (VerbInfo.type verb)));
      (J "stem", JString (VerbInfo.stem verb));
      (J "ending", JString (VerbInfo.ending verb));
      (J "irregularType",
       optional (fun t => JString (IrregularType_text t)) (VerbInfo.irregularType verb));
      (J "compoundPrefix", optional JString (VerbInfo.compoundPrefix verb)) ].

Definition ConjugationForm_value (form : ConjugationForm.t) : jsvalue :=
  JObject
    [ (J "id", JString (ConjugationForm.id form));
      (J "name", JString (ConjugationForm.name form));
      (J "nameJapanese", JString (ConjugationForm.nameJapanese form));
      (J "kanji", JString (ConjugationForm.kanji form));
      (J "hiragana", JString (ConjugationForm.hiragana form));
      (J "romaji", JString (ConjugationForm.romaji form));
      (J "formality", JString (Formality_text (ConjugationForm.formality form)));
      (J "category", JString (ConjugationCategory_text (ConjugationForm.category form))) ].

(** [serializeResult(result)] *)
Definition serializeResult (result : ConjugationResult.t) : option jsstring :=
  let serializable :=
    JObject
      [ (J "verb", VerbInfo_value (ConjugationResult.verb result));
        (J "forms", JArray (map ConjugationForm_value (ConjugationResult.forms result)));
        (J "timestamp", JNumber (ConjugationResult.timestamp result)) ] in
  JSON.stringify serializable.

(** [deserializeResult(json)].  The text is parsed and the three
    properties of the parsed value are copied into a new object, with no
    check of what they are; [JSON.parse] throws a SyntaxError on a text
    that is not JSON, and reading a property of [null] throws a
    TypeError. *)
Definition deserializeResult (json : jsstring) : throws jsvalue :=
  match JSON.parse json with
  | None => throw (J "SyntaxError")
  | Some JNull => throw (J "TypeError")
  | Some parsed =>
    ret (JObject
           [ (J "verb", JSON.getProp parsed (J "verb"));
             (J "forms", JSON.getProp parsed (J "forms"));
             (J "timestamp", JSON.getProp parsed (J "timestamp")) ])
  end.

(** [x !== y] on the optional fields. *)
Definition differs {A : Type} (text : A -> jsstring) (x y : option A) : bool :=
  match x, y with
  | None, None => false
  | Some a, Some b => negb (JS.eqb (text a) (text b))
  | _, _ => true
  end.

Definition formDiffers (formA formB : ConjugationForm.t) : bool :=
  negb (JS.eqb (ConjugationForm.id formA) (ConjugationForm.id formB))
  || negb (JS.eqb (ConjugationForm.name formA) (ConjugationForm.name formB))
  || negb (JS.eqb (ConjugationForm.nameJapanese formA)
                  (ConjugationForm.nameJapanese formB))
  || negb (JS.eqb (ConjugationForm.kanji formA) (ConjugationForm.kanji formB))
  || negb (JS.eqb (ConjugationForm.hiragana formA) (ConjugationForm.hiragana formB))
  || negb (JS.eqb (ConjugationForm.romaji formA) (ConjugationForm.romaji formB))
  || negb (JS.eqb (Formality_text (ConjugationForm.formality formA))
                  (Formality_text (ConjugationForm.formality formB)))
  || negb (JS.eqb (ConjugationCategory_text (ConjugationForm.category formA))
                  (ConjugationCategory_text (ConjugationForm.category formB))).

(** The loop of [areResultsEquivalent] over two lists of one length. *)
Fixpoint formsDiffer (formsA formsB : list ConjugationForm.t) : bool :=
  match formsA, formsB with
  | formA :: moreA, formB :: moreB =>
    if formDiffers formA formB then true else formsDiffer moreA moreB
  | _, _ => false
  end.

(** [areResultsEquivalent(a, b)] *)
Definition areResultsEquivalent (a b : ConjugationResult.t) : bool :=
  let verbA := ConjugationResult.verb a in
  let verbB := ConjugationResult.verb b in
  if negb (JS.eqb (VerbInfo.dictionaryForm verbA) (VerbInfo.dictionaryForm verbB))
     || negb (JS.eqb (VerbInfo.reading verbA) (VerbInfo.reading verbB))
     || negb (JS.eqb (VerbInfo.romaji verbA) (VerbInfo.romaji verbB))
     || negb (JS.eqb (VerbType_text (VerbInfo.type verbA))
                     (VerbType_text (VerbInfo.type verbB)))
     || negb (JS.eqb (VerbInfo.stem verbA) (VerbInfo.stem verbB))
     || negb (JS.eqb (VerbInfo.ending verbA) (VerbInfo.ending verbB))
     || differs IrregularType_text (VerbInfo.irregularType verbA)
                (VerbInfo.irregularType verbB)
     || differs (fun s => s) (VerbInfo.compoundPrefix verbA)
                (VerbInfo.compoundPrefix verbB)
  then false
  else if negb (ConjugationResult.timestamp a =? ConjugationResult.timestamp b)%Z
  then false
  else if negb (List.length (ConjugationResult.forms a)
                =? List.length (ConjugationResult.forms b))%nat
  then false
  else negb (formsDiffer (ConjugationResult.forms a) (ConjugationResult.forms b)).

(** *** Reading an object through the interfaces

    The types are erased at run time: what [deserializeResult] returns is
    whatever was parsed.  The readers below give the record that an
    object is, if it is one: every required property a string (of the
    union type where the interface says so), every optional property
    that or [undefined]. *)

Definition readString (x : jsvalue) : option jsstring :=
  match x with
  | JString s => Some s
  | _ => None
  end.

Definition readNumber (x : jsvalue) : option Z :=
  match x with
  | JNumber n => Some n
  | _ => None
  end.

Definition readUnion {A : Type} (text : A -> jsstring) (all : list A) (x : jsvalue)
  : option A :=
  match x with
  | JString s => find (fun a => JS.eqb (text a) s) all
  | _ => None
  end.

Definition readOptional {A : Type} (read : jsvalue -> option A) (x : jsvalue)
  : option (option A) :=
  match x with
  | JUndefined => Some None
  | _ => option_map Some (read x)
  end.

Definition readVerbType : jsvalue -> option VerbType :=
  readUnion VerbType_text [godan; ichidan; irregular].

Definition readIrregularType : jsvalue -> option IrregularType :=
  readUnion IrregularType_text [suru; kuru; aru; iku; honorific].

Definition readFormality : jsvalue -> option Formality :=
  readUnion Formality_text [plain; polite_f].

Definition readCategory : jsvalue -> option ConjugationCategory :=
  readUnion ConjugationCategory_text ALL_CONJUGATION_CATEGORIES.

Notation "x <-? c ;; k" := (match c with Some x => k | None => None end)
  (at level 61, c at next level, right associativity).

Definition readVerbInfo (x : jsvalue) : option VerbInfo.t :=
  dictionaryForm <-? readString (JSON.getProp x (J "dictionaryForm")) ;;
  reading <-? readString (JSON.getProp x (J "reading")) ;;
  romaji <-? readString (JSON.getProp x (J "romaji")) ;;
  type <-? readVerbType (JSON.getProp x (J "type")) ;;
  stem <-? readString (JSON.getProp x (J "stem")) ;;
  ending <-? readString (JSON.getProp x (J "ending")) ;;
  irregularType <-? readOptional readIrregularType (JSON.getProp x (J "irregularType")) ;;
  compoundPrefix <-? readOptional readString (JSON.getProp x (J "compoundPrefix")) ;;
  Some (VerbInfo.mk dictionaryForm reading romaji type stem ending
                    irregularType compoundPrefix).

Definition readForm (x : jsvalue) : option ConjugationForm.t :=
  id <-? readString (JSON.getProp x (J "id")) ;;
  name <-? readString (JSON.getProp x (J "name")) ;;
  nameJapanese <-? readString (JSON.getProp x (J "nameJapanese")) ;;
  kanji <-? readString (JSON.getProp x (J "kanji")) ;;
  hiragana <-? readString (JSON.getProp x (J "hiragana")) ;;
  romaji <-? readString (JSON.getProp x (J "romaji")) ;;
  formality <-? readFormality (JSON.getProp x (J "formality")) ;;
  category <-? readCategory (JSON.getProp x (J "category")) ;;
  Some (ConjugationForm.mk id name nameJapanese kanji hiragana romaji
                           formality category).

Fixpoint readAll {A : Type} (read : jsvalue -> option A) (items : list jsvalue)
  : option (list A) :=
  match items with
  | [] => Some []
  | item :: more =>
    a <-? read item ;;
    rest <-? readAll read more ;;
    Some (a :: rest)
  end.

Definition readForms (x : jsvalue) : option (list ConjugationForm.t) :=
  match x with
  | JArray items => readAll readForm items
  | _ => None
  end.

Definition readResult (x : jsvalue) : option ConjugationResult.t :=
  verb <-? readVerbInfo (JSON.getProp x (J "verb")) ;;
  forms <-? readForms (JSON.getProp x (J "forms")) ;;
  timestamp <-? readNumber (JSON.getProp x (J "timestamp")) ;;
  Some (ConjugationResult.mk verb forms timestamp).

(* ===================================================================== *)
(** ** Facade, continued (lib/engine/conjugate.ts) *)
(* ===================================================================== *)

(** The string that an error code is at run time. *)
Definition ConjugationErrorCode_text (code : ConjugationErrorCode) : jsstring :=
  match code with
  | EMPTY_INPUT => J "EMPTY_INPUT"
  | INVALID_CHARACTERS => J "INVALID_CHARACTERS"
  | UNKNOWN_VERB => J "UNKNOWN_VERB"
  | AMBIGUOUS_VERB => J "AMBIGUOUS_VERB"
  | CONJUGATION_FAILED => J "CONJUGATION_FAILED"
  end.

(** [conjugateOrThrow(input)]; the message of the thrown error is the
    template literal of the code, a colon and a space, and the message. *)
Definition conjugateOrThrow (now : Z) (input : jsstring)
  : throws ConjugationResult.t :=
  match conjugate now input with
  | Failure error =>
    throw (ConjugationErrorCode_text (ConjugationError.code error)
           ++ J ": " ++ ConjugationError.message error)
  | Success result => ret result
  end.

(** [isValidVerb(input)] *)
Definition isValidVerb (now : Z) (input : jsstring) : bool :=
  match conjugate now input with
  | Success _ => true
  | Failure _ => false
  end.

(* ===================================================================== *)
(** ** Compound verbs (lib/engine/conjugateCompound.ts) *)
(* ===================================================================== *)

Definition isSuruCompound (verb : jsstring) : bool :=
  JS.endsWith verb (J "する") && (2 <? JS.length verb)%Z
  && negb (JS.eqb verb (J "する")).

Definition isKuruCompound (verb : jsstring) : bool :=
  (JS.endsWith verb (J "くる") || JS.endsWith verb (J "来る"))
  && (2 <? JS.length verb)%Z
  && negb (JS.eqb verb (J "くる"))
  && negb (JS.eqb verb (J "来る")).

Definition getSuruCompoundPrefix (verb : jsstring) : throws jsstring :=
  if negb (isSuruCompound verb) then throw (J "Not a する-compound verb")
  else ret (JS.slice verb 0 (Some (-2)%Z)).

Definition getKuruCompoundPrefix (verb : jsstring) : throws jsstring :=
  if negb (isKuruCompound verb) then throw (J "Not a 来る-compound verb")
  else if JS.endsWith verb (J "来る") then ret (JS.slice verb 0 (Some (-2)%Z))
  else ret (JS.slice verb 0 (Some (-2)%Z)).

(** [conjugateCompound(verb)]; [!verb.compoundPrefix] holds of a prefix
    that is missing and of the empty one. *)
Definition conjugateCompound (verb : VerbInfo.t) : throws (list ConjugationForm.t) :=
  match VerbInfo.type verb with
  | irregular =>
    match VerbInfo.compoundPrefix verb with
    | Some (_ :: _) => conjugateIrregular verb
    | _ => throw (J "Verb does not have a compound prefix")
    end
  | _ => throw (J "conjugateCompound called with non-compound verb")
  end.

(** [verifyPrefixPreservation(forms, prefix)] *)
Definition verifyPrefixPreservation (forms : list ConjugationForm.t)
    (prefix : jsstring) : bool :=
  forallb (fun form =>
             JS.includes (ConjugationForm.hiragana form) prefix
             || JS.startsWith (ConjugationForm.hiragana form) (J "お" ++ prefix))
          forms.

Definition COMMON_SURU_COMPOUNDS : list jsstring :=
  map J [ "勉強する"; "運動する"; "料理する"; "掃除する"; "洗濯する"; "買い物する";
          "散歩する"; "旅行する"; "結婚する"; "卒業する"; "入学する"; "出発する";
          "到着する"; "説明する"; "質問する"; "回答する"; "練習する"; "準備する";
          "心配する"; "安心する" ]%string.

Definition COMMON_KURU_COMPOUNDS : list jsstring :=
  map J [ "持ってくる"; "帰ってくる"; "戻ってくる"; "連れてくる"; "送ってくる";
          "飛んでくる"; "走ってくる"; "歩いてくる" ]%string.

Definition createCompoundVerbInfo (verb : jsstring) : throws VerbInfo.t :=
  classifyVerb verb.

Definition conjugateCompoundVerb (verb : jsstring)
  : throws (list ConjugationForm.t) :=
  verbInfo <- classifyVerb verb ;;
  conjugateCompound verbInfo.

(* ===================================================================== *)
(** ** Form catalogue helpers (data/conjugationForms.ts) *)
(* ===================================================================== *)

(** [getFormsByCategory(category)] *)
Definition getFormsByCategory (category : ConjugationCategory)
  : list FormDefinition.t :=
  filter (fun form => JS.eqb (ConjugationCategory_text (FormDefinition.category form))
                             (ConjugationCategory_text category))
         CONJUGATION_FORMS.

(** [getFormById(id)]; [None] is [undefined]. *)
Definition getFormById (id : jsstring) : option FormDefinition.t :=
  find (fun form => JS.eqb (FormDefinition.id form) id) CONJUGATION_FORMS.

(** [getFormsByFormality(formality)] *)
Definition getFormsByFormality (formality : Formality) : list FormDefinition.t :=
  filter (fun form => JS.eqb (Formality_text (FormDefinition.formality form))
                             (Formality_text formality))
         CONJUGATION_FORMS.

(** [categories.add(category)] on a [Set], which keeps the order of
    first insertion. *)
Definition setAdd (categories : list ConjugationCategory) (category : ConjugationCategory)
  : list ConjugationCategory :=
  if existsb (fun c => JS.eqb (ConjugationCategory_text c)
                              (ConjugationCategory_text category)) categories
  then categories
  else categories ++ [category].

(** [getAllCategories()] *)
Definition getAllCategories : list ConjugationCategory :=
  fold_left (fun categories form => setAdd categories (FormDefinition.category form))
            CONJUGATION_FORMS [].

Definition CATEGORY_ORDER : list ConjugationCategory :=
  [basic; polite; negative; past; volitional; potential; passive; causative;
   causative_passive; imperative; conditional; tai_form; progressive;
   honorific_cat].

(* ===================================================================== *)
(** ** The store (store/useConjugatorStore.ts) *)
(* ===================================================================== *)

Module HistoryEntry.
Record t := mk {
  id : jsstring;
  verb : jsstring;
  verbType : VerbType;
  timestamp : Z
}.
End HistoryEntry.

(** The data of the store; the actions are the functions below, from
    state to state.  An action reads the clock and the random number
    generator where the source does: their readings are arguments. *)
Module ConjugatorState.
Record t := mk {
  inputText : jsstring;
  result : option ConjugationResult.t;
  isLoading : bool;
  error : option ConjugationError.t;
  expandedCategories : list ConjugationCategory;
  history : list HistoryEntry.t
}.
End ConjugatorState.

Definition MAX_HISTORY_ENTRIES : nat := 50.

(** [generateId()]: [now] is the reading of [Date.now()] and [suffix]
    the seven characters at most that
    [Math.random().toString(36).substring(2, 9)] gives. *)
Definition generateId (now : Z) (suffix : jsstring) : jsstring :=
  JSON.numberToString now ++ J "-" ++ suffix.

Definition createHistoryEntry (now : Z) (suffix : jsstring)
    (result : ConjugationResult.t) : HistoryEntry.t :=
  {| HistoryEntry.id := generateId now suffix;
     HistoryEntry.verb := VerbInfo.dictionaryForm (ConjugationResult.verb result);
     HistoryEntry.verbType := VerbInfo.type (ConjugationResult.verb result);
     HistoryEntry.timestamp := ConjugationResult.timestamp result |}.

(** [s.toUpperCase()] on ASCII text, which the names of the categories
    are. *)
Definition toUpperCase (s : jsstring) : jsstring :=
  map (fun c => if (97 <=? c) && (c <=? 122) then c - 32 else c)%N s.

(** A [Map] from categories to lists of forms, in insertion order. *)
Definition mapGet (m : list (ConjugationCategory * list ConjugationForm.t))
    (category : ConjugationCategory) : option (list ConjugationForm.t) :=
  option_map snd
    (find (fun kv => JS.eqb (ConjugationCategory_text (fst kv))
                            (ConjugationCategory_text category)) m).

Fixpoint mapSet (m : list (ConjugationCategory * list ConjugationForm.t))
    (category : ConjugationCategory) (forms : list ConjugationForm.t)
  : list (ConjugationCategory * list ConjugationForm.t) :=
  match m with
  | [] => [(category, forms)]
  | (k, v) :: rest =>
    if JS.eqb (ConjugationCategory_text k) (ConjugationCategory_text category)
    then (k, forms) :: rest
    else (k, v) :: mapSet rest category forms
  end.

(** The text of one form, as [copyForm] and [formatFormsForClipboard]
    write it after the name. *)
Definition formText (form : ConjugationForm.t) : jsstring :=
  ConjugationForm.kanji form ++ J " (" ++ ConjugationForm.hiragana form
  ++ J ") [" ++ ConjugationForm.romaji form ++ J "]".

(** [lines.join('\n')] *)
Fixpoint joinLines (lines : list jsstring) : jsstring :=
  match lines with
  | [] => []
  | [line] => line
  | line :: more => line ++ [10%N] ++ joinLines more
  end.

(** The lines of [formatFormsForClipboard(result)], before the join. *)
Definition clipboardLines (result : ConjugationResult.t) : list jsstring :=
  let verb := ConjugationResult.verb result in
  let lines :=
    [ VerbInfo.dictionaryForm verb ++ J " (" ++ VerbInfo.romaji verb ++ J ")";
      J "Type: " ++ VerbType_text (VerbInfo.type verb);
      J "Stem: " ++ VerbInfo.stem verb;
      [] ] in
  let formsByCategory :=
    fold_left
      (fun formsByCategory form =>
         let existing :=
           match mapGet formsByCategory (ConjugationForm.category form) with
           | Some forms => forms
           | None => []
           end in
         mapSet formsByCategory (ConjugationForm.category form) (existing ++ [form]))
      (ConjugationResult.forms result) [] in
  fold_left
    (fun lines category =>
       match mapGet formsByCategory category with
       | Some (form :: forms) =>
         (lines ++ [J "=== " ++ toUpperCase (ConjugationCategory_text category)
                    ++ J " ==="])
         ++ map (fun form => ConjugationForm.name form ++ J ": " ++ formText form)
                (form :: forms)
         ++ [[]]
       | _ => lines
       end)
    ALL_CONJUGATION_CATEGORIES lines.

Definition formatFormsForClipboard (result : ConjugationResult.t) : jsstring :=
  joinLines (clipboardLines result).

Definition initialState : ConjugatorState.t :=
  {| ConjugatorState.inputText := [];
     ConjugatorState.result := None;
     ConjugatorState.isLoading := false;
     ConjugatorState.error := None;
     ConjugatorState.expandedCategories := [basic; polite];
     ConjugatorState.history := [] |}.

Definition setInputText (text : jsstring) (state : ConjugatorState.t)
  : ConjugatorState.t :=
  {| ConjugatorState.inputText := text;
     ConjugatorState.result := ConjugatorState.result state;
     ConjugatorState.isLoading := ConjugatorState.isLoading state;
     ConjugatorState.error := None;
     ConjugatorState.expandedCategories := ConjugatorState.expandedCategories state;
     ConjugatorState.history := ConjugatorState.history state |}.

Definition setHistory (history : list HistoryEntry.t) (state : ConjugatorState.t)
  : ConjugatorState.t :=
  {| ConjugatorState.inputText := ConjugatorState.inputText state;
     ConjugatorState.result := ConjugatorState.result state;
     ConjugatorState.isLoading := ConjugatorState.isLoading state;
     ConjugatorState.error := ConjugatorState.error state;
     ConjugatorState.expandedCategories := ConjugatorState.expandedCategories state;
     ConjugatorState.history := history |}.

Definition setExpandedCategories (expanded : list ConjugationCategory)
    (state : ConjugatorState.t) : ConjugatorState.t :=
  {| ConjugatorState.inputText := ConjugatorState.inputText state;
     ConjugatorState.result := ConjugatorState.result state;
     ConjugatorState.isLoading := ConjugatorState.isLoading state;
     ConjugatorState.error := ConjugatorState.error state;
     ConjugatorState.expandedCategories := expanded;
     ConjugatorState.history := ConjugatorState.history state |}.

(** [history.findIndex(entry => entry.verb === verb)] together with the
    entry [history[existingIndex]] that the source reads next; [None]
    is the index [-1]. *)
Fixpoint findExisting (verb : jsstring) (history : list HistoryEntry.t)
  : option (nat * HistoryEntry.t) :=
  match history with
  | [] => None
  | entry :: rest =>
    if JS.eqb (HistoryEntry.verb entry) verb then Some (O, entry)
    else match findExisting verb rest with
         | Some (index, existing) => Some (S index, existing)
         | None => None
         end
  end.

(** [addToHistory(result)]; [now] and [suffix] are read only when a
    new entry is created. *)
Definition addToHistory (now : Z) (suffix : jsstring) (result : ConjugationResult.t)
    (state : ConjugatorState.t) : ConjugatorState.t :=
  let history := ConjugatorState.history state in
  let newHistory :=
    match findExisting (VerbInfo.dictionaryForm (ConjugationResult.verb result))
                       history with
    | Some (existingIndex, existing) =>
      {| HistoryEntry.id := HistoryEntry.id existing;
         HistoryEntry.verb := HistoryEntry.verb existing;
         HistoryEntry.verbType := HistoryEntry.verbType existing;
         HistoryEntry.timestamp := ConjugationResult.timestamp result |}
      :: firstn existingIndex history ++ skipn (S existingIndex) history
    | None => createHistoryEntry now suffix result :: history
    end in
  let newHistory :=
    if (MAX_HISTORY_ENTRIES <? List.length newHistory)%nat
    then firstn MAX_HISTORY_ENTRIES newHistory
    else newHistory in
  setHistory newHistory state.

Definition deleteFromHistory (id : jsstring) (state : ConjugatorState.t)
  : ConjugatorState.t :=
  setHistory (filter (fun entry => negb (JS.eqb (HistoryEntry.id entry) id))
                     (ConjugatorState.history state))
             state.

Definition clearHistory (state : ConjugatorState.t) : ConjugatorState.t :=
  setHistory [] state.

(** [expanded.indexOf(category)]; [None] is [-1]. *)
Fixpoint indexOf (expanded : list ConjugationCategory) (category : ConjugationCategory)
  : option nat :=
  match expanded with
  | [] => None
  | c :: rest =>
    if JS.eqb (ConjugationCategory_text c) (ConjugationCategory_text category)
    then Some O
    else option_map S (indexOf rest category)
  end.

(** [toggleCategory(category)]: [splice(index, 1)] or [push]. *)
Definition toggleCategory (category : ConjugationCategory) (state : ConjugatorState.t)
  : ConjugatorState.t :=
  let expanded := ConjugatorState.expandedCategories state in
  setExpandedCategories
    match indexOf expanded category with
    | Some index => firstn index expanded ++ skipn (S index) expanded
    | None => expanded ++ [category]
    end
    state.

Definition expandAllCategories (state : ConjugatorState.t) : ConjugatorState.t :=
  setExpandedCategories ALL_CONJUGATION_CATEGORIES state.

Definition collapseAllCategories (state : ConjugatorState.t) : ConjugatorState.t :=
  setExpandedCategories [] state.

(** The [conjugate] action.  [now] is the reading of the clock when the
    engine assembles the result; [idNow] and [suffix] are read when
    [addToHistory] creates an entry.  The engine returns its errors as
    values, so the [catch] block of the action is never entered. *)
Definition conjugateAction (now idNow : Z) (suffix : jsstring)
    (state : ConjugatorState.t) : ConjugatorState.t :=
  match conjugate now (ConjugatorState.inputText state) with
  | Success result =>
    addToHistory idNow suffix result
      {| ConjugatorState.inputText := ConjugatorState.inputText state;
         ConjugatorState.result := Some result;
         ConjugatorState.isLoading := false;
         ConjugatorState.error := None;
         ConjugatorState.expandedCategories := ConjugatorState.expandedCategories state;
         ConjugatorState.history := ConjugatorState.history state |}
  | Failure error =>
    {| ConjugatorState.inputText := ConjugatorState.inputText state;
       ConjugatorState.result := None;
       ConjugatorState.isLoading := false;
       ConjugatorState.error := Some error;
       ConjugatorState.expandedCategories := ConjugatorState.expandedCategories state;
       ConjugatorState.history := ConjugatorState.history state |}
  end.

Definition restoreFromHistory (entry : HistoryEntry.t) (now idNow : Z)
    (suffix : jsstring) (state : ConjugatorState.t) : ConjugatorState.t :=
  conjugateAction now idNow suffix (setInputText (HistoryEntry.verb entry) state).

(** [initFromUrlParams(params)]; [verb = None] is a missing parameter,
    and the empty string is falsy too.  The boolean is the value
    returned. *)
Definition initFromUrlParams (verb : option jsstring) (now idNow : Z)
    (suffix : jsstring) (state : ConjugatorState.t) : ConjugatorState.t * bool :=
  match verb with
  | Some (c :: text) =>
    (conjugateAction now idNow suffix (setInputText (c :: text) state), true)
  | _ => (state, false)
  end.

Definition reset (state : ConjugatorState.t) : ConjugatorState.t :=
  {| ConjugatorState.inputText := [];
     ConjugatorState.result := None;
     ConjugatorState.isLoading := false;
     ConjugatorState.error := None;
     ConjugatorState.expandedCategories := ConjugatorState.expandedCategories state;
     ConjugatorState.history := ConjugatorState.history state |}.

(** The text that [copyForm(form)] writes to the clipboard. *)
Definition copyForm (form : ConjugationForm.t) : jsstring := formText form.

(** The text that [copyAllForms()] writes to the clipboard; [None] when
    there is no result and nothing is written. *)
Definition copyAllForms (state : ConjugatorState.t) : option jsstring :=
  option_map formatFormsForClipboard (ConjugatorState.result state).

(** [useIsCategoryExpanded(category)] *)
Definition useIsCategoryExpanded (category : ConjugationCategory)
    (state : ConjugatorState.t) : bool :=
  existsb (fun c => JS.eqb (ConjugationCategory_text c)
                           (ConjugationCategory_text category))
          (ConjugatorState.expandedCategories state).

(* ===================================================================== *)
(** ** Romaji conversion (lib/romajiConverter.ts) *)
(* ===================================================================== *)

Definition KATAKANA_TO_ROMAJI : list (jsstring * jsstring) :=
  romajiTable
  [ ("ア", "a"); ("イ", "i"); ("ウ", "u"); ("エ", "e"); ("オ", "o");
    ("カ", "ka"); ("キ", "ki"); ("ク", "ku"); ("ケ", "ke"); ("コ", "ko");
    ("サ", "sa"); ("シ", "shi"); ("ス", "su"); ("セ", "se"); ("ソ", "so");
    ("タ", "ta"); ("チ", "chi"); ("ツ", "tsu"); ("テ", "te"); ("ト", "to");
    ("ナ", "na"); ("ニ", "ni"); ("ヌ", "nu"); ("ネ", "ne"); ("ノ", "no");
    ("ハ", "ha"); ("ヒ", "hi"); ("フ", "fu"); ("ヘ", "he"); ("ホ", "ho");
    ("マ", "ma"); ("ミ", "mi"); ("ム", "mu"); ("メ", "me"); ("モ", "mo");
    ("ヤ", "ya"); ("ユ", "yu"); ("ヨ", "yo");
    ("ラ", "ra"); ("リ", "ri"); ("ル", "ru"); ("レ", "re"); ("ロ", "ro");
    ("ワ", "wa"); ("ヲ", "wo");
    ("ン", "n");
    ("ガ", "ga"); ("ギ", "gi"); ("グ", "gu"); ("ゲ", "ge"); ("ゴ", "go");
    ("ザ", "za"); ("ジ", "ji"); ("ズ", "zu"); ("ゼ", "ze"); ("ゾ", "zo");
    ("ダ", "da"); ("ヂ", "ji"); ("ヅ", "zu"); ("デ", "de"); ("ド", "do");
    ("バ", "ba"); ("ビ", "bi"); ("ブ", "bu"); ("ベ", "be"); ("ボ", "bo");
    ("パ", "pa"); ("ピ", "pi"); ("プ", "pu"); ("ペ", "pe"); ("ポ", "po");
    ("ャ", "ya"); ("ュ", "yu"); ("ョ", "yo");
    ("ッ", EmptyString);
    ("ァ", "a"); ("ィ", "i"); ("ゥ", "u"); ("ェ", "e"); ("ォ", "o");
    ("ヴ", "vu");
    ("ー", EmptyString) ]%string.

Definition KATAKANA_COMBINATIONS : list (jsstring * jsstring) :=
  romajiTable
  [ ("キャ", "kya"); ("キュ", "kyu"); ("キョ", "kyo");
    ("シャ", "sha"); ("シュ", "shu"); ("ショ", "sho");
    ("チャ", "cha"); ("チュ", "chu"); ("チョ", "cho");
    ("ニャ", "nya"); ("ニュ", "nyu"); ("ニョ", "nyo");
    ("ヒャ", "hya"); ("ヒュ", "hyu"); ("ヒョ", "hyo");
    ("ミャ", "mya"); ("ミュ", "myu"); ("ミョ", "myo");
    ("リャ", "rya"); ("リュ", "ryu"); ("リョ", "ryo");
    ("ギャ", "gya"); ("ギュ", "gyu"); ("ギョ", "gyo");
    ("ジャ", "ja"); ("ジュ", "ju"); ("ジョ", "jo");
    ("ビャ", "bya"); ("ビュ", "byu"); ("ビョ", "byo");
    ("ピャ", "pya"); ("ピュ", "pyu"); ("ピョ", "pyo");
    ("ティ", "ti"); ("ディ", "di");
    ("ファ", "fa"); ("フィ", "fi"); ("フェ", "fe"); ("フォ", "fo");
    ("ヴァ", "va"); ("ヴィ", "vi"); ("ヴェ", "ve"); ("ヴォ", "vo") ]%string.

(** [getLastVowel(romaji)]: the loop runs from the last index down and
    returns the first of [a i u e o] it meets, or the empty string. *)
Definition getLastVowel (romaji : jsstring) : jsstring :=
  let vowels := [J "a"; J "i"; J "u"; J "e"; J "o"] in
  match find (fun c => JS.arrayIncludes vowels [c]) (rev romaji) with
  | Some c => [c]
  | None => []
  end.

(** The loop of [katakanaToRomaji]: [katakana] is the part of the string
    from index [i] on and [result] the text built so far, which the long
    vowel mark reads. *)
Fixpoint katakanaToRomajiFrom (katakana result : jsstring) {struct katakana}
  : jsstring :=
  match katakana with
  | [] => result
  | c :: rest =>
    let single :=
      match JS.lookup KATAKANA_TO_ROMAJI [c] with
      | Some romaji => romaji
      | None => [c]
      end in
    match rest with
    | [] =>
      if JS.eqb [c] (J "ー")
      then katakanaToRomajiFrom rest (result ++ getLastVowel result)
      else katakanaToRomajiFrom rest (result ++ single)
    | nextChar :: rest' =>
      if JS.eqb [c] (J "ッ") then
        let fromNext :=
          match JS.lookup KATAKANA_TO_ROMAJI [nextChar] with
          | Some (r0 :: _) => [r0]
          | _ => []
          end in
        match rest' with
        | d :: _ =>
          match JS.lookup KATAKANA_COMBINATIONS [nextChar; d] with
          | Some (r0 :: _) => katakanaToRomajiFrom rest (result ++ [r0])
          | _ => katakanaToRomajiFrom rest (result ++ fromNext)
          end
        | [] => katakanaToRomajiFrom rest (result ++ fromNext)
        end
      else if JS.eqb [c] (J "ー")
      then katakanaToRomajiFrom rest (result ++ getLastVowel result)
      else
        match JS.lookup KATAKANA_COMBINATIONS [c; nextChar] with
        | Some (r0 :: r) => katakanaToRomajiFrom rest' (result ++ r0 :: r)
        | _ => katakanaToRomajiFrom rest (result ++ single)
        end
    end
  end.

Definition katakanaToRomaji (katakana : jsstring) : jsstring :=
  katakanaToRomajiFrom katakana [].

(** The loop of [toRomaji], in the same way. *)
Fixpoint toRomajiFrom (text result : jsstring) {struct text} : jsstring :=
  match text with
  | [] => result
  | c :: rest =>
    let char := [c] in
    let single :=
      if isHiragana char then
        match JS.lookup HIRAGANA_TO_ROMAJI char with
        | Some romaji => romaji
        | None => char
        end
      else if isKatakana char then
        match JS.lookup KATAKANA_TO_ROMAJI char with
        | Some romaji => romaji
        | None => char
        end
      else char in
    match rest with
    | [] =>
      if JS.eqb char (J "ー")
      then toRomajiFrom rest (result ++ getLastVowel result)
      else toRomajiFrom rest (result ++ single)
    | nextChar :: rest' =>
      if JS.eqb char (J "っ") then
        let fromNext :=
          match JS.lookup HIRAGANA_TO_ROMAJI [nextChar] with
          | Some (r0 :: _) => [r0]
          | _ => []
          end in
        match rest' with
        | d :: _ =>
          match JS.lookup HIRAGANA_COMBINATIONS [nextChar; d] with
          | Some (r0 :: _) => toRomajiFrom rest (result ++ [r0])
          | _ => toRomajiFrom rest (result ++ fromNext)
          end
        | [] => toRomajiFrom rest (result ++ fromNext)
        end
      else if JS.eqb char (J "ッ") then
        let fromNext :=
          match JS.lookup KATAKANA_TO_ROMAJI [nextChar] with
          | Some (r0 :: _) => [r0]
          | _ => []
          end in
        match rest' with
        | d :: _ =>
          match JS.lookup KATAKANA_COMBINATIONS [nextChar; d] with
          | Some (r0 :: _) => toRomajiFrom rest (result ++ [r0])
          | _ => toRomajiFrom rest (result ++ fromNext)
          end
        | [] => toRomajiFrom rest (result ++ fromNext)
        end
      else if JS.eqb char (J "ー")
      then toRomajiFrom rest (result ++ getLastVowel result)
      else
        match (if isHiragana char
               then JS.lookup HIRAGANA_COMBINATIONS [c; nextChar]
               else None) with
        | Some (r0 :: r) => toRomajiFrom rest' (result ++ r0 :: r)
        | _ =>
          match (if isKatakana char
                 then JS.lookup KATAKANA_COMBINATIONS [c; nextChar]
                 else None) with
          | Some (r0 :: r) => toRomajiFrom rest' (result ++ r0 :: r)
          | _ => toRomajiFrom rest (result ++ single)
          end
        end
    end
  end.

Definition toRomaji (text : jsstring) : jsstring := toRomajiFrom text [].

(* ===================================================================== *)
(** * Vocabulary of the properties *)
(* ===================================================================== *)

(** The five ways in which [classifyVerb] accepts a trimmed verb. *)
Inductive classifies (verb : jsstring) : VerbInfo.t -> Prop :=
  | classifies_suru (p : jsstring) :
      p <> [] -> verb = p ++ J "する" ->
      classifies verb
        (VerbInfo.mk verb verb (hiraganaToRomaji verb) irregular p (J "する")
                     (Some suru) (Some p))
  | classifies_kuru (p base : jsstring) :
      p <> [] -> In base KURU_COMPOUND_SUFFIXES -> verb = p ++ base ->
      classifies verb
        (VerbInfo.mk verb verb (hiraganaToRomaji verb) irregular p base
                     (Some kuru) (Some p))
  | classifies_irregular (t : IrregularType) :
      getIrregularType verb = Some t ->
      classifies verb
        (VerbInfo.mk verb verb (hiraganaToRomaji verb) irregular (getStem verb)
                     (getLastChar verb) (Some t) None)
  | classifies_ichidan :
      getIrregularType verb = None ->
      getLastChar verb = J "る" ->
      classifies verb
        (VerbInfo.mk verb verb (hiraganaToRomaji verb) ichidan (getStem verb)
                     (J "る") None None)
  | classifies_godan :
      getIrregularType verb = None ->
      In (getLastChar verb) GODAN_ENDING_CHARS ->
      classifies verb
        (VerbInfo.mk verb verb (hiraganaToRomaji verb) godan (getStem verb)
                     (getLastChar verb) None None).

(** The generator selected by [getConjugationFunction]. *)
Definition generator (v : VerbInfo.t) : throws (list ConjugationForm.t) :=
  conjugationFn <- getConjugationFunction v ;; conjugationFn v.

(** The display metadata of a form, and of a catalogue entry. *)
Definition formMeta (f : ConjugationForm.t) :=
  (ConjugationForm.id f, ConjugationForm.name f, ConjugationForm.nameJapanese f,
   ConjugationForm.formality f, ConjugationForm.category f).

Definition entryMeta (d : FormDefinition.t) :=
  (FormDefinition.id d, FormDefinition.name d, FormDefinition.nameJa d,
   FormDefinition.formality d, FormDefinition.category d).

(** A list of forms follows the catalogue: one form per catalogue entry,
    in catalogue order, carrying the entry's metadata, and the romaji of
    each form is the romanisation of its hiragana field. *)
Definition followsCatalogue (forms : list ConjugationForm.t) : Prop :=
  map formMeta forms = map entryMeta CONJUGATION_FORMS
  /\ Forall (fun f => ConjugationForm.romaji f
                      = hiraganaToRomaji (ConjugationForm.hiragana f)) forms.

(** The regular five-grade pattern: the 34 forms of a verb with
    dictionary form [dict] and stem [stem] whose terminal has the
    table row [m], in catalogue order. *)
Definition godanPattern (dict stem : jsstring) (m : GodanConjugationMap.t)
  : list jsstring :=
  let a := stem ++ GodanConjugationMap.a m in
  let i := stem ++ GodanConjugationMap.i m in
  let e := stem ++ GodanConjugationMap.e m in
  let o := stem ++ GodanConjugationMap.o m in
  let te := stem ++ GodanConjugationMap.te m in
  let ta := stem ++ GodanConjugationMap.ta m in
  [ dict; te;
    i ++ J "ます"; i ++ J "ません"; i ++ J "ました"; i ++ J "ませんでした";
    a ++ J "ない"; a ++ J "なかった";
    ta;
    o ++ J "う"; i ++ J "ましょう";
    e ++ J "る"; e ++ J "ます"; e ++ J "ない";
    a ++ J "れる"; a ++ J "れます";
    a ++ J "せる"; a ++ J "せます";
    a ++ J "せられる"; a ++ J "せられます";
    e; te ++ J "ください"; dict ++ J "な";
    e ++ J "ば"; ta ++ J "ら"; dict ++ J "なら";
    i ++ J "たい"; i ++ J "たくない"; i ++ J "たかった"; i ++ J "たくなかった";
    te ++ J "いる"; te ++ J "いた";
    J "お" ++ i ++ J "になる"; J "お" ++ i ++ J "する" ].

(** [forms.find(form => form.id === formId)] *)
Definition findForm (forms : list ConjugationForm.t) (formId : jsstring)
  : option ConjugationForm.t :=
  find (fun form => JS.eqb (ConjugationForm.id form) formId) forms.

(** The nine five-grade terminal kana. *)
Definition fiveGradeTerminals : list jsstring :=
  map J ["う"; "く"; "ぐ"; "す"; "つ"; "ぬ"; "ぶ"; "む"; "る"]%string.

(** Two outcomes of [conjugate] that agree on everything but the
    timestamp: the same error, or results with the same verb
    information and the same forms. *)
Definition sameExceptTimestamp (a b : ConjugateResult) : Prop :=
  match a, b with
  | Success r1, Success r2 =>
    ConjugationResult.verb r1 = ConjugationResult.verb r2
    /\ ConjugationResult.forms r1 = ConjugationResult.forms r2
  | Failure e1, Failure e2 => e1 = e2
  | _, _ => False
  end.

(** The heap holds the tables as the modules created them, and
    whatever else has been allocated since. *)
Definition tables (h : Heap.t) : Prop := exists others, h = moduleState ++ others.

(** A step that only reads: in a heap that holds the tables it has the
    outcome [c] and leaves the heap as it is. *)
Definition readonly {A : Type} (m : Stateful.M A) (c : throws A) : Prop :=
  forall h, tables h -> m h = (c, h).

(** A generator at work on its array.  The array is the last cell of
    the heap, after [pre], and holds [items]; from there the steps [m]
    have the outcome of the steps [c] on the list [items], change
    nothing but that cell, and on success leave in it the list that
    [c] returns and return its reference. *)
Definition generates (pre : Heap.t) (items : list ConjugationForm.t)
    (m : Stateful.M Heap.ref) (c : throws (list ConjugationForm.t)) : Prop :=
  exists items',
    m (pre ++ [Heap.Forms items])
    = (match c with inl message => inl message | inr _ => inr (List.length pre) end,
       pre ++ [Heap.Forms items'])
    /\ (forall forms, c = inr forms -> items' = forms).

(** A call of a generator in the heap [h]: it has the outcome of [c],
    it changes no cell of [h], and on success it returns the reference
    of one new cell, which holds the forms that [c] returns. *)
Definition runs (m : Stateful.M Heap.ref) (c : throws (list ConjugationForm.t))
    (h : Heap.t) : Prop :=
  exists cells,
    m h = (match c with inl message => inl message | inr _ => inr (List.length h) end,
           h ++ cells)
    /\ (forall forms, c = inr forms -> cells = [Heap.Forms forms]).

(** The outcome as its holder reads it in the heap [h]: the array of
    the forms is read through its reference. *)
Definition resultIn (h : Heap.t) (r : Stateful.ConjugateResult)
  : option ConjugateResult :=
  match r with
  | Stateful.Failure error => Some (Failure error)
  | Stateful.Success result =>
    match nth_error h (Stateful.ConjugationResult.forms result) with
    | Some (Heap.Forms items) =>
      Some (Success
              {| ConjugationResult.verb := Stateful.ConjugationResult.verb result;
                 ConjugationResult.forms := items;
                 ConjugationResult.timestamp :=
                   Stateful.ConjugationResult.timestamp result |})
    | _ => None
    end
  end.

(** A session: the calls [conjugate(input)] made one after the other for
    the given inputs, starting in world [w] and in the heap [h]; each
    call runs in the heap that the call before it left.  [clock] is the
    reading of [Date.now()] in a world and [advance] the passage of
    time from one call to the next; both are arbitrary.  The session
    gives the outcomes in the order of the calls and the heap after the
    last call. *)
Fixpoint session {World : Type} (clock : World -> Z) (advance : World -> World)
    (w : World) (inputs : list jsstring) (h : Heap.t)
  : list Stateful.ConjugateResult * Heap.t :=
  match inputs with
  | [] => ([], h)
  | input :: more =>
    let (r, h') := Stateful.conjugate (clock w) input h in
    let (rs, h'') := session clock advance (advance w) more h' in
    (r :: rs, h'')
  end.

(** Prefix preservation for the forms of a compound verb with prefix
    [p]: there are 34 forms; the hiragana of each contains [p], at its
    start or, in the honorific category, right after a leading お; and
    two forms are of the honorific category. *)
Definition prefixPreserved (p : jsstring) (forms : list ConjugationForm.t) : Prop :=
  List.length forms = 34%nat
  /\ Forall (fun f =>
       JS.includes (ConjugationForm.hiragana f) p = true
       /\ match ConjugationForm.category f with
          | honorific_cat =>
            exists rest, ConjugationForm.hiragana f = J "お" ++ p ++ rest
          | _ => exists rest, ConjugationForm.hiragana f = p ++ rest
          end) forms
  /\ List.length
       (filter (fun f => match ConjugationForm.category f with
                         | honorific_cat => true
                         | _ => false
                         end) forms) = 2%nat.

(** The euphonic sound changes of the connective and the past form, by
    terminal kana: the pair (connective suffix, past suffix). *)
Definition euphonic (terminal : jsstring) : option (jsstring * jsstring) :=
  if JS.arrayIncludes [J "う"; J "つ"; J "る"] terminal then Some (J "って", J "った")
  else if JS.arrayIncludes [J "む"; J "ぶ"; J "ぬ"] terminal then Some (J "んで", J "んだ")
  else if JS.eqb terminal (J "く") then Some (J "いて", J "いた")
  else if JS.eqb terminal (J "ぐ") then Some (J "いで", J "いだ")
  else if JS.eqb terminal (J "す") then Some (J "して", J "した")
  else None.

(** The regular pattern of a verb with terminal く, by form identifier. *)
Definition regularKuPattern (dict stem : jsstring) : list (jsstring * jsstring) :=
  combine (map FormDefinition.id CONJUGATION_FORMS)
          (godanPattern dict stem (godanRow "か" "き" "け" "こ" "いて" "いた")).

(** The forms that the five-grade generator builds on the connective
    or on the past form. *)
Definition builtOnTeTa : list jsstring :=
  [J "imperative-polite"; J "conditional-tara"; J "progressive-present";
   J "progressive-past"].

Definition kanjiOf (forms : list ConjugationForm.t) (formId : jsstring)
  : option jsstring :=
  option_map ConjugationForm.kanji (findForm forms formId).

Definition hiraganaOf (forms : list ConjugationForm.t) (formId : jsstring)
  : option jsstring :=
  option_map ConjugationForm.hiragana (findForm forms formId).

Definition catalogueIds : list jsstring := map FormDefinition.id CONJUGATION_FORMS.

Definition ikuForms : list ConjugationForm.t :=
  match conjugateIku (VerbInfo.mk [] [] [] irregular [] [] (Some iku) None) with
  | inr forms => forms
  | inl _ => []
  end.

(** What may follow a number: the end of the text, or a character
    that is not a digit. *)
Definition delimited (rest : jsstring) : Prop :=
  match rest with
  | [] => True
  | c :: _ => JSON.digit c = None
  end.

(** What an array element is serialised as. *)
Definition itemText (item : jsvalue) : jsstring :=
  match JSON.serialize item with
  | Some text => text
  | None => J "null"
  end.

(** The value that is read back from the serialisation of [v]: members
    whose value is [undefined] are gone, and [undefined] array elements
    have become [null]. *)
Fixpoint settle (v : jsvalue) : jsvalue :=
  match v with
  | JArray items =>
    JArray (map (fun item => match item with
                             | JUndefined => JNull
                             | _ => settle item
                             end) items)
  | JObject members =>
    JObject (flat_map (fun member =>
               match member with
               | (key, JUndefined) => []
               | (key, x) => [(key, settle x)]
               end) members)
  | _ => v
  end.

Definition settleItem (item : jsvalue) : jsvalue :=
  match item with
  | JUndefined => JNull
  | _ => settle item
  end.

(** The number of values, elements and members in the serialisation. *)
Fixpoint size (v : jsvalue) : nat :=
  match v with
  | JArray items => S (list_sum (map (fun item => S (size item)) items))
  | JObject members =>
    S (list_sum (map (fun member =>
                        match member with
                        | (_, JUndefined) => O
                        | (_, x) => S (size x)
                        end) members))
  | _ => 1
  end.

(** [text] is read as the value [x] with fuel [n], whatever follows. *)
Definition reads (n : nat) (text : jsstring) (x : jsvalue) : Prop :=
  (n <= List.length text)%nat
  /\ (exists c t, text = c :: t /\ JSON.isSpace c = false /\ c <> 93%N)
  /\ forall fuel rest,
       (n <= fuel)%nat -> delimited rest ->
       JSON.parseValue fuel (text ++ rest) = Some (x, rest).

(** Induction on values, through the elements of arrays and the
    members of objects. *)
Fixpoint jsvalue_induction (P : jsvalue -> Prop)
    (Hundefined : P JUndefined) (Hnull : P JNull) (Hbool : forall b, P (JBool b))
    (Hnumber : forall n, P (JNumber n)) (Hstring : forall s, P (JString s))
    (Harray : forall items, Forall P items -> P (JArray items))
    (Hobject : forall members,
        Forall (fun member => P (snd member)) members -> P (JObject members))
    (v : jsvalue) {struct v} : P v :=
  let rec :=
    jsvalue_induction P Hundefined Hnull Hbool Hnumber Hstring Harray Hobject in
  match v with
  | JUndefined => Hundefined
  | JNull => Hnull
  | JBool b => Hbool b
  | JNumber n => Hnumber n
  | JString s => Hstring s
  | JArray items =>
    Harray items
      ((fix all (l : list jsvalue) : Forall P l :=
          match l with
          | [] => Forall_nil P
          | x :: r => Forall_cons x (rec x) (all r)
          end) items)
  | JObject members =>
    Hobject members
      ((fix all (l : list (jsstring * jsvalue))
          : Forall (fun member => P (snd member)) l :=
          match l with
          | [] => Forall_nil _
          | m :: r => Forall_cons m (rec (snd m)) (all r)
          end) members)
  end.

(** The members that are serialised: those whose value is defined. *)
Definition kept (members : list (jsstring * jsvalue)) : list (jsstring * jsvalue) :=
  flat_map (fun member =>
              match member with
              | (_, JUndefined) => []
              | _ => [member]
              end) members.

Definition japaneseUnit (c : N) : bool :=
  isHiragana [c] || isKatakana [c] || isKanji [c].

(** What [prefixPreserved] asks of one form, by category and hiragana. *)
Definition keepsPrefix (p : jsstring) (c : ConjugationCategory) (h : jsstring) : Prop :=
  JS.includes h p = true
  /\ match c with
     | honorific_cat => exists rest, h = J "お" ++ p ++ rest
     | _ => exists rest, h = p ++ rest
     end.

(** ** The store: history *)

(** The history without its first entry for a verb. *)
Fixpoint withoutVerb (verb : jsstring) (history : list HistoryEntry.t)
  : list HistoryEntry.t :=
  match history with
  | [] => []
  | entry :: rest =>
    if JS.eqb (HistoryEntry.verb entry) verb then rest
    else entry :: withoutVerb verb rest
  end.

(** The entry that [addToHistory] puts in front. *)
Definition frontEntry (now : Z) (suffix : jsstring) (result : ConjugationResult.t)
    (history : list HistoryEntry.t) : HistoryEntry.t :=
  match findExisting (VerbInfo.dictionaryForm (ConjugationResult.verb result))
                     history with
  | Some (_, existing) =>
    HistoryEntry.mk (HistoryEntry.id existing) (HistoryEntry.verb existing)
                    (HistoryEntry.verbType existing)
                    (ConjugationResult.timestamp result)
  | None => createHistoryEntry now suffix result
  end.

(** ** The store: invariants *)

(** The actions of the store, with the readings of the clock and of
    the random number generator that they make. *)
Inductive StoreAction :=
  | SetInputText (text : jsstring)
  | ConjugateAction (now idNow : Z) (suffix : jsstring)
  | ToggleCategory (category : ConjugationCategory)
  | ExpandAllCategories
  | CollapseAllCategories
  | AddToHistory (now : Z) (suffix : jsstring) (result : ConjugationResult.t)
  | DeleteFromHistory (id : jsstring)
  | ClearHistory
  | RestoreFromHistory (entry : HistoryEntry.t) (now idNow : Z) (suffix : jsstring)
  | InitFromUrlParams (verb : option jsstring) (now idNow : Z) (suffix : jsstring)
  | Reset.

Definition perform (action : StoreAction) (state : ConjugatorState.t)
  : ConjugatorState.t :=
  match action with
  | SetInputText text => setInputText text state
  | ConjugateAction now idNow suffix => conjugateAction now idNow suffix state
  | ToggleCategory category => toggleCategory category state
  | ExpandAllCategories => expandAllCategories state
  | CollapseAllCategories => collapseAllCategories state
  | AddToHistory now suffix result => addToHistory now suffix result state
  | DeleteFromHistory id => deleteFromHistory id state
  | ClearHistory => clearHistory state
  | RestoreFromHistory entry now idNow suffix =>
    restoreFromHistory entry now idNow suffix state
  | InitFromUrlParams verb now idNow suffix =>
    fst (initFromUrlParams verb now idNow suffix state)
  | Reset => reset state
  end.

(** What holds of the store between actions. *)
Definition storeInvariant (state : ConjugatorState.t) : Prop :=
  (List.length (ConjugatorState.history state) <= 50)%nat
  /\ NoDup (map HistoryEntry.verb (ConjugatorState.history state))
  /\ NoDup (ConjugatorState.expandedCategories state)
  /\ ConjugatorState.isLoading state = false
  /\ (ConjugatorState.result state = None \/ ConjugatorState.error state = None).

(** A character with an entry in one of the two tables of single kana. *)
Definition kanaKey (c : N) : bool :=
  match JS.lookup HIRAGANA_TO_ROMAJI [c], JS.lookup KATAKANA_TO_ROMAJI [c] with
  | None, None => false
  | _, _ => true
  end.

(** ** The clipboard text *)

(** The lines that the clipboard text has for one category: nothing
    when the result has no form of the category; otherwise the heading,
    one line for each form of the category in the order of the result,
    and an empty line. *)
Definition categoryBlock (forms : list ConjugationForm.t)
    (category : ConjugationCategory) : list jsstring :=
  match filter (fun form =>
                  JS.eqb (ConjugationCategory_text (ConjugationForm.category form))
                         (ConjugationCategory_text category)) forms with
  | [] => []
  | group =>
    [J "=== " ++ toUpperCase (ConjugationCategory_text category) ++ J " ==="]
    ++ map (fun form => ConjugationForm.name form ++ J ": " ++ formText form) group
    ++ [[]]
  end.

(* ===================================================================== *)
(** * Properties *)
(* ===================================================================== *)

(** ** Examples *)

Example lit_ru : J "る" = [12427%N].
Proof. reflexivity. Qed.

Example lit_kuru : J "来る" = [26469%N; 12427%N].
Proof. reflexivity. Qed.

Example slice_last : JS.slice (J "書く") (-1) None = J "く".
Proof. reflexivity. Qed.

Example slice_stem : JS.slice (J "書く") 0 (Some (-1)%Z) = J "書".
Proof. reflexivity. Qed.

Example trim_ex : JS.trim (J "  書く　 ") = J "書く".
Proof. reflexivity. Qed.

(** Scratch checks of the model against the repository's unit tests. *)
Example classify_kaku :
  classifyVerb (J "書く") =
  inr (VerbInfo.mk (J "書く") (J "書く") (J "書ku") godan (J "書") (J "く") None None).
Proof. vm_compute. reflexivity. Qed.

Example classify_benkyou_suru :
  classifyVerb (J "勉強する") =
  inr (VerbInfo.mk (J "勉強する") (J "勉強する") (J "勉強suru") irregular (J "勉強")
         (J "する") (Some suru) (Some (J "勉強"))).
Proof. vm_compute. reflexivity. Qed.

Example conjugate_taberu_potential :
  option_map ConjugationForm.hiragana
    (conjugateToForm 0 (J "食べる") (J "potential-plain")) = Some (J "食べられる").
Proof. vm_compute. reflexivity. Qed.

Example conjugate_kaku_te :
  option_map ConjugationForm.hiragana (conjugateToForm 0 (J "書く") (J "te"))
  = Some (J "書いて").
Proof. vm_compute. reflexivity. Qed.

Example conjugate_irassharu_romaji :
  option_map ConjugationForm.romaji (conjugateToForm 0 (J "いらっしゃる") (J "masu"))
  = Some (J "irasshaimasu").
Proof. vm_compute. reflexivity. Qed.

Example conjugate_spaces :
  conjugate 0 (J "   ") =
  Failure (ConjugationError.mk EMPTY_INPUT (J "Please enter a Japanese verb")).
Proof. vm_compute. reflexivity. Qed.

Example conjugate_unknown :
  conjugate 0 (J "たべ") =
  Failure (ConjugationError.mk UNKNOWN_VERB
    (J "This verb is not recognized. Please check the spelling or try the dictionary form")).
Proof. vm_compute. reflexivity. Qed.

(** ** Strings and tables *)

Lemma getStem_getLastChar (s : jsstring) : getStem s ++ getLastChar s = s.
Proof.
  unfold getStem, getLastChar, JS.slice, JS.length.
  set (n := List.length s).
  change (0 <? 0)%Z with false. change (-1 <? 0)%Z with true. cbv iota.
  replace (Z.to_nat (Z.min 0 (Z.of_nat n))) with 0%nat by lia.
  replace (Z.to_nat (Z.max (Z.of_nat n + -1) 0)) with (n - 1)%nat by lia.
  replace (Z.to_nat (Z.max (Z.max (Z.of_nat n + -1) 0 - Z.min 0 (Z.of_nat n)) 0))
    with (n - 1)%nat by lia.
  replace (Z.to_nat (Z.max (Z.of_nat n - Z.max (Z.of_nat n + -1) 0) 0))
    with (n - (n - 1))%nat by lia.
  simpl skipn at 1.
  rewrite (firstn_all2 (n := n - (n - 1))).
  - apply firstn_skipn.
  - rewrite length_skipn. fold n. lia.
Qed.

Lemma getLastChar_snoc (s : jsstring) (c : N) : getLastChar (s ++ [c]) = [c].
Proof.
  unfold getLastChar, JS.slice, JS.length. rewrite length_app. simpl List.length.
  set (n := List.length s).
  change (-1 <? 0)%Z with true. cbv iota.
  replace (Z.to_nat (Z.max (Z.of_nat (n + 1) + -1) 0)) with n by lia.
  replace (Z.to_nat _) with 1%nat by lia.
  subst n. rewrite skipn_app, skipn_all, Nat.sub_diag. reflexivity.
Qed.

Lemma slice_drop_suffix (p suffix : jsstring) :
  suffix <> [] ->
  JS.slice (p ++ suffix) 0 (Some (- JS.length suffix)%Z) = p.
Proof.
  intros Hs. unfold JS.slice, JS.length. rewrite length_app.
  assert (0 < List.length suffix)%nat by (destruct suffix; simpl; [congruence|lia]).
  change (0 <? 0)%Z with false. cbv iota.
  destruct (Z.ltb_spec (- Z.of_nat (List.length suffix)) 0); [|lia].
  replace (Z.to_nat (Z.min _ _)) with 0%nat by lia.
  replace (Z.to_nat _) with (List.length p) by lia.
  simpl skipn. rewrite firstn_app, Nat.sub_diag, firstn_all. simpl.
  apply app_nil_r.
Qed.

Lemma slice_drop_prefix (p suffix : jsstring) :
  JS.slice (p ++ suffix) (JS.length p) None = suffix.
Proof.
  unfold JS.slice, JS.length. rewrite length_app.
  destruct (Z.ltb_spec (Z.of_nat (List.length p)) 0); [lia|].
  replace (Z.to_nat (Z.min _ _)) with (List.length p) by lia.
  replace (Z.to_nat _) with (List.length suffix) by lia.
  rewrite skipn_app, skipn_all, Nat.sub_diag. simpl. apply firstn_all.
Qed.

Lemma jseqb_eq (a b : jsstring) : JS.eqb a b = true <-> a = b.
Proof.
  revert b; induction a as [|x a IH]; intros [|y b]; simpl; split;
    try congruence; try reflexivity.
  - intros H. apply andb_true_iff in H as [Hx Hr].
    apply N.eqb_eq in Hx. apply IH in Hr. congruence.
  - intros H. injection H as -> ->. rewrite N.eqb_refl. simpl.
    apply IH. reflexivity.
Qed.

Lemma jseqb_refl (a : jsstring) : JS.eqb a a = true.
Proof. apply jseqb_eq. reflexivity. Qed.

Lemma jseqb_neq (a b : jsstring) : JS.eqb a b = false <-> a <> b.
Proof.
  split.
  - intros H E. apply jseqb_eq in E. congruence.
  - intros H. destruct (JS.eqb a b) eqn:E; [|reflexivity].
    apply jseqb_eq in E. contradiction.
Qed.

Lemma arrayIncludes_In (arr : list jsstring) (x : jsstring) :
  JS.arrayIncludes arr x = true <-> In x arr.
Proof.
  unfold JS.arrayIncludes. rewrite existsb_exists. split.
  - intros [y [Hin Heq]]. apply jseqb_eq in Heq. subst. exact Hin.
  - intros Hin. exists x. split; [exact Hin | apply jseqb_refl].
Qed.

Lemma lookup_Some {V : Type} (obj : list (jsstring * V)) (k : jsstring) (v : V) :
  JS.lookup obj k = Some v -> In (k, v) obj.
Proof.
  induction obj as [|[k' v'] obj IH]; simpl; [discriminate|].
  destruct (JS.eqb k' k) eqn:E.
  - intros H. injection H as ->. apply jseqb_eq in E. subst. left. reflexivity.
  - intros H. right. apply IH. exact H.
Qed.

Lemma lookup_keys {V : Type} (obj : list (jsstring * V)) (k : jsstring) :
  In k (JS.keys obj) -> exists v, JS.lookup obj k = Some v.
Proof.
  induction obj as [|[k' v'] obj IH]; simpl; [contradiction|].
  intros [E | Hin].
  - subst. rewrite jseqb_refl. eauto.
  - destruct (JS.eqb k' k); eauto.
Qed.

Lemma getStem_snoc (s : jsstring) (c : N) : getStem (s ++ [c]) = s.
Proof.
  pose proof (getStem_getLastChar (s ++ [c])) as H.
  rewrite getLastChar_snoc in H. apply app_inv_tail in H. exact H.
Qed.

Lemma getLastChar_app (p s : jsstring) :
  s <> [] -> getLastChar (p ++ s) = getLastChar s.
Proof.
  intros Hs. destruct (exists_last Hs) as [s' [c ->]].
  rewrite app_assoc, !getLastChar_snoc. reflexivity.
Qed.

Lemma endsWith_true (v suffix : jsstring) :
  JS.endsWith v suffix = true ->
  v = firstn (List.length v - List.length suffix) v ++ suffix
  /\ (List.length suffix <= List.length v)%nat.
Proof.
  unfold JS.endsWith, JS.length. intros H.
  destruct (Z.ltb_spec (Z.of_nat (List.length v) - Z.of_nat (List.length suffix)) 0)
    as [Hlt | Hge]; [discriminate|].
  apply jseqb_eq in H.
  replace (Z.to_nat _) with (List.length v - List.length suffix)%nat in H by lia.
  split; [|lia]. rewrite <- H at 2. symmetry. apply firstn_skipn.
Qed.

Lemma trimStart_idem (s : jsstring) : JS.trimStart (JS.trimStart s) = JS.trimStart s.
Proof.
  induction s as [|c r IH]; simpl; [reflexivity|].
  destruct (JS.isWhiteSpace c) eqn:E; [exact IH|]. simpl. rewrite E. reflexivity.
Qed.

Lemma trimStart_cases (s : jsstring) :
  JS.trimStart s = [] \/
  exists c r, JS.trimStart s = c :: r /\ JS.isWhiteSpace c = false.
Proof.
  induction s as [|c r IH]; simpl; [left; reflexivity|].
  destruct (JS.isWhiteSpace c) eqn:E; [exact IH|]. right. eauto.
Qed.

Lemma trimStart_snoc (u : jsstring) (c : N) :
  JS.isWhiteSpace c = false -> JS.trimStart (u ++ [c]) = JS.trimStart u ++ [c].
Proof.
  intros Hc. induction u as [|x u IH]; simpl.
  - rewrite Hc. reflexivity.
  - destruct (JS.isWhiteSpace x); [exact IH | reflexivity].
Qed.

Lemma trimEnd_cons (c : N) (r : jsstring) :
  JS.isWhiteSpace c = false -> JS.trimEnd (c :: r) = c :: JS.trimEnd r.
Proof.
  intros Hc. unfold JS.trimEnd. simpl rev.
  rewrite trimStart_snoc by exact Hc. rewrite rev_app_distr. reflexivity.
Qed.

Lemma trimEnd_idem (s : jsstring) : JS.trimEnd (JS.trimEnd s) = JS.trimEnd s.
Proof.
  unfold JS.trimEnd. rewrite rev_involutive, trimStart_idem. reflexivity.
Qed.

Lemma trim_idem (s : jsstring) : JS.trim (JS.trim s) = JS.trim s.
Proof.
  unfold JS.trim. destruct (trimStart_cases s) as [E | [c [r [E Hc]]]]; rewrite E.
  - reflexivity.
  - rewrite trimEnd_cons by exact Hc. simpl JS.trimStart. rewrite Hc.
    rewrite <- trimEnd_cons by exact Hc. apply trimEnd_idem.
Qed.

Lemma trimStart_whitespace (s : jsstring) :
  forallb JS.isWhiteSpace s = true -> JS.trimStart s = [].
Proof.
  induction s as [|c r IH]; simpl; [reflexivity|].
  intros H. apply andb_true_iff in H as [Hc Hr]. rewrite Hc. apply IH, Hr.
Qed.

Lemma trim_whitespace (s : jsstring) :
  forallb JS.isWhiteSpace s = true -> JS.trim s = [].
Proof.
  intros H. unfold JS.trim. rewrite trimStart_whitespace by exact H. reflexivity.
Qed.

(** ** The classifier *)

Lemma detectCompound_Some (suffixes : list jsstring) (verb p : jsstring) :
  Forall (fun s => s <> []) suffixes ->
  detectCompound suffixes verb = Some p ->
  exists suffix, In suffix suffixes /\ verb = p ++ suffix /\ p <> [].
Proof.
  induction 1 as [|suffix more Hne Hmore IH]; simpl; [discriminate|].
  destruct (JS.endsWith verb suffix && (JS.length suffix <? JS.length verb)%Z) eqn:E.
  - intros H. injection H as <-.
    apply andb_true_iff in E as [Hend Hlen].
    apply endsWith_true in Hend as [Hsplit _].
    apply Z.ltb_lt in Hlen. unfold JS.length in Hlen.
    exists suffix. split; [left; reflexivity|].
    set (q := firstn (List.length verb - List.length suffix) verb) in *.
    pose proof (slice_drop_suffix q suffix Hne) as Hq. rewrite <- Hsplit in Hq.
    rewrite Hq. split; [exact Hsplit|].
    intros E. rewrite E in Hsplit. simpl in Hsplit. rewrite <- Hsplit in Hlen. lia.
  - intros H. destruct (IH H) as [s [Hin Hs]]. exists s. split; [right; exact Hin | exact Hs].
Qed.

Lemma looksLikeIchidan_last (verb : jsstring) :
  looksLikeIchidan verb = true -> getLastChar verb = J "る".
Proof.
  unfold looksLikeIchidan.
  destruct (JS.length verb <? 2)%Z; [discriminate|].
  destruct (JS.eqb (getLastChar verb) (J "る")) eqn:E; simpl; [|discriminate].
  intros _. apply jseqb_eq. exact E.
Qed.

Lemma classifyVerb_inr (input : jsstring) (v : VerbInfo.t) :
  classifyVerb input = inr v ->
  JS.trim input <> [] /\ isJapanese (JS.trim input) = true
  /\ classifies (JS.trim input) v.
Proof.
  unfold classifyVerb.
  destruct (falsy input || (JS.length (JS.trim input) =? 0)%Z) eqn:Hempty;
    [discriminate|].
  apply orb_false_iff in Hempty as [_ Hlen]. apply Z.eqb_neq in Hlen.
  set (verb := JS.trim input) in *.
  assert (Hne : verb <> []) by (intros E; rewrite E in Hlen; apply Hlen; reflexivity).
  destruct (isJapanese verb) eqn:Hjp; simpl; [|discriminate].
  intros H. split; [exact Hne|]. split; [reflexivity|]. revert H.
  destruct (detectSuruCompound verb) as [p|] eqn:Hsuru.
  { intros H. injection H as <-.
    apply detectCompound_Some in Hsuru as [suffix [Hin [Hsplit Hp]]];
      [|repeat constructor; discriminate].
    destruct Hin as [<- | []].
    pose proof (slice_drop_prefix p (J "する")) as Hq. rewrite <- Hsplit in Hq.
    rewrite Hq. apply classifies_suru; assumption. }
  destruct (detectKuruCompound verb) as [p|] eqn:Hkuru.
  { intros H. injection H as <-.
    apply detectCompound_Some in Hkuru as [suffix [Hin [Hsplit Hp]]];
      [|repeat constructor; discriminate].
    pose proof (slice_drop_prefix p suffix) as Hq. rewrite <- Hsplit in Hq.
    rewrite Hq. apply classifies_kuru; assumption. }
  destruct (getIrregularType verb) as [t|] eqn:Hirr.
  { intros H. injection H as <-. apply classifies_irregular. exact Hirr. }
  destruct (looksLikeIchidan verb && isActuallyIchidan verb) eqn:Hich.
  { intros H. injection H as <-. apply andb_true_iff in Hich as [Hl _].
    apply classifies_ichidan; [exact Hirr | apply looksLikeIchidan_last, Hl]. }
  destruct (isGodanVerb verb) eqn:Hgod; [|discriminate].
  intros H. injection H as <-. apply classifies_godan; [exact Hirr|].
  apply arrayIncludes_In. exact Hgod.
Qed.

(** ** The generators *)

Ltac gen_eval := cbv -[hiraganaToRomaji app]; cbn [app].

Lemma lookup_irregular_not_iku (verb : jsstring) :
  getIrregularType verb = None -> verb <> J "行く" /\ verb <> J "いく".
Proof.
  intros H. split; intros E; subst verb; vm_compute in H; discriminate.
Qed.

Lemma isIkuVerb_godan (verb romaji stem ending : jsstring) :
  getIrregularType verb = None ->
  isIkuVerb (VerbInfo.mk verb verb romaji godan stem ending None None) = false.
Proof.
  intros H. apply lookup_irregular_not_iku in H as [H1 H2].
  unfold isIkuVerb. simpl.
  apply jseqb_neq in H1, H2. rewrite H1, H2. reflexivity.
Qed.

Lemma In_GODAN_ENDING_CHARS (c : jsstring) :
  In c GODAN_ENDING_CHARS ->
  c = J "う" \/ c = J "く" \/ c = J "ぐ" \/ c = J "す" \/ c = J "つ" \/ c = J "ぬ"
  \/ c = J "ぶ" \/ c = J "む" \/ c = J "る".
Proof.
  intros H. vm_compute in H. vm_compute. intuition auto.
Qed.

(** A regular five-grade verb is conjugated by the regular pattern. *)
Lemma conjugateGodan_regular (v : VerbInfo.t) (m : GodanConjugationMap.t) :
  VerbInfo.type v = godan ->
  isIkuVerb v = false ->
  JS.lookup GODAN_ENDINGS (VerbInfo.ending v) = Some m ->
  exists forms,
    conjugateGodan v = inr forms
    /\ followsCatalogue forms
    /\ map ConjugationForm.hiragana forms
       = godanPattern (VerbInfo.dictionaryForm v) (VerbInfo.stem v) m
    /\ map ConjugationForm.kanji forms
       = godanPattern (VerbInfo.dictionaryForm v) (VerbInfo.stem v) m.
Proof.
  intros Htype Hiku Hm.
  unfold conjugateGodan, getGodanTeForm, getGodanTaForm, getGodanStem.
  rewrite Htype, Hiku, Hm.
  generalize (VerbInfo.dictionaryForm v) (VerbInfo.stem v). intros dict stem.
  eexists. split; [gen_eval; reflexivity|].
  split; [split; [gen_eval; reflexivity | repeat constructor]|].
  split; gen_eval; rewrite <- ?app_assoc; reflexivity.
Qed.

Lemma classifies_generator (verb : jsstring) (v : VerbInfo.t) :
  classifies verb v ->
  exists forms, generator v = inr forms /\ followsCatalogue forms.
Proof.
  unfold generator.
  destruct 1 as [p Hp Hv | p base Hp Hb Hv | t Ht | Hirr Hlast | Hirr Hin].
  - eexists. split; [gen_eval; reflexivity|].
    split; [gen_eval; reflexivity | repeat constructor].
  - eexists. split; [gen_eval; reflexivity|].
    split; [gen_eval; reflexivity | repeat constructor].
  - generalize (getStem verb) (getLastChar verb). intros stem ending.
    destruct t; (eexists; split; [gen_eval; reflexivity|];
                 split; [gen_eval; reflexivity | repeat constructor]).
  - generalize (getStem verb). intros stem.
    eexists. split; [gen_eval; reflexivity|].
    split; [gen_eval; reflexivity | repeat constructor].
  - destruct (lookup_keys GODAN_ENDINGS _ Hin) as [m Hm].
    edestruct (conjugateGodan_regular
      (VerbInfo.mk verb verb (hiraganaToRomaji verb) godan (getStem verb)
                   (getLastChar verb) None None) m)
      as [forms [Hf [Hcat _]]];
      [reflexivity | apply isIkuVerb_godan; exact Hirr | exact Hm |].
    exists forms. split; [exact Hf | exact Hcat].
Qed.

(** ** The facade *)

Lemma trim_nil_input (input : jsstring) : JS.trim input <> [] -> falsy input = false.
Proof. intros H. destruct input; [exfalso; apply H; reflexivity | reflexivity]. Qed.

Lemma length_zero (s : jsstring) : (JS.length s =? 0)%Z = false <-> s <> [].
Proof.
  unfold JS.length. destruct s; simpl; split; congruence.
Qed.

Lemma validateInput_None (input : jsstring) :
  validateInput input = None <->
  JS.trim input <> [] /\ isJapanese (JS.trim input) = true.
Proof.
  unfold validateInput, isEmptyOrWhitespace, containsOnlyJapanese.
  rewrite trim_idem. split.
  - destruct (falsy input || (JS.length (JS.trim input) =? 0)%Z) eqn:E;
      [discriminate|].
    apply orb_false_iff in E as [_ E]. apply length_zero in E.
    destruct (isJapanese (JS.trim input)); simpl; [auto | discriminate].
  - intros [Hne Hjp]. rewrite (trim_nil_input _ Hne).
    apply length_zero in Hne. rewrite Hne, Hjp. reflexivity.
Qed.

Lemma classifyVerb_validateInput (input : jsstring) (v : VerbInfo.t) :
  classifyVerb input = inr v -> validateInput input = None.
Proof.
  intros H. apply classifyVerb_inr in H as [Hne [Hjp _]].
  apply validateInput_None. auto.
Qed.

(** On validated input the classifier either accepts or throws
    [UNKNOWN_VERB], and it accepts every verb with a five-grade terminal. *)
Lemma classifyVerb_validated (input : jsstring) :
  validateInput input = None ->
  (exists v, classifyVerb input = inr v)
  \/ (classifyVerb input = inl UNKNOWN_VERB_message
      /\ isGodanVerb (JS.trim input) = false).
Proof.
  intros H. apply validateInput_None in H as [Hne Hjp].
  unfold classifyVerb. rewrite (trim_nil_input _ Hne).
  apply length_zero in Hne. rewrite Hne, Hjp. simpl.
  destruct (detectSuruCompound _); [left; eauto|].
  destruct (detectKuruCompound _); [left; eauto|].
  destruct (getIrregularType _); [left; eauto|].
  destruct (looksLikeIchidan _ && isActuallyIchidan _); [left; eauto|].
  destruct (isGodanVerb _); [left; eauto | right; auto].
Qed.

Lemma conjugate_classified (input : jsstring) (v : VerbInfo.t) :
  classifyVerb input = inr v ->
  exists forms,
    generator v = inr forms /\ followsCatalogue forms
    /\ forall now, conjugate now input
                   = Success (ConjugationResult.mk v forms now).
Proof.
  intros H. pose proof (classifyVerb_validateInput _ _ H) as Hval.
  pose proof (classifyVerb_inr _ _ H) as [_ [_ Hcl]].
  destruct (classifies_generator _ _ Hcl) as [forms [Hgen Hcat]].
  exists forms. split; [exact Hgen|]. split; [exact Hcat|].
  intros now. unfold conjugate, classifyAndConjugate. rewrite Hval, H.
  unfold generator in Hgen. simpl bind.
  destruct (getConjugationFunction v) as [msg | fn]; simpl in *; [discriminate|].
  rewrite Hgen. reflexivity.
Qed.

Lemma conjugate_Success (now : Z) (input : jsstring) (r : ConjugationResult.t) :
  conjugate now input = Success r ->
  classifyVerb input = inr (ConjugationResult.verb r)
  /\ generator (ConjugationResult.verb r) = inr (ConjugationResult.forms r)
  /\ ConjugationResult.timestamp r = now.
Proof.
  unfold conjugate, classifyAndConjugate.
  destruct (validateInput input); [discriminate|].
  destruct (classifyVerb input) as [msg | v]; simpl; [discriminate|].
  destruct (getConjugationFunction v) as [msg | fn] eqn:Hfn; simpl; [discriminate|].
  destruct (fn v) as [msg | forms] eqn:Hforms; simpl; [discriminate|].
  intros H. injection H as <-. simpl. unfold generator. rewrite Hfn. simpl.
  split; [reflexivity|]. split; [exact Hforms | reflexivity].
Qed.

(** ** Completeness, the stem invariant and blank input *)

Lemma followsCatalogue_categories (forms : list ConjugationForm.t) :
  followsCatalogue forms ->
  map ConjugationForm.category forms
  = map FormDefinition.category CONJUGATION_FORMS.
Proof.
  intros [H _]. apply (f_equal (map snd)) in H. rewrite !map_map in H. exact H.
Qed.

Lemma followsCatalogue_ids (forms : list ConjugationForm.t) :
  followsCatalogue forms ->
  map ConjugationForm.id forms = map FormDefinition.id CONJUGATION_FORMS.
Proof.
  intros [H _].
  apply (f_equal (map (fun x => fst (fst (fst (fst x)))))) in H.
  rewrite !map_map in H. exact H.
Qed.

(** C2: whenever [conjugate] succeeds, the result holds at least 30
    forms and, for each of the 14 conjugation categories, a form of
    that category. *)
Theorem conjugate_completeness (now : Z) (input : jsstring)
    (r : ConjugationResult.t) :
  conjugate now input = Success r ->
  (30 <= List.length (ConjugationResult.forms r))%nat
  /\ forall c : ConjugationCategory,
       exists f, In f (ConjugationResult.forms r)
                 /\ ConjugationForm.category f = c.
Proof.
  intros H. apply conjugate_Success in H as [Hcl [Hgen _]].
  destruct (conjugate_classified _ _ Hcl) as [forms [Hgen' [Hcat _]]].
  assert (forms = ConjugationResult.forms r) as <- by congruence.
  apply followsCatalogue_categories in Hcat.
  split.
  - rewrite <- (length_map ConjugationForm.category), Hcat. vm_compute. lia.
  - intros c.
    assert (Hin : In c (map ConjugationForm.category forms))
      by (rewrite Hcat; destruct c; vm_compute; tauto).
    apply in_map_iff in Hin as [f [Hf Hin]]. eauto.
Qed.

Lemma conjugate_completeness_witness :
  exists r, conjugate 0 (J "書く") = Success r
    /\ (30 <= List.length (ConjugationResult.forms r))%nat
    /\ forall c : ConjugationCategory,
         exists f, In f (ConjugationResult.forms r)
                   /\ ConjugationForm.category f = c.
Proof.
  eexists. split; [vm_compute; reflexivity|].
  apply (conjugate_completeness 0 (J "書く")). vm_compute. reflexivity.
Defined.

(** C3: whenever classification succeeds, the verb information is
    well formed.  Without a compound prefix, the stem followed by the
    ending is the dictionary form.  With a compound prefix, the prefix
    is not empty, the prefix followed by the ending is the dictionary
    form, and the ending is the irregular base する, くる or 来る.  The
    generators leave the record as it is: the result of [conjugate]
    carries exactly this verb information. *)
Theorem stem_invariant (input : jsstring) (v : VerbInfo.t) :
  classifyVerb input = inr v ->
  (VerbInfo.compoundPrefix v = None ->
     VerbInfo.stem v ++ VerbInfo.ending v = VerbInfo.dictionaryForm v)
  /\ (forall p, VerbInfo.compoundPrefix v = Some p ->
        p <> []
        /\ p ++ VerbInfo.ending v = VerbInfo.dictionaryForm v
        /\ (VerbInfo.ending v = J "する" \/ VerbInfo.ending v = J "くる"
            \/ VerbInfo.ending v = J "来る"))
  /\ (forall now, exists r,
        conjugate now input = Success r /\ ConjugationResult.verb r = v).
Proof.
  intros H. pose proof (classifyVerb_inr _ _ H) as [_ [_ Hcl]].
  split; [|split].
  - destruct Hcl; simpl; try discriminate; intros _.
    + apply getStem_getLastChar.
    + match goal with Hl : getLastChar _ = _ |- _ => rewrite <- Hl end.
      apply getStem_getLastChar.
    + apply getStem_getLastChar.
  - intros q. destruct Hcl as [p Hp Hv | p base Hp Hb Hv | | |]; simpl;
      try discriminate; intros E; injection E as <-.
    + split; [exact Hp|]. split; [symmetry; exact Hv | left; reflexivity].
    + split; [exact Hp|]. split; [symmetry; exact Hv|].
      destruct Hb as [<- | [<- | []]]; auto.
  - intros now. destruct (conjugate_classified _ _ H) as [forms [_ [_ Hc]]].
    eexists. split; [apply Hc | reflexivity].
Qed.

Lemma stem_invariant_witness :
  exists v, classifyVerb (J "持ってくる") = inr v
    /\ VerbInfo.compoundPrefix v = Some (J "持って")
    /\ VerbInfo.ending v = J "くる"
    /\ (forall p, VerbInfo.compoundPrefix v = Some p ->
          p <> [] /\ p ++ VerbInfo.ending v = VerbInfo.dictionaryForm v
          /\ (VerbInfo.ending v = J "する" \/ VerbInfo.ending v = J "くる"
              \/ VerbInfo.ending v = J "来る")).
Proof.
  eexists. split; [vm_compute; reflexivity|].
  split; [reflexivity|]. split; [reflexivity|].
  apply (stem_invariant (J "持ってくる")). vm_compute. reflexivity.
Defined.

(** C9: on every input made only of spaces, tabs, newlines and
    carriage returns (the empty input included), [conjugate] returns
    the EMPTY_INPUT error as a value, and no form is produced,
    whichever form is asked for. *)
Theorem whitespace_rejected (input : jsstring) :
  Forall (fun c => c = 32 \/ c = 9 \/ c = 10 \/ c = 13)%N input ->
  forall now,
    conjugate now input
    = Failure (ConjugationError.mk EMPTY_INPUT (J "Please enter a Japanese verb"))
    /\ forall formId, conjugateToForm now input formId = None.
Proof.
  intros H now.
  assert (Hws : forallb JS.isWhiteSpace input = true).
  { apply forallb_forall. rewrite Forall_forall in H. intros c Hc.
    destruct (H c Hc) as [-> | [-> | [-> | ->]]]; reflexivity. }
  assert (Hc : conjugate now input
    = Failure (ConjugationError.mk EMPTY_INPUT (J "Please enter a Japanese verb"))).
  { unfold conjugate, validateInput, isEmptyOrWhitespace.
    rewrite (trim_whitespace _ Hws). rewrite orb_true_r. reflexivity. }
  split; [exact Hc|]. intros formId. unfold conjugateToForm. rewrite Hc. reflexivity.
Qed.

Lemma whitespace_rejected_witness :
  Forall (fun c => c = 32 \/ c = 9 \/ c = 10 \/ c = 13)%N [32; 9; 10; 13; 32]%N
  /\ conjugate 0 [32; 9; 10; 13; 32]%N
     = Failure (ConjugationError.mk EMPTY_INPUT (J "Please enter a Japanese verb")).
Proof.
  assert (H : Forall (fun c => c = 32 \/ c = 9 \/ c = 10 \/ c = 13)%N
                     [32; 9; 10; 13; 32]%N)
    by (repeat constructor; lia).
  split; [exact H|]. apply (whitespace_rejected _ H 0).
Defined.

(** ** Unknown verbs *)

Lemma In_IRREGULAR_VERBS (verb : jsstring) (t : IrregularType) :
  getIrregularType verb = Some t ->
  getLastChar verb = J "る" \/ getLastChar verb = J "く".
Proof.
  intros H. apply lookup_Some in H. unfold IRREGULAR_VERBS in H. simpl in H.
  repeat (destruct H as [H | H];
          [injection H as <- _; vm_compute; auto|]).
  contradiction.
Qed.

(** Every rule of the classifier matches only verbs that end in a
    five-grade terminal; all rules but the last match only る and く. *)
Lemma classifies_terminal (verb : jsstring) (v : VerbInfo.t) :
  classifies verb v ->
  In (getLastChar verb) fiveGradeTerminals
  /\ (VerbInfo.type v <> godan ->
      getLastChar verb = J "る" \/ getLastChar verb = J "く").
Proof.
  assert (Hru : In (J "る") fiveGradeTerminals) by (vm_compute; tauto).
  assert (Hku : In (J "く") fiveGradeTerminals) by (vm_compute; tauto).
  destruct 1 as [p Hp Hv | p base Hp Hb Hv | t Ht | Hirr Hlast | Hirr Hin]; simpl.
  - assert (E : getLastChar verb = J "る")
      by (rewrite Hv, getLastChar_app by discriminate; reflexivity).
    rewrite E. auto.
  - assert (E : getLastChar verb = J "る").
    { rewrite Hv. destruct Hb as [<- | [<- | []]];
        rewrite getLastChar_app by discriminate; reflexivity. }
    rewrite E. auto.
  - destruct (In_IRREGULAR_VERBS _ _ Ht) as [E | E]; rewrite E; auto.
  - rewrite Hlast. auto.
  - split; [exact Hin | congruence].
Qed.

(** C10: for every input that passes validation, with [c] the last
    character of the trimmed input: classification succeeds exactly
    when [c] is one of the nine five-grade terminals; a verb that is
    classified other than five-grade ends in る or く; and [conjugate]
    returns the UNKNOWN_VERB error exactly when [c] is none of the
    nine, and succeeds otherwise. *)
Theorem unknown_verb_iff_terminal (input : jsstring) :
  validateInput input = None ->
  exists stem c,
    JS.trim input = stem ++ [c]
    /\ ((exists v, classifyVerb input = inr v) <-> In [c] fiveGradeTerminals)
    /\ (forall v, classifyVerb input = inr v -> VerbInfo.type v <> godan ->
          [c] = J "る" \/ [c] = J "く")
    /\ forall now,
         ((exists message,
             conjugate now input
             = Failure (ConjugationError.mk UNKNOWN_VERB message))
          <-> ~ In [c] fiveGradeTerminals)
         /\ (In [c] fiveGradeTerminals ->
             exists r, conjugate now input = Success r).
Proof.
  intros Hval. pose proof Hval as Hv. apply validateInput_None in Hv as [Hne Hjp].
  destruct (exists_last Hne) as [stem [c Hsplit]]. exists stem, c.
  split; [exact Hsplit|].
  assert (Hlast : getLastChar (JS.trim input) = [c])
    by (rewrite Hsplit; apply getLastChar_snoc).
  assert (Hsucc : forall v, classifyVerb input = inr v -> In [c] fiveGradeTerminals).
  { intros v H. apply classifyVerb_inr in H as [_ [_ Hcl]].
    apply classifies_terminal in Hcl as [Hin _]. rewrite Hlast in Hin. exact Hin. }
  assert (Hgod : In [c] fiveGradeTerminals -> exists v, classifyVerb input = inr v).
  { intros Hin. destruct (classifyVerb_validated _ Hval) as [Hv | [_ Hv]];
      [exact Hv|].
    unfold isGodanVerb in Hv. rewrite Hlast in Hv.
    apply (arrayIncludes_In GODAN_ENDING_CHARS) in Hin. congruence. }
  split; [|split].
  - split; [intros [v H]; exact (Hsucc v H) | exact Hgod].
  - intros v H Ht. apply classifyVerb_inr in H as [_ [_ Hcl]].
    apply classifies_terminal in Hcl as [_ Hk]. rewrite Hlast in Hk. auto.
  - intros now. split; [split|].
    + intros [message H] Hin. destruct (Hgod Hin) as [v Hv].
      destruct (conjugate_classified _ _ Hv) as [forms [_ [_ Hc]]].
      rewrite Hc in H. discriminate.
    + intros Hnot.
      destruct (classifyVerb_validated _ Hval) as [[v Hv] | [Hv _]].
      * exfalso. apply Hnot. exact (Hsucc v Hv).
      * eexists. unfold conjugate, classifyAndConjugate. rewrite Hval, Hv.
        vm_compute. reflexivity.
    + intros Hin. destruct (Hgod Hin) as [v Hv].
      destruct (conjugate_classified _ _ Hv) as [forms [_ [_ Hc]]].
      eexists. apply Hc.
Qed.

Lemma unknown_verb_iff_terminal_witness :
  validateInput (J "たべ") = None
  /\ exists message,
       conjugate 0 (J "たべ") = Failure (ConjugationError.mk UNKNOWN_VERB message).
Proof.
  assert (Hval : validateInput (J "たべ") = None) by (vm_compute; reflexivity).
  split; [exact Hval|].
  destruct (unknown_verb_iff_terminal (J "たべ") Hval)
    as [stem [c [Hsplit [_ [_ H]]]]].
  apply (proj2 (proj1 (H 0%Z))). intros Hin.
  assert (E : [c] = J "べ").
  { apply (f_equal getLastChar) in Hsplit. rewrite getLastChar_snoc in Hsplit.
    rewrite <- Hsplit. vm_compute. reflexivity. }
  rewrite E in Hin. vm_compute in Hin.
  repeat (destruct Hin as [Hin | Hin]; [discriminate|]). exact Hin.
Defined.

(** ** The engine and the module state *)

Lemma tables_app (h cells : Heap.t) : tables h -> tables (h ++ cells).
Proof.
  intros [others ->]. exists (others ++ cells). rewrite app_assoc. reflexivity.
Qed.

Lemma tables_moduleState : tables moduleState.
Proof. exists []. rewrite app_nil_r. reflexivity. Qed.

Lemma readonly_ret {A : Type} (x : A) : readonly (Stateful.ret x) (inr x).
Proof. intros h _. reflexivity. Qed.

Lemma readonly_throw {A : Type} (message : jsstring) :
  readonly (@Stateful.throw A message) (inl message).
Proof. intros h _. reflexivity. Qed.

Lemma readonly_bind {A B : Type} (m : Stateful.M A) (c : throws A)
    (k : A -> Stateful.M B) (kp : A -> throws B) :
  readonly m c ->
  (forall x, c = inr x -> readonly (k x) (kp x)) ->
  readonly (Stateful.bind m k) (bind c kp).
Proof.
  intros Hm Hk h Hh. unfold Stateful.bind. rewrite (Hm h Hh).
  destruct c as [message | x]; [reflexivity|].
  exact (Hk x eq_refl h Hh).
Qed.

Lemma readonly_value {A B : Type} (m : Stateful.M A) (x : A)
    (k : A -> Stateful.M B) (c : throws B) :
  readonly m (inr x) ->
  readonly (k x) c ->
  readonly (Stateful.bind m k) c.
Proof.
  intros Hm Hk h Hh. unfold Stateful.bind. rewrite (Hm h Hh). exact (Hk h Hh).
Qed.

Ltac read_table :=
  intros h [others ->]; reflexivity.

Lemma read_IRREGULAR_VERBS :
  readonly (Stateful.irregulars Binding.IRREGULAR_VERBS) (inr IRREGULAR_VERBS).
Proof. read_table. Qed.

Lemma read_SURU_COMPOUND_SUFFIXES :
  readonly (Stateful.strings Binding.SURU_COMPOUND_SUFFIXES)
           (inr SURU_COMPOUND_SUFFIXES).
Proof. read_table. Qed.

Lemma read_KURU_COMPOUND_SUFFIXES :
  readonly (Stateful.strings Binding.KURU_COMPOUND_SUFFIXES)
           (inr KURU_COMPOUND_SUFFIXES).
Proof. read_table. Qed.

Lemma read_GODAN_ENDINGS :
  readonly (Stateful.godanEndings Binding.GODAN_ENDINGS) (inr GODAN_ENDINGS).
Proof. read_table. Qed.

Lemma read_GODAN_ENDING_CHARS :
  readonly (Stateful.strings Binding.GODAN_ENDING_CHARS) (inr GODAN_ENDING_CHARS).
Proof. read_table. Qed.

Lemma read_ICHIDAN_PRECEDING_CHARS :
  readonly (Stateful.strings Binding.ICHIDAN_PRECEDING_CHARS)
           (inr ICHIDAN_PRECEDING_CHARS).
Proof. read_table. Qed.

Lemma read_FALSE_ICHIDAN_VERBS :
  readonly (Stateful.strings Binding.FALSE_ICHIDAN_VERBS) (inr FALSE_ICHIDAN_VERBS).
Proof. read_table. Qed.

Lemma read_KNOWN_ICHIDAN_VERBS :
  readonly (Stateful.strings Binding.KNOWN_ICHIDAN_VERBS) (inr KNOWN_ICHIDAN_VERBS).
Proof. read_table. Qed.

Lemma read_HIRAGANA_TO_ROMAJI :
  readonly (Stateful.romaji Binding.HIRAGANA_TO_ROMAJI) (inr HIRAGANA_TO_ROMAJI).
Proof. read_table. Qed.

Lemma read_HIRAGANA_COMBINATIONS :
  readonly (Stateful.romaji Binding.HIRAGANA_COMBINATIONS)
           (inr HIRAGANA_COMBINATIONS).
Proof. read_table. Qed.

Lemma read_CONJUGATION_FORMS :
  readonly (Stateful.definitions Binding.CONJUGATION_FORMS) (inr CONJUGATION_FORMS).
Proof. read_table. Qed.

Ltac read_with lemma := eapply readonly_value; [apply lemma|]; cbv beta.

Lemma toRomajiEntry_readonly (char : jsstring) :
  readonly (Stateful.toRomajiEntry char) (inr (JS.lookup HIRAGANA_TO_ROMAJI char)).
Proof.
  unfold Stateful.toRomajiEntry. read_with read_HIRAGANA_TO_ROMAJI.
  apply readonly_ret.
Qed.

Lemma combinationEntry_readonly (combo : jsstring) :
  readonly (Stateful.combinationEntry combo)
           (inr (JS.lookup HIRAGANA_COMBINATIONS combo)).
Proof.
  unfold Stateful.combinationEntry. read_with read_HIRAGANA_COMBINATIONS.
  apply readonly_ret.
Qed.

Lemma hiraganaToRomaji_readonly_bounded (n : nat) :
  forall hiragana,
    (List.length hiragana <= n)%nat ->
    readonly (Stateful.hiraganaToRomaji hiragana) (inr (hiraganaToRomaji hiragana)).
Proof.
  induction n as [|n IH]; intros hiragana Hn;
    (destruct hiragana as [|c rest]; [apply readonly_ret|]);
    cbn [List.length] in Hn; [lia|].
  cbn [Stateful.hiraganaToRomaji hiraganaToRomaji]. cbv zeta.
  assert (IH1 : readonly (Stateful.hiraganaToRomaji rest)
                         (inr (hiraganaToRomaji rest)))
    by (apply IH; lia).
  assert (Hsingle :
            readonly
              (Stateful.bind
                 (Stateful.bind (Stateful.toRomajiEntry [c])
                    (fun entry =>
                       Stateful.ret match entry with
                                    | Some romaji => romaji
                                    | None => [c]
                                    end))
                 (fun single =>
                    Stateful.bind (Stateful.hiraganaToRomaji rest)
                                  (fun more => Stateful.ret (single ++ more))))
              (inr (match JS.lookup HIRAGANA_TO_ROMAJI [c] with
                    | Some romaji => romaji
                    | None => [c]
                    end ++ hiraganaToRomaji rest))).
  { eapply readonly_value.
    - eapply readonly_value; [apply toRomajiEntry_readonly | apply readonly_ret].
    - cbv beta. eapply readonly_value; [exact IH1 | apply readonly_ret]. }
  destruct rest as [|next rest'].
  - exact Hsingle.
  - assert (IH2 : readonly (Stateful.hiraganaToRomaji rest')
                           (inr (hiraganaToRomaji rest')))
      by (apply IH; cbn [List.length] in Hn; lia).
    assert (HfromNext :
              readonly
                (Stateful.bind
                   (Stateful.bind (Stateful.toRomajiEntry [next])
                      (fun entry =>
                         Stateful.ret match entry with
                                      | Some (r0 :: _) => [r0]
                                      | _ => []
                                      end))
                   (fun fromNext =>
                      Stateful.bind (Stateful.hiraganaToRomaji (next :: rest'))
                                    (fun more => Stateful.ret (fromNext ++ more))))
                (inr (match JS.lookup HIRAGANA_TO_ROMAJI [next] with
                      | Some (r0 :: _) => [r0]
                      | _ => []
                      end ++ hiraganaToRomaji (next :: rest')))).
    { eapply readonly_value.
      - eapply readonly_value; [apply toRomajiEntry_readonly | apply readonly_ret].
      - cbv beta. eapply readonly_value; [exact IH1 | apply readonly_ret]. }
    destruct (JS.eqb [c] (J "っ")).
    + destruct rest' as [|d rest''].
      * exact HfromNext.
      * read_with combinationEntry_readonly.
        destruct (JS.lookup HIRAGANA_COMBINATIONS [next; d]) as [[|r0 r]|].
        -- exact HfromNext.
        -- eapply readonly_value; [exact IH1 | apply readonly_ret].
        -- exact HfromNext.
    + read_with combinationEntry_readonly.
      destruct (JS.lookup HIRAGANA_COMBINATIONS [c; next]) as [[|r0 r]|].
      * exact Hsingle.
      * eapply readonly_value; [exact IH2 | apply readonly_ret].
      * exact Hsingle.
Qed.

Lemma hiraganaToRomaji_readonly (hiragana : jsstring) :
  readonly (Stateful.hiraganaToRomaji hiragana) (inr (hiraganaToRomaji hiragana)).
Proof. exact (hiraganaToRomaji_readonly_bounded _ hiragana (le_n _)). Qed.

Lemma detectSuruCompound_readonly (verb : jsstring) :
  readonly (Stateful.detectSuruCompound verb) (inr (detectSuruCompound verb)).
Proof.
  unfold Stateful.detectSuruCompound. read_with read_SURU_COMPOUND_SUFFIXES.
  apply readonly_ret.
Qed.

Lemma detectKuruCompound_readonly (verb : jsstring) :
  readonly (Stateful.detectKuruCompound verb) (inr (detectKuruCompound verb)).
Proof.
  unfold Stateful.detectKuruCompound. read_with read_KURU_COMPOUND_SUFFIXES.
  apply readonly_ret.
Qed.

Lemma getIrregularType_readonly (verb : jsstring) :
  readonly (Stateful.getIrregularType verb) (inr (getIrregularType verb)).
Proof.
  unfold Stateful.getIrregularType. read_with read_IRREGULAR_VERBS.
  apply readonly_ret.
Qed.

Lemma looksLikeIchidan_readonly (verb : jsstring) :
  readonly (Stateful.looksLikeIchidan verb) (inr (looksLikeIchidan verb)).
Proof.
  unfold Stateful.looksLikeIchidan, looksLikeIchidan. cbv zeta.
  destruct (JS.length verb <? 2)%Z; [apply readonly_ret|].
  destruct (negb (JS.eqb (getLastChar verb) (J "る"))); [apply readonly_ret|].
  destruct (isHiragana (JS.slice verb (-2) (Some (-1)%Z))).
  - read_with read_ICHIDAN_PRECEDING_CHARS. apply readonly_ret.
  - read_with read_KNOWN_ICHIDAN_VERBS.
    destruct (JS.arrayIncludes KNOWN_ICHIDAN_VERBS verb); [apply readonly_ret|].
    read_with read_FALSE_ICHIDAN_VERBS.
    destruct (JS.arrayIncludes FALSE_ICHIDAN_VERBS verb); apply readonly_ret.
Qed.

Lemma isActuallyIchidan_readonly (verb : jsstring) :
  readonly (Stateful.isActuallyIchidan verb) (inr (isActuallyIchidan verb)).
Proof.
  unfold Stateful.isActuallyIchidan, isActuallyIchidan.
  read_with read_FALSE_ICHIDAN_VERBS.
  destruct (JS.arrayIncludes FALSE_ICHIDAN_VERBS verb); [apply readonly_ret|].
  read_with read_KNOWN_ICHIDAN_VERBS.
  destruct (JS.arrayIncludes KNOWN_ICHIDAN_VERBS verb); apply readonly_ret.
Qed.

Lemma isGodanVerb_readonly (verb : jsstring) :
  readonly (Stateful.isGodanVerb verb) (inr (isGodanVerb verb)).
Proof.
  unfold Stateful.isGodanVerb, isGodanVerb. cbv zeta.
  read_with read_GODAN_ENDING_CHARS. apply readonly_ret.
Qed.

Lemma classifyVerb_readonly (input : jsstring) :
  readonly (Stateful.classifyVerb input) (classifyVerb input).
Proof.
  unfold Stateful.classifyVerb, classifyVerb. cbv zeta.
  destruct (falsy input || (JS.length (JS.trim input) =? 0)%Z);
    [apply readonly_throw|].
  destruct (negb (isJapanese (JS.trim input))); [apply readonly_throw|].
  read_with detectSuruCompound_readonly.
  destruct (detectSuruCompound (JS.trim input)) as [suruPrefix|].
  { read_with hiraganaToRomaji_readonly. apply readonly_ret. }
  read_with detectKuruCompound_readonly.
  destruct (detectKuruCompound (JS.trim input)) as [kuruPrefix|].
  { read_with hiraganaToRomaji_readonly. apply readonly_ret. }
  read_with getIrregularType_readonly.
  destruct (getIrregularType (JS.trim input)) as [irregularType|].
  { read_with hiraganaToRomaji_readonly. apply readonly_ret. }
  read_with looksLikeIchidan_readonly.
  destruct (looksLikeIchidan (JS.trim input)); cbn [andb].
  - read_with isActuallyIchidan_readonly.
    destruct (isActuallyIchidan (JS.trim input)).
    + read_with hiraganaToRomaji_readonly. apply readonly_ret.
    + read_with isGodanVerb_readonly.
      destruct (isGodanVerb (JS.trim input)); [|apply readonly_throw].
      read_with hiraganaToRomaji_readonly. apply readonly_ret.
  - read_with (@readonly_ret bool).
    read_with isGodanVerb_readonly.
    destruct (isGodanVerb (JS.trim input)); [|apply readonly_throw].
    read_with hiraganaToRomaji_readonly. apply readonly_ret.
Qed.

Lemma createForm_readonly (id hiragana : jsstring) (kanji : option jsstring) :
  readonly (Stateful.createForm id hiragana kanji) (createForm id hiragana kanji).
Proof.
  unfold Stateful.createForm, createForm.
  read_with read_CONJUGATION_FORMS.
  destruct (find _ CONJUGATION_FORMS) as [formDef|]; [|apply readonly_throw].
  read_with hiraganaToRomaji_readonly. apply readonly_ret.
Qed.

Lemma getGodanStem_readonly (verb : VerbInfo.t) (grade : GodanGrade) :
  readonly (Stateful.getGodanStem verb grade) (getGodanStem verb grade).
Proof.
  unfold Stateful.getGodanStem, getGodanStem.
  read_with read_GODAN_ENDINGS.
  destruct (JS.lookup GODAN_ENDINGS (VerbInfo.ending verb)) as [endingMap|];
    [|apply readonly_throw].
  destruct grade; apply readonly_ret.
Qed.

Lemma getGodanTeForm_readonly (verb : VerbInfo.t) :
  readonly (Stateful.getGodanTeForm verb) (getGodanTeForm verb).
Proof.
  unfold Stateful.getGodanTeForm, getGodanTeForm.
  destruct (isIkuVerb verb); [apply readonly_ret | apply getGodanStem_readonly].
Qed.

Lemma getGodanTaForm_readonly (verb : VerbInfo.t) :
  readonly (Stateful.getGodanTaForm verb) (getGodanTaForm verb).
Proof.
  unfold Stateful.getGodanTaForm, getGodanTaForm.
  destruct (isIkuVerb verb); [apply readonly_ret | apply getGodanStem_readonly].
Qed.

(** ** The generators and the heap *)

Lemma nth_error_last (pre : Heap.t) (o : Heap.object) (more : Heap.t) :
  nth_error (pre ++ o :: more) (List.length pre) = Some o.
Proof. induction pre as [|cell pre IH]; [reflexivity | exact IH]. Qed.

Lemma write_last (pre : Heap.t) (o o' : Heap.object) :
  Heap.write (List.length pre) o' (pre ++ [o]) = pre ++ [o'].
Proof.
  induction pre as [|cell pre IH]; [reflexivity|].
  cbn [List.length app Heap.write]. rewrite IH. reflexivity.
Qed.

Lemma generates_ret (pre : Heap.t) (items : list ConjugationForm.t) :
  generates pre items (Stateful.ret (List.length pre)) (inr items).
Proof.
  exists items. split; [reflexivity|]. intros forms H. injection H as <-. reflexivity.
Qed.

Lemma generates_push (pre : Heap.t) (items : list ConjugationForm.t)
    (id hiragana : jsstring) (kanji : option jsstring)
    (m : Stateful.M Heap.ref)
    (k : list ConjugationForm.t -> throws (list ConjugationForm.t)) :
  tables pre ->
  (forall form, createForm id hiragana kanji = inr form ->
                generates pre (items ++ [form]) m (k (items ++ [form]))) ->
  generates pre items
    (Stateful.bind (Stateful.push (List.length pre)
                                  (Stateful.createForm id hiragana kanji))
                   (fun _ => m))
    (bind (push items (createForm id hiragana kanji)) k).
Proof.
  intros Hpre Hk. unfold generates, Stateful.push, Stateful.bind.
  rewrite (createForm_readonly id hiragana kanji _
             (tables_app pre [Heap.Forms items] Hpre)).
  destruct (createForm id hiragana kanji) as [message | form] eqn:E.
  - exists items. split; [reflexivity|]. intros forms H. discriminate H.
  - unfold Stateful.read. rewrite nth_error_last, write_last.
    destruct (Hk form eq_refl) as [items' [Hrun Hforms]].
    exists items'. split; [|exact Hforms].
    rewrite Hrun. cbn [push bind ret].
    destruct (k (items ++ [form])); reflexivity.
Qed.

Lemma generates_read {A : Type} (pre : Heap.t) (items : list ConjugationForm.t)
    (r : Stateful.M A) (c : throws A) (m : A -> Stateful.M Heap.ref)
    (k : A -> throws (list ConjugationForm.t)) :
  tables pre ->
  readonly r c ->
  (forall x, c = inr x -> generates pre items (m x) (k x)) ->
  generates pre items (Stateful.bind r m) (bind c k).
Proof.
  intros Hpre Hr Hk. unfold generates, Stateful.bind.
  rewrite (Hr _ (tables_app pre [Heap.Forms items] Hpre)).
  destruct c as [message | x].
  - exists items. split; [reflexivity|]. intros forms H. discriminate H.
  - exact (Hk x eq_refl).
Qed.

Lemma runs_newArray (h : Heap.t) (m : Heap.ref -> Stateful.M Heap.ref)
    (c : throws (list ConjugationForm.t)) :
  generates h [] (m (List.length h)) c ->
  runs (Stateful.bind Stateful.newArray m) c h.
Proof.
  intros [items' [Hrun Hforms]]. exists [Heap.Forms items'].
  unfold Stateful.bind, Stateful.newArray. split; [exact Hrun|].
  intros forms H. rewrite (Hforms forms H). reflexivity.
Qed.

Lemma runs_throw (h : Heap.t) (message : jsstring) :
  runs (Stateful.throw message) (inl message) h.
Proof.
  exists []. split; [unfold Stateful.throw; rewrite app_nil_r; reflexivity|].
  intros forms H. discriminate H.
Qed.

Ltac generator Hh :=
  apply runs_newArray; cbv beta zeta;
  repeat first
    [ apply generates_ret
    | apply generates_push; [exact Hh | intros ? _; cbv beta]
    | apply generates_read;
      [ exact Hh
      | first [ apply getGodanTeForm_readonly
              | apply getGodanTaForm_readonly
              | apply getGodanStem_readonly ]
      | intros ? _; cbv beta ] ].

Lemma conjugateSuru_runs (verb : VerbInfo.t) (h : Heap.t) :
  tables h -> runs (Stateful.conjugateSuru verb) (conjugateSuru verb) h.
Proof.
  intros Hh. unfold Stateful.conjugateSuru, conjugateSuru. generator Hh.
Qed.

Lemma conjugateKuru_runs (verb : VerbInfo.t) (h : Heap.t) :
  tables h -> runs (Stateful.conjugateKuru verb) (conjugateKuru verb) h.
Proof.
  intros Hh. unfold Stateful.conjugateKuru, conjugateKuru. generator Hh.
Qed.

Lemma conjugateAru_runs (verb : VerbInfo.t) (h : Heap.t) :
  tables h -> runs (Stateful.conjugateAru verb) (conjugateAru verb) h.
Proof.
  intros Hh. unfold Stateful.conjugateAru, conjugateAru. generator Hh.
Qed.

Lemma conjugateIku_runs (verb : VerbInfo.t) (h : Heap.t) :
  tables h -> runs (Stateful.conjugateIku verb) (conjugateIku verb) h.
Proof.
  intros Hh. unfold Stateful.conjugateIku, conjugateIku. generator Hh.
Qed.

Lemma conjugateHonorific_runs (verb : VerbInfo.t) (h : Heap.t) :
  tables h -> runs (Stateful.conjugateHonorific verb) (conjugateHonorific verb) h.
Proof.
  intros Hh. unfold Stateful.conjugateHonorific, conjugateHonorific. generator Hh.
Qed.

Lemma conjugateIrregular_runs (verb : VerbInfo.t) (h : Heap.t) :
  tables h -> runs (Stateful.conjugateIrregular verb) (conjugateIrregular verb) h.
Proof.
  intros Hh. unfold Stateful.conjugateIrregular, conjugateIrregular.
  destruct (VerbInfo.type verb); try apply runs_throw.
  destruct (VerbInfo.irregularType verb) as [[| | | |]|]; try apply runs_throw.
  - apply conjugateSuru_runs; exact Hh.
  - apply conjugateKuru_runs; exact Hh.
  - apply conjugateAru_runs; exact Hh.
  - apply conjugateIku_runs; exact Hh.
  - apply conjugateHonorific_runs; exact Hh.
Qed.

Lemma conjugateIchidan_runs (verb : VerbInfo.t) (h : Heap.t) :
  tables h -> runs (Stateful.conjugateIchidan verb) (conjugateIchidan verb) h.
Proof.
  intros Hh. unfold Stateful.conjugateIchidan, conjugateIchidan.
  destruct (VerbInfo.type verb); try apply runs_throw. generator Hh.
Qed.

Lemma conjugateGodan_runs (verb : VerbInfo.t) (h : Heap.t) :
  tables h -> runs (Stateful.conjugateGodan verb) (conjugateGodan verb) h.
Proof.
  intros Hh. unfold Stateful.conjugateGodan, conjugateGodan.
  destruct (VerbInfo.type verb); try apply runs_throw. generator Hh.
Qed.

(** ** Determinism *)

Lemma conjugate_clock (now1 now2 : Z) (input : jsstring) :
  sameExceptTimestamp (conjugate now1 input) (conjugate now2 input).
Proof.
  unfold conjugate. destruct (validateInput input); simpl; [reflexivity|].
  destruct (classifyAndConjugate input) as [msg | [v forms]]; simpl; auto.
Qed.

Lemma generator_runs (v : VerbInfo.t) (h : Heap.t) :
  tables h ->
  exists fn fp,
    Stateful.getConjugationFunction v h = (inr fn, h)
    /\ getConjugationFunction v = inr fp
    /\ runs (fn v) (fp v) h.
Proof.
  intros Hh. unfold Stateful.getConjugationFunction, getConjugationFunction.
  destruct (VerbInfo.type v).
  - exists Stateful.conjugateGodan, conjugateGodan.
    repeat split. apply conjugateGodan_runs. exact Hh.
  - exists Stateful.conjugateIchidan, conjugateIchidan.
    repeat split. apply conjugateIchidan_runs. exact Hh.
  - exists Stateful.conjugateIrregular, conjugateIrregular.
    repeat split. apply conjugateIrregular_runs. exact Hh.
Qed.

(** In a heap that holds the tables, a call of [conjugate] changes no
    cell, adds at most the array of its forms, and returns what the
    function [conjugate] of the tables returns; the forms stay readable
    through the reference whatever is allocated later. *)
Lemma conjugate_refines (now : Z) (input : jsstring) (h : Heap.t) :
  tables h ->
  exists r cells,
    Stateful.conjugate now input h = (r, h ++ cells)
    /\ forall more, resultIn (h ++ cells ++ more) r = Some (conjugate now input).
Proof.
  intros Hh. unfold Stateful.conjugate, conjugate.
  destruct (validateInput input) as [validationError|].
  { exists (Stateful.Failure validationError), [].
    rewrite app_nil_r. split; reflexivity. }
  unfold Stateful.classifyAndConjugate, classifyAndConjugate, Stateful.bind.
  rewrite (classifyVerb_readonly input h Hh).
  destruct (classifyVerb input) as [message | v].
  { exists (Stateful.Failure (handleError message)), [].
    rewrite app_nil_r. split; reflexivity. }
  destruct (generator_runs v h Hh) as [fn [fp [Efn [Efp [cells [Hrun Hforms]]]]]].
  rewrite Efn, Hrun. cbn [bind]. rewrite Efp. cbn [bind].
  destruct (fp v) as [message | forms].
  - exists (Stateful.Failure (handleError message)), cells. split; reflexivity.
  - rewrite (Hforms forms eq_refl).
    eexists. exists [Heap.Forms forms]. split; [reflexivity|].
    intros more. cbn [resultIn Stateful.ConjugationResult.forms
                      Stateful.ConjugationResult.verb
                      Stateful.ConjugationResult.timestamp app].
    rewrite nth_error_last. reflexivity.
Qed.

Lemma session_refines {World : Type} (clock : World -> Z) (advance : World -> World)
    (inputs : list jsstring) :
  forall (w : World) (h : Heap.t),
    tables h ->
    exists results cells,
      session clock advance w inputs h = (results, h ++ cells)
      /\ forall more i input,
           nth_error inputs i = Some input ->
           exists r now,
             nth_error results i = Some r
             /\ resultIn (h ++ cells ++ more) r = Some (conjugate now input).
Proof.
  induction inputs as [|first inputs IH]; intros w h Hh.
  - exists [], []. rewrite app_nil_r. split; [reflexivity|].
    intros more [|i] input H; discriminate H.
  - destruct (conjugate_refines (clock w) first h Hh) as [r [cells1 [Hcall Hread]]].
    destruct (IH (advance w) (h ++ cells1) (tables_app h cells1 Hh))
      as [results [cells2 [Hrest Hreads]]].
    exists (r :: results), (cells1 ++ cells2).
    cbn [session]. rewrite Hcall, Hrest. rewrite <- app_assoc.
    split; [reflexivity|].
    intros more [|i] input H; cbn [nth_error] in H |- *.
    + injection H as <-. exists r, (clock w). split; [reflexivity|].
      rewrite <- app_assoc. apply Hread.
    + destruct (Hreads more i input H) as [ri [now [Hi Hr]]].
      exists ri, now. split; [exact Hi|].
      rewrite <- !app_assoc in Hr. rewrite <- app_assoc. exact Hr.
Qed.

(** C7: no state is carried from call to call.  The calls of a session
    run one after the other in one heap, which holds the tables of the
    modules and whatever other objects there are, with the generators
    filling their arrays in place.  Whatever the inputs and the clock,
    the session changes no object that was there (the tables least of
    all) and only adds new ones; and two calls on the same input,
    whatever calls lie in between, return outcomes that read in the
    final heap agree on the verb information and on every form (or are
    the same error): they differ at most in the timestamp. *)
Theorem conjugate_determinism {World : Type} (clock : World -> Z)
    (advance : World -> World) (w : World) (inputs : list jsstring)
    (others : Heap.t) (i j : nat) (input : jsstring) :
  nth_error inputs i = Some input ->
  nth_error inputs j = Some input ->
  exists results cells ri rj pi pj,
    session clock advance w inputs (moduleState ++ others)
    = (results, moduleState ++ others ++ cells)
    /\ nth_error results i = Some ri
    /\ nth_error results j = Some rj
    /\ resultIn (moduleState ++ others ++ cells) ri = Some pi
    /\ resultIn (moduleState ++ others ++ cells) rj = Some pj
    /\ sameExceptTimestamp pi pj.
Proof.
  intros Hi Hj.
  assert (Hh : tables (moduleState ++ others)) by (exists others; reflexivity).
  destruct (session_refines clock advance inputs w _ Hh)
    as [results [cells [Hrun Hreads]]].
  destruct (Hreads [] i input Hi) as [ri [nowi [Ei Ri]]].
  destruct (Hreads [] j input Hj) as [rj [nowj [Ej Rj]]].
  rewrite app_nil_r in Ri, Rj. rewrite <- app_assoc in Hrun, Ri, Rj.
  exists results, cells, ri, rj, (conjugate nowi input), (conjugate nowj input).
  repeat (split; [assumption|]). apply conjugate_clock.
Qed.

Lemma conjugate_determinism_witness :
  exists results cells ri rj pi pj,
    session (fun t : Z => t) Z.succ 1700000000000%Z
            [J "書く"; J "食べる"; J "   "; J "書く"] (moduleState ++ [])
    = (results, moduleState ++ [] ++ cells)
    /\ nth_error results 0 = Some ri
    /\ nth_error results 3 = Some rj
    /\ resultIn (moduleState ++ [] ++ cells) ri = Some pi
    /\ resultIn (moduleState ++ [] ++ cells) rj = Some pj
    /\ sameExceptTimestamp pi pj.
Proof.
  apply (conjugate_determinism (fun t : Z => t) Z.succ 1700000000000%Z
           [J "書く"; J "食べる"; J "   "; J "書く"] [] 0 3 (J "書く"));
    reflexivity.
Defined.

(** ** The exist-verb, the two potentials and compound prefixes *)

Lemma startsWith_app (p rest : jsstring) : JS.startsWith (p ++ rest) p = true.
Proof.
  induction p as [|c p IH]; simpl; [destruct rest; reflexivity|].
  rewrite N.eqb_refl. exact IH.
Qed.

Lemma includes_unfold (s p : jsstring) :
  JS.includes s p
  = JS.startsWith s p || match s with [] => false | _ :: s' => JS.includes s' p end.
Proof. destruct s; reflexivity. Qed.

Lemma includes_prefix (p rest : jsstring) : JS.includes (p ++ rest) p = true.
Proof. rewrite includes_unfold, startsWith_app. reflexivity. Qed.

Lemma includes_cons (c : N) (s p : jsstring) :
  JS.includes s p = true -> JS.includes (c :: s) p = true.
Proof. intros H. rewrite includes_unfold, H. apply orb_true_r. Qed.

Lemma generator_eq (v : VerbInfo.t) :
  generator v
  = match VerbInfo.type v with
    | godan => conjugateGodan v
    | ichidan => conjugateIchidan v
    | irregular => conjugateIrregular v
    end.
Proof.
  unfold generator, getConjugationFunction. destruct (VerbInfo.type v); reflexivity.
Qed.

(** C6: for ある the negative form is ない and the past negative
    なかった, in both renderings; they are not the あらない and
    あらなかった that the five-grade rule derives from the stem. *)
Theorem aru_negative (now : Z) :
  exists r nai nakatta a,
    conjugate now (J "ある") = Success r
    /\ VerbInfo.irregularType (ConjugationResult.verb r) = Some aru
    /\ findForm (ConjugationResult.forms r) (J "nai") = Some nai
    /\ ConjugationForm.hiragana nai = J "ない"
    /\ ConjugationForm.kanji nai = J "ない"
    /\ findForm (ConjugationResult.forms r) (J "nakatta") = Some nakatta
    /\ ConjugationForm.hiragana nakatta = J "なかった"
    /\ ConjugationForm.kanji nakatta = J "なかった"
    /\ getGodanStem (ConjugationResult.verb r) grade_a = inr a
    /\ a ++ J "ない" = J "あらない"
    /\ a ++ J "なかった" = J "あらなかった"
    /\ ConjugationForm.hiragana nai <> a ++ J "ない"
    /\ ConjugationForm.hiragana nakatta <> a ++ J "なかった".
Proof.
  do 4 eexists.
  split; [vm_compute; reflexivity|].
  repeat (split; [vm_compute; reflexivity|]).
  split; vm_compute; discriminate.
Qed.

Lemma conjugateIchidan_potential (verb romaji stem : jsstring)
    (forms : list ConjugationForm.t) :
  conjugateIchidan (VerbInfo.mk verb verb romaji ichidan stem (J "る") None None)
  = inr forms ->
  exists f,
    findForm forms (J "potential-plain") = Some f
    /\ ConjugationForm.category f = potential
    /\ ConjugationForm.hiragana f = stem ++ J "られる"
    /\ ConjugationForm.kanji f = stem ++ J "られる".
Proof.
  gen_eval. intros E. injection E as <-.
  eexists. split; [gen_eval; reflexivity|].
  repeat split; gen_eval; reflexivity.
Qed.

(** C5: for every verb classified as one-grade, the potential-plain
    form of the generator is the stem followed by られる, the helper
    [getIchidanColloquialPotential] returns the stem followed by れる,
    られる is れる with one more leading character, and both forms
    begin with the stem. *)
Theorem ichidan_dual_potential (input : jsstring) (v : VerbInfo.t) :
  classifyVerb input = inr v ->
  VerbInfo.type v = ichidan ->
  exists forms f,
    conjugateIchidan v = inr forms
    /\ (forall now, conjugate now input
                    = Success (ConjugationResult.mk v forms now))
    /\ findForm forms (J "potential-plain") = Some f
    /\ ConjugationForm.category f = potential
    /\ ConjugationForm.hiragana f = VerbInfo.stem v ++ J "られる"
    /\ ConjugationForm.kanji f = VerbInfo.stem v ++ J "られる"
    /\ getIchidanColloquialPotential v = inr (VerbInfo.stem v ++ J "れる")
    /\ (exists c, J "られる" = c :: J "れる")
    /\ JS.startsWith (VerbInfo.stem v ++ J "られる") (VerbInfo.stem v) = true
    /\ JS.startsWith (VerbInfo.stem v ++ J "れる") (VerbInfo.stem v) = true.
Proof.
  intros H Htype.
  destruct (conjugate_classified _ _ H) as [forms [Hgen [_ Hc]]].
  apply classifyVerb_inr in H as [_ [_ Hcl]].
  rewrite generator_eq, Htype in Hgen.
  destruct Hcl as [p Hp Hv | p base Hp Hb Hv | t Ht | Hirr Hlast | Hirr Hin];
    try discriminate Htype.
  destruct (conjugateIchidan_potential _ _ _ _ Hgen) as [f [Hf [Hcat [Hh Hk]]]].
  exists forms, f.
  split; [exact Hgen|]. split; [exact Hc|]. split; [exact Hf|].
  split; [exact Hcat|]. split; [exact Hh|]. split; [exact Hk|].
  split; [reflexivity|]. split; [exists 12425%N; reflexivity|].
  split; apply startsWith_app.
Qed.

Lemma ichidan_dual_potential_witness :
  exists forms f,
    conjugateIchidan
      (VerbInfo.mk (J "食べる") (J "食べる") (J "食beru") ichidan (J "食べ") (J "る")
                   None None) = inr forms
    /\ findForm forms (J "potential-plain") = Some f
    /\ ConjugationForm.hiragana f = J "食べられる"
    /\ getIchidanColloquialPotential
         (VerbInfo.mk (J "食べる") (J "食べる") (J "食beru") ichidan (J "食べ") (J "る")
                      None None) = inr (J "食べれる").
Proof.
  destruct (ichidan_dual_potential (J "食べる")
              (VerbInfo.mk (J "食べる") (J "食べる") (J "食beru") ichidan (J "食べ")
                           (J "る") None None))
    as [forms [f [H1 [_ [H2 [_ [H3 [_ [H4 _]]]]]]]]];
    [vm_compute; reflexivity | reflexivity |].
  exists forms, f. repeat split; assumption.
Defined.

Lemma prefixOrEmpty_Some (v : VerbInfo.t) (p : jsstring) :
  VerbInfo.compoundPrefix v = Some p -> prefixOrEmpty v = p.
Proof. unfold prefixOrEmpty. intros ->. destruct p; reflexivity. Qed.

Ltac gen_eval_in H := cbv -[hiraganaToRomaji app] in H; cbn [app] in H.

Ltac prefix_preserved :=
  repeat (apply Forall_cons;
          [cbn [ConjugationForm.hiragana ConjugationForm.category]; split;
           [first [apply includes_prefix | apply includes_cons, includes_prefix]
           | eexists; reflexivity] |]);
  apply Forall_nil.

Lemma conjugateSuru_prefix (verb romaji p ending : jsstring)
    (forms : list ConjugationForm.t) :
  conjugateSuru (VerbInfo.mk verb verb romaji irregular p ending (Some suru) (Some p))
  = inr forms ->
  prefixPreserved p forms.
Proof.
  unfold conjugateSuru.
  rewrite (prefixOrEmpty_Some
             (VerbInfo.mk verb verb romaji irregular p ending (Some suru) (Some p))
             p eq_refl).
  intros E. gen_eval_in E. injection E as <-.
  split; [reflexivity|]. split; [prefix_preserved | reflexivity].
Qed.

Lemma conjugateKuru_prefix (verb romaji p ending : jsstring)
    (forms : list ConjugationForm.t) :
  conjugateKuru (VerbInfo.mk verb verb romaji irregular p ending (Some kuru) (Some p))
  = inr forms ->
  prefixPreserved p forms.
Proof.
  unfold conjugateKuru.
  rewrite (prefixOrEmpty_Some
             (VerbInfo.mk verb verb romaji irregular p ending (Some kuru) (Some p))
             p eq_refl).
  intros E. gen_eval_in E. injection E as <-.
  split; [reflexivity|]. split; [prefix_preserved | reflexivity].
Qed.

Lemma generator_irregular (v : VerbInfo.t) (t : IrregularType) :
  VerbInfo.type v = irregular ->
  VerbInfo.irregularType v = Some t ->
  generator v
  = match t with
    | suru => conjugateSuru v
    | kuru => conjugateKuru v
    | aru => conjugateAru v
    | iku => conjugateIku v
    | honorific => conjugateHonorific v
    end
  /\ generator v = conjugateIrregular v.
Proof.
  intros Ht Hi. rewrite generator_eq. unfold conjugateIrregular.
  rewrite Ht, Hi. destruct t; split; reflexivity.
Qed.

(** C4: for every verb classified with a compound prefix, the prefix
    is not empty and each of the 34 generated forms has it in its
    hiragana: at the start or, for the two forms of the honorific
    category, right after the leading お. *)
Theorem compound_prefix_preserved (input : jsstring) (v : VerbInfo.t)
    (p : jsstring) :
  classifyVerb input = inr v ->
  VerbInfo.compoundPrefix v = Some p ->
  p <> []
  /\ exists forms,
       conjugateIrregular v = inr forms
       /\ (forall now, conjugate now input
                       = Success (ConjugationResult.mk v forms now))
       /\ prefixPreserved p forms.
Proof.
  intros H Hp.
  destruct (conjugate_classified _ _ H) as [forms [Hgen [_ Hc]]].
  apply classifyVerb_inr in H as [_ [_ Hcl]].
  destruct Hcl as [q Hq Hv | q base Hq Hb Hv | t Ht | Hirr Hlast | Hirr Hin];
    try discriminate Hp; injection Hp as <-; (split; [exact Hq|]);
    exists forms.
  - match type of Hgen with generator ?v = _ =>
      pose proof (generator_irregular v suru eq_refl eq_refl) as [E1 E2] end.
    split; [rewrite <- E2; exact Hgen|]. split; [exact Hc|].
    rewrite E1 in Hgen. exact (conjugateSuru_prefix _ _ _ _ _ Hgen).
  - match type of Hgen with generator ?v = _ =>
      pose proof (generator_irregular v kuru eq_refl eq_refl) as [E1 E2] end.
    split; [rewrite <- E2; exact Hgen|]. split; [exact Hc|].
    rewrite E1 in Hgen. exact (conjugateKuru_prefix _ _ _ _ _ Hgen).
Qed.

Lemma compound_prefix_preserved_witness :
  exists v forms,
    classifyVerb (J "勉強する") = inr v
    /\ VerbInfo.compoundPrefix v = Some (J "勉強")
    /\ conjugateIrregular v = inr forms
    /\ prefixPreserved (J "勉強") forms.
Proof.
  eexists.
  assert (Hc : classifyVerb (J "勉強する")
               = inr (VerbInfo.mk (J "勉強する") (J "勉強する") (J "勉強suru")
                        irregular (J "勉強") (J "する") (Some suru)
                        (Some (J "勉強"))))
    by (vm_compute; reflexivity).
  destruct (compound_prefix_preserved (J "勉強する") _ (J "勉強") Hc eq_refl)
    as [_ [forms [Hf [_ Hall]]]].
  exists forms. split; [exact Hc|]. split; [reflexivity|]. split; [exact Hf|].
  exact Hall.
Defined.

(** ** Sound changes of the connective and the past form *)

Lemma euphonic_row (ending : jsstring) (m : GodanConjugationMap.t) :
  JS.lookup GODAN_ENDINGS ending = Some m ->
  euphonic ending = Some (GodanConjugationMap.te m, GodanConjugationMap.ta m).
Proof.
  intros H. apply lookup_Some in H. unfold GODAN_ENDINGS in H. simpl in H.
  repeat (destruct H as [H | H]; [injection H as <- <-; vm_compute; reflexivity|]).
  contradiction.
Qed.

(** A regular five-grade verb is conjugated by the regular pattern. *)
Lemma conjugateGodan_te_ta (v : VerbInfo.t) (m : GodanConjugationMap.t) :
  VerbInfo.type v = godan ->
  isIkuVerb v = false ->
  JS.lookup GODAN_ENDINGS (VerbInfo.ending v) = Some m ->
  exists forms,
    conjugateGodan v = inr forms
    /\ map ConjugationForm.hiragana forms
       = godanPattern (VerbInfo.dictionaryForm v) (VerbInfo.stem v) m
    /\ map ConjugationForm.kanji forms
       = godanPattern (VerbInfo.dictionaryForm v) (VerbInfo.stem v) m
    /\ hiraganaOf forms (J "te") = Some (VerbInfo.stem v ++ GodanConjugationMap.te m)
    /\ kanjiOf forms (J "te") = Some (VerbInfo.stem v ++ GodanConjugationMap.te m)
    /\ hiraganaOf forms (J "ta") = Some (VerbInfo.stem v ++ GodanConjugationMap.ta m)
    /\ kanjiOf forms (J "ta") = Some (VerbInfo.stem v ++ GodanConjugationMap.ta m).
Proof.
  intros Htype Hiku Hm.
  unfold conjugateGodan, getGodanTeForm, getGodanTaForm, getGodanStem.
  rewrite Htype, Hiku, Hm.
  generalize (VerbInfo.dictionaryForm v) (VerbInfo.stem v). intros dict stem.
  eexists. split; [gen_eval; reflexivity|].
  split; [gen_eval; rewrite <- ?app_assoc; reflexivity|].
  split; [gen_eval; rewrite <- ?app_assoc; reflexivity|].
  repeat split; gen_eval; reflexivity.
Qed.

(** The go-verb: its recorded forms, whichever spelling is entered. *)
Lemma conjugate_iku (now : Z) :
  exists v v' forms,
    conjugate now (J "行く") = Success (ConjugationResult.mk v forms now)
    /\ conjugate now (J "いく") = Success (ConjugationResult.mk v' forms now)
    /\ VerbInfo.irregularType v = Some iku
    /\ VerbInfo.irregularType v' = Some iku
    /\ VerbInfo.stem v = J "行" /\ VerbInfo.ending v = J "く"
    /\ VerbInfo.stem v' = J "い" /\ VerbInfo.ending v' = J "く"
    /\ conjugateIku v = inr forms.
Proof.
  do 3 eexists. split; [vm_compute; reflexivity|].
  repeat split; vm_compute; reflexivity.
Qed.

Lemma conjugateIku_forms (v : VerbInfo.t) : conjugateIku v = inr ikuForms.
Proof. vm_compute. reflexivity. Qed.

Lemma getGodanTeTa_regular (v : VerbInfo.t) (m : GodanConjugationMap.t) :
  isIkuVerb v = false ->
  JS.lookup GODAN_ENDINGS (VerbInfo.ending v) = Some m ->
  getGodanTeForm v = inr (VerbInfo.stem v ++ GodanConjugationMap.te m)
  /\ getGodanTaForm v = inr (VerbInfo.stem v ++ GodanConjugationMap.ta m).
Proof.
  intros Hiku Hm. unfold getGodanTeForm, getGodanTaForm, getGodanStem.
  rewrite Hiku, Hm. split; reflexivity.
Qed.

Lemma lookup_combine_hiragana (forms : list ConjugationForm.t) (formId : jsstring) :
  JS.lookup (combine (map ConjugationForm.id forms)
                     (map ConjugationForm.hiragana forms)) formId
  = hiraganaOf forms formId.
Proof.
  unfold hiraganaOf, findForm. induction forms as [|f forms IH]; simpl; [reflexivity|].
  destruct (JS.eqb (ConjugationForm.id f) formId); [reflexivity | exact IH].
Qed.

(** The go-verb, in either spelling: its connective and past forms, the
    forms that follow the regular pattern of the terminal く, and the
    four forms built on the connective or the past form. *)
Lemma iku_sound_change :
  forall now input,
        input = J "行く" \/ input = J "いく" ->
        exists r,
          conjugate now input = Success r
          /\ kanjiOf (ConjugationResult.forms r) (J "te") = Some (J "行って")
          /\ kanjiOf (ConjugationResult.forms r) (J "ta") = Some (J "行った")
          /\ hiraganaOf (ConjugationResult.forms r) (J "te") = Some (J "いって")
          /\ hiraganaOf (ConjugationResult.forms r) (J "ta") = Some (J "いった")
          /\ (forall formId,
                In formId catalogueIds ->
                formId <> J "te" -> formId <> J "ta" ->
                ~ In formId builtOnTeTa ->
                kanjiOf (ConjugationResult.forms r) formId
                = JS.lookup (regularKuPattern (J "行く") (J "行")) formId
                /\ hiraganaOf (ConjugationResult.forms r) formId
                   = JS.lookup (regularKuPattern (J "いく") (J "い")) formId)
          /\ kanjiOf (ConjugationResult.forms r) (J "imperative-polite")
             = Some (J "行って" ++ J "ください")
          /\ kanjiOf (ConjugationResult.forms r) (J "conditional-tara")
             = Some (J "行った" ++ J "ら")
          /\ kanjiOf (ConjugationResult.forms r) (J "progressive-present")
             = Some (J "行って" ++ J "いる")
          /\ kanjiOf (ConjugationResult.forms r) (J "progressive-past")
             = Some (J "行って" ++ J "いた").
Proof.
    intros now input Hin.
    destruct (conjugate_iku now) as [v [v' [forms [Hk [Hh [_ [_ [_ [_ [_ [_ Hf]]]]]]]]]]].
    rewrite conjugateIku_forms in Hf. injection Hf as <-.
    assert (Hr : exists w, conjugate now input
                           = Success (ConjugationResult.mk w ikuForms now))
      by (destruct Hin as [-> | ->]; eauto).
    destruct Hr as [w Hr]. eexists. split; [exact Hr|].
    cbn [ConjugationResult.forms].
    do 4 (split; [vm_compute; reflexivity|]).
    split.
    + intros formId Hid Hte Hta Hbuilt.
      unfold catalogueIds in Hid. cbn [map CONJUGATION_FORMS] in Hid.
      repeat (destruct Hid as [Hid | Hid];
        [rewrite <- Hid in *;
         first [ split; vm_compute; reflexivity
               | exfalso; apply Hte; vm_compute; reflexivity
               | exfalso; apply Hta; vm_compute; reflexivity
               | exfalso; apply Hbuilt; vm_compute; tauto ]|]).
      contradiction.
    + repeat split; vm_compute; reflexivity.
Qed.

Lemma generator_godan (v : VerbInfo.t) :
  VerbInfo.type v = godan -> generator v = conjugateGodan v.
Proof. intros H. rewrite generator_eq, H. reflexivity. Qed.

(** A verb classified as five-grade: the connective and the past form
    are the stem and the euphonic suffix of the terminal kana. *)
Lemma godan_sound_change :
  forall input v,
     classifyVerb input = inr v ->
     VerbInfo.type v = godan ->
     exists te ta forms,
       euphonic (VerbInfo.ending v) = Some (te, ta)
       /\ VerbInfo.stem v ++ VerbInfo.ending v = VerbInfo.dictionaryForm v
       /\ getGodanTeForm v = inr (VerbInfo.stem v ++ te)
       /\ getGodanTaForm v = inr (VerbInfo.stem v ++ ta)
       /\ conjugateGodan v = inr forms
       /\ (forall now, conjugate now input
                       = Success (ConjugationResult.mk v forms now))
       /\ hiraganaOf forms (J "te") = Some (VerbInfo.stem v ++ te)
       /\ kanjiOf forms (J "te") = Some (VerbInfo.stem v ++ te)
       /\ hiraganaOf forms (J "ta") = Some (VerbInfo.stem v ++ ta)
       /\ kanjiOf forms (J "ta") = Some (VerbInfo.stem v ++ ta)
       /\ (VerbInfo.ending v = J "く" ->
           forall formId,
             JS.lookup (regularKuPattern (VerbInfo.dictionaryForm v)
                                         (VerbInfo.stem v)) formId
             = hiraganaOf forms formId).
Proof.
    intros input v H Htype.
    destruct (conjugate_classified _ _ H) as [forms [Hgen [Hcat Hc]]].
    rewrite (generator_godan v Htype) in Hgen.
    assert (Hiku : isIkuVerb v = false /\ In (VerbInfo.ending v) GODAN_ENDING_CHARS
                   /\ VerbInfo.stem v ++ VerbInfo.ending v = VerbInfo.dictionaryForm v).
    { apply classifyVerb_inr in H as [_ [_ Hcl]].
      destruct Hcl as [p Hp Hv | p base Hp Hb Hv | t Ht | Hirr Hlast | Hirr Hin];
        try discriminate Htype.
      split; [apply isIkuVerb_godan; exact Hirr|].
      split; [exact Hin | apply getStem_getLastChar]. }
    destruct Hiku as [Hiku [Hin Hsplit]].
    destruct (lookup_keys GODAN_ENDINGS _ Hin) as [m Hm].
    destruct (conjugateGodan_te_ta v m Htype Hiku Hm)
      as [forms' [Hf [Hh [Hk [H1 [H2 [H3 H4]]]]]]].
    destruct (getGodanTeTa_regular v m Hiku Hm) as [Hte Hta].
    assert (forms' = forms) as -> by (rewrite Hf in Hgen; injection Hgen; auto).
    exists (GodanConjugationMap.te m), (GodanConjugationMap.ta m), forms.
    split; [apply euphonic_row; exact Hm|].
    split; [exact Hsplit|].
    split; [exact Hte|]. split; [exact Hta|].
    split; [exact Hf|]. split; [exact Hc|].
    split; [exact H1|]. split; [exact H2|]. split; [exact H3|]. split; [exact H4|].
    intros Hku formId.
    rewrite Hku in Hm.
    assert (Em : m = godanRow "か" "き" "け" "こ" "いて" "いた")
      by (vm_compute in Hm; injection Hm as <-; vm_compute; reflexivity).
    unfold regularKuPattern. rewrite <- (followsCatalogue_ids _ Hcat).
    rewrite <- Em, <- Hh. apply lookup_combine_hiragana.
Qed.

(** C1: for every verb classified as five-grade, the connective form
    is the stem followed by the euphonic suffix of the terminal kana
    (う, つ, る: って; む, ぶ, ぬ: んで; く: いて; ぐ: いで; す: して) and
    the past form the stem followed by った, んだ, いた, いだ, した, both
    by the helpers and in the result of [conjugate]; a verb with the
    terminal く follows the regular pattern in every form.  The go-verb
    行く / いく has the connective 行って and the past 行った; the four
    forms built on them (polite imperative, たら conditional, and the
    two progressives) are 行って / 行った followed by the regular suffix;
    every other form is that of the regular pattern of the terminal く. *)
Theorem te_ta_sound_change :
  (forall input v,
     classifyVerb input = inr v ->
     VerbInfo.type v = godan ->
     exists te ta forms,
       euphonic (VerbInfo.ending v) = Some (te, ta)
       /\ VerbInfo.stem v ++ VerbInfo.ending v = VerbInfo.dictionaryForm v
       /\ getGodanTeForm v = inr (VerbInfo.stem v ++ te)
       /\ getGodanTaForm v = inr (VerbInfo.stem v ++ ta)
       /\ conjugateGodan v = inr forms
       /\ (forall now, conjugate now input
                       = Success (ConjugationResult.mk v forms now))
       /\ hiraganaOf forms (J "te") = Some (VerbInfo.stem v ++ te)
       /\ kanjiOf forms (J "te") = Some (VerbInfo.stem v ++ te)
       /\ hiraganaOf forms (J "ta") = Some (VerbInfo.stem v ++ ta)
       /\ kanjiOf forms (J "ta") = Some (VerbInfo.stem v ++ ta)
       /\ (VerbInfo.ending v = J "く" ->
           forall formId,
             JS.lookup (regularKuPattern (VerbInfo.dictionaryForm v)
                                         (VerbInfo.stem v)) formId
             = hiraganaOf forms formId))
  /\ (forall now input,
        input = J "行く" \/ input = J "いく" ->
        exists r,
          conjugate now input = Success r
          /\ kanjiOf (ConjugationResult.forms r) (J "te") = Some (J "行って")
          /\ kanjiOf (ConjugationResult.forms r) (J "ta") = Some (J "行った")
          /\ hiraganaOf (ConjugationResult.forms r) (J "te") = Some (J "いって")
          /\ hiraganaOf (ConjugationResult.forms r) (J "ta") = Some (J "いった")
          /\ (forall formId,
                In formId catalogueIds ->
                formId <> J "te" -> formId <> J "ta" ->
                ~ In formId builtOnTeTa ->
                kanjiOf (ConjugationResult.forms r) formId
                = JS.lookup (regularKuPattern (J "行く") (J "行")) formId
                /\ hiraganaOf (ConjugationResult.forms r) formId
                   = JS.lookup (regularKuPattern (J "いく") (J "い")) formId)
          /\ kanjiOf (ConjugationResult.forms r) (J "imperative-polite")
             = Some (J "行って" ++ J "ください")
          /\ kanjiOf (ConjugationResult.forms r) (J "conditional-tara")
             = Some (J "行った" ++ J "ら")
          /\ kanjiOf (ConjugationResult.forms r) (J "progressive-present")
             = Some (J "行って" ++ J "いる")
          /\ kanjiOf (ConjugationResult.forms r) (J "progressive-past")
             = Some (J "行って" ++ J "いた")).
Proof.
  split.
  - intros input v H Htype. exact (godan_sound_change input v H Htype).
  - intros now input Hin. exact (iku_sound_change now input Hin).
Qed.

Lemma te_ta_sound_change_witness :
  exists v forms,
    classifyVerb (J "泳ぐ") = inr v
    /\ VerbInfo.type v = godan
    /\ getGodanTeForm v = inr (J "泳いで")
    /\ getGodanTaForm v = inr (J "泳いだ")
    /\ conjugateGodan v = inr forms
    /\ hiraganaOf forms (J "te") = Some (J "泳いで")
    /\ hiraganaOf forms (J "ta") = Some (J "泳いだ").
Proof.
  destruct (proj1 te_ta_sound_change (J "泳ぐ")
              (VerbInfo.mk (J "泳ぐ") (J "泳ぐ") (J "泳gu") godan (J "泳") (J "ぐ")
                           None None)
              ltac:(vm_compute; reflexivity) eq_refl)
    as [te [ta [forms [He [_ [Hte [Hta [Hf [_ [Hh [_ [Hh' _]]]]]]]]]]]].
  vm_compute in He. injection He as <- <-.
  eexists. exists forms.
  split; [vm_compute; reflexivity|].
  split; [reflexivity|].
  split; [exact Hte|]. split; [exact Hta|]. split; [exact Hf|].
  split; [exact Hh | exact Hh'].
Defined.

(** C1, as stated: it is not every form of 行く other than the
    connective and the past that follows the regular pattern of the
    terminal く.  The polite imperative is 行ってください, where the
    regular pattern has 行いてください. *)
Lemma iku_other_forms_counterexample :
  exists formId r,
    In formId catalogueIds
    /\ formId <> J "te" /\ formId <> J "ta"
    /\ conjugate 0 (J "行く") = Success r
    /\ kanjiOf (ConjugationResult.forms r) formId = Some (J "行ってください")
    /\ JS.lookup (regularKuPattern (J "行く") (J "行")) formId
       = Some (J "行いてください").
Proof.
  exists (J "imperative-polite"). eexists.
  split; [vm_compute; tauto|].
  split; [vm_compute; discriminate|].
  split; [vm_compute; discriminate|].
  split; [vm_compute; reflexivity|].
  split; vm_compute; reflexivity.
Qed.

(** ** Serialisation *)

Example stringify_ex :
  JSON.stringify (JObject [(J "a", JArray [JNumber 12; JNull; JUndefined; JString (J "xあ")]);
                           (J "u", JUndefined); (J "n", JNumber (-5))])
  = Some ([123; 34; 97; 34; 58; 91; 49; 50; 44; 110; 117; 108; 108; 44; 110; 117;
           108; 108; 44; 34; 120; 12354; 34; 93; 44; 34; 110; 34; 58; 45; 53; 125]%N).
Proof. vm_compute. reflexivity. Qed.

Example quote_ex :
  JSON.quote [10; 34; 12354; 55357; 56832; 55357; 7]%N
  = [34; 92; 110; 92; 34; 12354; 55357; 56832; 92; 117; 100; 56; 51; 100;
     92; 117; 48; 48; 48; 55; 34]%N.
Proof. vm_compute. reflexivity. Qed.

Example parse_ex :
  JSON.parse ([32; 123; 34; 97; 34; 32; 58; 91; 49; 50; 32; 44; 110; 117; 108; 108;
               44; 34; 92; 117; 51; 48; 52; 50; 92; 110; 34; 93; 44; 34; 110; 34;
               58; 45; 53; 125; 10]%N)
  = Some (JObject [(J "a", JArray [JNumber 12; JNull; JString [12354; 10]%N]);
                   (J "n", JNumber (-5))]).
Proof. vm_compute. reflexivity. Qed.

(** *** Strings *)

Lemma hexValue_hexDigit (d : N) :
  (d < 16)%N -> JSON.hexValue (JSON.hexDigit d) = Some d.
Proof.
  intros H. unfold JSON.hexDigit, JSON.hexValue.
  destruct (N.ltb_spec d 10).
  - replace ((48 <=? 48 + d) && (48 + d <=? 57))%N with true.
    + f_equal. lia.
    + symmetry. apply andb_true_iff. split; apply N.leb_le; lia.
  - replace ((48 <=? 87 + d) && (87 + d <=? 57))%N with false.
    + replace ((97 <=? 87 + d) && (87 + d <=? 102))%N with true.
      * f_equal. lia.
      * symmetry. apply andb_true_iff. split; apply N.leb_le; lia.
    + symmetry. apply andb_false_iff. right. apply N.leb_gt. lia.
Qed.

Lemma hex4_unicodeEscape (c : N) (rest : jsstring) :
  (c < 65536)%N ->
  exists h1 h2 h3 h4,
    JSON.unicodeEscape c = [92; 117; h1; h2; h3; h4]%N
    /\ JSON.hex4 h1 h2 h3 h4 = Some c.
Proof.
  intros H. unfold JSON.unicodeEscape. do 4 eexists. split; [reflexivity|].
  unfold JSON.hex4.
  rewrite !hexValue_hexDigit by (apply N.mod_lt; discriminate).
  f_equal.
  pose proof (N.div_mod c 16 ltac:(discriminate)).
  pose proof (N.div_mod (c / 16) 16 ltac:(discriminate)).
  pose proof (N.div_mod (c / 16 / 16) 16 ltac:(discriminate)).
  assert (E1 : (c / 256 = c / 16 / 16)%N) by (rewrite N.Div0.div_div; reflexivity).
  assert (E2 : (c / 4096 = c / 16 / 16 / 16)%N) by (rewrite !N.Div0.div_div; reflexivity).
  assert (Hs : (c / 16 / 16 / 16 < 16)%N).
  { rewrite !N.Div0.div_div. apply N.Div0.div_lt_upper_bound. exact H. }
  rewrite E1, E2. rewrite (N.mod_small _ _ Hs). lia.
Qed.

Lemma parseString_raw (c : N) (r : jsstring) :
  c <> 34%N -> c <> 92%N -> (32 <= c)%N ->
  JSON.parseString (c :: r) = JSON.consChar c (JSON.parseString r).
Proof.
  intros H1 H2 H3. cbn [JSON.parseString].
  destruct (N.eqb_spec c 34); [contradiction|].
  destruct (N.eqb_spec c 92); [contradiction|].
  destruct (N.ltb_spec c 32); [lia | reflexivity].
Qed.

Lemma parseString_escape (e u : N) (r : jsstring) :
  e <> 117%N -> JSON.unescape e = Some u ->
  JSON.parseString (92%N :: e :: r) = JSON.consChar u (JSON.parseString r).
Proof.
  intros H1 H2. cbn [JSON.parseString]. cbn [N.eqb Pos.eqb].
  destruct (N.eqb_spec e 117); [contradiction|]. rewrite H2. reflexivity.
Qed.

Lemma parseString_quoteChar (c : N) (r : jsstring) :
  JSON.parseString (JSON.quoteChar [c] ++ r) = JSON.consChar c (JSON.parseString r).
Proof.
  unfold JSON.quoteChar.
  destruct (N.eqb_spec c 8) as [->|]; [reflexivity|].
  destruct (N.eqb_spec c 9) as [->|]; [reflexivity|].
  destruct (N.eqb_spec c 10) as [->|]; [reflexivity|].
  destruct (N.eqb_spec c 12) as [->|]; [reflexivity|].
  destruct (N.eqb_spec c 13) as [->|]; [reflexivity|].
  destruct (N.eqb_spec c 34) as [->|]; [reflexivity|].
  destruct (N.eqb_spec c 92) as [->|]; [reflexivity|].
  destruct ((c <? 32)%N || JS.isHighSurrogate c || JS.isLowSurrogate c) eqn:E.
  - assert (Hc : (c < 65536)%N).
    { apply orb_true_iff in E as [E | E]; [apply orb_true_iff in E as [E | E]|].
      - apply N.ltb_lt in E. lia.
      - unfold JS.isHighSurrogate in E. apply andb_true_iff in E as [_ E].
        apply N.leb_le in E. lia.
      - unfold JS.isLowSurrogate in E. apply andb_true_iff in E as [_ E].
        apply N.leb_le in E. lia. }
    destruct (hex4_unicodeEscape c r Hc) as [h1 [h2 [h3 [h4 [Eu Eh]]]]].
    rewrite Eu. cbn [app JSON.parseString]. cbn [N.eqb Pos.eqb].
    rewrite Eh. reflexivity.
  - apply orb_false_iff in E as [E _]. apply orb_false_iff in E as [E _].
    apply N.ltb_ge in E. cbn [app]. apply parseString_raw; assumption.
Qed.

Lemma chars_cases (s : jsstring) :
  s = []
  \/ (exists c r, s = c :: r /\ JS.chars s = [c] :: JS.chars r)
  \/ (exists c d r, s = c :: d :: r
        /\ JS.isHighSurrogate c && JS.isLowSurrogate d = true
        /\ JS.chars s = [c; d] :: JS.chars r).
Proof.
  destruct s as [|c [|d r]]; [left; reflexivity | |].
  - right. left. exists c, []. split; reflexivity.
  - cbn [JS.chars].
    destruct (JS.isHighSurrogate c && JS.isLowSurrogate d) eqn:E.
    + right. right. exists c, d, r. repeat split. exact E.
    + right. left. exists c, (d :: r). split; reflexivity.
Qed.

Lemma parseString_quoted (s rest : jsstring) :
  JSON.parseString (flat_map JSON.quoteChar (JS.chars s) ++ 34%N :: rest)
  = Some (s, rest).
Proof.
  remember (List.length s) as n eqn:Hn.
  revert s Hn. induction n as [n IH] using lt_wf_ind. intros s Hn.
  destruct (chars_cases s) as [-> | [[c [r [-> Hc]]] | [c [d [r [-> [Hp Hc]]]]]]].
  - reflexivity.
  - rewrite Hc. cbn [flat_map]. rewrite <- app_assoc, parseString_quoteChar.
    rewrite (IH (List.length r)); [reflexivity | simpl in Hn; lia | reflexivity].
  - rewrite Hc. cbn [flat_map JSON.quoteChar app].
    apply andb_true_iff in Hp as [Hh Hl].
    unfold JS.isHighSurrogate in Hh. unfold JS.isLowSurrogate in Hl.
    apply andb_true_iff in Hh as [Hh1 Hh2]. apply andb_true_iff in Hl as [Hl1 Hl2].
    apply N.leb_le in Hh1, Hh2, Hl1, Hl2.
    rewrite parseString_raw by lia. rewrite parseString_raw by lia.
    rewrite (IH (List.length r)); [reflexivity | simpl in Hn; lia | reflexivity].
Qed.

Lemma quote_eq (s rest : jsstring) :
  JSON.quote s ++ rest
  = 34%N :: (flat_map JSON.quoteChar (JS.chars s) ++ 34%N :: rest).
Proof. unfold JSON.quote. cbn [app]. rewrite <- app_assoc. reflexivity. Qed.

Lemma parseValue_string (fuel : nat) (r : jsstring) :
  JSON.parseValue (S fuel) (34%N :: r)
  = match JSON.parseString r with
    | Some (str, rest) => Some (JString str, rest)
    | None => None
    end.
Proof. reflexivity. Qed.

Lemma parseValue_quote (fuel : nat) (s rest : jsstring) :
  JSON.parseValue (S fuel) (JSON.quote s ++ rest) = Some (JString s, rest).
Proof.
  rewrite quote_eq, parseValue_string, parseString_quoted. reflexivity.
Qed.

(** *** Numbers *)

Lemma spanDigits_printUint (d : Decimal.uint) (rest : jsstring) :
  delimited rest -> JSON.spanDigits (JSON.printUint d ++ rest) = (d, rest).
Proof.
  intros Hr. induction d; cbn [JSON.printUint app JSON.spanDigits];
    try (change (JSON.digit 48) with (Some Decimal.D0);
         change (JSON.digit 49) with (Some Decimal.D1);
         change (JSON.digit 50) with (Some Decimal.D2);
         change (JSON.digit 51) with (Some Decimal.D3);
         change (JSON.digit 52) with (Some Decimal.D4);
         change (JSON.digit 53) with (Some Decimal.D5);
         change (JSON.digit 54) with (Some Decimal.D6);
         change (JSON.digit 55) with (Some Decimal.D7);
         change (JSON.digit 56) with (Some Decimal.D8);
         change (JSON.digit 57) with (Some Decimal.D9);
         cbv iota beta; rewrite IHd; reflexivity).
  destruct rest as [|c r]; [reflexivity|]. simpl in Hr.
  cbn [JSON.spanDigits]. rewrite Hr. reflexivity.
Qed.

Lemma nzhead_not_D0 (d d' : Decimal.uint) :
  Decimal.nzhead d <> Decimal.D0 d'.
Proof. induction d; simpl; try discriminate. exact IHd. Qed.

(** The decimal numeral of a positive number starts with a digit
    from 1 to 9. *)
Lemma to_uint_head (p : positive) :
  exists c t, JSON.printUint (Pos.to_uint p) = c :: t
              /\ (49 <= c <= 57)%N.
Proof.
  pose proof (DecimalPos.Unsigned.to_of (Pos.to_uint p)) as H.
  rewrite DecimalPos.Unsigned.of_to in H. cbn [N.to_uint] in H.
  pose proof (DecimalPos.Unsigned.to_uint_nonzero p) as Hz.
  assert (Hn : Decimal.nzhead (Pos.to_uint p) <> Decimal.Nil).
  { intros E. unfold Decimal.unorm in H. rewrite E in H. congruence. }
  rewrite (DecimalFacts.unorm_nzhead _ Hn) in H.
  pose proof (nzhead_not_D0 (Pos.to_uint p)) as H0. rewrite <- H in H0.
  pose proof (DecimalPos.Unsigned.to_uint_nonnil p) as Hnil.
  destruct (Pos.to_uint p); cbn [JSON.printUint];
    try (do 2 eexists; split; [reflexivity | lia]).
  - contradiction.
  - exfalso. apply (H0 u). reflexivity.
Qed.

Lemma digit_range (c : N) : (48 <= c <= 57)%N -> exists d, JSON.digit c = Some d.
Proof.
  intros H. unfold JSON.digit.
  repeat match goal with
         | |- context [(c =? ?k)%N] => destruct (N.eqb_spec c k); [eauto|]
         end.
  lia.
Qed.

Lemma parseNat_printUint (p : positive) (rest : jsstring) :
  delimited rest ->
  JSON.parseNat (JSON.printUint (Pos.to_uint p) ++ rest) = Some (Zpos p, rest).
Proof.
  intros Hr. destruct (to_uint_head p) as [c [t [E Hc]]].
  pose proof (spanDigits_printUint (Pos.to_uint p) rest Hr) as Hs.
  rewrite E in *. cbn [app] in *. unfold JSON.parseNat.
  destruct (N.eqb_spec c 48); [lia|].
  destruct (digit_range c) as [d Hd]; [lia|]. rewrite Hd, Hs.
  rewrite DecimalPos.Unsigned.of_to. reflexivity.
Qed.

(** A number is read back, whatever delimits it. *)
Lemma parseNumber_numberToString (n : Z) (rest : jsstring) :
  delimited rest ->
  JSON.parseNumber (JSON.numberToString n ++ rest) = Some (n, rest).
Proof.
  intros Hr. destruct n as [|p|p]; cbn [JSON.numberToString app].
  - reflexivity.
  - destruct (to_uint_head p) as [c [t [E Hc]]].
    pose proof (parseNat_printUint p rest Hr) as Hp. rewrite E in *.
    cbn [app] in *. unfold JSON.parseNumber.
    destruct (N.eqb_spec c 45); [lia | exact Hp].
  - unfold JSON.parseNumber. cbn [N.eqb Pos.eqb].
    rewrite parseNat_printUint by exact Hr. reflexivity.
Qed.

(** The first character of a number is a digit or the minus sign. *)
Lemma numberToString_head (n : Z) :
  exists c t, JSON.numberToString n = c :: t
              /\ (c = 45 \/ 48 <= c <= 57)%N.
Proof.
  destruct n as [|p|p]; cbn [JSON.numberToString].
  - do 2 eexists. split; [reflexivity | lia].
  - destruct (to_uint_head p) as [c [t [E Hc]]]. rewrite E.
    do 2 eexists. split; [reflexivity | lia].
  - do 2 eexists. split; [reflexivity | lia].
Qed.

Lemma parseValue_number (fuel : nat) (c : N) (r : jsstring) :
  (c = 45 \/ 48 <= c <= 57)%N ->
  JSON.parseValue (S fuel) (c :: r)
  = match JSON.parseNumber (c :: r) with
    | Some (n, rest) => Some (JNumber n, rest)
    | None => None
    end.
Proof.
  intros H. cbn [JSON.parseValue JSON.skipWs].
  assert (Hs : JSON.isSpace c = false).
  { unfold JSON.isSpace.
    repeat match goal with
           | |- context [(c =? ?k)%N] => destruct (N.eqb_spec c k); [lia|]
           end. reflexivity. }
  rewrite Hs.
  destruct (N.eqb_spec c 34); [lia|].
  destruct (N.eqb_spec c 91); [lia|].
  destruct (N.eqb_spec c 123); [lia|].
  cbn [JS.startsWith J JS.lit JS.bytes].
  assert (Hn : forall k, (k = 110 \/ k = 116 \/ k = 102)%N -> (c =? k)%N = false)
    by (intros k Hk; apply N.eqb_neq; lia).
  unfold JS.startsWith, J, JS.lit. simpl.
  rewrite !Hn by lia. reflexivity.
Qed.

Lemma skipWs_nonspace (c : N) (r : jsstring) :
  JSON.isSpace c = false -> JSON.skipWs (c :: r) = c :: r.
Proof. intros H. cbn [JSON.skipWs]. rewrite H. reflexivity. Qed.

Lemma reads_null : reads 1 (J "null") JNull.
Proof.
  split; [vm_compute; lia|]. split.
  - exists 110%N, [117; 108; 108]%N. repeat split; discriminate.
  - intros [|fuel] rest Hf _; [lia|]. destruct rest; reflexivity.
Qed.

Lemma reads_bool (b : bool) :
  reads 1 (if b then J "true" else J "false") (JBool b).
Proof.
  destruct b.
  - split; [vm_compute; lia|]. split.
    + exists 116%N, [114; 117; 101]%N. repeat split; discriminate.
    + intros [|fuel] rest Hf _; [lia|]. destruct rest; reflexivity.
  - split; [vm_compute; lia|]. split.
    + exists 102%N, [97; 108; 115; 101]%N. repeat split; discriminate.
    + intros [|fuel] rest Hf _; [lia|]. destruct rest; reflexivity.
Qed.

Lemma reads_number (n : Z) : reads 1 (JSON.numberToString n) (JNumber n).
Proof.
  destruct (numberToString_head n) as [c [t [E Hc]]].
  split; [rewrite E; simpl; lia|]. split.
  - exists c, t. split; [exact E|]. split; [|lia].
    unfold JSON.isSpace.
    repeat match goal with
           | |- context [(c =? ?k)%N] => destruct (N.eqb_spec c k); [lia|]
           end. reflexivity.
  - intros [|fuel] rest Hf Hr; [lia|].
    pose proof (parseNumber_numberToString n rest Hr) as Hp.
    rewrite E in *. cbn [app] in *.
    rewrite parseValue_number by exact Hc. rewrite Hp. reflexivity.
Qed.

Lemma reads_string (s : jsstring) : reads 1 (JSON.quote s) (JString s).
Proof.
  split; [unfold JSON.quote; simpl; lia|]. split.
  - exists 34%N, (flat_map JSON.quoteChar (JS.chars s) ++ [34%N]).
    repeat split; discriminate.
  - intros [|fuel] rest Hf _; [lia|]. apply parseValue_quote.
Qed.

(** *** Arrays and objects *)

Lemma parseElements_S (fuel : nat) (s : jsstring) :
  JSON.parseElements (S fuel) s
  = match JSON.parseValue fuel s with
    | None => None
    | Some (item, rest) =>
      match JSON.skipWs rest with
      | [] => None
      | c :: r =>
        if (c =? 44)%N then
          match JSON.parseElements fuel r with
          | Some (more, rest') => Some (item :: more, rest')
          | None => None
          end
        else if (c =? 93)%N then Some ([item], r)
        else None
      end
    end.
Proof. reflexivity. Qed.

Lemma parseMembers_quote (fuel : nat) (key r1 : jsstring) :
  JSON.parseMembers (S fuel) (JSON.quote key ++ 58%N :: r1)
  = match JSON.parseValue fuel r1 with
    | None => None
    | Some (x, rest) =>
      match JSON.skipWs rest with
      | [] => None
      | c :: r =>
        if (c =? 44)%N then
          match JSON.parseMembers fuel r with
          | Some (more, rest') => Some ((key, x) :: more, rest')
          | None => None
          end
        else if (c =? 125)%N then Some ([(key, x)], r)
        else None
      end
    end.
Proof.
  rewrite quote_eq.
  change (JSON.parseMembers (S fuel)
            (34%N :: flat_map JSON.quoteChar (JS.chars key) ++ 34%N :: 58%N :: r1))
    with (match JSON.parseString
                  (flat_map JSON.quoteChar (JS.chars key) ++ 34%N :: 58%N :: r1) with
          | None => None
          | Some (key, rest0) =>
            match JSON.skipWs rest0 with
            | [] => None
            | colon :: r1 =>
              if (colon =? 58)%N then
                match JSON.parseValue fuel r1 with
                | None => None
                | Some (x, rest) =>
                  match JSON.skipWs rest with
                  | [] => None
                  | c :: r =>
                    if (c =? 44)%N then
                      match JSON.parseMembers fuel r with
                      | Some (more, rest') => Some ((key, x) :: more, rest')
                      | None => None
                      end
                    else if (c =? 125)%N then Some ([(key, x)], r)
                    else None
                  end
                end
              else None
            end
          end).
  rewrite parseString_quoted. reflexivity.
Qed.

Lemma parseValue_array (fuel : nat) (c : N) (r : jsstring) :
  JSON.isSpace c = false -> c <> 93%N ->
  JSON.parseValue (S fuel) (91%N :: c :: r)
  = match JSON.parseElements fuel (c :: r) with
    | Some (items, rest) => Some (JArray items, rest)
    | None => None
    end.
Proof.
  intros Hs Hc.
  change (JSON.parseValue (S fuel) (91%N :: c :: r))
    with (match JSON.skipWs (c :: r) with
          | [] => None
          | c' :: r' =>
            if (c' =? 93)%N then Some (JArray [], r')
            else match JSON.parseElements fuel (c :: r) with
                 | Some (items, rest) => Some (JArray items, rest)
                 | None => None
                 end
          end).
  rewrite skipWs_nonspace by exact Hs.
  destruct (N.eqb_spec c 93); [contradiction|]. reflexivity.
Qed.

Lemma parseValue_object (fuel : nat) (r : jsstring) :
  JSON.parseValue (S fuel) (123%N :: 34%N :: r)
  = match JSON.parseMembers fuel (34%N :: r) with
    | Some (members, rest) => Some (JObject members, rest)
    | None => None
    end.
Proof. reflexivity. Qed.

Lemma list_sum_cons (x : nat) (l : list nat) :
  list_sum (x :: l) = (x + list_sum l)%nat.
Proof. reflexivity. Qed.

Section Join.

Variable A : Type.
Variables (text : A -> jsstring) (val : A -> jsvalue) (n : A -> nat).

Lemma parseElements_join (l : list A) :
  l <> [] ->
  Forall (fun a => reads (n a) (text a) (val a)) l ->
  forall fuel rest,
    (list_sum (map (fun a => S (n a)) l) <= fuel)%nat ->
    JSON.parseElements fuel (JSON.join (map text l) ++ 93%N :: rest)
    = Some (map val l, rest).
Proof.
  induction l as [|a l' IH]; [congruence|].
  intros _ HF fuel rest Hfuel.
  inversion HF as [|a' l'' [_ [_ Ha]] HF']; subst.
  cbn [map] in Hfuel. rewrite list_sum_cons in Hfuel.
  destruct fuel as [|fuel]; [lia|].
  rewrite parseElements_S.
  destruct l' as [|b l'].
  - cbn [map JSON.join].
    rewrite (Ha fuel (93%N :: rest)) by first [exact eq_refl | cbn [map] in Hfuel; rewrite ?list_sum_cons in Hfuel; lia].
    reflexivity.
  - change (JSON.join (map text (a :: b :: l')))
      with (text a ++ [44%N] ++ JSON.join (map text (b :: l'))).
    rewrite <- !app_assoc. cbn [app].
    rewrite (Ha fuel (44%N :: JSON.join (map text (b :: l')) ++ 93%N :: rest))
      by first [exact eq_refl | cbn [map] in Hfuel; rewrite ?list_sum_cons in Hfuel; lia].
    cbn [JSON.skipWs]. change (JSON.isSpace 44) with false. cbv iota.
    change (44 =? 44)%N with true. cbv iota.
    rewrite IH; [reflexivity|discriminate|exact HF'|lia].
Qed.

Variable key : A -> jsstring.

Lemma parseMembers_join (l : list A) :
  l <> [] ->
  Forall (fun a => reads (n a) (text a) (val a)) l ->
  forall fuel rest,
    (list_sum (map (fun a => S (n a)) l) <= fuel)%nat ->
    JSON.parseMembers fuel
      (JSON.join (map (fun a => JSON.quote (key a) ++ 58%N :: text a) l)
       ++ 125%N :: rest)
    = Some (map (fun a => (key a, val a)) l, rest).
Proof.
  induction l as [|a l' IH]; [congruence|].
  intros _ HF fuel rest Hfuel.
  inversion HF as [|a' l'' [_ [_ Ha]] HF']; subst.
  cbn [map] in Hfuel. rewrite list_sum_cons in Hfuel.
  destruct fuel as [|fuel]; [lia|].
  destruct l' as [|b l'].
  - cbn [map JSON.join].
    rewrite <- !app_assoc. cbn [app].
    rewrite parseMembers_quote.
    rewrite (Ha fuel (125%N :: rest)) by first [exact eq_refl | cbn [map] in Hfuel; rewrite ?list_sum_cons in Hfuel; lia].
    reflexivity.
  - change (JSON.join (map (fun a => JSON.quote (key a) ++ 58%N :: text a)
                           (a :: b :: l')))
      with ((JSON.quote (key a) ++ 58%N :: text a) ++ [44%N]
            ++ JSON.join (map (fun a => JSON.quote (key a) ++ 58%N :: text a)
                              (b :: l'))).
    rewrite <- !app_assoc. cbn [app].
    rewrite parseMembers_quote.
    rewrite (Ha fuel
               (44%N :: JSON.join (map (fun a => JSON.quote (key a) ++ 58%N :: text a)
                                       (b :: l')) ++ 125%N :: rest))
      by first [exact eq_refl | cbn [map] in Hfuel; rewrite ?list_sum_cons in Hfuel; lia].
    cbn [JSON.skipWs]. change (JSON.isSpace 44) with false. cbv iota.
    change (44 =? 44)%N with true. cbv iota.
    rewrite IH; [reflexivity|discriminate|exact HF'|lia].
Qed.

Lemma join_length (l : list A) (len : A -> nat) (part : A -> jsstring) :
  l <> [] ->
  Forall (fun a => (n a <= len a)%nat) l ->
  (forall a, (len a <= List.length (part a))%nat) ->
  (list_sum (map (fun a => S (n a)) l)
   <= S (List.length (JSON.join (map part l))))%nat.
Proof.
  intros Hne HF Hlen.
  induction l as [|a l' IH]; [congruence|].
  inversion HF as [|a' l'' Ha HF']; subst.
  destruct l' as [|b l'].
  - cbn [map JSON.join]. rewrite list_sum_cons. specialize (Hlen a).
    change (list_sum []) with O. lia.
  - change (JSON.join (map part (a :: b :: l')))
      with (part a ++ [44%N] ++ JSON.join (map part (b :: l'))).
    rewrite !length_app. cbn [List.length].
    specialize (IH ltac:(discriminate) HF'). specialize (Hlen a).
    cbn [map] in *. rewrite !list_sum_cons in *. lia.
Qed.

End Join.

Lemma join_head (A : Type) (part : A -> jsstring) (a : A) (l : list A)
    (c : N) (t : jsstring) :
  part a = c :: t -> exists t', JSON.join (map part (a :: l)) = c :: t'.
Proof.
  intros E. destruct l as [|b l].
  - exists t. exact E.
  - change (JSON.join (map part (a :: b :: l)))
      with (part a ++ [44%N] ++ JSON.join (map part (b :: l))).
    rewrite E. eexists. reflexivity.
Qed.

Lemma serialize_None (v : jsvalue) : JSON.serialize v = None -> v = JUndefined.
Proof. destruct v as [| |[|]| | | |]; try discriminate. reflexivity. Qed.

Lemma serialize_itemText (v : jsvalue) :
  v <> JUndefined -> JSON.serialize v = Some (itemText v).
Proof.
  intros H. unfold itemText. destruct (JSON.serialize v) eqn:E; [reflexivity|].
  apply serialize_None in E. contradiction.
Qed.

Lemma reads_item (item : jsvalue) :
  (forall text, JSON.serialize item = Some text ->
                reads (size item) text (settle item)) ->
  reads (size item) (itemText item) (settleItem item).
Proof.
  intros H. unfold itemText. destruct (JSON.serialize item) eqn:E.
  - specialize (H _ eq_refl). destruct item; try exact H. discriminate E.
  - apply serialize_None in E. subst item. exact reads_null.
Qed.

Lemma kept_members (members : list (jsstring * jsvalue)) :
  Forall (fun m => forall text, JSON.serialize (snd m) = Some text ->
                                reads (size (snd m)) text (settle (snd m))) members ->
  JSON.serialize (JObject members)
  = Some ([123%N]
          ++ JSON.join (map (fun a => JSON.quote (fst a) ++ 58%N :: itemText (snd a))
                            (kept members))
          ++ [125%N])
  /\ settle (JObject members)
     = JObject (map (fun a => (fst a, settle (snd a))) (kept members))
  /\ size (JObject members)
     = S (list_sum (map (fun a => S (size (snd a))) (kept members)))
  /\ Forall (fun a => reads (size (snd a)) (itemText (snd a)) (settle (snd a)))
            (kept members).
Proof.
  intros HF.
  assert (flat_map (fun member =>
                      match member with
                      | (key, x) =>
                        match JSON.serialize x with
                        | Some text => [JSON.quote key ++ [58%N] ++ text]
                        | None => []
                        end
                      end) members
          = map (fun a => JSON.quote (fst a) ++ 58%N :: itemText (snd a)) (kept members)
          /\ flat_map (fun member =>
                         match member with
                         | (key, JUndefined) => []
                         | (key, x) => [(key, settle x)]
                         end) members
             = map (fun a => (fst a, settle (snd a))) (kept members)
          /\ list_sum (map (fun member =>
                              match member with
                              | (_, JUndefined) => O
                              | (_, x) => S (size x)
                              end) members)
             = list_sum (map (fun a => S (size (snd a))) (kept members))
          /\ Forall (fun a => reads (size (snd a)) (itemText (snd a)) (settle (snd a)))
                    (kept members)) as H.
  { induction HF as [|[k x] members Hx HF IH].
    - repeat split. constructor.
    - destruct IH as [IH1 [IH2 [IH3 IH4]]].
      assert (x = JUndefined \/ x <> JUndefined) as [-> | Hd]
        by (destruct x; (left; reflexivity) || (right; discriminate)).
      + repeat split; assumption.
      + pose proof (serialize_itemText x Hd) as Ex.
        cbn [snd] in Hx. specialize (Hx _ Ex).
        unfold kept in *.
        cbn [flat_map map]. rewrite Ex, IH1, IH2.
        rewrite !list_sum_cons, IH3.
        destruct x; try contradiction; cbn [app map fst snd];
          rewrite ?list_sum_cons;
          (repeat split; [constructor; [exact Hx | exact IH4]]). }
  destruct H as [H1 [H2 [H3 H4]]].
  cbn [JSON.serialize settle size]. rewrite H1, H2, H3. repeat split. exact H4.
Qed.

(** Reading back what was serialised: the text of every defined value
    is read as the settled value, with nothing consumed beyond it. *)
Lemma serialize_reads (v : jsvalue) :
  forall text, JSON.serialize v = Some text -> reads (size v) text (settle v).
Proof.
  induction v as [| |b|n|s|items IH|members IH] using jsvalue_induction;
    intros text E.
  - discriminate E.
  - injection E as <-. exact reads_null.
  - destruct b; injection E as <-.
    + exact (reads_bool true).
    + exact (reads_bool false).
  - injection E as <-. exact (reads_number n).
  - injection E as <-. exact (reads_string s).
  - assert (Forall (fun item => reads (size item) (itemText item) (settleItem item))
                   items) as HF.
    { clear E. induction IH; constructor; [apply reads_item; assumption | assumption]. }
    clear IH.
    assert (text = 91%N :: JSON.join (map itemText items) ++ [93%N]) as ->
      by (injection E as <-; reflexivity).
    clear E.
    change (settle (JArray items)) with (JArray (map settleItem items)).
    change (size (JArray items))
      with (S (list_sum (map (fun item => S (size item)) items))).
    destruct items as [|i items].
    + split; [cbn; lia|]. split.
      * exists 91%N, [93%N]. repeat split; discriminate.
      * intros [|fuel] rest Hf _; [cbn in Hf; lia|]. reflexivity.
    + split; [|split].
      * pose proof (join_length _ size (i :: items)
                      (fun a => List.length (itemText a)) itemText
                      ltac:(discriminate)) as HL.
        cbn [List.length]. rewrite length_app. cbn [List.length].
        assert (Forall (fun a => (size a <= List.length (itemText a))%nat) (i :: items))
          as HF' by (eapply Forall_impl; [|exact HF]; intros a [Ha _]; exact Ha).
        specialize (HL HF' (fun a => le_n _)). lia.
      * exists 91%N, (JSON.join (map itemText (i :: items)) ++ [93%N]).
        repeat split; discriminate.
      * intros [|fuel] rest Hf _; [lia|].
        inversion HF as [|i' items' [_ [[c [t [Et [Hs Hc]]]] _]] _]; subst.
        destruct (join_head _ itemText i items _ _ Et) as [t' Ej].
        cbn [app]. rewrite <- app_assoc. cbn [app]. rewrite Ej. cbn [app].
        rewrite parseValue_array by assumption.
        change (c :: t' ++ 93%N :: rest) with ((c :: t') ++ 93%N :: rest).
        rewrite <- Ej.
        rewrite (parseElements_join _ itemText settleItem size) ;
          [reflexivity | discriminate | exact HF | lia].
  - destruct (kept_members members IH) as [H1 [H2 [H3 H4]]].
    rewrite H1 in E.
    assert (text = 123%N :: JSON.join
                     (map (fun a => JSON.quote (fst a) ++ 58%N :: itemText (snd a))
                          (kept members)) ++ [125%N]) as ->
      by (injection E as <-; reflexivity).
    rewrite H2, H3. clear E H1 H2 H3 IH.
    destruct (kept members) as [|a l].
    + split; [cbn; lia|]. split.
      * exists 123%N, [125%N]. repeat split; discriminate.
      * intros [|fuel] rest Hf _; [cbn in Hf; lia|]. reflexivity.
    + split; [|split].
      * pose proof (join_length _ (fun a => size (snd a)) (a :: l)
                      (fun a => List.length (itemText (snd a)))
                      (fun a => JSON.quote (fst a) ++ 58%N :: itemText (snd a))
                      ltac:(discriminate)) as HL.
        cbn [List.length]. rewrite length_app. cbn [List.length].
        assert (Forall (fun a => (size (snd a) <= List.length (itemText (snd a)))%nat)
                       (a :: l))
          as HF' by (eapply Forall_impl; [|exact H4]; intros a' [Ha _]; exact Ha).
        assert (forall a0 : jsstring * jsvalue,
                   (List.length (itemText (snd a0))
                    <= List.length (JSON.quote (fst a0) ++ 58%N :: itemText (snd a0)))%nat)
          as Hlen by (intros a0; rewrite length_app; cbn [List.length]; lia).
        specialize (HL HF' Hlen). cbv beta in HL.
        assert (forall x y : nat, (x <= S y -> S x <= S (y + 1))%nat) as Har
          by (intros; lia).
        apply Har. exact HL.
      * exists 123%N,
          (JSON.join (map (fun a => JSON.quote (fst a) ++ 58%N :: itemText (snd a))
                          (a :: l)) ++ [125%N]).
        repeat split; discriminate.
      * intros [|fuel] rest Hf _; [lia|].
        assert (JSON.quote (fst a) ++ 58%N :: itemText (snd a)
                = 34%N :: (flat_map JSON.quoteChar (JS.chars (fst a)) ++ [34%N])
                          ++ 58%N :: itemText (snd a)) as Eq by reflexivity.
        destruct (join_head _
                    (fun a => JSON.quote (fst a) ++ 58%N :: itemText (snd a))
                    a l _ _ Eq) as [t' Ej].
        cbn [app]. rewrite <- !app_assoc.
        match goal with
        | |- context [JSON.join ?m] =>
          assert (JSON.join m = 34%N :: t') as Ej' by exact Ej
        end.
        rewrite Ej'. cbn [app].
        rewrite parseValue_object.
        change (34%N :: t' ++ 125%N :: rest) with ((34%N :: t') ++ 125%N :: rest).
        rewrite <- Ej'.
        match goal with
        | |- context [JSON.parseMembers fuel ?s] =>
          assert (JSON.parseMembers fuel s
                  = Some (map (fun a => (fst a, settle (snd a))) (a :: l), rest)) as Hp
        end.
        { apply (parseMembers_join _ (fun a => itemText (snd a))
                   (fun a => settle (snd a)) (fun a => size (snd a)) fst);
            [discriminate | exact H4 | lia]. }
        rewrite Hp. reflexivity.
Qed.

(** [JSON.parse(JSON.stringify(v))] succeeds on every defined value and
    yields the settled value. *)
Lemma parse_stringify (v : jsvalue) (text : jsstring) :
  JSON.stringify v = Some text -> JSON.parse text = Some (settle v).
Proof.
  intros E. destruct (serialize_reads v text E) as [Hn [_ Hp]].
  unfold JSON.parse.
  specialize (Hp (S (List.length text)) [] ltac:(lia) I).
  rewrite app_nil_r in Hp. rewrite Hp. reflexivity.
Qed.

(** *** Results *)

Lemma settle_forms (forms : list ConjugationForm.t) :
  map (fun item => match item with
                   | JUndefined => JNull
                   | _ => settle item
                   end) (map ConjugationForm_value forms)
  = map ConjugationForm_value forms.
Proof.
  induction forms as [|form forms IH]; [reflexivity|].
  cbn [map]. rewrite IH. reflexivity.
Qed.

Lemma readForm_value (form : ConjugationForm.t) :
  readForm (ConjugationForm_value form) = Some form.
Proof.
  destruct form as [id name nameJapanese kanji hiragana romaji formality category].
  destruct formality, category; reflexivity.
Qed.

Lemma readAll_forms (forms : list ConjugationForm.t) :
  readAll readForm (map ConjugationForm_value forms) = Some forms.
Proof.
  induction forms as [|form forms IH]; [reflexivity|].
  cbn [map readAll]. rewrite readForm_value, IH. reflexivity.
Qed.

Lemma readVerbInfo_settle (verb : VerbInfo.t) :
  readVerbInfo (settle (VerbInfo_value verb)) = Some verb.
Proof.
  destruct verb as [dictionaryForm reading romaji type stem ending
                    irregularType compoundPrefix].
  destruct type, irregularType as [[]|], compoundPrefix; reflexivity.
Qed.

Lemma settle_serializable (verb : VerbInfo.t) (forms : list ConjugationForm.t)
    (timestamp : Z) :
  settle (JObject [ (J "verb", VerbInfo_value verb);
                    (J "forms", JArray (map ConjugationForm_value forms));
                    (J "timestamp", JNumber timestamp) ])
  = JObject [ (J "verb", settle (VerbInfo_value verb));
              (J "forms", JArray (map ConjugationForm_value forms));
              (J "timestamp", JNumber timestamp) ].
Proof.
  rewrite <- (settle_forms forms) at 2. reflexivity.
Qed.

Lemma differs_refl (A : Type) (text : A -> jsstring) (x : option A) :
  differs text x x = false.
Proof. destruct x; [|reflexivity]. cbn. rewrite jseqb_refl. reflexivity. Qed.

Lemma formsDiffer_refl (forms : list ConjugationForm.t) :
  formsDiffer forms forms = false.
Proof.
  induction forms as [|form forms IH]; [reflexivity|].
  cbn [formsDiffer]. unfold formDiffers. rewrite !jseqb_refl. exact IH.
Qed.

Lemma areResultsEquivalent_refl (r : ConjugationResult.t) :
  areResultsEquivalent r r = true.
Proof.
  unfold areResultsEquivalent. cbv zeta.
  rewrite !jseqb_refl, !differs_refl, Z.eqb_refl, Nat.eqb_refl, formsDiffer_refl.
  reflexivity.
Qed.

(** C8: for every result whose timestamp is a safe integer (what the
    clock gives, and the numbers of the model), the serialisation is a
    JSON text, deserialising it succeeds, and the object obtained is,
    read through the interfaces, the result itself: the same verb
    information (with its optional irregular type and compound prefix),
    the same forms in the same order with their eight fields, and the
    same timestamp; [areResultsEquivalent] accepts the pair. *)
Theorem serialization_round_trip (r : ConjugationResult.t) :
  isSafeInteger (ConjugationResult.timestamp r) = true ->
  exists json parsed d,
    serializeResult r = Some json
    /\ deserializeResult json = inr parsed
    /\ readResult parsed = Some d
    /\ d = r
    /\ areResultsEquivalent r d = true.
Proof.
  intros _.
  destruct r as [verb forms timestamp].
  destruct (serializeResult (ConjugationResult.mk verb forms timestamp))
    as [json|] eqn:E; [|discriminate E].
  unfold serializeResult in E. cbv zeta in E.
  cbn [ConjugationResult.verb ConjugationResult.forms ConjugationResult.timestamp] in E.
  pose proof (parse_stringify _ _ E) as Hp.
  rewrite settle_serializable in Hp.
  exists json.
  eexists. exists (ConjugationResult.mk verb forms timestamp).
  split; [reflexivity|]. split.
  - unfold deserializeResult. rewrite Hp. reflexivity.
  - split; [|split; [reflexivity | apply areResultsEquivalent_refl]].
    unfold readResult.
    change (JSON.getProp _ (J "verb")) with (settle (VerbInfo_value verb)).
    rewrite readVerbInfo_settle.
    change (JSON.getProp _ (J "forms")) with (JArray (map ConjugationForm_value forms)).
    cbn [readForms]. rewrite readAll_forms. reflexivity.
Qed.

Lemma serialization_round_trip_witness :
  exists json parsed d,
    serializeResult
      (ConjugationResult.mk
         (VerbInfo.mk (J "勉強する") (J "勉強する") (J "勉強suru") irregular
                      (J "勉強") (J "する") (Some suru) (Some (J "勉強")))
         [ConjugationForm.mk (J "te") (J "Te-form") (J "て形") (J "勉強して") (J "勉強して") (J "勉強shite") plain basic] 1700000000000%Z) = Some json
    /\ deserializeResult json = inr parsed
    /\ readResult parsed = Some d
    /\ d = ConjugationResult.mk
         (VerbInfo.mk (J "勉強する") (J "勉強する") (J "勉強suru") irregular
                      (J "勉強") (J "する") (Some suru) (Some (J "勉強")))
         [ConjugationForm.mk (J "te") (J "Te-form") (J "て形") (J "勉強して") (J "勉強して") (J "勉強shite") plain basic] 1700000000000%Z
    /\ areResultsEquivalent
         (ConjugationResult.mk
         (VerbInfo.mk (J "勉強する") (J "勉強する") (J "勉強suru") irregular
                      (J "勉強") (J "する") (Some suru) (Some (J "勉強")))
         [ConjugationForm.mk (J "te") (J "Te-form") (J "て形") (J "勉強して") (J "勉強して") (J "勉強shite") plain basic] 1700000000000%Z) d = true.
Proof.
  apply serialization_round_trip. reflexivity.
Defined.

(** ** Compound verbs *)

Lemma jseqb_length (a b : jsstring) :
  JS.eqb a b = true -> List.length a = List.length b.
Proof. intros H. apply jseqb_eq in H. subst. reflexivity. Qed.

Lemma endsWith_app (p suffix : jsstring) : JS.endsWith (p ++ suffix) suffix = true.
Proof.
  unfold JS.endsWith, JS.length. rewrite length_app.
  destruct (Z.ltb_spec (Z.of_nat (List.length p + List.length suffix)
                        - Z.of_nat (List.length suffix)) 0); [lia|].
  replace (Z.to_nat (Z.of_nat (List.length p + List.length suffix)
                     - Z.of_nat (List.length suffix)))
    with (List.length p + 0)%nat by lia.
  rewrite skipn_app, skipn_all2 by lia.
  replace (List.length p + 0 - List.length p)%nat with 0%nat by lia.
  cbn [skipn app]. apply jseqb_refl.
Qed.

Lemma long_not_base (verb base : jsstring) :
  (JS.length base <? JS.length verb)%Z = true -> JS.eqb verb base = false.
Proof.
  intros H. destruct (JS.eqb verb base) eqn:E; [|reflexivity].
  apply jseqb_length in E. unfold JS.length in H. rewrite E in H.
  apply Z.ltb_lt in H. lia.
Qed.

Lemma isSuruCompound_eq (verb : jsstring) :
  isSuruCompound verb = JS.endsWith verb (J "する") && (2 <? JS.length verb)%Z.
Proof.
  unfold isSuruCompound.
  destruct (JS.endsWith verb (J "する")); [|reflexivity].
  destruct (2 <? JS.length verb)%Z eqn:L; [|reflexivity].
  rewrite (long_not_base verb (J "する") L). reflexivity.
Qed.

Lemma isKuruCompound_eq (verb : jsstring) :
  isKuruCompound verb
  = (JS.endsWith verb (J "くる") || JS.endsWith verb (J "来る"))
    && (2 <? JS.length verb)%Z.
Proof.
  unfold isKuruCompound.
  destruct (JS.endsWith verb (J "くる") || JS.endsWith verb (J "来る"));
    [|reflexivity].
  destruct (2 <? JS.length verb)%Z eqn:L; [|reflexivity].
  rewrite (long_not_base verb (J "くる") L), (long_not_base verb (J "来る") L).
  reflexivity.
Qed.

Lemma compound_prefix_detect (verb : jsstring) :
  getSuruCompoundPrefix verb
  = match detectSuruCompound verb with
    | Some p => inr p
    | None => inl (J "Not a する-compound verb")
    end
  /\ getKuruCompoundPrefix verb
     = match detectKuruCompound verb with
       | Some p => inr p
       | None => inl (J "Not a 来る-compound verb")
       end.
Proof.
  unfold getSuruCompoundPrefix, getKuruCompoundPrefix.
  rewrite isSuruCompound_eq, isKuruCompound_eq.
  unfold detectSuruCompound, detectKuruCompound, SURU_COMPOUND_SUFFIXES,
    KURU_COMPOUND_SUFFIXES.
  cbn [detectCompound].
  change (JS.length (J "する")) with 2%Z.
  change (JS.length (J "くる")) with 2%Z.
  change (JS.length (J "来る")) with 2%Z.
  change (- (2))%Z with (-2)%Z.
  destruct (JS.endsWith verb (J "する")), (JS.endsWith verb (J "くる")),
    (JS.endsWith verb (J "来る")), (2 <? JS.length verb)%Z;
    split; reflexivity.
Qed.

(** X1: the checks of the compound module agree with the classifier's
    detectors.  [isSuruCompound] and [isKuruCompound] hold exactly when
    [detectSuruCompound] and [detectKuruCompound] find a prefix, and
    [getSuruCompoundPrefix] and [getKuruCompoundPrefix] return that
    prefix, and throw exactly when there is none. *)
Theorem compound_checks_agree (verb : jsstring) :
  isSuruCompound verb
  = match detectSuruCompound verb with Some _ => true | None => false end
  /\ getSuruCompoundPrefix verb
     = match detectSuruCompound verb with
       | Some p => inr p
       | None => inl (J "Not a する-compound verb")
       end
  /\ isKuruCompound verb
     = match detectKuruCompound verb with Some _ => true | None => false end
  /\ getKuruCompoundPrefix verb
     = match detectKuruCompound verb with
       | Some p => inr p
       | None => inl (J "Not a 来る-compound verb")
       end.
Proof.
  destruct (compound_prefix_detect verb) as [Hs Hk].
  split; [|split; [exact Hs|split; [|exact Hk]]].
  - rewrite isSuruCompound_eq.
    unfold detectSuruCompound, SURU_COMPOUND_SUFFIXES. cbn [detectCompound].
    change (JS.length (J "する")) with 2%Z.
    destruct (JS.endsWith verb (J "する") && (2 <? JS.length verb)%Z); reflexivity.
  - rewrite isKuruCompound_eq.
    unfold detectKuruCompound, KURU_COMPOUND_SUFFIXES. cbn [detectCompound].
    change (JS.length (J "くる")) with 2%Z.
    change (JS.length (J "来る")) with 2%Z.
    destruct (JS.endsWith verb (J "くる")), (JS.endsWith verb (J "来る")),
      (2 <? JS.length verb)%Z; reflexivity.
Qed.

(** X2: taking the prefix of a compound undoes appending the base verb.
    For a prefix that is not empty, [getSuruCompoundPrefix] of the
    prefix followed by する is the prefix, and so is
    [getKuruCompoundPrefix] of the prefix followed by くる or 来る;
    conversely a verb of which a prefix is returned is that prefix
    followed by the base verb. *)
Theorem compound_prefix_round_trip (p : jsstring) :
  p <> [] ->
  getSuruCompoundPrefix (p ++ J "する") = inr p
  /\ getKuruCompoundPrefix (p ++ J "くる") = inr p
  /\ getKuruCompoundPrefix (p ++ J "来る") = inr p
  /\ (forall verb, getSuruCompoundPrefix verb = inr p -> verb = p ++ J "する")
  /\ (forall verb, getKuruCompoundPrefix verb = inr p ->
        verb = p ++ J "くる" \/ verb = p ++ J "来る").
Proof.
  intros Hp.
  assert (Hlen : forall base, List.length base = 2%nat ->
                   (2 <? JS.length (p ++ base))%Z = true).
  { intros base Hb. unfold JS.length. rewrite length_app, Hb.
    destruct p; [congruence|]. cbn [List.length]. apply Z.ltb_lt. lia. }
  assert (Hslice : forall base, List.length base = 2%nat ->
                     JS.slice (p ++ base) 0 (Some (-2)%Z) = p).
  { intros base Hb.
    replace (-2)%Z with (- JS.length base)%Z by (unfold JS.length; rewrite Hb; lia).
    apply slice_drop_suffix. destruct base; [discriminate|discriminate]. }
  split; [|split; [|split; [|split]]].
  - unfold getSuruCompoundPrefix, isSuruCompound.
    rewrite endsWith_app, (Hlen (J "する") eq_refl).
    rewrite (long_not_base _ (J "する") (Hlen (J "する") eq_refl)).
    cbn [andb negb]. rewrite (Hslice (J "する") eq_refl). reflexivity.
  - unfold getKuruCompoundPrefix, isKuruCompound.
    rewrite endsWith_app, (Hlen (J "くる") eq_refl).
    rewrite (long_not_base _ (J "くる") (Hlen (J "くる") eq_refl)).
    rewrite (long_not_base _ (J "来る") (Hlen (J "くる") eq_refl)).
    cbn [andb orb negb]. rewrite (Hslice (J "くる") eq_refl).
    destruct (JS.endsWith (p ++ J "くる") (J "来る")); reflexivity.
  - unfold getKuruCompoundPrefix, isKuruCompound.
    rewrite endsWith_app, (Hlen (J "来る") eq_refl).
    rewrite (long_not_base _ (J "くる") (Hlen (J "来る") eq_refl)).
    rewrite (long_not_base _ (J "来る") (Hlen (J "来る") eq_refl)).
    rewrite orb_true_r. cbn [andb negb]. rewrite (Hslice (J "来る") eq_refl).
    reflexivity.
  - intros verb H.
    destruct (compound_prefix_detect verb) as [E _]. rewrite E in H.
    destruct (detectSuruCompound verb) as [q|] eqn:D; [|discriminate H].
    injection H as ->.
    apply detectCompound_Some in D as [suffix [Hin [Hv _]]];
      [|repeat constructor; discriminate].
    destruct Hin as [<- | []]. exact Hv.
  - intros verb H.
    destruct (compound_prefix_detect verb) as [_ E]. rewrite E in H.
    destruct (detectKuruCompound verb) as [q|] eqn:D; [|discriminate H].
    injection H as ->.
    apply detectCompound_Some in D as [suffix [Hin [Hv _]]];
      [|repeat constructor; discriminate].
    destruct Hin as [<- | [<- | []]]; auto.
Qed.

Lemma compound_prefix_round_trip_witness :
  getSuruCompoundPrefix (J "勉強する") = inr (J "勉強")
  /\ getKuruCompoundPrefix (J "持ってくる") = inr (J "持って").
Proof.
  split.
  - apply (proj1 (compound_prefix_round_trip (J "勉強") ltac:(discriminate))).
  - apply (proj1 (proj2 (compound_prefix_round_trip (J "持って") ltac:(discriminate)))).
Defined.

Lemma prefixPreserved_verified (p : jsstring) (forms : list ConjugationForm.t) :
  prefixPreserved p forms -> verifyPrefixPreservation forms p = true.
Proof.
  intros [_ [H _]]. unfold verifyPrefixPreservation. apply forallb_forall.
  intros f Hin. rewrite Forall_forall in H. destruct (H f Hin) as [Hi _].
  rewrite Hi. reflexivity.
Qed.

Lemma classified_compound (input : jsstring) (v : VerbInfo.t) (p : jsstring) :
  classifyVerb input = inr v ->
  VerbInfo.compoundPrefix v = Some p ->
  p <> [] /\ VerbInfo.type v = irregular
  /\ exists forms,
       conjugateIrregular v = inr forms
       /\ (forall now, conjugate now input
                       = Success (ConjugationResult.mk v forms now))
       /\ prefixPreserved p forms.
Proof.
  intros H Hp.
  destruct (conjugate_classified _ _ H) as [forms [Hgen [_ Hc]]].
  apply classifyVerb_inr in H as [_ [_ Hcl]].
  destruct Hcl as [q Hq Hv | q base Hq Hb Hv | t Ht | Hirr Hlast | Hirr Hin];
    try discriminate Hp; injection Hp as <-; (split; [exact Hq|]);
    (split; [reflexivity|]); exists forms.
  - match type of Hgen with generator ?v = _ =>
      pose proof (generator_irregular v suru eq_refl eq_refl) as [E1 E2] end.
    split; [rewrite <- E2; exact Hgen|]. split; [exact Hc|].
    rewrite E1 in Hgen. exact (conjugateSuru_prefix _ _ _ _ _ Hgen).
  - match type of Hgen with generator ?v = _ =>
      pose proof (generator_irregular v kuru eq_refl eq_refl) as [E1 E2] end.
    split; [rewrite <- E2; exact Hgen|]. split; [exact Hc|].
    rewrite E1 in Hgen. exact (conjugateKuru_prefix _ _ _ _ _ Hgen).
Qed.

(** X3: [conjugateCompoundVerb] on a classified verb.  With a compound
    prefix it returns the forms that [conjugate] returns, and
    [verifyPrefixPreservation] accepts them for that prefix.  Without
    one it throws: that the verb has no compound prefix when it is
    irregular, that it is no compound verb otherwise. *)
Theorem conjugateCompoundVerb_classified (verb : jsstring) (v : VerbInfo.t) :
  classifyVerb verb = inr v ->
  match VerbInfo.compoundPrefix v with
  | Some p =>
    exists forms,
      conjugateCompoundVerb verb = inr forms
      /\ (forall now, conjugate now verb
                      = Success (ConjugationResult.mk v forms now))
      /\ verifyPrefixPreservation forms p = true
  | None =>
    conjugateCompoundVerb verb
    = inl (match VerbInfo.type v with
           | irregular => J "Verb does not have a compound prefix"
           | _ => J "conjugateCompound called with non-compound verb"
           end)
  end.
Proof.
  intros H. unfold conjugateCompoundVerb. rewrite H. cbn [bind].
  destruct (VerbInfo.compoundPrefix v) as [p|] eqn:Hp.
  - destruct (classified_compound _ _ _ H Hp) as [Hne [Ht [forms [Hf [Hc Hpp]]]]].
    exists forms. split; [|split; [exact Hc | apply prefixPreserved_verified; exact Hpp]].
    unfold conjugateCompound. rewrite Ht, Hp.
    destruct p; [congruence | exact Hf].
  - unfold conjugateCompound. rewrite Hp. destruct (VerbInfo.type v); reflexivity.
Qed.

Lemma conjugateCompoundVerb_classified_witness :
  exists forms,
    conjugateCompoundVerb (J "持ってくる") = inr forms
    /\ verifyPrefixPreservation forms (J "持って") = true.
Proof.
  pose proof (conjugateCompoundVerb_classified (J "持ってくる")
                (VerbInfo.mk (J "持ってくる") (J "持ってくる") (J "持ttekuru") irregular
                   (J "持って") (J "くる") (Some kuru) (Some (J "持って")))
                ltac:(vm_compute; reflexivity)) as H.
  cbn [VerbInfo.compoundPrefix] in H.
  destruct H as [forms [H1 [_ H2]]]. exists forms. split; assumption.
Defined.

(** ** The facade: errors, validity, single forms *)

Lemma isEmptyOrWhitespace_trim (input : jsstring) :
  isEmptyOrWhitespace input = true <-> JS.trim input = [].
Proof.
  unfold isEmptyOrWhitespace. split.
  - intros H. apply orb_true_iff in H as [H | H].
    + destruct input; [reflexivity | discriminate H].
    + apply Z.eqb_eq in H. unfold JS.length in H.
      destruct (JS.trim input); [reflexivity | cbn in H; lia].
  - intros H. rewrite H. apply orb_true_r.
Qed.

Lemma conjugate_unknown_verb (now : Z) (input : jsstring) :
  validateInput input = None ->
  classifyVerb input = inl UNKNOWN_VERB_message ->
  conjugate now input
  = Failure (createError UNKNOWN_VERB
      (J "This verb is not recognized. Please check the spelling or try the dictionary form")).
Proof.
  intros Hv Hc. unfold conjugate, classifyAndConjugate. rewrite Hv, Hc.
  vm_compute. reflexivity.
Qed.

Lemma validateInput_Some (input : jsstring) (e : ConjugationError.t) :
  validateInput input = Some e ->
  (JS.trim input = []
   /\ e = createError EMPTY_INPUT (J "Please enter a Japanese verb"))
  \/ (JS.trim input <> [] /\ isJapanese (JS.trim input) = false
      /\ e = createError INVALID_CHARACTERS
           (J "Please enter a valid Japanese verb using hiragana, katakana, or kanji")).
Proof.
  intros Hv. unfold validateInput in Hv.
  destruct (isEmptyOrWhitespace input) eqn:He.
  - left. injection Hv as <-. split; [apply isEmptyOrWhitespace_trim; exact He|].
    reflexivity.
  - right.
    assert (Hne : JS.trim input <> []).
    { intros E. apply isEmptyOrWhitespace_trim in E. congruence. }
    unfold containsOnlyJapanese in Hv. rewrite trim_idem in Hv.
    destruct (isJapanese (JS.trim input)); [discriminate Hv|].
    injection Hv as <-. repeat split. exact Hne.
Qed.

(** The error codes that [conjugate] returns. *)
Lemma conjugate_Failure_code (now : Z) (input : jsstring) (e : ConjugationError.t) :
  conjugate now input = Failure e ->
  ConjugationError.code e = EMPTY_INPUT
  \/ ConjugationError.code e = INVALID_CHARACTERS
  \/ ConjugationError.code e = UNKNOWN_VERB.
Proof.
  intros H.
  destruct (validateInput input) as [ve|] eqn:Hv.
  - unfold conjugate in H. rewrite Hv in H. injection H as <-.
    destruct (validateInput_Some _ _ Hv) as [[_ ->] | [_ [_ ->]]]; auto.
  - destruct (classifyVerb_validated _ Hv) as [[v Hc] | [Hc Hg]].
    + destruct (conjugate_classified _ _ Hc) as [forms [_ [_ Hs]]].
      rewrite Hs in H. discriminate H.
    + rewrite (conjugate_unknown_verb now input Hv Hc) in H. injection H as <-.
      auto.
Qed.

(** X4: the errors of [conjugate].  It fails in three ways only, each
    with one fixed message: EMPTY_INPUT when nothing is left of the
    input after trimming, INVALID_CHARACTERS when what is left has a
    character that is not hiragana, katakana or kanji, and UNKNOWN_VERB
    when what is left is Japanese text that does not end in a
    five-grade terminal.  It never returns AMBIGUOUS_VERB or
    CONJUGATION_FAILED. *)
Theorem conjugate_errors (now : Z) (input : jsstring) (e : ConjugationError.t) :
  conjugate now input = Failure e ->
  (JS.trim input = []
   /\ e = createError EMPTY_INPUT (J "Please enter a Japanese verb"))
  \/ (JS.trim input <> [] /\ isJapanese (JS.trim input) = false
      /\ e = createError INVALID_CHARACTERS
           (J "Please enter a valid Japanese verb using hiragana, katakana, or kanji"))
  \/ (JS.trim input <> [] /\ isJapanese (JS.trim input) = true
      /\ isGodanVerb (JS.trim input) = false
      /\ e = createError UNKNOWN_VERB
           (J "This verb is not recognized. Please check the spelling or try the dictionary form")).
Proof.
  intros H.
  destruct (validateInput input) as [ve|] eqn:Hv.
  - unfold conjugate in H. rewrite Hv in H. injection H as <-.
    destruct (validateInput_Some _ _ Hv) as [He | He]; [left | right; left];
      exact He.
  - right. right.
    pose proof (proj1 (validateInput_None input) Hv) as [Hne Hjp].
    destruct (classifyVerb_validated _ Hv) as [[v Hc] | [Hc Hg]].
    + destruct (conjugate_classified _ _ Hc) as [forms [_ [_ Hs]]].
      rewrite Hs in H. discriminate H.
    + rewrite (conjugate_unknown_verb now input Hv Hc) in H. injection H as <-.
      repeat split; assumption.
Qed.

Lemma conjugate_errors_witness :
  JS.trim (J " taberu ") <> [] /\ isJapanese (JS.trim (J " taberu ")) = false
  /\ conjugate 0 (J " taberu ")
     = Failure (createError INVALID_CHARACTERS
         (J "Please enter a valid Japanese verb using hiragana, katakana, or kanji")).
Proof.
  assert (H : conjugate 0 (J " taberu ")
              = Failure (createError INVALID_CHARACTERS
                  (J "Please enter a valid Japanese verb using hiragana, katakana, or kanji")))
    by (vm_compute; reflexivity).
  destruct (conjugate_errors 0 (J " taberu ") _ H)
    as [[E _] | [[Hne [Hjp _]] | [_ [Hjp _]]]].
  - vm_compute in E. discriminate E.
  - split; [exact Hne|]. split; [exact Hjp | exact H].
  - vm_compute in Hjp. discriminate Hjp.
Defined.

(** X5: [isValidVerb] and [getVerbInfo] agree with [conjugate].  When
    [getVerbInfo] returns a verb, [conjugate] succeeds with exactly
    that verb information and [isValidVerb] holds; when it returns
    [null], [conjugate] fails and [isValidVerb] does not hold. *)
Theorem isValidVerb_getVerbInfo (now : Z) (input : jsstring) :
  match getVerbInfo input with
  | Some v =>
    isValidVerb now input = true
    /\ exists forms,
         conjugate now input = Success (ConjugationResult.mk v forms now)
  | None =>
    isValidVerb now input = false
    /\ exists e, conjugate now input = Failure e
  end.
Proof.
  unfold getVerbInfo, isValidVerb.
  destruct (validateInput input) as [ve|] eqn:Hv.
  - unfold conjugate. rewrite Hv. split; [reflexivity | eauto].
  - destruct (classifyVerb_validated _ Hv) as [[v Hc] | [Hc Hg]].
    + rewrite Hc. destruct (conjugate_classified _ _ Hc) as [forms [_ [_ Hs]]].
      rewrite Hs. split; [reflexivity | eauto].
    + rewrite Hc. rewrite (conjugate_unknown_verb now input Hv Hc).
      split; [reflexivity | eauto].
Qed.

Lemma find_unique {A : Type} (key : A -> jsstring) (l : list A) (k : jsstring) (a : A) :
  NoDup (map key l) -> In a l -> key a = k ->
  find (fun x => JS.eqb (key x) k) l = Some a.
Proof.
  induction l as [|x l IH]; intros Hnd Hin Hk; [contradiction|].
  cbn [find]. inversion Hnd as [|y ys Hnot Hnd']; subst.
  destruct Hin as [-> | Hin].
  - rewrite jseqb_refl. reflexivity.
  - destruct (JS.eqb (key x) (key a)) eqn:E.
    + apply jseqb_eq in E. exfalso. apply Hnot. rewrite E. apply in_map. exact Hin.
    + apply IH; auto.
Qed.

Lemma find_key {A : Type} (key : A -> jsstring) (l : list A) (k : jsstring) (a : A) :
  find (fun x => JS.eqb (key x) k) l = Some a -> In a l /\ key a = k.
Proof.
  intros H. apply find_some in H as [Hin E]. apply jseqb_eq in E. auto.
Qed.

Lemma find_missing {A : Type} (key : A -> jsstring) (l : list A) (k : jsstring) :
  find (fun x => JS.eqb (key x) k) l = None <-> ~ In k (map key l).
Proof.
  split.
  - intros H Hin. apply in_map_iff in Hin as [a [Hk Hin]].
    pose proof (find_none _ _ H a Hin) as E. cbv beta in E.
    rewrite Hk, jseqb_refl in E. discriminate E.
  - intros H. destruct (find _ l) as [a|] eqn:E; [|reflexivity].
    apply find_key in E as [Hin Hk]. exfalso. apply H. rewrite <- Hk.
    apply in_map. exact Hin.
Qed.

Lemma catalogueIds_NoDup : NoDup catalogueIds.
Proof.
  unfold catalogueIds. cbn [CONJUGATION_FORMS map].
  repeat (constructor; [vm_compute; intuition discriminate|]).
  constructor.
Qed.

(** X6: [conjugateToForm] looks a form up by its identifier.  On an
    input that conjugates, it returns a form exactly for the 34
    identifiers of the catalogue; the form returned carries the
    identifier asked for and is the only form of the result that
    does. *)
Theorem conjugateToForm_lookup (now : Z) (input formId : jsstring)
    (r : ConjugationResult.t) :
  conjugate now input = Success r ->
  (conjugateToForm now input formId = None <-> ~ In formId catalogueIds)
  /\ forall f,
       conjugateToForm now input formId = Some f <->
       In f (ConjugationResult.forms r) /\ ConjugationForm.id f = formId.
Proof.
  intros H. unfold conjugateToForm. rewrite H.
  pose proof H as H'. apply conjugate_Success in H' as [Hcl _].
  destruct (conjugate_classified _ _ Hcl) as [forms [_ [Hcat Hs]]].
  rewrite (Hs now) in H. injection H as <-.
  cbn [ConjugationResult.forms].
  pose proof (followsCatalogue_ids _ Hcat) as Hids.
  split.
  - rewrite find_missing, Hids. reflexivity.
  - intros f. split.
    + apply find_key.
    + intros [Hin Hid]. apply find_unique; auto.
      rewrite Hids. exact catalogueIds_NoDup.
Qed.

Lemma conjugateToForm_lookup_witness :
  (conjugateToForm 0 (J "読む") (J "polite-te") = None
   <-> ~ In (J "polite-te") catalogueIds)
  /\ exists f, conjugateToForm 0 (J "読む") (J "te") = Some f
               /\ ConjugationForm.hiragana f = J "読んで".
Proof.
  destruct (conjugate 0 (J "読む")) as [r|e] eqn:E;
    [|vm_compute in E; discriminate E].
  pose proof (conjugateToForm_lookup 0 (J "読む") (J "polite-te") r E) as [H _].
  split; [exact H|].
  eexists. split; vm_compute; reflexivity.
Defined.

Lemma handleError_coded (code : ConjugationErrorCode) (message : jsstring) :
  code = EMPTY_INPUT \/ code = INVALID_CHARACTERS \/ code = UNKNOWN_VERB ->
  handleError (ConjugationErrorCode_text code ++ J ": " ++ message)
  = createError code message.
Proof.
  intros [-> | [-> | ->]]; destruct message; reflexivity.
Qed.

(** X7: [conjugateOrThrow] and the error text.  It returns the result
    when [conjugate] succeeds.  When [conjugate] fails, it throws the
    error's code, a colon, a space and the error's message, and this
    text is read back by the catch block of [conjugate] as the error
    itself. *)
Theorem conjugateOrThrow_error_text (now : Z) (input : jsstring) :
  match conjugate now input with
  | Success r => conjugateOrThrow now input = inr r
  | Failure e =>
    conjugateOrThrow now input
    = inl (ConjugationErrorCode_text (ConjugationError.code e)
           ++ J ": " ++ ConjugationError.message e)
    /\ handleError (ConjugationErrorCode_text (ConjugationError.code e)
                    ++ J ": " ++ ConjugationError.message e) = e
  end.
Proof.
  unfold conjugateOrThrow.
  destruct (conjugate now input) as [r|e] eqn:H; [reflexivity|].
  split; [reflexivity|].
  pose proof (conjugate_Failure_code now input e H) as Hcode.
  destruct e as [code message]. cbn [ConjugationError.code ConjugationError.message] in *.
  apply handleError_coded. exact Hcode.
Qed.

(** ** The classifier: romanisation, character classes, whitespace *)

Lemma table_keys_hiragana (table : list (jsstring * jsstring)) :
  forallb (fun kv => isHiragana (fst kv)) table = true ->
  forall k, isHiragana k = false -> JS.lookup table k = None.
Proof.
  intros H k Hk. destruct (JS.lookup table k) as [v|] eqn:E; [|reflexivity].
  apply lookup_Some in E. rewrite forallb_forall in H.
  specialize (H _ E). cbn [fst] in H. congruence.
Qed.

Lemma HIRAGANA_TO_ROMAJI_keys (k : jsstring) :
  isHiragana k = false -> JS.lookup HIRAGANA_TO_ROMAJI k = None.
Proof. apply table_keys_hiragana. vm_compute. reflexivity. Qed.

Lemma HIRAGANA_COMBINATIONS_keys (k : jsstring) :
  isHiragana k = false -> JS.lookup HIRAGANA_COMBINATIONS k = None.
Proof. apply table_keys_hiragana. vm_compute. reflexivity. Qed.

Lemma small_tsu_hiragana (c : N) :
  isHiragana [c] = false -> JS.eqb [c] (J "っ") = false.
Proof.
  intros H. destruct (JS.eqb [c] (J "っ")) eqn:E; [|reflexivity].
  apply jseqb_eq in E. rewrite E in H. vm_compute in H. discriminate H.
Qed.

(** X8: [hiraganaToRomaji] keeps text without hiragana as it is: kanji,
    katakana, Latin letters and every other character that is not in
    the hiragana block pass through unchanged. *)
Theorem hiraganaToRomaji_keeps_other_text (text : jsstring) :
  Forall (fun c => isHiragana [c] = false) text ->
  hiraganaToRomaji text = text.
Proof.
  induction text as [|c rest IH]; intros H; [reflexivity|].
  inversion H as [|c' rest' Hc Hrest]; subst.
  specialize (IH Hrest).
  cbn [hiraganaToRomaji].
  rewrite (HIRAGANA_TO_ROMAJI_keys [c] Hc).
  destruct rest as [|n rest']; [reflexivity|].
  rewrite (small_tsu_hiragana c Hc).
  rewrite (HIRAGANA_COMBINATIONS_keys [c; n] Hc).
  rewrite IH. reflexivity.
Qed.

Lemma hiraganaToRomaji_keeps_other_text_witness :
  hiraganaToRomaji (J "勉強 OK カタカナ") = J "勉強 OK カタカナ".
Proof.
  apply (hiraganaToRomaji_keeps_other_text (J "勉強 OK カタカナ")).
  vm_compute. repeat constructor.
Defined.

Lemma japaneseUnit_not_surrogate (c : N) :
  japaneseUnit c = true -> JS.isHighSurrogate c = false.
Proof.
  unfold japaneseUnit, isHiragana, isKatakana, isKanji, inRange, JS.isHighSurrogate.
  cbn [JS.charCodeAt0 hd_error]. intros H.
  apply andb_false_iff.
  destruct (N.leb_spec 55296 c); [|auto]. exfalso.
  repeat (apply orb_true_iff in H as [H | H]);
    apply andb_true_iff in H as [_ H]; apply N.leb_le in H; lia.
Qed.

Lemma chars_cons (c d : N) (r : jsstring) :
  JS.chars (c :: d :: r)
  = if JS.isHighSurrogate c && JS.isLowSurrogate d then [c; d] :: JS.chars r
    else [c] :: JS.chars (d :: r).
Proof. reflexivity. Qed.

Lemma chars_units (s : jsstring) :
  forallb (fun char => isHiragana char || isKatakana char || isKanji char)
          (JS.chars s)
  = forallb japaneseUnit s.
Proof.
  remember (List.length s) as n eqn:Hn. revert s Hn.
  induction n as [n IH] using lt_wf_ind. intros s Hn.
  destruct s as [|c [|d r]]; [reflexivity | reflexivity |].
  rewrite chars_cons.
  destruct (JS.isHighSurrogate c && JS.isLowSurrogate d) eqn:Hs.
  - apply andb_true_iff in Hs as [Hh _].
    cbn [forallb].
    assert (Hc : japaneseUnit c = false).
    { destruct (japaneseUnit c) eqn:E; [|reflexivity].
      apply japaneseUnit_not_surrogate in E. congruence. }
    change (isHiragana [c; d] || isKatakana [c; d] || isKanji [c; d])
      with (japaneseUnit c).
    rewrite Hc. reflexivity.
  - cbn [forallb].
    change (isHiragana [c] || isKatakana [c] || isKanji [c]) with (japaneseUnit c).
    rewrite (IH (List.length (d :: r))); [reflexivity | subst n; cbn; lia | reflexivity].
Qed.

Lemma isJapanese_Forall (s : jsstring) :
  isJapanese s = true -> s <> [] /\ Forall (fun c => japaneseUnit c = true) s.
Proof.
  unfold isJapanese. rewrite chars_units.
  rewrite andb_true_iff, forallb_forall, Forall_forall, Z.ltb_lt.
  unfold JS.length. intros [H L]. split; [|exact H]. intros ->. cbn in L. lia.
Qed.

Lemma Forall_isJapanese (s : jsstring) :
  s <> [] -> Forall (fun c => japaneseUnit c = true) s -> isJapanese s = true.
Proof.
  unfold isJapanese. rewrite chars_units.
  rewrite andb_true_iff, forallb_forall, Forall_forall, Z.ltb_lt.
  unfold JS.length. intros Hne H. split; [exact H|].
  destruct s; [congruence|]. cbn. lia.
Qed.

(** X9: [isJapanese] holds of a string exactly when it is not empty and
    each of its code units lies in the hiragana block, the katakana
    block, or one of the two kanji ranges; so the empty string, a
    character outside the Basic Multilingual Plane, a Latin letter, a
    digit or a space make it fail. *)
Theorem isJapanese_units (s : jsstring) :
  isJapanese s = true <-> s <> [] /\ Forall (fun c => japaneseUnit c = true) s.
Proof.
  split.
  - apply isJapanese_Forall.
  - intros [Hne H]. apply Forall_isJapanese; assumption.
Qed.

Lemma trimStart_app_whitespace (pre s : jsstring) :
  forallb JS.isWhiteSpace pre = true -> JS.trimStart (pre ++ s) = JS.trimStart s.
Proof.
  induction pre as [|c pre IH]; intros H; [reflexivity|].
  cbn [forallb] in H. apply andb_true_iff in H as [Hc H].
  cbn [app JS.trimStart]. rewrite Hc. apply IH. exact H.
Qed.

Lemma trim_app_whitespace (pre s post : jsstring) :
  forallb JS.isWhiteSpace pre = true ->
  forallb JS.isWhiteSpace post = true ->
  JS.trim (pre ++ s ++ post) = JS.trim s.
Proof.
  intros Hpre Hpost. unfold JS.trim.
  rewrite trimStart_app_whitespace by exact Hpre.
  destruct (trimStart_cases s) as [E | [c [r [E Hc]]]].
  - assert (Hs : forallb JS.isWhiteSpace s = true).
    { clear -E. induction s as [|x s IH]; [reflexivity|].
      cbn [JS.trimStart] in E. cbn [forallb].
      destruct (JS.isWhiteSpace x); [apply IH; exact E | discriminate E]. }
    rewrite trimStart_app_whitespace by exact Hs.
    rewrite E. rewrite trimStart_whitespace by exact Hpost. reflexivity.
  - assert (Hsp : JS.trimStart (s ++ post) = JS.trimStart s ++ post).
    { clear -E. revert E. induction s as [|x s IH]; [discriminate|].
      cbn [JS.trimStart app]. destruct (JS.isWhiteSpace x); [exact IH|reflexivity]. }
    rewrite Hsp. unfold JS.trimEnd. rewrite rev_app_distr.
    rewrite trimStart_app_whitespace; [reflexivity|].
    rewrite forallb_forall in *. intros x Hx. apply Hpost.
    apply in_rev. exact Hx.
Qed.

Lemma classifyVerb_trim (input : jsstring) :
  classifyVerb (JS.trim input) = classifyVerb input.
Proof.
  unfold classifyVerb. rewrite trim_idem.
  assert (E : falsy (JS.trim input) || (JS.length (JS.trim input) =? 0)%Z
              = falsy input || (JS.length (JS.trim input) =? 0)%Z).
  { destruct input as [|c r]; [reflexivity|].
    destruct (JS.trim (c :: r)); reflexivity. }
  rewrite E. reflexivity.
Qed.

Lemma validateInput_trim (input : jsstring) :
  validateInput (JS.trim input) = validateInput input.
Proof.
  unfold validateInput, isEmptyOrWhitespace, containsOnlyJapanese.
  rewrite !trim_idem.
  assert (E : falsy (JS.trim input) || (JS.length (JS.trim input) =? 0)%Z
              = falsy input || (JS.length (JS.trim input) =? 0)%Z).
  { destruct input as [|c r]; [reflexivity|].
    destruct (JS.trim (c :: r)); reflexivity. }
  rewrite E. reflexivity.
Qed.

Lemma conjugate_trim (now : Z) (input : jsstring) :
  conjugate now (JS.trim input) = conjugate now input.
Proof.
  unfold conjugate, classifyAndConjugate.
  rewrite validateInput_trim, classifyVerb_trim. reflexivity.
Qed.

(** X10: white space around the input does not matter.  Whatever white
    space (spaces, tabs, line breaks, the ideographic space and the
    other white space of the language) stands before and after a text,
    [classifyVerb], [getVerbInfo] and [conjugate] return what they
    return on the text alone. *)
Theorem surrounding_whitespace_ignored (pre input post : jsstring) :
  forallb JS.isWhiteSpace pre = true ->
  forallb JS.isWhiteSpace post = true ->
  classifyVerb (pre ++ input ++ post) = classifyVerb input
  /\ getVerbInfo (pre ++ input ++ post) = getVerbInfo input
  /\ forall now, conjugate now (pre ++ input ++ post) = conjugate now input.
Proof.
  intros Hpre Hpost.
  pose proof (trim_app_whitespace pre input post Hpre Hpost) as E.
  assert (Hc : classifyVerb (pre ++ input ++ post) = classifyVerb input)
    by (rewrite <- classifyVerb_trim, E; apply classifyVerb_trim).
  assert (Hv : validateInput (pre ++ input ++ post) = validateInput input)
    by (rewrite <- validateInput_trim, E; apply validateInput_trim).
  split; [exact Hc|]. split.
  - unfold getVerbInfo. rewrite Hv, Hc. reflexivity.
  - intros now. rewrite <- conjugate_trim, E. apply conjugate_trim.
Qed.

Lemma surrounding_whitespace_ignored_witness :
  conjugate 0 (J "　 食べる" ++ [10; 9]%N) = conjugate 0 (J "食べる").
Proof.
  apply (surrounding_whitespace_ignored (J "　 ") (J "食べる") [10; 9]%N);
    vm_compute; reflexivity.
Defined.

(** ** The classifier: the verb information *)

(** X11: the verb information that [classifyVerb] returns is consistent.
    The dictionary form and the reading are the trimmed input and the
    romaji its romanisation; the irregular type is set exactly for the
    verbs of type irregular; a verb with a compound prefix is of
    irregular type する or 来る and has the prefix as its stem; and the
    ending is never empty. *)
Theorem classified_verb_info (input : jsstring) (v : VerbInfo.t) :
  classifyVerb input = inr v ->
  VerbInfo.dictionaryForm v = JS.trim input
  /\ VerbInfo.reading v = JS.trim input
  /\ VerbInfo.romaji v = hiraganaToRomaji (JS.trim input)
  /\ (VerbInfo.type v = irregular <-> VerbInfo.irregularType v <> None)
  /\ (forall p, VerbInfo.compoundPrefix v = Some p ->
        VerbInfo.stem v = p
        /\ (VerbInfo.irregularType v = Some suru
            \/ VerbInfo.irregularType v = Some kuru))
  /\ VerbInfo.ending v <> [].
Proof.
  intros H. pose proof (classifyVerb_inr _ _ H) as [Hne [_ Hcl]].
  assert (Hlast : getLastChar (JS.trim input) <> []).
  { destruct (exists_last Hne) as [s [c E]]. rewrite E, getLastChar_snoc.
    discriminate. }
  destruct Hcl as [p Hp Hv | p base Hp Hb Hv | t Ht | Hirr Hl | Hirr Hin];
    cbn [VerbInfo.dictionaryForm VerbInfo.reading VerbInfo.romaji VerbInfo.type
         VerbInfo.stem VerbInfo.ending VerbInfo.irregularType
         VerbInfo.compoundPrefix];
    (split; [reflexivity|]); (split; [reflexivity|]); (split; [reflexivity|]);
    (split; [split; [discriminate || (intros; discriminate) |
                     (intros _; reflexivity) || (intros N; congruence)]|]);
    (split; [intros q E; first [discriminate E
                               | injection E as <-; split; [reflexivity | auto]]|]).
  - discriminate.
  - destruct Hb as [<- | [<- | []]]; discriminate.
  - exact Hlast.
  - discriminate.
  - exact Hlast.
Qed.

Lemma classified_verb_info_witness :
  exists v, classifyVerb (J " 持って来る ") = inr v
    /\ VerbInfo.dictionaryForm v = J "持って来る"
    /\ VerbInfo.stem v = J "持って"
    /\ VerbInfo.irregularType v = Some kuru.
Proof.
  assert (Hc : classifyVerb (J " 持って来る ")
               = inr (VerbInfo.mk (J "持って来る") (J "持って来る") (J "持tte来ru")
                        irregular (J "持って") (J "来る") (Some kuru)
                        (Some (J "持って"))))
    by (vm_compute; reflexivity).
  eexists. split; [exact Hc|].
  destruct (classified_verb_info _ _ Hc) as [Hd [_ [_ [_ [Hp _]]]]].
  split; [reflexivity|].
  destruct (Hp (J "持って") eq_refl) as [Hs _].
  split; [exact Hs | reflexivity].
Defined.

(** X12: the two disambiguation lists are honoured.  Every verb of
    [FALSE_ICHIDAN_VERBS] is classified as five-grade, with the
    connective form in って; every verb of [KNOWN_ICHIDAN_VERBS] is
    classified as one-grade, with the connective form in て. *)
Theorem disambiguation_lists_honoured :
  Forall (fun verb =>
            exists v, classifyVerb verb = inr v
                      /\ VerbInfo.type v = godan
                      /\ getGodanTeForm v = inr (getStem verb ++ J "って"))
         FALSE_ICHIDAN_VERBS
  /\ Forall (fun verb =>
               exists v forms,
                 classifyVerb verb = inr v
                 /\ VerbInfo.type v = ichidan
                 /\ conjugateIchidan v = inr forms
                 /\ hiraganaOf forms (J "te") = Some (getStem verb ++ J "て"))
            KNOWN_ICHIDAN_VERBS.
Proof.
  split.
  - unfold FALSE_ICHIDAN_VERBS. cbn [map].
    repeat (constructor;
            [eexists; split; [vm_compute; reflexivity|];
             split; vm_compute; reflexivity|]).
    constructor.
  - unfold KNOWN_ICHIDAN_VERBS. cbn [map].
    repeat (constructor;
            [do 2 eexists; split; [vm_compute; reflexivity|];
             split; [reflexivity|]; split; vm_compute; reflexivity|]).
    constructor.
Qed.

(** ** The generators: what every result has *)

Lemma map_eq_exists {A B C : Type} (f : A -> C) (g : B -> C) (l : list A) (l' : list B) :
  map f l = map g l' -> Forall (fun x => exists y, In y l' /\ f x = g y) l.
Proof.
  revert l'. induction l as [|x l IH]; intros [|y l'] H; try discriminate H;
    [constructor|].
  cbn [map] in H. injection H as Hx Hl. constructor.
  - exists y. split; [left; reflexivity | exact Hx].
  - eapply Forall_impl; [|apply (IH l' Hl)].
    intros a [b [Hin E]]. exists b. split; [right; exact Hin | exact E].
Qed.

(** X13: what every result of [conjugate] has.  The timestamp is the
    reading of the clock; the forms are 34, one for each identifier of
    the catalogue, in the order of the catalogue; and each form carries
    the names, the formality and the category that [getFormById] gives
    for its identifier, and as romaji the romanisation of its hiragana. *)
Theorem result_follows_catalogue (now : Z) (input : jsstring)
    (r : ConjugationResult.t) :
  conjugate now input = Success r ->
  ConjugationResult.timestamp r = now
  /\ map ConjugationForm.id (ConjugationResult.forms r) = catalogueIds
  /\ List.length (ConjugationResult.forms r) = 34%nat
  /\ Forall (fun f =>
       ConjugationForm.romaji f = hiraganaToRomaji (ConjugationForm.hiragana f)
       /\ exists d,
            getFormById (ConjugationForm.id f) = Some d
            /\ ConjugationForm.name f = FormDefinition.name d
            /\ ConjugationForm.nameJapanese f = FormDefinition.nameJa d
            /\ ConjugationForm.formality f = FormDefinition.formality d
            /\ ConjugationForm.category f = FormDefinition.category d)
       (ConjugationResult.forms r).
Proof.
  intros H. apply conjugate_Success in H as [Hcl [Hgen Ht]].
  destruct (conjugate_classified _ _ Hcl) as [forms [Hgen' [Hcat _]]].
  assert (forms = ConjugationResult.forms r) as <- by congruence.
  pose proof (followsCatalogue_ids _ Hcat) as Hids.
  split; [exact Ht|]. split; [exact Hids|]. split.
  - rewrite <- (length_map ConjugationForm.id), Hids. reflexivity.
  - destruct Hcat as [Hmeta Hrom].
    apply map_eq_exists in Hmeta.
    rewrite Forall_forall in *. intros f Hin.
    split; [apply Hrom; exact Hin|].
    destruct (Hmeta f Hin) as [d [Hd E]]. exists d.
    unfold formMeta, entryMeta in E. injection E as E1 E2 E3 E4 E5.
    split; [|auto].
    unfold getFormById. apply find_unique; [exact catalogueIds_NoDup | exact Hd | auto].
Qed.

Lemma result_follows_catalogue_witness :
  exists r, conjugate 1700000000000 (J "話す") = Success r
    /\ ConjugationResult.timestamp r = 1700000000000%Z
    /\ List.length (ConjugationResult.forms r) = 34%nat.
Proof.
  destruct (conjugate 1700000000000 (J "話す")) as [r|e] eqn:E;
    [|vm_compute in E; discriminate E].
  exists r. split; [reflexivity|].
  destruct (result_follows_catalogue _ _ r E) as [Ht [_ [Hl _]]].
  split; assumption.
Defined.

(** ** The generators: regular verbs *)

Lemma map_eq_Forall {A B : Type} (f g : A -> B) (l : list A) :
  map f l = map g l -> Forall (fun x => f x = g x) l.
Proof.
  induction l as [|x l IH]; intros H; [constructor|].
  cbn [map] in H. injection H as Hx Hl. constructor; auto.
Qed.

Lemma Forall2_map {A B C : Type} (Q : B -> C -> Prop) (f : A -> B) (g : A -> C)
    (l : list A) :
  Forall2 Q (map f l) (map g l) -> Forall (fun x => Q (f x) (g x)) l.
Proof.
  induction l as [|x l IH]; intros H; [constructor|].
  cbn [map] in H. inversion H; subst. constructor; auto.
Qed.

Lemma prefixPreserved_by_lists (p : jsstring) (forms : list ConjugationForm.t) :
  map ConjugationForm.category forms
  = map FormDefinition.category CONJUGATION_FORMS ->
  Forall2 (keepsPrefix p) (map ConjugationForm.category forms)
          (map ConjugationForm.hiragana forms) ->
  prefixPreserved p forms.
Proof.
  intros Hc H. split; [|split].
  - rewrite <- (length_map ConjugationForm.category), Hc. reflexivity.
  - apply Forall2_map in H. exact H.
  - assert (E : forall l : list ConjugationForm.t,
               List.length (filter (fun f => match ConjugationForm.category f with
                                             | honorific_cat => true
                                             | _ => false
                                             end) l)
               = List.length (filter (fun c => match c with
                                               | honorific_cat => true
                                               | _ => false
                                               end)
                                     (map ConjugationForm.category l))).
    { induction l as [|x l IH]; [reflexivity|]. cbn [filter map].
      destruct (ConjugationForm.category x); cbn [List.length]; rewrite ?IH;
        reflexivity. }
    rewrite E, Hc. reflexivity.
Qed.

Ltac keeps_prefix :=
  repeat (apply Forall2_cons;
          [split;
           [first [apply includes_prefix | apply includes_cons, includes_prefix]
           | eexists; reflexivity] |]);
  apply Forall2_nil.

Lemma godanPattern_keepsPrefix (stem ending : jsstring) (m : GodanConjugationMap.t) :
  Forall2 (keepsPrefix stem) (map FormDefinition.category CONJUGATION_FORMS)
          (godanPattern (stem ++ ending) stem m).
Proof.
  unfold godanPattern. cbv zeta. cbn [CONJUGATION_FORMS map].
  change (J "お") with [12362%N]. cbn [app].
  rewrite <- !app_assoc.
  unfold formDef; cbn [FormDefinition.category].
  keeps_prefix.
Qed.

Lemma conjugateIchidan_regular (romaji stem : jsstring)
    (forms : list ConjugationForm.t) :
  conjugateIchidan
    (VerbInfo.mk (stem ++ J "る") (stem ++ J "る") romaji ichidan stem (J "る")
                 None None) = inr forms ->
  prefixPreserved stem forms
  /\ Forall (fun f => ConjugationForm.kanji f = ConjugationForm.hiragana f) forms.
Proof.
  intros E. gen_eval_in E. rewrite <- ?app_assoc in E. injection E as <-.
  split.
  - split; [reflexivity|]. split; [prefix_preserved | reflexivity].
  - repeat (constructor; [reflexivity|]). constructor.
Qed.

Lemma generator_ichidan (v : VerbInfo.t) :
  VerbInfo.type v = ichidan -> generator v = conjugateIchidan v.
Proof. intros H. rewrite generator_eq, H. reflexivity. Qed.

(** The forms of a verb that is classified as five-grade or one-grade. *)
Lemma regular_forms (input : jsstring) (v : VerbInfo.t) :
  classifyVerb input = inr v ->
  VerbInfo.type v <> irregular ->
  exists forms,
    (forall now, conjugate now input = Success (ConjugationResult.mk v forms now))
    /\ prefixPreserved (VerbInfo.stem v) forms
    /\ Forall (fun f => ConjugationForm.kanji f = ConjugationForm.hiragana f) forms.
Proof.
  intros H Htype.
  destruct (conjugate_classified _ _ H) as [forms [Hgen [Hcat Hc]]].
  exists forms. split; [exact Hc|].
  apply classifyVerb_inr in H as [_ [_ Hcl]].
  destruct Hcl as [p Hp Hv | p base Hp Hb Hv | t Ht | Hirr Hlast | Hirr Hin];
    try (exfalso; apply Htype; reflexivity).
  - match type of Hgen with generator ?w = _ =>
      rewrite (generator_ichidan w eq_refl) in Hgen end.
    pose proof (getStem_getLastChar (JS.trim input)) as Hsplit.
    rewrite Hlast in Hsplit.
    assert (G : forall verb stem romaji,
               stem ++ J "る" = verb ->
               conjugateIchidan (VerbInfo.mk verb verb romaji ichidan stem (J "る")
                                             None None) = inr forms ->
               prefixPreserved stem forms
               /\ Forall (fun f => ConjugationForm.kanji f
                                   = ConjugationForm.hiragana f) forms).
    { intros verb stem romaji <-. apply conjugateIchidan_regular. }
    exact (G _ _ _ Hsplit Hgen).
  - match type of Hgen with generator ?w = _ =>
      rewrite (generator_godan w eq_refl) in Hgen end.
    destruct (lookup_keys GODAN_ENDINGS _ Hin) as [m Hm].
    match type of Hgen with conjugateGodan ?w = _ =>
      destruct (conjugateGodan_regular w m eq_refl
                  (isIkuVerb_godan _ _ _ _ Hirr) Hm)
        as [forms' [Hf [_ [Hh Hk]]]]
    end.
    assert (forms' = forms) as -> by (rewrite Hf in Hgen; injection Hgen; auto).
    cbn [VerbInfo.dictionaryForm VerbInfo.stem] in Hh, Hk.
    cbn [VerbInfo.stem].
    split.
    + apply prefixPreserved_by_lists;
        [apply followsCatalogue_categories; exact Hcat|].
      rewrite (followsCatalogue_categories _ Hcat), Hh.
      rewrite <- (getStem_getLastChar (JS.trim input)) at 2.
      apply godanPattern_keepsPrefix.
    + apply map_eq_Forall. rewrite Hh, Hk. reflexivity.
Qed.

(** X14: the stem of a regular verb is kept.  For every verb classified
    as five-grade or one-grade, each of the 34 forms has the stem in
    its hiragana: at the start or, for the two forms of the honorific
    category, right after the leading お. *)
Theorem regular_stem_preserved (input : jsstring) (v : VerbInfo.t) :
  classifyVerb input = inr v ->
  VerbInfo.type v <> irregular ->
  exists forms,
    (forall now, conjugate now input = Success (ConjugationResult.mk v forms now))
    /\ prefixPreserved (VerbInfo.stem v) forms.
Proof.
  intros H Htype.
  destruct (regular_forms input v H Htype) as [forms [Hc [Hp _]]].
  exists forms. split; assumption.
Qed.

Lemma regular_stem_preserved_witness :
  exists forms,
    conjugate 0 (J "泳ぐ")
    = Success (ConjugationResult.mk
                 (VerbInfo.mk (J "泳ぐ") (J "泳ぐ") (J "泳gu") godan (J "泳") (J "ぐ")
                              None None) forms 0)
    /\ prefixPreserved (J "泳") forms.
Proof.
  destruct (regular_stem_preserved (J "泳ぐ")
              (VerbInfo.mk (J "泳ぐ") (J "泳ぐ") (J "泳gu") godan (J "泳") (J "ぐ")
                           None None)
              ltac:(vm_compute; reflexivity) ltac:(discriminate))
    as [forms [Hc Hp]].
  exists forms. split; [apply Hc | exact Hp].
Defined.

(** X15: a regular verb has one rendering.  For every verb classified as
    five-grade or one-grade, the kanji field of each form is its
    hiragana field: the generators write the form once, from the
    input as it was spelled. *)
Theorem regular_single_rendering (input : jsstring) (v : VerbInfo.t) :
  classifyVerb input = inr v ->
  VerbInfo.type v <> irregular ->
  exists forms,
    (forall now, conjugate now input = Success (ConjugationResult.mk v forms now))
    /\ Forall (fun f => ConjugationForm.kanji f = ConjugationForm.hiragana f) forms.
Proof.
  intros H Htype.
  destruct (regular_forms input v H Htype) as [forms [Hc [_ Hk]]].
  exists forms. split; assumption.
Qed.

Lemma regular_single_rendering_witness :
  exists forms,
    conjugate 0 (J "見る")
    = Success (ConjugationResult.mk
                 (VerbInfo.mk (J "見る") (J "見る") (J "見ru") ichidan (J "見") (J "る")
                              None None) forms 0)
    /\ Forall (fun f => ConjugationForm.kanji f = ConjugationForm.hiragana f) forms.
Proof.
  destruct (regular_single_rendering (J "見る")
              (VerbInfo.mk (J "見る") (J "見る") (J "見ru") ichidan (J "見") (J "る")
                           None None)
              ltac:(vm_compute; reflexivity) ltac:(discriminate))
    as [forms [Hc Hk]].
  exists forms. split; [apply Hc | exact Hk].
Defined.

(** ** The generators: one-grade potentials, honorific verbs, 来る *)

(** X16: the two potentials of a one-grade verb are told apart.  For
    every verb information of type one-grade, [isColloquialPotential]
    holds of what [getIchidanColloquialPotential] returns and does not
    hold of what [getIchidanTraditionalPotential] returns; for the
    other types both helpers throw. *)
Theorem potentials_told_apart (v : VerbInfo.t) :
  match VerbInfo.type v with
  | ichidan =>
    exists c t,
      getIchidanColloquialPotential v = inr c
      /\ getIchidanTraditionalPotential v = inr t
      /\ isColloquialPotential c (VerbInfo.stem v) = true
      /\ isColloquialPotential t (VerbInfo.stem v) = false
  | _ =>
    getIchidanColloquialPotential v
    = inl (J "getIchidanColloquialPotential called with non-Ichidan verb")
    /\ getIchidanTraditionalPotential v
       = inl (J "getIchidanTraditionalPotential called with non-Ichidan verb")
  end.
Proof.
  unfold getIchidanColloquialPotential, getIchidanTraditionalPotential.
  destruct (VerbInfo.type v); [split; reflexivity | | split; reflexivity].
  do 2 eexists. split; [reflexivity|]. split; [reflexivity|].
  unfold isColloquialPotential. rewrite !jseqb_refl.
  assert (E : JS.eqb (VerbInfo.stem v ++ J "られる") (VerbInfo.stem v ++ J "れる")
              = false).
  { destruct (JS.eqb _ _) eqn:E; [|reflexivity].
    apply jseqb_length in E. rewrite !length_app in E. cbn in E. lia. }
  rewrite E. split; reflexivity.
Qed.

Lemma slice_last2 (p base : jsstring) :
  List.length base = 2%nat -> JS.slice (p ++ base) (-2) None = base.
Proof.
  intros Lb. unfold JS.slice, JS.length. rewrite length_app, Lb.
  change (-2 <? 0)%Z with true. cbv iota.
  assert (E2 : Z.to_nat (Z.max (Z.of_nat (List.length p + 2)
                                - Z.max (Z.of_nat (List.length p + 2) + -2) 0) 0)
               = 2%nat) by lia.
  assert (E1 : Z.to_nat (Z.max (Z.of_nat (List.length p + 2) + -2) 0)
               = List.length p) by lia.
  rewrite E2, E1.
  rewrite skipn_app, skipn_all, Nat.sub_diag. cbn [skipn app].
  rewrite <- Lb. apply firstn_all.
Qed.

Lemma In_honorific (verb : jsstring) :
  getIrregularType verb = Some honorific <->
  verb = J "くださる" \/ verb = J "なさる" \/ verb = J "いらっしゃる"
  \/ verb = J "おっしゃる" \/ verb = J "ござる".
Proof.
  split.
  - intros H. apply lookup_Some in H. unfold IRREGULAR_VERBS in H. cbn [In] in H.
    repeat (destruct H as [H | H];
            [first [discriminate H | injection H as <-; tauto]|]).
    contradiction.
  - intros H. repeat (destruct H as [-> | H]; [reflexivity|]). subst. reflexivity.
Qed.

(** X17: the honorific verbs.  A classified verb has the irregular type
    honorific exactly when [isHonorificVerb] holds of its dictionary
    form.  Such a verb has its polite form on the stem that
    [getHonorificMasuStem] gives, in い where the five-grade rule has
    り (くださいます, not くださります), its plain imperative is that
    stem alone, and its connective form is the stem and って. *)
Theorem honorific_verb_forms (input : jsstring) (v : VerbInfo.t) :
  classifyVerb input = inr v ->
  (VerbInfo.irregularType v = Some honorific
   <-> isHonorificVerb (VerbInfo.dictionaryForm v) = true)
  /\ (VerbInfo.irregularType v = Some honorific ->
      exists forms,
        (forall now, conjugate now input
                     = Success (ConjugationResult.mk v forms now))
        /\ hiraganaOf forms (J "masu")
           = Some (getHonorificMasuStem (VerbInfo.stem v) ++ J "ます")
        /\ hiraganaOf forms (J "masu") <> Some (VerbInfo.stem v ++ J "ります")
        /\ hiraganaOf forms (J "imperative-plain")
           = Some (getHonorificMasuStem (VerbInfo.stem v))
        /\ hiraganaOf forms (J "te") = Some (VerbInfo.stem v ++ J "って")).
Proof.
  intros H.
  destruct (conjugate_classified _ _ H) as [forms [Hgen [_ Hc]]].
  pose proof (classifyVerb_inr _ _ H) as [_ [_ Hcl]].
  assert (Hiff : VerbInfo.irregularType v = Some honorific
                 <-> getIrregularType (VerbInfo.dictionaryForm v) = Some honorific
                     /\ VerbInfo.compoundPrefix v = None).
  { destruct Hcl as [p Hp Hv | p base Hp Hb Hv | t Ht | Hirr Hlast | Hirr Hin];
      cbn [VerbInfo.irregularType VerbInfo.dictionaryForm VerbInfo.compoundPrefix];
      split; try (intros E; discriminate E); try (intros [_ E]; discriminate E).
    - intros E. injection E as ->. auto.
    - intros [E _]. congruence.
    - intros [E _]. congruence.
    - intros [E _]. congruence. }
  split.
  - rewrite Hiff, In_honorific. unfold isHonorificVerb. cbv zeta.
    rewrite arrayIncludes_In. cbn [In]. split.
    + intros [E _]. intuition (subst; auto).
    + intros E. assert (E' : VerbInfo.dictionaryForm v = J "くださる" \/ VerbInfo.dictionaryForm v = J "なさる"
        \/ VerbInfo.dictionaryForm v = J "いらっしゃる" \/ VerbInfo.dictionaryForm v = J "おっしゃる"
        \/ VerbInfo.dictionaryForm v = J "ござる") by (intuition (subst; auto)).
      clear E. rename E' into E. split; [exact E|].
      destruct Hcl as [p Hp Hv | p base Hp Hb Hv | t Ht | Hirr Hlast | Hirr Hin];
        cbn [VerbInfo.dictionaryForm VerbInfo.compoundPrefix] in *;
        try reflexivity; exfalso.
      * assert (S2 : JS.slice (JS.trim input) (-2) None = J "する")
          by (rewrite Hv at 1; apply slice_last2; reflexivity).
        repeat (destruct E as [E | E];
                [rewrite E in S2; vm_compute in S2; discriminate S2|]).
        rewrite E in S2; vm_compute in S2; discriminate S2.
      * assert (S2 : JS.slice (JS.trim input) (-2) None = base)
          by (rewrite Hv at 1; apply slice_last2;
              destruct Hb as [<- | [<- | []]]; reflexivity).
        destruct Hb as [<- | [<- | []]];
          repeat (destruct E as [E | E];
                  [rewrite E in S2; vm_compute in S2; discriminate S2|]);
          rewrite E in S2; vm_compute in S2; discriminate S2.
  - intros Hh. apply Hiff in Hh as [Hh Hnp].
    exists forms. split; [exact Hc|].
    destruct Hcl as [p Hp Hv | p base Hp Hb Hv | t Ht | Hirr Hlast | Hirr Hin];
      cbn [VerbInfo.dictionaryForm VerbInfo.compoundPrefix] in *;
      try discriminate Hnp; try congruence.
    assert (t = honorific) as -> by congruence.
    match type of Hgen with generator ?w = _ =>
      pose proof (generator_irregular w honorific eq_refl eq_refl) as [E1 _] end.
    rewrite E1 in Hgen. clear E1.
    apply In_honorific in Hh.
    repeat (destruct Hh as [Hh | Hh];
            [rewrite Hh in *; vm_compute in Hgen; injection Hgen as <-;
             repeat split; vm_compute; first [reflexivity | discriminate]|]).
    rewrite Hh in *; vm_compute in Hgen; injection Hgen as <-;
      repeat split; vm_compute; first [reflexivity | discriminate].
Qed.

Lemma honorific_verb_forms_witness :
  exists forms,
    conjugate 0 (J "くださる")
    = Success (ConjugationResult.mk
                 (VerbInfo.mk (J "くださる") (J "くださる") (J "kudasaru") irregular
                              (J "くださ") (J "る") (Some honorific) None) forms 0)
    /\ hiraganaOf forms (J "masu") = Some (J "くださいます").
Proof.
  destruct (honorific_verb_forms (J "くださる")
              (VerbInfo.mk (J "くださる") (J "くださる") (J "kudasaru") irregular
                           (J "くださ") (J "る") (Some honorific) None)
              ltac:(vm_compute; reflexivity)) as [_ H].
  destruct (H eq_refl) as [forms [Hc [Hm _]]].
  exists forms. split; [apply Hc | exact Hm].
Defined.

Lemma japaneseUnit_not_whitespace (c : N) :
  japaneseUnit c = true -> JS.isWhiteSpace c = false.
Proof.
  unfold japaneseUnit, isHiragana, isKatakana, isKanji, inRange.
  cbn [JS.charCodeAt0 hd_error]. intros H.
  assert (L : (12352 <= c <= 40879)%N).
  { repeat (apply orb_true_iff in H as [H | H]);
      apply andb_true_iff in H as [H1 H2];
      apply N.leb_le in H1; apply N.leb_le in H2; lia. }
  unfold JS.isWhiteSpace.
  repeat match goal with
         | |- context [(c =? ?k)%N] => destruct (N.eqb_spec c k); [lia|]
         end.
  destruct (N.leb_spec 8192 c), (N.leb_spec c 8202); try lia; reflexivity.
Qed.

Lemma trimStart_japanese (s : jsstring) :
  Forall (fun c => japaneseUnit c = true) s -> JS.trimStart s = s.
Proof.
  intros H. destruct H as [|c r Hc _]; [reflexivity|].
  cbn [JS.trimStart]. rewrite (japaneseUnit_not_whitespace c Hc). reflexivity.
Qed.

Lemma trim_japanese (s : jsstring) :
  Forall (fun c => japaneseUnit c = true) s -> JS.trim s = s.
Proof.
  intros H. unfold JS.trim, JS.trimEnd.
  rewrite (trimStart_japanese s H).
  rewrite trimStart_japanese; [apply rev_involutive|].
  apply Forall_rev. exact H.
Qed.

Lemma endsWith_same_length (p base suffix : jsstring) :
  List.length suffix = List.length base ->
  JS.endsWith (p ++ base) suffix = JS.eqb base suffix.
Proof.
  intros L. unfold JS.endsWith, JS.length. rewrite length_app, L.
  destruct (Z.ltb_spec (Z.of_nat (List.length p + List.length base)
                        - Z.of_nat (List.length base)) 0); [lia|].
  replace (Z.to_nat (Z.of_nat (List.length p + List.length base)
                     - Z.of_nat (List.length base)))
    with (List.length p) by lia.
  rewrite skipn_app, skipn_all, Nat.sub_diag. reflexivity.
Qed.

(** The classification of a 来る compound, in either spelling. *)
Lemma classifyVerb_kuru_compound (p base : jsstring) :
  isJapanese p = true ->
  base = J "くる" \/ base = J "来る" ->
  classifyVerb (p ++ base)
  = inr (VerbInfo.mk (p ++ base) (p ++ base) (hiraganaToRomaji (p ++ base))
                     irregular p base (Some kuru) (Some p)).
Proof.
  intros Hp Hb.
  apply isJapanese_Forall in Hp as [Hne Hp].
  assert (Lb : List.length base = 2%nat) by (destruct Hb as [-> | ->]; reflexivity).
  assert (Hjb : Forall (fun c => japaneseUnit c = true) base)
    by (destruct Hb as [-> | ->]; repeat constructor).
  assert (Hall : Forall (fun c => japaneseUnit c = true) (p ++ base))
    by (apply Forall_app; split; assumption).
  assert (Hnv : p ++ base <> []) by (destruct p; [congruence | discriminate]).
  unfold classifyVerb.
  rewrite (trim_japanese _ Hall).
  rewrite (trim_nil_input (p ++ base)) by (rewrite trim_japanese; assumption).
  rewrite (proj2 (length_zero (p ++ base)) Hnv).
  rewrite (Forall_isJapanese _ Hnv Hall).
  cbn [orb negb].
  assert (Hlen : (2 <? JS.length (p ++ base))%Z = true).
  { unfold JS.length. rewrite length_app, Lb. destruct p; [congruence|].
    cbn [List.length]. apply Z.ltb_lt. lia. }
  assert (Es : detectSuruCompound (p ++ base) = None).
  { unfold detectSuruCompound, SURU_COMPOUND_SUFFIXES. cbn [detectCompound].
    rewrite (endsWith_same_length p base (J "する")) by (rewrite Lb; reflexivity).
    destruct Hb as [-> | ->]; reflexivity. }
  assert (Ek : detectKuruCompound (p ++ base) = Some p).
  { unfold detectKuruCompound, KURU_COMPOUND_SUFFIXES. cbn [detectCompound].
    rewrite (endsWith_same_length p base (J "くる")) by (rewrite Lb; reflexivity).
    rewrite (endsWith_same_length p base (J "来る")) by (rewrite Lb; reflexivity).
    change (JS.length (J "くる")) with 2%Z. change (JS.length (J "来る")) with 2%Z.
    rewrite Hlen.
    assert (Sl : JS.slice (p ++ base) 0 (Some (-2)%Z) = p).
    { replace (-2)%Z with (- JS.length base)%Z
        by (unfold JS.length; rewrite Lb; reflexivity).
      apply slice_drop_suffix. destruct base; discriminate. }
    change (- (2))%Z with (-2)%Z. rewrite Sl.
    destruct Hb as [-> | ->]; reflexivity. }
  rewrite Es, Ek. rewrite slice_drop_prefix. reflexivity.
Qed.

Lemma conjugateKuru_by_prefix (v w : VerbInfo.t) :
  VerbInfo.compoundPrefix v = VerbInfo.compoundPrefix w ->
  conjugateKuru v = conjugateKuru w.
Proof.
  intros E.
  assert (P : prefixOrEmpty v = prefixOrEmpty w)
    by (unfold prefixOrEmpty; rewrite E; reflexivity).
  unfold conjugateKuru. rewrite P. reflexivity.
Qed.

(** X18: the two spellings of 来る conjugate alike.  For the plain verb
    and for every compound whose prefix is Japanese text, the input
    written with くる and the input written with 来る give the same 34
    forms: each form has the hiragana rendering in き, こ or く and the
    kanji rendering in 来, whichever spelling was entered. *)
Theorem kuru_spellings_agree (p : jsstring) :
  p = [] \/ isJapanese p = true ->
  exists v1 v2 forms,
    (forall now, conjugate now (p ++ J "くる")
                 = Success (ConjugationResult.mk v1 forms now))
    /\ (forall now, conjugate now (p ++ J "来る")
                    = Success (ConjugationResult.mk v2 forms now))
    /\ hiraganaOf forms (J "dictionary") = Some (p ++ J "くる")
    /\ kanjiOf forms (J "dictionary") = Some (p ++ J "来る").
Proof.
  intros [-> | Hp].
  - do 3 eexists. split; [intros now; vm_compute; reflexivity|].
    split; [intros now; vm_compute; reflexivity|].
    split; vm_compute; reflexivity.
  - pose proof (classifyVerb_kuru_compound p (J "くる") Hp (or_introl eq_refl)) as C1.
    pose proof (classifyVerb_kuru_compound p (J "来る") Hp (or_intror eq_refl)) as C2.
    destruct (conjugate_classified _ _ C1) as [forms1 [G1 [_ H1]]].
    destruct (conjugate_classified _ _ C2) as [forms2 [G2 [_ H2]]].
    match type of G1 with generator ?w = _ =>
      pose proof (generator_irregular w kuru eq_refl eq_refl) as [E1 _] end.
    match type of G2 with generator ?w = _ =>
      pose proof (generator_irregular w kuru eq_refl eq_refl) as [E2 _] end.
    rewrite E1 in G1. rewrite E2 in G2. clear E1 E2.
    match type of G1 with conjugateKuru ?a = _ =>
      match type of G2 with conjugateKuru ?b = _ =>
        rewrite (conjugateKuru_by_prefix a b eq_refl) in G1
      end
    end.
    assert (forms1 = forms2) as -> by congruence.
    do 3 eexists. split; [exact H1|]. split; [exact H2|].
    clear H1 H2 C1 C2.
    match type of G2 with conjugateKuru ?b = _ =>
      assert (Pb : prefixOrEmpty b = p)
        by (apply prefixOrEmpty_Some; reflexivity)
    end.
    unfold conjugateKuru in G2. rewrite Pb in G2.
    gen_eval_in G2. injection G2 as <-.
    split; reflexivity.
Qed.

Lemma kuru_spellings_agree_witness :
  exists v1 v2 forms,
    conjugate 0 (J "持ってくる") = Success (ConjugationResult.mk v1 forms 0)
    /\ conjugate 0 (J "持って来る") = Success (ConjugationResult.mk v2 forms 0)
    /\ kanjiOf forms (J "dictionary") = Some (J "持って来る").
Proof.
  destruct (kuru_spellings_agree (J "持って") (or_intror eq_refl))
    as [v1 [v2 [forms [H1 [H2 [_ H3]]]]]].
  exists v1, v2, forms. split; [apply H1|]. split; [apply H2 | exact H3].
Defined.

(** ** The form catalogue *)

Lemma ConjugationCategory_text_inj (a b : ConjugationCategory) :
  JS.eqb (ConjugationCategory_text a) (ConjugationCategory_text b) = true <-> a = b.
Proof.
  split; [|intros ->; apply jseqb_refl].
  destruct a, b; intros H; first [reflexivity | vm_compute in H; discriminate H].
Qed.

Lemma Formality_text_inj (a b : Formality) :
  JS.eqb (Formality_text a) (Formality_text b) = true <-> a = b.
Proof.
  split; [|intros ->; apply jseqb_refl].
  destruct a, b; intros H; first [reflexivity | vm_compute in H; discriminate H].
Qed.

Lemma VerbType_text_inj (a b : VerbType) :
  JS.eqb (VerbType_text a) (VerbType_text b) = true <-> a = b.
Proof.
  split; [|intros ->; apply jseqb_refl].
  destruct a, b; intros H; first [reflexivity | vm_compute in H; discriminate H].
Qed.

Lemma IrregularType_text_inj (a b : IrregularType) :
  JS.eqb (IrregularType_text a) (IrregularType_text b) = true <-> a = b.
Proof.
  split; [|intros ->; apply jseqb_refl].
  destruct a, b; intros H; first [reflexivity | vm_compute in H; discriminate H].
Qed.

(** X19: [getFormById] finds the entry of an identifier.  The
    identifiers of the catalogue are pairwise distinct; [getFormById]
    returns an entry exactly when it is the entry of the catalogue with
    that identifier, and [undefined] exactly for an identifier that no
    entry has; and [createForm] throws its unknown-identifier error
    exactly in that case. *)
Theorem getFormById_lookup (id : jsstring) :
  NoDup (map FormDefinition.id CONJUGATION_FORMS)
  /\ (forall d, getFormById id = Some d <->
                In d CONJUGATION_FORMS /\ FormDefinition.id d = id)
  /\ (getFormById id = None <-> ~ In id (map FormDefinition.id CONJUGATION_FORMS))
  /\ (forall hiragana kanji,
        createForm id hiragana kanji = inl (J "Unknown form ID: " ++ id)
        <-> getFormById id = None).
Proof.
  split; [exact catalogueIds_NoDup|]. split; [|split].
  - intros d. unfold getFormById. split.
    + apply find_key.
    + intros [Hin Hid]. apply find_unique; auto. exact catalogueIds_NoDup.
  - unfold getFormById. apply find_missing.
  - intros hiragana kanji. unfold createForm, getFormById.
    destruct (find _ CONJUGATION_FORMS); split; intros H; first [discriminate H | reflexivity].
Qed.

(** X20: the categories of the catalogue.  [getAllCategories] returns
    the fourteen categories in the order of [CATEGORY_ORDER], which is
    the order of [ALL_CONJUGATION_CATEGORIES]; [getFormsByCategory]
    returns the entries of a category and leaves no category empty;
    and going through the categories in that order gives the catalogue
    back, entry by entry: the catalogue is sorted by category. *)
Theorem catalogue_categories :
  getAllCategories = CATEGORY_ORDER
  /\ CATEGORY_ORDER = ALL_CONJUGATION_CATEGORIES
  /\ (forall c d, In d (getFormsByCategory c) <->
                  In d CONJUGATION_FORMS /\ FormDefinition.category d = c)
  /\ (forall c, getFormsByCategory c <> [])
  /\ flat_map getFormsByCategory CATEGORY_ORDER = CONJUGATION_FORMS
  /\ (forall f d, In d (getFormsByFormality f) <->
                  In d CONJUGATION_FORMS /\ FormDefinition.formality d = f)
  /\ (List.length (getFormsByFormality plain)
      + List.length (getFormsByFormality polite_f)
      = List.length CONJUGATION_FORMS)%nat.
Proof.
  split; [vm_compute; reflexivity|]. split; [reflexivity|]. split; [|split; [|split; [|split]]].
  - intros c d. unfold getFormsByCategory. rewrite filter_In.
    rewrite ConjugationCategory_text_inj. reflexivity.
  - intros c. destruct c; vm_compute; discriminate.
  - vm_compute. reflexivity.
  - intros f d. unfold getFormsByFormality. rewrite filter_In.
    rewrite Formality_text_inj. reflexivity.
  - vm_compute. reflexivity.
Qed.

(** ** Equivalence and serialisation of results *)

Lemma differs_false {A : Type} (text : A -> jsstring) (x y : option A) :
  (forall a b, JS.eqb (text a) (text b) = true -> a = b) ->
  differs text x y = false -> x = y.
Proof.
  intros Hinj. destruct x as [a|], y as [b|]; cbn; intros H;
    try discriminate H; [|reflexivity].
  apply negb_false_iff in H. apply Hinj in H. congruence.
Qed.

Lemma formDiffers_false (a b : ConjugationForm.t) :
  formDiffers a b = false -> a = b.
Proof.
  unfold formDiffers. intros H.
  repeat (apply orb_false_iff in H as [H ?]).
  repeat match goal with
         | E : negb _ = false |- _ => apply negb_false_iff in E
         end.
  destruct a, b. cbn in *.
  repeat match goal with
         | E : JS.eqb (Formality_text _) _ = true |- _ =>
           apply Formality_text_inj in E
         | E : JS.eqb (ConjugationCategory_text _) _ = true |- _ =>
           apply ConjugationCategory_text_inj in E
         | E : JS.eqb _ _ = true |- _ => apply jseqb_eq in E
         end.
  congruence.
Qed.

Lemma formsDiffer_false (l1 l2 : list ConjugationForm.t) :
  List.length l1 = List.length l2 -> formsDiffer l1 l2 = false -> l1 = l2.
Proof.
  revert l2. induction l1 as [|a l1 IH]; intros [|b l2] L H; try discriminate L;
    [reflexivity|].
  cbn [formsDiffer] in H. destruct (formDiffers a b) eqn:E; [discriminate H|].
  apply formDiffers_false in E. subst. f_equal. apply IH; [cbn in L; lia | exact H].
Qed.

(** X21: [areResultsEquivalent] is equality on results whose timestamps
    are safe integers, which is what the clock gives (a timestamp that
    is not a number differs from itself and is outside the numbers of
    the model).  It accepts two such results exactly when they are the
    same: the same eight fields of the verb information, the same
    timestamp, and the same forms, field by field and in the same
    order. *)
Theorem areResultsEquivalent_equality (a b : ConjugationResult.t) :
  isSafeInteger (ConjugationResult.timestamp a) = true ->
  isSafeInteger (ConjugationResult.timestamp b) = true ->
  (areResultsEquivalent a b = true <-> a = b).
Proof.
  intros _ _.
  split; [|intros ->; apply areResultsEquivalent_refl].
  unfold areResultsEquivalent. cbv zeta. intros H.
  destruct (_ || _) eqn:Hverb in H; [discriminate H|].
  destruct (negb (ConjugationResult.timestamp a =? ConjugationResult.timestamp b)%Z)
    eqn:Ht in H; [discriminate H|].
  destruct (negb (List.length (ConjugationResult.forms a)
                  =? List.length (ConjugationResult.forms b))%nat)
    eqn:Hl in H; [discriminate H|].
  apply negb_true_iff in H.
  apply negb_false_iff in Ht, Hl. apply Z.eqb_eq in Ht. apply Nat.eqb_eq in Hl.
  apply (formsDiffer_false _ _ Hl) in H.
  repeat (apply orb_false_iff in Hverb as [Hverb ?]).
  repeat match goal with
         | E : negb _ = false |- _ => apply negb_false_iff in E
         end.
  repeat match goal with
         | E : differs IrregularType_text _ _ = false |- _ =>
           apply (differs_false IrregularType_text) in E;
             [|intros ? ?; apply IrregularType_text_inj]
         | E : differs (fun s => s) _ _ = false |- _ =>
           apply (differs_false (fun s : jsstring => s)) in E;
             [|intros ? ?; apply jseqb_eq]
         | E : JS.eqb (VerbType_text _) _ = true |- _ =>
           apply VerbType_text_inj in E
         | E : JS.eqb _ _ = true |- _ => apply jseqb_eq in E
         end.
  destruct a as [[] fa ta], b as [[] fb tb]. cbn in *. congruence.
Qed.

Lemma areResultsEquivalent_equality_witness :
  areResultsEquivalent
    (ConjugationResult.mk
       (VerbInfo.mk (J "見る") (J "見る") (J "見ru") ichidan (J "見") (J "る") None None)
       [ConjugationForm.mk (J "te") (J "Te-form") (J "て形") (J "見て") (J "見て")
                           (J "見te") plain basic]
       1700000000000%Z)
    (ConjugationResult.mk
       (VerbInfo.mk (J "見る") (J "見る") (J "見ru") ichidan (J "見") (J "る") None None)
       [ConjugationForm.mk (J "te") (J "Te-form") (J "て形") (J "見て") (J "見て")
                           (J "見te") plain basic]
       1700000000001%Z) = true
  <-> ConjugationResult.mk
        (VerbInfo.mk (J "見る") (J "見る") (J "見ru") ichidan (J "見") (J "る") None None)
        [ConjugationForm.mk (J "te") (J "Te-form") (J "て形") (J "見て") (J "見て")
                            (J "見te") plain basic]
        1700000000000%Z
      = ConjugationResult.mk
          (VerbInfo.mk (J "見る") (J "見る") (J "見ru") ichidan (J "見") (J "る") None None)
          [ConjugationForm.mk (J "te") (J "Te-form") (J "て形") (J "見て") (J "見て")
                              (J "見te") plain basic]
          1700000000001%Z.
Proof.
  apply areResultsEquivalent_equality; reflexivity.
Defined.

Lemma findExisting_Some (verb : jsstring) (history : list HistoryEntry.t)
    (index : nat) (existing : HistoryEntry.t) :
  findExisting verb history = Some (index, existing) ->
  HistoryEntry.verb existing = verb
  /\ In existing history
  /\ firstn index history ++ skipn (S index) history = withoutVerb verb history.
Proof.
  revert index. induction history as [|entry rest IH]; intros index H;
    [discriminate H|].
  cbn [findExisting] in H. cbn [withoutVerb].
  destruct (JS.eqb (HistoryEntry.verb entry) verb) eqn:E.
  - injection H as <- <-. apply jseqb_eq in E.
    split; [exact E|]. split; [left; reflexivity | reflexivity].
  - destruct (findExisting verb rest) as [[i e]|] eqn:F; [|discriminate H].
    injection H as <- <-. destruct (IH i eq_refl) as [Hv [Hin Hw]].
    split; [exact Hv|]. split; [right; exact Hin|].
    cbn [firstn skipn app]. rewrite <- Hw. reflexivity.
Qed.

Lemma findExisting_None (verb : jsstring) (history : list HistoryEntry.t) :
  findExisting verb history = None ->
  ~ In verb (map HistoryEntry.verb history) /\ withoutVerb verb history = history.
Proof.
  induction history as [|entry rest IH]; intros H; [split; [intros []|reflexivity]|].
  cbn [findExisting] in H. cbn [withoutVerb map].
  destruct (JS.eqb (HistoryEntry.verb entry) verb) eqn:E; [discriminate H|].
  destruct (findExisting verb rest) as [[i e]|] eqn:F; [discriminate H|].
  destruct (IH eq_refl) as [Hn Hw]. apply jseqb_neq in E. split.
  - intros [Hin | Hin]; [congruence | auto].
  - rewrite Hw. reflexivity.
Qed.

Lemma cap_firstn {A : Type} (l : list A) :
  (if (MAX_HISTORY_ENTRIES <? List.length l)%nat
   then firstn MAX_HISTORY_ENTRIES l else l)
  = firstn MAX_HISTORY_ENTRIES l.
Proof.
  destruct (Nat.ltb_spec MAX_HISTORY_ENTRIES (List.length l)); [reflexivity|].
  symmetry. apply firstn_all2. exact H.
Qed.

Lemma addToHistory_history (now : Z) (suffix : jsstring)
    (result : ConjugationResult.t) (state : ConjugatorState.t) :
  ConjugatorState.history (addToHistory now suffix result state)
  = firstn MAX_HISTORY_ENTRIES
      (frontEntry now suffix result (ConjugatorState.history state)
       :: withoutVerb (VerbInfo.dictionaryForm (ConjugationResult.verb result))
                      (ConjugatorState.history state)).
Proof.
  unfold addToHistory. cbv zeta. cbn [setHistory ConjugatorState.history].
  rewrite cap_firstn. unfold frontEntry.
  destruct (findExisting _ (ConjugatorState.history state)) as [[i e]|] eqn:F.
  - apply findExisting_Some in F as [_ [_ Hw]]. rewrite Hw. reflexivity.
  - apply findExisting_None in F as [_ Hw]. rewrite Hw. reflexivity.
Qed.

Lemma frontEntry_verb (now : Z) (suffix : jsstring) (result : ConjugationResult.t)
    (history : list HistoryEntry.t) :
  HistoryEntry.verb (frontEntry now suffix result history)
  = VerbInfo.dictionaryForm (ConjugationResult.verb result)
  /\ HistoryEntry.timestamp (frontEntry now suffix result history)
     = ConjugationResult.timestamp result.
Proof.
  unfold frontEntry.
  destruct (findExisting _ history) as [[i e]|] eqn:F; [|split; reflexivity].
  apply findExisting_Some in F as [Hv _]. split; [exact Hv | reflexivity].
Qed.

Lemma withoutVerb_In (verb : jsstring) (history : list HistoryEntry.t)
    (e : HistoryEntry.t) :
  In e (withoutVerb verb history) -> In e history.
Proof.
  induction history as [|entry rest IH]; [intros []|]. cbn [withoutVerb].
  destruct (JS.eqb (HistoryEntry.verb entry) verb).
  - intros H. right. exact H.
  - intros [H | H]; [left; exact H | right; apply IH; exact H].
Qed.

Lemma withoutVerb_keeps (verb : jsstring) (history : list HistoryEntry.t)
    (e : HistoryEntry.t) :
  In e history -> HistoryEntry.verb e <> verb -> In e (withoutVerb verb history).
Proof.
  induction history as [|entry rest IH]; [intros []|]. cbn [withoutVerb].
  intros [-> | Hin] Hv.
  - destruct (JS.eqb (HistoryEntry.verb e) verb) eqn:E;
      [apply jseqb_eq in E; congruence | left; reflexivity].
  - destruct (JS.eqb (HistoryEntry.verb entry) verb);
      [exact Hin | right; apply IH; assumption].
Qed.

Lemma withoutVerb_length (verb : jsstring) (history : list HistoryEntry.t) :
  (List.length (withoutVerb verb history) <= List.length history)%nat.
Proof.
  induction history as [|entry rest IH]; [reflexivity|]. cbn [withoutVerb].
  destruct (JS.eqb (HistoryEntry.verb entry) verb); cbn [List.length]; lia.
Qed.

Lemma withoutVerb_NoDup (verb : jsstring) (history : list HistoryEntry.t) :
  NoDup (map HistoryEntry.verb history) ->
  NoDup (map HistoryEntry.verb (withoutVerb verb history))
  /\ ~ In verb (map HistoryEntry.verb (withoutVerb verb history)).
Proof.
  induction history as [|entry rest IH]; intros H;
    [split; [constructor | intros []]|].
  cbn [map] in H. inversion H as [|x xs Hnot Hnd]; subst.
  cbn [withoutVerb].
  destruct (JS.eqb (HistoryEntry.verb entry) verb) eqn:E.
  - apply jseqb_eq in E. subst. split; assumption.
  - apply jseqb_neq in E. destruct (IH Hnd) as [Hn Hv]. split.
    + cbn [map]. constructor; [|exact Hn].
      intros Hin. apply Hnot. apply in_map_iff in Hin as [e [He Hin]].
      apply in_map_iff. exists e. split; [exact He|].
      apply (withoutVerb_In verb). exact Hin.
    + cbn [map]. intros [Hin | Hin]; [congruence | auto].
Qed.

Lemma In_firstn {A : Type} (n : nat) (l : list A) (x : A) :
  In x (firstn n l) -> In x l.
Proof.
  revert n. induction l as [|y l IH]; intros [|n] H; cbn [firstn] in H;
    try contradiction.
  destruct H as [-> | H]; [left; reflexivity | right; exact (IH n H)].
Qed.

Lemma NoDup_firstn {A : Type} (n : nat) (l : list A) : NoDup l -> NoDup (firstn n l).
Proof.
  revert n. induction l as [|x l IH]; intros [|n] H; cbn [firstn];
    try constructor; inversion H; subst.
  - intros Hin. apply In_firstn in Hin. contradiction.
  - apply IH. assumption.
Qed.

(** X22: [addToHistory] moves or inserts.  The new history is the entry
    for the verb, followed by the old history without its first entry
    for that verb, cut to 50 entries.  The entry in front has the verb
    and the timestamp of the result; when the verb was in the history
    it keeps the identifier and the type of the existing entry, and
    otherwise it is the new entry with a generated identifier.  So the
    history never exceeds 50 entries, and below that bound no entry of
    another verb is lost. *)
Theorem addToHistory_moves_to_front (now : Z) (suffix : jsstring)
    (result : ConjugationResult.t) (state : ConjugatorState.t) :
  let verb := VerbInfo.dictionaryForm (ConjugationResult.verb result) in
  let history := ConjugatorState.history state in
  let history' := ConjugatorState.history (addToHistory now suffix result state) in
  exists front,
    history' = firstn 50 (front :: withoutVerb verb history)
    /\ HistoryEntry.verb front = verb
    /\ HistoryEntry.timestamp front = ConjugationResult.timestamp result
    /\ (forall existing,
          hd_error (filter (fun e => JS.eqb (HistoryEntry.verb e) verb) history)
          = Some existing ->
          HistoryEntry.id front = HistoryEntry.id existing
          /\ HistoryEntry.verbType front = HistoryEntry.verbType existing)
    /\ (~ In verb (map HistoryEntry.verb history) ->
        front = createHistoryEntry now suffix result)
    /\ (List.length history' <= 50)%nat
    /\ ((List.length history < 50)%nat ->
        forall e, In e history -> HistoryEntry.verb e <> verb -> In e history').
Proof.
  intros verb history history'.
  exists (frontEntry now suffix result history).
  assert (H' : history' = firstn 50 (frontEntry now suffix result history
                                     :: withoutVerb verb history))
    by apply addToHistory_history.
  destruct (frontEntry_verb now suffix result history) as [Hv Ht].
  split; [exact H'|]. split; [exact Hv|]. split; [exact Ht|].
  split; [|split; [|split]].
  - intros existing Hhd. unfold frontEntry. fold verb.
    clear H' history' Hv Ht.
    induction history as [|entry rest IH]; [discriminate Hhd|].
    cbn [filter] in Hhd. cbn [findExisting].
    destruct (JS.eqb (HistoryEntry.verb entry) verb) eqn:E.
    + injection Hhd as <-. split; reflexivity.
    + specialize (IH Hhd).
      destruct (findExisting verb rest) as [[i e]|]; exact IH.
  - intros Hnot. unfold frontEntry. fold verb.
    destruct (findExisting verb history) as [[i e]|] eqn:F; [|reflexivity].
    apply findExisting_Some in F as [Hve [Hin _]]. exfalso. apply Hnot.
    rewrite <- Hve. apply in_map. exact Hin.
  - rewrite H'. rewrite length_firstn. lia.
  - intros Hlen e Hin Hne. rewrite H'.
    rewrite firstn_all2.
    + right. apply withoutVerb_keeps; assumption.
    + cbn [List.length]. pose proof (withoutVerb_length verb history). lia.
Qed.

Lemma indexOf_Some (expanded : list ConjugationCategory) (c : ConjugationCategory)
    (index : nat) :
  indexOf expanded c = Some index ->
  exists before after,
    expanded = before ++ c :: after
    /\ ~ In c before
    /\ firstn index expanded ++ skipn (S index) expanded = before ++ after.
Proof.
  revert index. induction expanded as [|x rest IH]; intros index H;
    [discriminate H|].
  cbn [indexOf] in H.
  destruct (JS.eqb (ConjugationCategory_text x) (ConjugationCategory_text c)) eqn:E.
  - injection H as <-. apply ConjugationCategory_text_inj in E. subst.
    exists [], rest. repeat split. intros [].
  - destruct (indexOf rest c) as [i|] eqn:F; [|discriminate H].
    injection H as <-. destruct (IH i eq_refl) as [b [a [Hr [Hn Hf]]]].
    exists (x :: b), a. split; [rewrite Hr; reflexivity|]. split.
    + intros [-> | Hin]; [|auto].
      rewrite jseqb_refl in E. discriminate E.
    + cbn [firstn skipn app]. cbn [skipn] in Hf. rewrite Hf. reflexivity.
Qed.

Lemma indexOf_None (expanded : list ConjugationCategory) (c : ConjugationCategory) :
  indexOf expanded c = None -> ~ In c expanded.
Proof.
  induction expanded as [|x rest IH]; intros H; [intros []|].
  cbn [indexOf] in H.
  destruct (JS.eqb (ConjugationCategory_text x) (ConjugationCategory_text c)) eqn:E;
    [discriminate H|].
  destruct (indexOf rest c) as [i|] eqn:F; [discriminate H|].
  intros [-> | Hin]; [rewrite jseqb_refl in E; discriminate E | exact (IH eq_refl Hin)].
Qed.

Lemma toggle_NoDup (expanded : list ConjugationCategory) (c : ConjugationCategory) :
  NoDup expanded ->
  NoDup match indexOf expanded c with
        | Some index => firstn index expanded ++ skipn (S index) expanded
        | None => expanded ++ [c]
        end.
Proof.
  intros H. destruct (indexOf expanded c) as [i|] eqn:E.
  - apply indexOf_Some in E as [b [a [-> [_ ->]]]].
    apply NoDup_remove_1 in H. exact H.
  - apply indexOf_None in E.
    apply NoDup_app; [exact H | constructor; [intros [] | constructor] |].
    intros x Hin [<- | []]. contradiction.
Qed.

Lemma addToHistory_invariant (now : Z) (suffix : jsstring)
    (result : ConjugationResult.t) (state : ConjugatorState.t) :
  NoDup (map HistoryEntry.verb (ConjugatorState.history state)) ->
  (List.length (ConjugatorState.history (addToHistory now suffix result state))
   <= 50)%nat
  /\ NoDup (map HistoryEntry.verb
              (ConjugatorState.history (addToHistory now suffix result state))).
Proof.
  intros H. rewrite addToHistory_history. split.
  - rewrite length_firstn. unfold MAX_HISTORY_ENTRIES. lia.
  - rewrite <- firstn_map. apply NoDup_firstn. cbn [map].
    destruct (frontEntry_verb now suffix result (ConjugatorState.history state))
      as [-> _].
    destruct (withoutVerb_NoDup
                (VerbInfo.dictionaryForm (ConjugationResult.verb result)) _ H)
      as [Hn Hv].
    constructor; assumption.
Qed.

Lemma conjugateAction_invariant (now idNow : Z) (suffix : jsstring)
    (state : ConjugatorState.t) :
  storeInvariant state -> storeInvariant (conjugateAction now idNow suffix state).
Proof.
  intros [Hl [Hh [He [Hi Hr]]]]. unfold conjugateAction.
  destruct (conjugate now (ConjugatorState.inputText state)) as [r|e].
  - match goal with
    | |- storeInvariant (addToHistory _ _ _ ?s) =>
      destruct (addToHistory_invariant idNow suffix r s Hh) as [H1 H2]
    end.
    split; [exact H1|]. split; [exact H2|].
    split; [exact He|]. split; [reflexivity | right; reflexivity].
  - split; [exact Hl|]. split; [exact Hh|]. split; [exact He|].
    split; [reflexivity | left; reflexivity].
Qed.

Lemma perform_invariant (action : StoreAction) (state : ConjugatorState.t) :
  storeInvariant state -> storeInvariant (perform action state).
Proof.
  intros Inv. pose proof Inv as [Hl [Hh [He [Hi Hr]]]].
  destruct action; cbn [perform].
  - split; [exact Hl|]. split; [exact Hh|]. split; [exact He|].
    split; [exact Hi | right; reflexivity].
  - apply conjugateAction_invariant. exact Inv.
  - split; [exact Hl|]. split; [exact Hh|].
    split; [apply toggle_NoDup; exact He|]. split; [exact Hi | exact Hr].
  - split; [exact Hl|]. split; [exact Hh|].
    split; [|split; [exact Hi | exact Hr]].
    cbn. repeat (constructor; [cbn; intuition discriminate|]). constructor.
  - split; [exact Hl|]. split; [exact Hh|].
    split; [constructor|]. split; [exact Hi | exact Hr].
  - destruct (addToHistory_invariant now suffix result state Hh) as [H1 H2].
    split; [exact H1|]. split; [exact H2|].
    split; [exact He|]. split; [exact Hi | exact Hr].
  - unfold storeInvariant, deleteFromHistory, setHistory.
    cbn [ConjugatorState.history ConjugatorState.expandedCategories
         ConjugatorState.isLoading ConjugatorState.result ConjugatorState.error].
    split; [|split; [|split; [exact He | split; [exact Hi | exact Hr]]]].
    + eapply Nat.le_trans; [apply filter_length_le | exact Hl].
    + clear -Hh. induction (ConjugatorState.history state) as [|e l IH];
        [constructor|].
      cbn [map] in Hh. inversion Hh as [|x xs Hnot Hnd]; subst.
      cbn [filter]. destruct (negb (JS.eqb (HistoryEntry.id e) id));
        [|apply IH; exact Hnd].
      cbn [map]. constructor; [|apply IH; exact Hnd].
      intros Hin. apply Hnot. apply in_map_iff in Hin as [y [Hy Hin]].
      apply filter_In in Hin as [Hin _]. apply in_map_iff. eauto.
  - split; [cbn; lia|]. split; [constructor|].
    split; [exact He|]. split; [exact Hi | exact Hr].
  - unfold restoreFromHistory. apply conjugateAction_invariant.
    split; [exact Hl|]. split; [exact Hh|]. split; [exact He|].
    split; [exact Hi | right; reflexivity].
  - destruct verb as [[|c text]|]; cbn [initFromUrlParams fst]; try exact Inv.
    apply conjugateAction_invariant.
    split; [exact Hl|]. split; [exact Hh|]. split; [exact He|].
    split; [exact Hi | right; reflexivity].
  - split; [exact Hl|]. split; [exact Hh|]. split; [exact He|].
    split; [reflexivity | left; reflexivity].
Qed.

(** X23: the invariant of the store.  After any sequence of the actions
    that change the state, from the initial state that the store
    declares, with any readings of the clock and of the random number
    generator, the history has at most 50 entries, no two of
    them for the same verb; no category is expanded twice; the loading
    flag is down; and a result and an error are never shown together. *)
Theorem store_invariant (actions : list StoreAction) :
  storeInvariant (fold_left (fun state action => perform action state)
                            actions initialState).
Proof.
  assert (H0 : storeInvariant initialState).
  { split; [cbn; lia|]. split; [constructor|].
    split; [repeat constructor; cbn; intuition discriminate|].
    split; [reflexivity | left; reflexivity]. }
  revert H0. generalize initialState.
  induction actions as [|action actions IH]; intros state H; [exact H|].
  cbn [fold_left]. apply IH. apply perform_invariant. exact H.
Qed.

(** ** The store: categories, the conjugate action, the clipboard *)

Lemma existsb_category (expanded : list ConjugationCategory) (c : ConjugationCategory) :
  existsb (fun x => JS.eqb (ConjugationCategory_text x) (ConjugationCategory_text c))
          expanded = true <-> In c expanded.
Proof.
  rewrite existsb_exists. split.
  - intros [x [Hin E]]. apply ConjugationCategory_text_inj in E. subst. exact Hin.
  - intros Hin. exists c. split; [exact Hin | apply jseqb_refl].
Qed.

(** X24: [toggleCategory] flips one category.  When no category is
    expanded twice, toggling a category makes [useIsCategoryExpanded]
    of that category the opposite of what it was and leaves it as it
    was for every other category; so toggling twice restores what is
    expanded. *)
Theorem toggleCategory_flips (category other : ConjugationCategory)
    (state : ConjugatorState.t) :
  NoDup (ConjugatorState.expandedCategories state) ->
  useIsCategoryExpanded category (toggleCategory category state)
  = negb (useIsCategoryExpanded category state)
  /\ (other <> category ->
      useIsCategoryExpanded other (toggleCategory category state)
      = useIsCategoryExpanded other state)
  /\ useIsCategoryExpanded other (toggleCategory category (toggleCategory category state))
     = useIsCategoryExpanded other state.
Proof.
  assert (Step : forall expanded c o,
            NoDup expanded ->
            let expanded' :=
              match indexOf expanded c with
              | Some index => firstn index expanded ++ skipn (S index) expanded
              | None => expanded ++ [c]
              end in
            (In c expanded' <-> ~ In c expanded)
            /\ (o <> c -> (In o expanded' <-> In o expanded))).
  { intros expanded c o Hnd. cbv zeta.
    destruct (indexOf expanded c) as [i|] eqn:E.
    - apply indexOf_Some in E as [b [a [-> [Hb ->]]]].
      pose proof (NoDup_remove_2 _ _ _ Hnd) as Hnot. split.
      + split.
        * intros Hin _. exact (Hnot Hin).
        * intros Hn. exfalso. apply Hn.
          apply in_or_app. right. left. reflexivity.
      + intros Hne. rewrite !in_app_iff. cbn [In]. intuition congruence.
    - apply indexOf_None in E. split.
      + rewrite in_app_iff. cbn [In]. intuition.
      + intros Hne. rewrite in_app_iff. cbn [In]. intuition congruence. }
  assert (B : forall expanded c,
            existsb (fun x => JS.eqb (ConjugationCategory_text x)
                                     (ConjugationCategory_text c)) expanded
            = true <-> In c expanded) by (intros; apply existsb_category).
  assert (Beq : forall (l1 l2 : list ConjugationCategory) c,
            (In c l1 <-> In c l2) ->
            existsb (fun x => JS.eqb (ConjugationCategory_text x)
                                     (ConjugationCategory_text c)) l1
            = existsb (fun x => JS.eqb (ConjugationCategory_text x)
                                       (ConjugationCategory_text c)) l2).
  { intros l1 l2 c H.
    destruct (existsb _ l1) eqn:E1, (existsb _ l2) eqn:E2; try reflexivity.
    - apply B, H, B in E1. congruence.
    - apply B, H, B in E2. congruence. }
  intros Hnd.
  unfold useIsCategoryExpanded, toggleCategory, setExpandedCategories.
  cbn [ConjugatorState.expandedCategories].
  set (expanded := ConjugatorState.expandedCategories state) in *.
  destruct (Step expanded category other Hnd) as [S1 S2].
  destruct (Step expanded category category Hnd) as [S1' _].
  pose proof (toggle_NoDup expanded category Hnd) as Hnd'.
  cbv zeta in S1, S2, S1'.
  set (expanded' := match indexOf expanded category with
                    | Some index => firstn index expanded ++ skipn (S index) expanded
                    | None => expanded ++ [category]
                    end) in *.
  destruct (Step expanded' category other Hnd') as [T1 T2].
  cbv zeta in T1, T2.
  split; [|split].
  - destruct (existsb _ expanded') eqn:E1, (existsb _ expanded) eqn:E2;
      try reflexivity.
    + apply B in E1, E2. apply S1 in E1. contradiction.
    + exfalso. assert (N : ~ In category expanded)
        by (intros H; apply B in H; congruence).
      apply S1 in N. apply B in N. congruence.
  - intros Hne. apply Beq. apply S2. exact Hne.
  - apply Beq.
    assert (D : other = category \/ other <> category).
    { destruct (JS.eqb (ConjugationCategory_text other)
                       (ConjugationCategory_text category)) eqn:E.
      - left. apply ConjugationCategory_text_inj. exact E.
      - right. intros ->. rewrite jseqb_refl in E. discriminate E. }
    destruct D as [-> | Hne].
    + rewrite T1, S1.
      split; [|tauto]. intros H.
      destruct (existsb (fun x => JS.eqb (ConjugationCategory_text x)
                                         (ConjugationCategory_text category))
                        expanded) eqn:E.
      * apply B. exact E.
      * exfalso. apply H. intros Hin. apply B in Hin. congruence.
    + rewrite (T2 Hne), (S2 Hne). reflexivity.
Qed.

Lemma toggleCategory_flips_witness :
  useIsCategoryExpanded polite (toggleCategory polite initialState)
  = negb (useIsCategoryExpanded polite initialState).
Proof.
  apply (toggleCategory_flips polite basic initialState).
  repeat constructor; cbn; intuition discriminate.
Defined.

(** X25: the outcome of the conjugate action.  The input and the
    expanded categories are as before and the loading flag is down.
    When the engine succeeds on the input, the result is shown with no
    error, and the history begins with the entry of the verb, carrying
    the timestamp of the result; when the engine fails, the error is
    shown with no result and the history is as before. *)
Theorem conjugateAction_outcome (now idNow : Z) (suffix : jsstring)
    (state : ConjugatorState.t) :
  let state' := conjugateAction now idNow suffix state in
  ConjugatorState.inputText state' = ConjugatorState.inputText state
  /\ ConjugatorState.expandedCategories state'
     = ConjugatorState.expandedCategories state
  /\ ConjugatorState.isLoading state' = false
  /\ match conjugate now (ConjugatorState.inputText state) with
     | Success r =>
       ConjugatorState.result state' = Some r
       /\ ConjugatorState.error state' = None
       /\ exists entry rest,
            ConjugatorState.history state' = entry :: rest
            /\ HistoryEntry.verb entry
               = JS.trim (ConjugatorState.inputText state)
            /\ HistoryEntry.timestamp entry = now
     | Failure e =>
       ConjugatorState.result state' = None
       /\ ConjugatorState.error state' = Some e
       /\ ConjugatorState.history state' = ConjugatorState.history state
     end.
Proof.
  cbv zeta. unfold conjugateAction.
  destruct (conjugate now (ConjugatorState.inputText state)) as [r|e] eqn:H.
  - repeat (split; [reflexivity|]).
    rewrite addToHistory_history. cbn [ConjugatorState.history].
    change (firstn MAX_HISTORY_ENTRIES (?x :: ?l)) with (x :: firstn 49 l).
    do 2 eexists. split; [reflexivity|].
    destruct (frontEntry_verb idNow suffix r (ConjugatorState.history state))
      as [Hv Ht].
    apply conjugate_Success in H as [Hcl [_ Hnow]].
    apply classifyVerb_inr in Hcl as [_ [_ Hcl]].
    split; [|rewrite Ht; exact Hnow].
    rewrite Hv. destruct Hcl; reflexivity.
  - repeat split.
Qed.

(** ** The romaji converter *)

Lemma table_keys_katakana (table : list (jsstring * jsstring)) :
  forallb (fun kv => isKatakana (fst kv)) table = true ->
  forall k, isKatakana k = false -> JS.lookup table k = None.
Proof.
  intros H k Hk. destruct (JS.lookup table k) as [v|] eqn:E; [|reflexivity].
  apply lookup_Some in E. rewrite forallb_forall in H.
  specialize (H _ E). cbn [fst] in H. congruence.
Qed.

Lemma KATAKANA_TO_ROMAJI_keys (k : jsstring) :
  isKatakana k = false -> JS.lookup KATAKANA_TO_ROMAJI k = None.
Proof. apply table_keys_katakana. vm_compute. reflexivity. Qed.

Lemma KATAKANA_COMBINATIONS_keys (k : jsstring) :
  isKatakana k = false -> JS.lookup KATAKANA_COMBINATIONS k = None.
Proof. apply table_keys_katakana. vm_compute. reflexivity. Qed.

Lemma not_katakana_mark (c : N) (mark : jsstring) :
  isKatakana mark = true -> isKatakana [c] = false -> JS.eqb [c] mark = false.
Proof.
  intros Hm H. destruct (JS.eqb [c] mark) eqn:E; [|reflexivity].
  apply jseqb_eq in E. rewrite E in H. congruence.
Qed.

Lemma hiragana_not_katakana (char : jsstring) :
  isHiragana char = true -> isKatakana char = false.
Proof.
  unfold isHiragana, isKatakana, inRange.
  destruct (JS.charCodeAt0 char) as [code|]; [|reflexivity].
  intros H. apply andb_true_iff in H as [_ H]. apply N.leb_le in H.
  apply andb_false_iff. left. apply N.leb_gt. lia.
Qed.

Lemma toRomajiFrom_hiragana (n : nat) :
  forall text result,
    (List.length text <= n)%nat ->
    Forall (fun c => isKatakana [c] = false) text ->
    toRomajiFrom text result = result ++ hiraganaToRomaji text.
Proof.
  induction n as [|n IH]; intros text result Hn HF.
  - destruct text; [|cbn in Hn; lia]. cbn. rewrite app_nil_r. reflexivity.
  - destruct text as [|c rest]; [cbn; rewrite app_nil_r; reflexivity|].
    inversion HF as [|c' rest0 Hc Hrest]; subst. cbn [List.length] in Hn.
    assert (Hmark : JS.eqb [c] (J "ー") = false)
      by (apply not_katakana_mark; [reflexivity | exact Hc]).
    assert (Htsu : JS.eqb [c] (J "ッ") = false)
      by (apply not_katakana_mark; [reflexivity | exact Hc]).
    assert (Hsingle :
              (if isHiragana [c] then
                 match JS.lookup HIRAGANA_TO_ROMAJI [c] with
                 | Some romaji => romaji
                 | None => [c]
                 end
               else [c])
              = match JS.lookup HIRAGANA_TO_ROMAJI [c] with
                | Some romaji => romaji
                | None => [c]
                end).
    { destruct (isHiragana [c]) eqn:Eh; [reflexivity|].
      rewrite (HIRAGANA_TO_ROMAJI_keys [c] Eh). reflexivity. }
    cbn [toRomajiFrom hiraganaToRomaji].
    rewrite Hc, Hsingle.
    destruct rest as [|next rest'].
    + rewrite Hmark. cbn [toRomajiFrom hiraganaToRomaji].
      rewrite app_nil_r. reflexivity.
    + rewrite Hmark, Htsu.
      assert (Hcombo :
                (if isHiragana [c]
                 then JS.lookup HIRAGANA_COMBINATIONS [c; next]
                 else None)
                = JS.lookup HIRAGANA_COMBINATIONS [c; next]).
      { destruct (isHiragana [c]) eqn:Eh; [reflexivity|].
        symmetry. apply HIRAGANA_COMBINATIONS_keys. exact Eh. }
      rewrite Hcombo.
      assert (IH1 : forall result,
                 toRomajiFrom (next :: rest') result
                 = result ++ hiraganaToRomaji (next :: rest'))
        by (intros; apply IH; [cbn [List.length] in Hn |- *; lia | exact Hrest]).
      assert (IH2 : forall result,
                 toRomajiFrom rest' result = result ++ hiraganaToRomaji rest').
      { intros; apply IH; [cbn [List.length] in Hn |- *; lia|].
        inversion Hrest; assumption. }
      destruct (JS.eqb [c] (J "っ")).
      * destruct rest' as [|d rest''].
        -- rewrite IH1, <- app_assoc. reflexivity.
        -- destruct (JS.lookup HIRAGANA_COMBINATIONS [next; d]) as [[|r0 r]|];
             rewrite IH1, <- app_assoc; reflexivity.
      * destruct (JS.lookup HIRAGANA_COMBINATIONS [c; next]) as [[|r0 r]|].
        -- rewrite IH1, <- app_assoc. reflexivity.
        -- rewrite IH2, <- app_assoc. reflexivity.
        -- rewrite IH1, <- app_assoc. reflexivity.
Qed.

(** X26: on text without katakana, [toRomaji] is [hiraganaToRomaji].
    For every text none of whose characters is in the katakana block
    (hiragana, kanji, Latin letters, punctuation), the two converters
    give the same romaji. *)
Theorem toRomaji_without_katakana (text : jsstring) :
  Forall (fun c => isKatakana [c] = false) text ->
  toRomaji text = hiraganaToRomaji text.
Proof.
  intros H. unfold toRomaji.
  rewrite (toRomajiFrom_hiragana (List.length text) text [] (le_n _) H).
  reflexivity.
Qed.

Lemma toRomaji_without_katakana_witness :
  toRomaji (J "勉強がっこうしゃ") = hiraganaToRomaji (J "勉強がっこうしゃ").
Proof.
  apply (toRomaji_without_katakana (J "勉強がっこうしゃ")).
  vm_compute. repeat constructor.
Defined.

Lemma toRomajiFrom_katakana (n : nat) :
  forall text result,
    (List.length text <= n)%nat ->
    Forall (fun c => isHiragana [c] = false) text ->
    toRomajiFrom text result = katakanaToRomajiFrom text result.
Proof.
  induction n as [|n IH]; intros text result Hn HF.
  - destruct text; [|cbn in Hn; lia]. reflexivity.
  - destruct text as [|c rest]; [reflexivity|].
    inversion HF as [|c' rest0 Hc Hrest]; subst. cbn [List.length] in Hn.
    assert (Hsingle :
              (if isKatakana [c] then
                 match JS.lookup KATAKANA_TO_ROMAJI [c] with
                 | Some romaji => romaji
                 | None => [c]
                 end
               else [c])
              = match JS.lookup KATAKANA_TO_ROMAJI [c] with
                | Some romaji => romaji
                | None => [c]
                end).
    { destruct (isKatakana [c]) eqn:Ek; [reflexivity|].
      rewrite (KATAKANA_TO_ROMAJI_keys [c] Ek). reflexivity. }
    cbn [toRomajiFrom katakanaToRomajiFrom].
    rewrite Hc, Hsingle.
    destruct rest as [|next rest'].
    + destruct (JS.eqb [c] (J "ー")); apply IH;
        solve [cbn [List.length]; lia | constructor].
    + rewrite (small_tsu_hiragana c Hc).
      assert (Hcombo :
                (if isKatakana [c]
                 then JS.lookup KATAKANA_COMBINATIONS [c; next]
                 else None)
                = JS.lookup KATAKANA_COMBINATIONS [c; next]).
      { destruct (isKatakana [c]) eqn:Ek; [reflexivity|].
        symmetry. apply KATAKANA_COMBINATIONS_keys. exact Ek. }
      rewrite Hcombo.
      assert (IH1 : forall result,
                 toRomajiFrom (next :: rest') result
                 = katakanaToRomajiFrom (next :: rest') result)
        by (intros; apply IH; [cbn [List.length] in Hn |- *; lia | exact Hrest]).
      assert (IH2 : forall result,
                 toRomajiFrom rest' result = katakanaToRomajiFrom rest' result).
      { intros; apply IH; [cbn [List.length] in Hn |- *; lia|].
        inversion Hrest; assumption. }
      destruct (JS.eqb [c] (J "ッ")).
      * destruct rest' as [|d rest''].
        -- apply IH1.
        -- destruct (JS.lookup KATAKANA_COMBINATIONS [next; d]) as [[|r0 r]|];
             apply IH1.
      * destruct (JS.eqb [c] (J "ー")); [apply IH1|].
        destruct (JS.lookup KATAKANA_COMBINATIONS [c; next]) as [[|r0 r]|];
          [apply IH1 | apply IH2 | apply IH1].
Qed.

(** X27: on text without hiragana, [toRomaji] is [katakanaToRomaji].
    For every text none of whose characters is in the hiragana block,
    the two converters give the same romaji, long vowel marks and
    doubled consonants included. *)
Theorem toRomaji_without_hiragana (text : jsstring) :
  Forall (fun c => isHiragana [c] = false) text ->
  toRomaji text = katakanaToRomaji text.
Proof.
  intros H. unfold toRomaji, katakanaToRomaji.
  apply (toRomajiFrom_katakana (List.length text)); [apply le_n | exact H].
Qed.

Lemma toRomaji_without_hiragana_witness :
  toRomaji (J "サッカー OK チャット") = katakanaToRomaji (J "サッカー OK チャット").
Proof.
  apply (toRomaji_without_hiragana (J "サッカー OK チャット")).
  vm_compute. repeat constructor.
Defined.

Lemma kanaKey_false (c : N) :
  kanaKey c = false ->
  JS.lookup HIRAGANA_TO_ROMAJI [c] = None /\ JS.lookup KATAKANA_TO_ROMAJI [c] = None.
Proof.
  unfold kanaKey.
  destruct (JS.lookup HIRAGANA_TO_ROMAJI [c]), (JS.lookup KATAKANA_TO_ROMAJI [c]);
    intros H; try discriminate H; split; reflexivity.
Qed.

Lemma not_kanaKey_mark (c : N) (mark : N) :
  kanaKey mark = true -> kanaKey c = false -> JS.eqb [c] [mark] = false.
Proof.
  intros Hm H. destruct (JS.eqb [c] [mark]) eqn:E; [|reflexivity].
  apply jseqb_eq in E. injection E as ->. congruence.
Qed.

Lemma table_keys_start (table : list (jsstring * jsstring)) :
  forallb (fun kv => match fst kv with c :: _ => kanaKey c | [] => false end)
          table = true ->
  forall c k, kanaKey c = false -> JS.lookup table (c :: k) = None.
Proof.
  intros H c k Hc. destruct (JS.lookup table (c :: k)) as [v|] eqn:E; [|reflexivity].
  apply lookup_Some in E. rewrite forallb_forall in H.
  specialize (H _ E). cbn [fst] in H. congruence.
Qed.

Lemma table_values_inert (table : list (jsstring * jsstring)) :
  forallb (fun kv => forallb (fun c => negb (kanaKey c)) (snd kv)) table = true ->
  forall k v, JS.lookup table k = Some v -> Forall (fun c => kanaKey c = false) v.
Proof.
  intros H k v E. apply lookup_Some in E. rewrite forallb_forall in H.
  specialize (H _ E). cbn [snd] in H. rewrite forallb_forall in H.
  apply Forall_forall. intros c Hin. apply negb_true_iff. apply H. exact Hin.
Qed.

Lemma HIRAGANA_TO_ROMAJI_values (k v : jsstring) :
  JS.lookup HIRAGANA_TO_ROMAJI k = Some v -> Forall (fun c => kanaKey c = false) v.
Proof. apply table_values_inert. vm_compute. reflexivity. Qed.

Lemma KATAKANA_TO_ROMAJI_values (k v : jsstring) :
  JS.lookup KATAKANA_TO_ROMAJI k = Some v -> Forall (fun c => kanaKey c = false) v.
Proof. apply table_values_inert. vm_compute. reflexivity. Qed.

Lemma HIRAGANA_COMBINATIONS_values (k v : jsstring) :
  JS.lookup HIRAGANA_COMBINATIONS k = Some v -> Forall (fun c => kanaKey c = false) v.
Proof. apply table_values_inert. vm_compute. reflexivity. Qed.

Lemma KATAKANA_COMBINATIONS_values (k v : jsstring) :
  JS.lookup KATAKANA_COMBINATIONS k = Some v -> Forall (fun c => kanaKey c = false) v.
Proof. apply table_values_inert. vm_compute. reflexivity. Qed.

Lemma katakana_not_hiragana (char : jsstring) :
  isKatakana char = true -> isHiragana char = false.
Proof.
  intros H. destruct (isHiragana char) eqn:E; [|reflexivity].
  apply hiragana_not_katakana in E. congruence.
Qed.

Lemma getLastVowel_inert (result : jsstring) :
  Forall (fun c => kanaKey c = false) result ->
  Forall (fun c => kanaKey c = false) (getLastVowel result).
Proof.
  intros H. unfold getLastVowel.
  destruct (find _ (rev result)) as [c|] eqn:E; [|constructor].
  apply find_some in E as [Hin _]. apply in_rev in Hin.
  rewrite Forall_forall in H. constructor; [apply H; exact Hin | constructor].
Qed.

Lemma toRomajiFrom_inert_text (text : jsstring) :
  forall result,
    Forall (fun c => kanaKey c = false) text ->
    toRomajiFrom text result = result ++ text.
Proof.
  induction text as [|c rest IH]; intros result HF.
  - cbn. rewrite app_nil_r. reflexivity.
  - inversion HF as [|c' rest0 Hc Hrest]; subst.
    destruct (kanaKey_false c Hc) as [Hh Hk].
    assert (Hmark : JS.eqb [c] (J "ー") = false)
      by (apply (not_kanaKey_mark c 12540); [reflexivity | exact Hc]).
    assert (Htsu : JS.eqb [c] (J "ッ") = false)
      by (apply (not_kanaKey_mark c 12483); [reflexivity | exact Hc]).
    assert (Htsu' : JS.eqb [c] (J "っ") = false)
      by (apply (not_kanaKey_mark c 12387); [reflexivity | exact Hc]).
    cbn [toRomajiFrom]. rewrite Hh, Hk.
    destruct rest as [|next rest'].
    + rewrite Hmark. cbn [toRomajiFrom].
      destruct (isHiragana [c]), (isKatakana [c]); reflexivity.
    + rewrite Hmark, Htsu, Htsu'.
      rewrite (table_keys_start HIRAGANA_COMBINATIONS eq_refl c [next] Hc).
      rewrite (table_keys_start KATAKANA_COMBINATIONS eq_refl c [next] Hc).
      destruct (isHiragana [c]), (isKatakana [c]);
        rewrite (IH _ Hrest), <- app_assoc; reflexivity.
Qed.

Lemma toRomajiFrom_inert_result (n : nat) :
  forall text result,
    (List.length text <= n)%nat ->
    Forall (fun c => kanaKey c = false) result ->
    Forall (fun c => kanaKey c = false) (toRomajiFrom text result).
Proof.
  induction n as [|n IH]; intros text result Hn HF.
  - destruct text; [|cbn in Hn; lia]. exact HF.
  - destruct text as [|c rest]; [exact HF|].
    cbn [List.length] in Hn.
    assert (Hsingle :
              Forall (fun c => kanaKey c = false)
                (if isHiragana [c] then
                   match JS.lookup HIRAGANA_TO_ROMAJI [c] with
                   | Some romaji => romaji
                   | None => [c]
                   end
                 else if isKatakana [c] then
                   match JS.lookup KATAKANA_TO_ROMAJI [c] with
                   | Some romaji => romaji
                   | None => [c]
                   end
                 else [c])).
    { destruct (isHiragana [c]) eqn:Eh.
      - destruct (JS.lookup HIRAGANA_TO_ROMAJI [c]) as [romaji|] eqn:E.
        + exact (HIRAGANA_TO_ROMAJI_values _ _ E).
        + constructor; [|constructor]. unfold kanaKey. rewrite E.
          rewrite (KATAKANA_TO_ROMAJI_keys [c] (hiragana_not_katakana _ Eh)).
          reflexivity.
      - destruct (isKatakana [c]) eqn:Ek.
        + destruct (JS.lookup KATAKANA_TO_ROMAJI [c]) as [romaji|] eqn:E.
          * exact (KATAKANA_TO_ROMAJI_values _ _ E).
          * constructor; [|constructor]. unfold kanaKey. rewrite E.
            rewrite (HIRAGANA_TO_ROMAJI_keys [c] Eh). reflexivity.
        + constructor; [|constructor]. unfold kanaKey.
          rewrite (HIRAGANA_TO_ROMAJI_keys [c] Eh),
                  (KATAKANA_TO_ROMAJI_keys [c] Ek). reflexivity. }
    assert (Hhead : forall (table : list (jsstring * jsstring)) k r0 r,
               (forall k v, JS.lookup table k = Some v ->
                            Forall (fun c => kanaKey c = false) v) ->
               JS.lookup table k = Some (r0 :: r) ->
               Forall (fun c => kanaKey c = false) [r0]).
    { intros table k r0 r Hv E. specialize (Hv _ _ E).
      inversion Hv; subst. constructor; [assumption | constructor]. }
    assert (Step : forall rest0 extra,
               (List.length rest0 <= n)%nat ->
               Forall (fun c => kanaKey c = false) extra ->
               Forall (fun c => kanaKey c = false)
                      (toRomajiFrom rest0 (result ++ extra))).
    { intros rest0 extra Hl He. apply IH; [exact Hl|].
      apply Forall_app. split; assumption. }
    cbn [toRomajiFrom].
    destruct rest as [|next rest'].
    + destruct (JS.eqb [c] (J "ー")).
      * apply Step; [cbn; lia | apply getLastVowel_inert; exact HF].
      * apply Step; [cbn; lia | exact Hsingle].
    + cbn [List.length] in Hn.
      assert (L1 : (List.length (next :: rest') <= n)%nat) by (cbn [List.length]; lia).
      assert (L2 : (List.length rest' <= n)%nat) by lia.
      assert (FromNextH :
                Forall (fun c => kanaKey c = false)
                  match JS.lookup HIRAGANA_TO_ROMAJI [next] with
                  | Some (r0 :: _) => [r0]
                  | _ => []
                  end).
      { destruct (JS.lookup HIRAGANA_TO_ROMAJI [next]) as [[|r0 r]|] eqn:E;
          try constructor.
        - pose proof (HIRAGANA_TO_ROMAJI_values _ _ E) as Hv.
          inversion Hv; assumption.
        - constructor. }
      assert (FromNextK :
                Forall (fun c => kanaKey c = false)
                  match JS.lookup KATAKANA_TO_ROMAJI [next] with
                  | Some (r0 :: _) => [r0]
                  | _ => []
                  end).
      { destruct (JS.lookup KATAKANA_TO_ROMAJI [next]) as [[|r0 r]|] eqn:E;
          try constructor.
        - pose proof (KATAKANA_TO_ROMAJI_values _ _ E) as Hv.
          inversion Hv; assumption.
        - constructor. }
      destruct (JS.eqb [c] (J "っ")).
      { destruct rest' as [|d rest''].
        - apply Step; assumption.
        - destruct (JS.lookup HIRAGANA_COMBINATIONS [next; d]) as [[|r0 r]|] eqn:E;
            apply Step; try assumption.
          exact (Hhead _ _ _ _ HIRAGANA_COMBINATIONS_values E). }
      destruct (JS.eqb [c] (J "ッ")).
      { destruct rest' as [|d rest''].
        - apply Step; assumption.
        - destruct (JS.lookup KATAKANA_COMBINATIONS [next; d]) as [[|r0 r]|] eqn:E;
            apply Step; try assumption.
          exact (Hhead _ _ _ _ KATAKANA_COMBINATIONS_values E). }
      destruct (JS.eqb [c] (J "ー")).
      { apply Step; [assumption | apply getLastVowel_inert; exact HF]. }
      destruct (if isHiragana [c]
                then JS.lookup HIRAGANA_COMBINATIONS [c; next]
                else None) as [[|r0 r]|] eqn:E1.
      2:{ apply Step; [assumption|].
          destruct (isHiragana [c]); [|discriminate E1].
          exact (HIRAGANA_COMBINATIONS_values _ _ E1). }
      all: destruct (if isKatakana [c]
                     then JS.lookup KATAKANA_COMBINATIONS [c; next]
                     else None) as [[|r0' r']|] eqn:E2;
        apply Step; try assumption;
        destruct (isKatakana [c]); try discriminate E2;
        exact (KATAKANA_COMBINATIONS_values _ _ E2).
Qed.

(** X28: [toRomaji] leaves no convertible kana behind and is idempotent.
    No character of the romaji it returns has an entry in the hiragana
    or the katakana table (the small tsu and the long vowel mark
    included), and converting the romaji again changes nothing. *)
Theorem toRomaji_idempotent (text : jsstring) :
  Forall (fun c => kanaKey c = false) (toRomaji text)
  /\ toRomaji (toRomaji text) = toRomaji text.
Proof.
  assert (H : Forall (fun c => kanaKey c = false) (toRomaji text))
    by (apply (toRomajiFrom_inert_result (List.length text));
        [apply le_n | constructor]).
  split; [exact H|].
  unfold toRomaji at 1. rewrite (toRomajiFrom_inert_text _ [] H). reflexivity.
Qed.

Lemma mapGet_mapSet (m : list (ConjugationCategory * list ConjugationForm.t))
    (k k' : ConjugationCategory) (v : list ConjugationForm.t) :
  mapGet (mapSet m k v) k'
  = if JS.eqb (ConjugationCategory_text k) (ConjugationCategory_text k')
    then Some v else mapGet m k'.
Proof.
  unfold mapGet. induction m as [|[k0 v0] m IH].
  - cbn [mapSet find fst option_map snd].
    destruct (JS.eqb (ConjugationCategory_text k) (ConjugationCategory_text k'));
      reflexivity.
  - cbn [mapSet].
    destruct (JS.eqb (ConjugationCategory_text k0) (ConjugationCategory_text k)) eqn:E0.
    + apply ConjugationCategory_text_inj in E0. subst k0.
      cbn [find fst].
      destruct (JS.eqb (ConjugationCategory_text k) (ConjugationCategory_text k'));
        reflexivity.
    + cbn [find fst].
      destruct (JS.eqb (ConjugationCategory_text k0) (ConjugationCategory_text k')) eqn:E1.
      * destruct (JS.eqb (ConjugationCategory_text k) (ConjugationCategory_text k')) eqn:E2;
          [|reflexivity].
        apply ConjugationCategory_text_inj in E1, E2. subst.
        rewrite jseqb_refl in E0. discriminate E0.
      * exact IH.
Qed.

Lemma grouped_forms (forms : list ConjugationForm.t) :
  forall (m : list (ConjugationCategory * list ConjugationForm.t))
         (category : ConjugationCategory),
    match mapGet
            (fold_left
               (fun formsByCategory form =>
                  let existing :=
                    match mapGet formsByCategory (ConjugationForm.category form) with
                    | Some forms => forms
                    | None => []
                    end in
                  mapSet formsByCategory (ConjugationForm.category form)
                         (existing ++ [form]))
               forms m)
            category with
    | Some group => group
    | None => []
    end
    = match mapGet m category with Some group => group | None => [] end
      ++ filter (fun form =>
                   JS.eqb (ConjugationCategory_text (ConjugationForm.category form))
                          (ConjugationCategory_text category)) forms.
Proof.
  induction forms as [|form forms IH]; intros m category.
  - cbn [fold_left filter]. rewrite app_nil_r. reflexivity.
  - cbn [fold_left filter]. rewrite IH. cbv zeta. rewrite mapGet_mapSet.
    destruct (JS.eqb (ConjugationCategory_text (ConjugationForm.category form))
                     (ConjugationCategory_text category)) eqn:E.
    + apply ConjugationCategory_text_inj in E. rewrite E.
      rewrite <- app_assoc. reflexivity.
    + reflexivity.
Qed.

Lemma fold_left_blocks (A : Type) (block : A -> list jsstring) (items : list A) :
  forall (f : list jsstring -> A -> list jsstring) (lines : list jsstring),
    (forall lines item, f lines item = lines ++ block item) ->
    fold_left f items lines = lines ++ flat_map block items.
Proof.
  induction items as [|item items IH]; intros f lines Hf.
  - cbn. rewrite app_nil_r. reflexivity.
  - cbn [fold_left flat_map]. rewrite (IH f _ Hf), Hf, <- app_assoc. reflexivity.
Qed.

(** X29: the clipboard text groups the forms by category.  After the
    three header lines and an empty line, the text has one block for
    each category of [ALL_CONJUGATION_CATEGORIES], in that order, that
    has a form in the result: the heading with the name in capitals,
    the forms of that category in the order of the result, one line
    each, and an empty line.  A category without a form has no block,
    so every form is on exactly one line. *)
Theorem clipboard_groups_by_category (result : ConjugationResult.t) :
  let verb := ConjugationResult.verb result in
  formatFormsForClipboard result
  = joinLines
      ([ VerbInfo.dictionaryForm verb ++ J " (" ++ VerbInfo.romaji verb ++ J ")";
         J "Type: " ++ VerbType_text (VerbInfo.type verb);
         J "Stem: " ++ VerbInfo.stem verb;
         [] ]
       ++ flat_map (categoryBlock (ConjugationResult.forms result))
                   ALL_CONJUGATION_CATEGORIES).
Proof.
  cbv zeta. unfold formatFormsForClipboard, clipboardLines. cbv zeta.
  f_equal.
  apply fold_left_blocks. intros lines category.
  pose proof (grouped_forms (ConjugationResult.forms result) [] category) as G.
  cbn [mapGet find option_map app] in G.
  unfold categoryBlock. rewrite <- G.
  destruct (mapGet _ category) as [[|form forms]|].
  - rewrite app_nil_r. reflexivity.
  - rewrite <- !app_assoc. reflexivity.
  - rewrite app_nil_r. reflexivity.
Qed.

(** ** Serialisation *)

Lemma deserialize_serialized (r : ConjugationResult.t) (json : jsstring) :
  serializeResult r = Some json ->
  exists parsed, deserializeResult json = inr parsed /\ readResult parsed = Some r.
Proof.
  destruct r as [verb forms timestamp]. intros E.
  unfold serializeResult in E. cbv zeta in E.
  cbn [ConjugationResult.verb ConjugationResult.forms ConjugationResult.timestamp] in E.
  pose proof (parse_stringify _ _ E) as Hp.
  rewrite settle_serializable in Hp.
  eexists. split.
  - unfold deserializeResult. rewrite Hp. reflexivity.
  - unfold readResult.
    change (JSON.getProp _ (J "verb")) with (settle (VerbInfo_value verb)).
    rewrite readVerbInfo_settle.
    change (JSON.getProp _ (J "forms")) with (JArray (map ConjugationForm_value forms)).
    cbn [readForms]. rewrite readAll_forms. reflexivity.
Qed.

Lemma serializeResult_defined (r : ConjugationResult.t) :
  exists json, serializeResult r = Some json.
Proof.
  destruct (serializeResult r) as [json|] eqn:E; [exists json; reflexivity|].
  destruct r as [verb forms timestamp]. discriminate E.
Qed.

(** X30: [serializeResult] loses nothing on results whose timestamps
    are safe integers, which is what the clock gives (the numbers that
    JSON writes as [null] or in exponent form are outside the numbers of
    the model).  It gives a text for every such result, and two such
    results have the same text only when they are the same result: the
    same verb information, forms and timestamp. *)
Theorem serializeResult_injective (a b : ConjugationResult.t) :
  isSafeInteger (ConjugationResult.timestamp a) = true ->
  isSafeInteger (ConjugationResult.timestamp b) = true ->
  (exists json, serializeResult a = Some json)
  /\ (serializeResult a = serializeResult b <-> a = b).
Proof.
  intros _ _.
  split; [apply serializeResult_defined|].
  split; [|intros ->; reflexivity].
  intros H. destruct (serializeResult_defined a) as [json Ea].
  assert (Eb : serializeResult b = Some json) by (rewrite <- H; exact Ea).
  destruct (deserialize_serialized a json Ea) as [pa [Da Ra]].
  destruct (deserialize_serialized b json Eb) as [pb [Db Rb]].
  rewrite Da in Db. injection Db as <-. rewrite Ra in Rb.
  injection Rb as <-. reflexivity.
Qed.

Lemma serializeResult_injective_witness :
  (exists json,
     serializeResult
       (ConjugationResult.mk
          (VerbInfo.mk (J "見る") (J "見る") (J "見ru") ichidan (J "見") (J "る") None None)
          [] 1700000000000%Z) = Some json)
  /\ (serializeResult
        (ConjugationResult.mk
           (VerbInfo.mk (J "見る") (J "見る") (J "見ru") ichidan (J "見") (J "る") None None)
           [] 1700000000000%Z)
      = serializeResult
          (ConjugationResult.mk
             (VerbInfo.mk (J "見る") (J "見る") (J "見ru") ichidan (J "見") (J "る") None None)
             [] 1700000000001%Z)
      <-> ConjugationResult.mk
            (VerbInfo.mk (J "見る") (J "見る") (J "見ru") ichidan (J "見") (J "る") None None)
            [] 1700000000000%Z
          = ConjugationResult.mk
              (VerbInfo.mk (J "見る") (J "見る") (J "見ru") ichidan (J "見") (J "る") None None)
              [] 1700000000001%Z).
Proof.
  apply serializeResult_injective; reflexivity.
Defined.
